(** * Session Performance Analyzer: the data-fusion pipeline

    A shallow embedding of the CSV parsers, the session fuser, the report
    statistics and the CSV export of the React component [SessionAnalyzer]
    (src/src/components/SessionAnalyzer.tsx) and of the two sibling versions
    of the same component that the repository also carries
    (src/unnamed/part_006 and src/unnamed/part_007), and of what stands
    around them in the component: the trend view, the demo data, the
    upload handlers and the state that they share.

    Conventions of the embedding.
    - JavaScript strings are [string]s of 8-bit code units; the text
      handled by the parsers is taken to be ASCII (code units above 127
      are neither white space nor letters here).
    - JavaScript numbers are [num]: rationals extended with [NaN],
      [+Infinity] and [-Infinity].  The embedding has two readings of
      the arithmetic.  In the modules [JS], [Main], [V6] and [V7] every
      finite value is the exact rational that the source expression
      denotes; this ideal arithmetic serves the properties that only
      compare numbers, count records or bound values.  The module
      [Binary64] computes as the code does, in IEEE-754 binary64: a
      literal and the result of every operation is the nearest binary64
      number, the even one on a tie, with overflow to the infinities
      and underflow through the subnormal numbers to zero; the
      properties that pin a computed value are stated there.  The
      signed zero is not represented (the component never divides by a
      computed value).
    - An array is a [list]; [Map<string, _>] is a [gmap string _].
    - A thrown [Error] is the [Throw] case of [result]; the thrown error
      carries its message, and the constructor records which of the three
      [throw] statements of a parser raised it.
    - [console.log], [console.warn] and [console.error] have no effect on
      the values computed and are left out.
    - The state of the component is a record, and a handler is a function
      from state to state; the callbacks of a [FileReader] are events of
      their own.  What the host decides ([Math.random], [Math.pow],
      [Math.exp], the date parser) is a parameter. *)

From Stdlib Require Import Ascii String QArith Qround Qreduction Qabs Qpower
  Lia Lqa.
From stdpp Require Import gmap strings list fin_maps sorting.

Local Open Scope Z_scope.

(** ** The JavaScript built-ins used by the component *)

Module JS.

(** *** Strings *)

Definition dquote : ascii := "034"%char.
Definition squote : ascii := "039"%char.
Definition LF : ascii := "010"%char.
Definition comma : ascii := ","%char.

(** White space and line terminators of [String.prototype.trim] in the
    ASCII range: TAB, LF, VT, FF, CR and SPACE. *)
Definition is_space (c : ascii) : bool :=
  let n := nat_of_ascii c in
  ((9 <=? n)%nat && (n <=? 13)%nat) || (n =? 32)%nat.

Definition is_digit (c : ascii) : bool :=
  let n := nat_of_ascii c in (48 <=? n)%nat && (n <=? 57)%nat.

Definition is_quote (c : ascii) : bool :=
  Ascii.eqb c dquote || Ascii.eqb c squote.

Definition isEmpty (s : string) : bool :=
  match s with EmptyString => true | String _ _ => false end.

Fixpoint trimStart (s : string) : string :=
  match s with
  | EmptyString => EmptyString
  | String c s' => if is_space c then trimStart s' else s
  end.

Fixpoint trimEnd (s : string) : string :=
  match s with
  | EmptyString => EmptyString
  | String c s' =>
      let t := trimEnd s' in
      if is_space c && isEmpty t then EmptyString else String c t
  end.

(** [s.trim()] *)
Definition trim (s : string) : string := trimEnd (trimStart s).

(** [s.split(sep)] for a one-character separator: never the empty list. *)
Fixpoint split (sep : ascii) (s : string) : list string :=
  match s with
  | EmptyString => [EmptyString]
  | String c s' =>
      if Ascii.eqb c sep then EmptyString :: split sep s'
      else match split sep s' with
           | w :: ws => String c w :: ws
           | [] => [String c EmptyString]
           end
  end.

(** [l.join(sep)] *)
Fixpoint join (sep : string) (l : list string) : string :=
  match l with
  | [] => EmptyString
  | [x] => x
  | x :: rest => (x ++ sep ++ join sep rest)%string
  end.

Definition lower_char (c : ascii) : ascii :=
  let n := nat_of_ascii c in
  if (65 <=? n)%nat && (n <=? 90)%nat then ascii_of_nat (n + 32) else c.

(** [s.toLowerCase()] *)
Fixpoint toLowerCase (s : string) : string :=
  match s with
  | EmptyString => EmptyString
  | String c s' => String (lower_char c) (toLowerCase s')
  end.

Fixpoint startsWith (p s : string) : bool :=
  match p, s with
  | EmptyString, _ => true
  | String a p', String b s' => Ascii.eqb a b && startsWith p' s'
  | String _ _, EmptyString => false
  end.

(** [s.includes(sub)] *)
Fixpoint includes (s sub : string) : bool :=
  startsWith sub s ||
  match s with
  | EmptyString => false
  | String _ s' => includes s' sub
  end.

Definition dropLeadingQuote (s : string) : string :=
  match s with
  | String c s' => if is_quote c then s' else s
  | EmptyString => EmptyString
  end.

Fixpoint dropTrailingQuote (s : string) : string :=
  match s with
  | EmptyString => EmptyString
  | String c EmptyString => if is_quote c then EmptyString else s
  | String c s' => String c (dropTrailingQuote s')
  end.

(** [s.replace(re, '')] for the global regular expression of the parsers,
    which matches a double or single quote at the start of the string or
    at its end: one quote character is removed at the start, and one at
    the end of what is left. *)
Definition stripQuotes (s : string) : string :=
  dropTrailingQuote (dropLeadingQuote s).

(** *** Arrays *)

(** [l.findIndex(p)], with the source's [-1] for "no such element". *)
Fixpoint findIndex {A} (p : A -> bool) (l : list A) : Z :=
  match l with
  | [] => -1
  | x :: l' =>
      if p x then 0
      else let i := findIndex p l' in if i <? 0 then -1 else i + 1
  end.

(** [l[i]]: [None] is JavaScript's [undefined]. *)
Definition at_ {A} (l : list A) (i : Z) : option A :=
  if i <? 0 then None else l !! Z.to_nat i.

(** [l.slice(i, j)] and [l.slice(i)] for indices in [0 ..]. *)
Definition slice {A} (l : list A) (i j : nat) : list A :=
  take (j - i) (drop i l).
Definition sliceFrom {A} (l : list A) (i : nat) : list A := drop i l.

(** *** Numbers *)

Inductive num : Type :=
| NaN
| Inf (negative : bool)
| Fin (q : Q).

(** Finite results are kept in lowest terms, so that equal values are
    equal terms. *)
Definition fin (q : Q) : num := Fin (Qred q).
Definition ofZ (z : Z) : num := Fin (inject_Z z).
Definition ofNat (n : nat) : num := ofZ (Z.of_nat n).

Definition isNaN (x : num) : bool :=
  match x with NaN => true | _ => false end.

Definition Qis0 (q : Q) : bool := Qnum q =? 0.
Definition Qneg (q : Q) : bool := Qnum q <? 0.

(** [-x] *)
Definition neg (x : num) : num :=
  match x with
  | NaN => NaN
  | Inf s => Inf (negb s)
  | Fin q => fin (- q)
  end.

(** [x + y] *)
Definition add (x y : num) : num :=
  match x, y with
  | NaN, _ | _, NaN => NaN
  | Inf s, Inf t => if Bool.eqb s t then Inf s else NaN
  | Inf s, Fin _ | Fin _, Inf s => Inf s
  | Fin a, Fin b => fin (a + b)
  end.

(** [x - y] *)
Definition sub (x y : num) : num := add x (neg y).

(** [x * y] *)
Definition mul (x y : num) : num :=
  match x, y with
  | NaN, _ | _, NaN => NaN
  | Inf s, Inf t => Inf (xorb s t)
  | Inf s, Fin q | Fin q, Inf s => if Qis0 q then NaN else Inf (xorb s (Qneg q))
  | Fin a, Fin b => fin (a * b)
  end.

(** [x / y]; a zero divisor is the positive zero. *)
Definition div (x y : num) : num :=
  match x, y with
  | NaN, _ | _, NaN => NaN
  | Inf _, Inf _ => NaN
  | Inf s, Fin q => Inf (xorb s (Qneg q))
  | Fin _, Inf _ => Fin 0
  | Fin a, Fin b =>
      if Qis0 b then (if Qis0 a then NaN else Inf (Qneg a))
      else fin (a / b)
  end.

(** [x < y]; every comparison with [NaN] is false. *)
Definition lt (x y : num) : bool :=
  match x, y with
  | NaN, _ | _, NaN => false
  | Inf s, Inf t => s && negb t
  | Inf s, Fin _ => s
  | Fin _, Inf t => negb t
  | Fin a, Fin b => match (a ?= b)%Q with Lt => true | _ => false end
  end.

(** [x == y] on numbers *)
Definition eqn (x y : num) : bool :=
  match x, y with
  | NaN, _ | _, NaN => false
  | Inf s, Inf t => Bool.eqb s t
  | Fin a, Fin b => Qeq_bool a b
  | _, _ => false
  end.

Definition gt (x y : num) : bool := lt y x.
Definition le (x y : num) : bool := lt x y || eqn x y.

(** Truthiness of a number: [0] and [NaN] are falsy. *)
Definition truthy (x : num) : bool :=
  match x with
  | NaN => false
  | Inf _ => true
  | Fin q => negb (Qis0 q)
  end.

(** [x || y] on numbers *)
Definition orElse (x y : num) : num := if truthy x then x else y.

(** [Math.floor(x)] *)
Definition floor (x : num) : num :=
  match x with
  | Fin q => ofZ (Qfloor q)
  | _ => x
  end.

(** *** Decimal literals *)

Definition digit_val (c : ascii) : N := N.of_nat (nat_of_ascii c - 48).

(** The value of a string of decimal digits, most significant first. *)
Fixpoint digits_val (acc : N) (s : string) : N :=
  match s with
  | EmptyString => acc
  | String c s' => digits_val (10 * acc + digit_val c)%N s'
  end.

(** The longest prefix of decimal digits, and what follows it. *)
Fixpoint span_digits (s : string) : string * string :=
  match s with
  | EmptyString => (EmptyString, EmptyString)
  | String c s' =>
      if is_digit c then
        let '(d, r) := span_digits s' in (String c d, r)
      else (EmptyString, s)
  end.

Fixpoint dropChars (n : nat) (s : string) : string :=
  match n, s with
  | O, _ => s
  | S n', String _ s' => dropChars n' s'
  | S _, EmptyString => EmptyString
  end.

Definition pow10 (e : Z) : Q := Qpower 10 e.

(** ExponentPart: [e] or [E], an optional sign and at least one digit.
    When the text is no exponent part, the exponent is 0 and nothing is
    consumed. *)
Definition scanExponent (s : string) : Z * string :=
  match s with
  | String c s1 =>
      if Ascii.eqb c "e" || Ascii.eqb c "E" then
        let '(sign, s2) :=
          match s1 with
          | String "+" r => (1, r)
          | String "-" r => (-1, r)
          | _ => (1, s1)
          end in
        let '(ds, rest) := span_digits s2 in
        if isEmpty ds then (0, s)
        else (sign * Z.of_N (digits_val 0 ds), rest)
      else (0, s)
  | EmptyString => (0, s)
  end.

(** StrUnsignedDecimalLiteral without [Infinity]: digits, an optional
    fraction, an optional exponent; at least one digit before the
    exponent. *)
Definition scanUnsigned (s : string) : option (Q * string) :=
  let '(ip, r1) := span_digits s in
  let '(fp, r2) :=
    match r1 with
    | String "." r => span_digits r
    | _ => (EmptyString, r1)
    end in
  if isEmpty ip && isEmpty fp then None
  else
    let '(e, r3) := scanExponent r2 in
    let m := Z.of_N (digits_val (digits_val 0 ip) fp) in
    Some ((inject_Z m * pow10 (e - Z.of_nat (String.length fp)))%Q, r3).

(** The longest prefix that is a StrDecimalLiteral: its value and the
    text after it. *)
Definition scanDecimal (s : string) : option (num * string) :=
  let '(negative, s1) :=
    match s with
    | String "+" r => (false, r)
    | String "-" r => (true, r)
    | _ => (false, s)
    end in
  if startsWith "Infinity" s1 then Some (Inf negative, dropChars 8 s1)
  else
    match scanUnsigned s1 with
    | Some (q, rest) => Some (fin (if negative then (- q)%Q else q), rest)
    | None => None
    end.

(** [parseFloat(s)]: leading white space is skipped, and what follows
    the literal is ignored. *)
Definition parseFloat (s : string) : num :=
  match scanDecimal (trimStart s) with
  | Some (v, _) => v
  | None => NaN
  end.

(** [Number(s)] on a string: the whole trimmed text has to be a decimal
    literal, and the empty text is 0.  (Hexadecimal, octal and binary
    literals are not covered; [toFixed] never produces them.) *)
Definition Number_ (s : string) : num :=
  let t := trim s in
  if isEmpty t then Fin 0
  else match scanDecimal t with
       | Some (v, EmptyString) => v
       | _ => NaN
       end.

(** *** Printing numbers *)

Definition digit_char (d : N) : ascii := ascii_of_nat (48 + N.to_nat d).

Fixpoint digits_of (fuel : nat) (n : N) (acc : string) : string :=
  match fuel with
  | O => acc
  | S f =>
      let acc' := String (digit_char (n mod 10)) acc in
      if (n / 10 =? 0)%N then acc' else digits_of f (n / 10)%N acc'
  end.

(** The decimal digits of a natural number, without leading zeros. *)
Definition N_to_string (n : N) : string :=
  digits_of (S (N.to_nat (N.log2 n))) n EmptyString.

Fixpoint zeros (n : nat) : string :=
  match n with
  | O => EmptyString
  | S n' => String "0" (zeros n')
  end.

Fixpoint takeChars (n : nat) (s : string) : string :=
  match n, s with
  | S n', String c s' => String c (takeChars n' s')
  | _, _ => EmptyString
  end.

(** The least [j] from [j0] on, within the fuel, for which [a / b] is an
    integer, where [a] is the numerator scaled by [10 ^ j]. *)
Fixpoint find_scale (fuel : nat) (a b : N) (j : nat) : option (N * nat) :=
  if (a mod b =? 0)%N then Some ((a / b)%N, j)
  else match fuel with
       | O => None
       | S f => find_scale f (10 * a)%N b (S j)
       end.

Fixpoint strip_zeros (fuel : nat) (s : N) (e : Z) : N * Z :=
  match fuel with
  | O => (s, e)
  | S f =>
      if (s mod 10 =? 0)%N && negb (s =? 0)%N
      then strip_zeros f (s / 10)%N (e + 1)
      else (s, e)
  end.

(** A positive rational as [s * 10 ^ e] with [s] not a multiple of 10.
    A rational that is no decimal fraction is first rounded to 16 decimal
    places (no such value is ever printed by the component). *)
Definition toDecimal (q : Q) : N * Z :=
  let a := Z.to_N (Qnum q) in
  let b := Npos (Qden q) in
  let '(s, j) :=
    match find_scale (N.to_nat (N.log2 b)) a b 0 with
    | Some r => r
    | None => (Z.to_N (Qfloor (q * pow10 16 + (1 # 2))%Q), 16%nat)
    end in
  strip_zeros (S (N.to_nat (N.log2 s))) s (- Z.of_nat j).

(** Number::toString of a positive value [s * 10 ^ e]: plain digits when
    the decimal point falls within 21 digits to the right or 6 to the
    left, exponent notation otherwise. *)
Definition printDecimal (s : N) (e : Z) : string :=
  let ds := N_to_string s in
  let k := Z.of_nat (String.length ds) in
  let n := k + e in
  if (k <=? n) && (n <=? 21) then
    (ds ++ zeros (Z.to_nat (n - k)))%string
  else if (0 <? n) && (n <=? 21) then
    (takeChars (Z.to_nat n) ds ++ "." ++ dropChars (Z.to_nat n) ds)%string
  else if (-6 <? n) && (n <=? 0) then
    ("0." ++ zeros (Z.to_nat (- n)) ++ ds)%string
  else
    let ex := n - 1 in
    let sign := if (ex <? 0)%Z then "-" else "+" in
    let es := (sign ++ N_to_string (Z.to_N (Z.abs ex)))%string in
    match ds with
    | String d EmptyString => String d ("e" ++ es)
    | String d rest => String d ("." ++ rest ++ "e" ++ es)
    | EmptyString => EmptyString
    end.

(** [String(x)], as in a template literal. *)
Definition toString (x : num) : string :=
  match x with
  | NaN => "NaN"
  | Inf false => "Infinity"
  | Inf true => "-Infinity"
  | Fin q =>
      if Qis0 q then "0"
      else
        let '(s, e) := toDecimal (Qabs q) in
        ((if Qneg q then "-" else EmptyString) ++ printDecimal s e)%string
  end.

(** The integer nearest to a non-negative rational, the larger one on a
    tie. *)
Definition roundHalfUp (q : Q) : Z := Qfloor (q + (1 # 2)).

(** [x.toFixed(f)] *)
Definition toFixed (x : num) (f : nat) : string :=
  match x with
  | Fin q =>
      let a := Qabs q in
      if Qle_bool (pow10 21) a then toString x
      else
        let n := Z.to_N (roundHalfUp (a * pow10 (Z.of_nat f))) in
        let m := N_to_string n in
        let m :=
          if (f =? 0)%nat then m
          else
            let m' :=
              if (String.length m <=? f)%nat
              then (zeros (f + 1 - String.length m) ++ m)%string
              else m in
            let k := String.length m' in
            (takeChars (k - f) m' ++ "." ++ dropChars (k - f) m')%string in
        ((if Qneg q then "-" else EmptyString) ++ m)%string
  | _ => toString x
  end.

(** *** Further built-ins: the upload handlers, the trend view and the
    sample data *)

(** [s.endsWith(suffix)] *)
Fixpoint endsWith (s suffix : string) : bool :=
  String.eqb s suffix
  || match s with
     | EmptyString => false
     | String _ s' => endsWith s' suffix
     end.

(** [s.replace(pattern, replacement)] for a pattern that is a string:
    the first occurrence only.  (No replacement text of the component
    holds a dollar sign.) *)
Fixpoint replace (pattern replacement s : string) : string :=
  if startsWith pattern s then
    (replacement ++ dropChars (String.length pattern) s)%string
  else
    match s with
    | EmptyString => EmptyString
    | String c s' => String c (replace pattern replacement s')
    end.

(** [Math.max(x, y)] and [Math.min(x, y)] *)
Definition Math_max (x y : num) : num :=
  if isNaN x || isNaN y then NaN else if lt x y then y else x.

Definition Math_min (x y : num) : num :=
  if isNaN x || isNaN y then NaN else if lt y x then y else x.

(** [Math.round(q)] of a finite number: the nearest integer, and the
    upper one of two that are equally near. *)
Definition Math_round (q : Q) : Z := Qfloor (q + (1 # 2)).

End JS.

Import JS.

(** ** The data model (the interfaces at the top of each version) *)

Module ShopifyData.
Record t : Type := mk {
  sessionId : string;
  orderId : option string;
  successRate : num;
  timestamp : option string
}.
End ShopifyData.

Module AWSData.
Record t : Type := mk {
  sessionId : string;
  sessionLength : num;
  userId : option string;
  timestamp : option string
}.
End AWSData.

Module FusedDataPoint.
Record t : Type := mk {
  sessionId : string;
  sessionNumber : Z;
  sessionLength : num;
  successRate : num
}.
End FusedDataPoint.

(** The three [throw] statements of a parser: too few lines, a required
    column that no header matches, no row accepted. *)
Inductive ParseError : Type :=
| MalformedInput (message : string)
| MissingColumns (message : string)
| EmptyResult (message : string).

Inductive result (A : Type) : Type :=
| Ok (a : A)
| Throw (e : ParseError).
Arguments Ok {A} a.
Arguments Throw {A} e.

(** ** What the versions share *)

(** [csvText.trim().split('\n')] *)
Definition linesOf (csvText : string) : list string :=
  split LF (trim csvText).

(** [lines[0].split(',').map(h => h.trim().toLowerCase())] *)
Definition headersOf (line : string) : list string :=
  map (fun h => toLowerCase (trim h)) (split comma line).

(** [lines[i].split(',').map(v => v.trim().replace(re, ''))] *)
Definition valuesOf (line : string) : list string :=
  map (fun v => stripQuotes (trim v)) (split comma line).

(** [parseFloat(values[i])]: the text of [undefined] is no number. *)
Definition parseFloatAt (values : list string) (i : Z) : num :=
  match at_ values i with
  | Some s => parseFloat s
  | None => NaN
  end.

(** [i >= 0 ? values[i] : undefined] *)
Definition optionalAt (values : list string) (i : Z) : option string :=
  if 0 <=? i then at_ values i else None.

(** The [for (let i = 1; i < lines.length; i++)] loop of the parsers: the
    body either pushes one record onto [data] or goes on to the next line. *)
Fixpoint forRows {A} (body : string -> option A) (rows : list string)
    (data : list A) : list A :=
  match rows with
  | [] => data
  | line :: rest =>
      match body line with
      | Some r => forRows body rest (data ++ [r])
      | None => forRows body rest data
      end
  end.

Definition timestampHeader (h : string) : bool :=
  includes h "timestamp" || includes h "date" || includes h "time".

(** *** [Array.prototype.sort] with a comparison function

    The sort is stable: an element moves in front of another one only
    when the comparison function returns a positive number for the pair
    in their current order.  ([NaN] counts as zero.) *)

Fixpoint insert {A} (cmp : A -> A -> num) (x : A) (l : list A) : list A :=
  match l with
  | [] => [x]
  | y :: l' => if gt (cmp x y) (Fin 0) then y :: insert cmp x l' else x :: l
  end.

Fixpoint sort {A} (cmp : A -> A -> num) (l : list A) : list A :=
  match l with
  | [] => []
  | x :: l' => insert cmp x (sort cmp l')
  end.

(** *** The session fuser

    [fuseData] is the same in SessionAnalyzer.tsx and in part_006, which
    only adds console output.  The component's state ([shopifyData],
    [awsData]) is passed in. *)

Definition fuseStep (awsMap : gmap string AWSData.t)
    (st : list FusedDataPoint.t * Z) (shopify : ShopifyData.t)
    : list FusedDataPoint.t * Z :=
  let '(fused, sessionCounter) := st in
  match awsMap !! ShopifyData.sessionId shopify with
  | Some awsMatch =>
      (fused ++ [FusedDataPoint.mk (ShopifyData.sessionId shopify)
                   sessionCounter
                   (AWSData.sessionLength awsMatch)
                   (ShopifyData.successRate shopify)],
       sessionCounter + 1)
  | None => (fused, sessionCounter)
  end.

Definition byLength (a b : FusedDataPoint.t) : num :=
  sub (FusedDataPoint.sessionLength a) (FusedDataPoint.sessionLength b).

Definition fuseData (shopifyData : list ShopifyData.t)
    (awsData : list AWSData.t) : list FusedDataPoint.t :=
  if (length shopifyData =? 0)%nat || (length awsData =? 0)%nat then []
  else
    let awsMap : gmap string AWSData.t :=
      foldl (fun m aws => <[AWSData.sessionId aws := aws]> m) ∅ awsData in
    let '(fused, _) := foldl (fuseStep awsMap) ([], 1) shopifyData in
    sort byLength fused.

(** *** The row body of the success-source parser

    The body of the loop is the same text in SessionAnalyzer.tsx and in
    part_006: the rate is scaled by 100 when it is at most 1 and is then
    rounded through [toFixed(2)]. *)
Definition shopifyRow (sessionIdIndex orderIdIndex successRateIndex
    timestampIndex : Z) (line : string) : option ShopifyData.t :=
  let values := valuesOf line in
  if (length values <? 2)%nat then None
  else
    let sessionId := at_ values sessionIdIndex in
    let successRate := parseFloatAt values successRateIndex in
    match sessionId with
    | Some sessionId =>
        if negb (isEmpty sessionId) && negb (isNaN successRate) then
          let normalizedSuccessRate :=
            if le successRate (Fin 1) then mul successRate (Fin 100)
            else successRate in
          Some (ShopifyData.mk sessionId
                  (optionalAt values orderIdIndex)
                  (Number_ (toFixed normalizedSuccessRate 2))
                  (optionalAt values timestampIndex))
        else None
    | None => None
    end.

(** ** SessionAnalyzer.tsx *)

Module Main.

Definition sessionIdHeader (h : string) : bool :=
  String.eqb h "session_id" || String.eqb h "sessionid"
  || String.eqb h "session-id"
  || (includes h "session" && includes h "id").

Definition orderIdHeader (h : string) : bool :=
  String.eqb h "order_id" || String.eqb h "orderid"
  || String.eqb h "order-id"
  || (includes h "order" && includes h "id").

Definition successRateHeader (h : string) : bool :=
  String.eqb h "success_rate" || String.eqb h "successrate"
  || String.eqb h "success-rate" || String.eqb h "success_percent"
  || String.eqb h "success_percentage"
  || (includes h "success" && (includes h "rate" || includes h "percent")).

Definition sessionLengthHeader (h : string) : bool :=
  String.eqb h "session_length" || String.eqb h "sessionlength"
  || String.eqb h "session-length" || String.eqb h "session_duration"
  || String.eqb h "duration"
  || (includes h "session"
      && (includes h "length" || includes h "duration")).

Definition userIdHeader (h : string) : bool :=
  String.eqb h "user_id" || String.eqb h "userid" || String.eqb h "user-id"
  || (includes h "user" && includes h "id").

Definition parseShopifyCSV (csvText : string)
    : result (list ShopifyData.t) :=
  let lines := linesOf csvText in
  if (length lines <? 2)%nat then
    Throw (MalformedInput
      "Shopify CSV must have at least a header row and one data row")
  else
    let headers := headersOf (default EmptyString (head lines)) in
    let sessionIdIndex := findIndex sessionIdHeader headers in
    let orderIdIndex := findIndex orderIdHeader headers in
    let successRateIndex := findIndex successRateHeader headers in
    let timestampIndex := findIndex timestampHeader headers in
    if (sessionIdIndex =? -1) || (successRateIndex =? -1) then
      Throw (MissingColumns
        ("Shopify CSV must contain columns for session_id and success_rate. Found headers: "
         +:+ join ", " headers))
    else
      let data :=
        forRows (shopifyRow sessionIdIndex orderIdIndex successRateIndex
                   timestampIndex) (tail lines) [] in
      if (length data =? 0)%nat then
        Throw (EmptyResult "No valid Shopify data rows found in CSV")
      else Ok data.

Definition awsRow (sessionIdIndex sessionLengthIndex userIdIndex
    timestampIndex : Z) (line : string) : option AWSData.t :=
  let values := valuesOf line in
  if (length values <? 2)%nat then None
  else
    let sessionId := at_ values sessionIdIndex in
    let sessionLength := parseFloatAt values sessionLengthIndex in
    match sessionId with
    | Some sessionId =>
        if negb (isEmpty sessionId) && negb (isNaN sessionLength) then
          Some (AWSData.mk sessionId sessionLength
                  (optionalAt values userIdIndex)
                  (optionalAt values timestampIndex))
        else None
    | None => None
    end.

Definition parseAWSCSV (csvText : string) : result (list AWSData.t) :=
  let lines := linesOf csvText in
  if (length lines <? 2)%nat then
    Throw (MalformedInput
      "AWS CSV must have at least a header row and one data row")
  else
    let headers := headersOf (default EmptyString (head lines)) in
    let sessionIdIndex := findIndex sessionIdHeader headers in
    let sessionLengthIndex := findIndex sessionLengthHeader headers in
    let userIdIndex := findIndex userIdHeader headers in
    let timestampIndex := findIndex timestampHeader headers in
    if (sessionIdIndex =? -1) || (sessionLengthIndex =? -1) then
      Throw (MissingColumns
        ("AWS CSV must contain columns for session_id and session_length. Found headers: "
         +:+ join ", " headers))
    else
      let data :=
        forRows (awsRow sessionIdIndex sessionLengthIndex userIdIndex
                   timestampIndex) (tail lines) [] in
      if (length data =? 0)%nat then
        Throw (EmptyResult "No valid AWS data rows found in CSV")
      else Ok data.

(** [exportData]: the text handed to the [Blob]. *)
Definition exportRow (row : FusedDataPoint.t) : string :=
  FusedDataPoint.sessionId row +:+ "," +:+
  toString (ofZ (FusedDataPoint.sessionNumber row)) +:+ "," +:+
  toString (FusedDataPoint.sessionLength row) +:+ "," +:+
  toString (FusedDataPoint.successRate row).

Definition exportData (fusedData : list FusedDataPoint.t) : string :=
  join (String LF EmptyString)
    ("Session ID,Session Number,Session Length,Success Rate"
     :: map exportRow fusedData).

(** The part of the component's state that [generateFusionReport] reads
    and writes.  A fusion message is kept as its template and the values
    put into it. *)
Record Stats : Type := mkStats {
  totalSessions : nat;
  matchedSessions : nat;
  inflectionPoint : string;
  earlySuccessRate : string;
  lateSuccessRate : string
}.

Inductive FusionMessage : Type :=
| NoMessage
| BothRequired
| NoMatchingSessions (shopifySessions awsSessions : nat)
| ReportGenerated (matched total : nat) (matchRate : string).

Record State : Type := mkState {
  shopifyData : list ShopifyData.t;
  awsData : list AWSData.t;
  fusedData : list FusedDataPoint.t;
  stats : Stats;
  isReportGenerated : bool;
  fusionMessage : FusionMessage
}.

(** An array index or slice bound given as a number. *)
Definition toIndex (x : num) : nat :=
  match x with
  | Fin q => Z.to_nat (Qfloor q)
  | _ => O
  end.

(** [Math.floor(fused.length * 0.65)] *)
Definition splitIndex (fused : list FusedDataPoint.t) : nat :=
  toIndex (floor (mul (ofNat (length fused)) (Fin (65 # 100)))).

(** [data.reduce((sum, p) => sum + p.successRate, 0) / data.length] *)
Definition meanSuccessRate (data : list FusedDataPoint.t) : num :=
  div (foldl (fun sum p => add sum (FusedDataPoint.successRate p))
         (Fin 0) data)
      (ofNat (length data)).

Definition sliceRate (data : list FusedDataPoint.t) : string :=
  if (0 <? length data)%nat then toFixed (meanSuccessRate data) 1
  else "0".

(** The statistics of lines 286-303, from the state's two record sets and
    the fused list. *)
Definition reportStats (shopifyData : list ShopifyData.t)
    (awsData : list AWSData.t) (fused : list FusedDataPoint.t) : Stats :=
  let totalSessions := Nat.max (length shopifyData) (length awsData) in
  let matchedSessions := length fused in
  let earlyData := slice fused 0 (splitIndex fused) in
  let lateData := sliceFrom fused (splitIndex fused) in
  let inflectionPoint :=
    if (0 <? length fused)%nat then
      orElse (from_option FusedDataPoint.sessionLength NaN
                (fused !! splitIndex fused)) (Fin 0)
    else Fin 0 in
  mkStats totalSessions matchedSessions (toFixed inflectionPoint 1)
    (sliceRate earlyData) (sliceRate lateData).

Definition generateFusionReport (st : State) : State :=
  if (length (shopifyData st) =? 0)%nat || (length (awsData st) =? 0)%nat
  then mkState (shopifyData st) (awsData st) (fusedData st) (stats st)
         (isReportGenerated st) BothRequired
  else
    let fused := fuseData (shopifyData st) (awsData st) in
    if (length fused =? 0)%nat then
      mkState (shopifyData st) (awsData st) (fusedData st) (stats st)
        (isReportGenerated st)
        (NoMatchingSessions (length (shopifyData st)) (length (awsData st)))
    else
      let totalSessions :=
        Nat.max (length (shopifyData st)) (length (awsData st)) in
      let matchedSessions := length fused in
      let matchRate :=
        toFixed (mul (div (ofNat matchedSessions) (ofNat totalSessions))
                   (Fin 100)) 1 in
      mkState (shopifyData st) (awsData st) fused
        (reportStats (shopifyData st) (awsData st) fused)
        true
        (ReportGenerated matchedSessions totalSessions matchRate).

(** *** The trend view: [getSmoothedData] (lines 104-123) *)

(** [chunk.reduce((sum, p) => sum + f(p), 0) / chunk.length] *)
Definition average (f : FusedDataPoint.t -> num)
    (chunk : list FusedDataPoint.t) : num :=
  div (foldl (fun sum p => add sum (f p)) (Fin 0) chunk)
      (ofNat (length chunk)).

(** The record that the loop pushes for the chunk that starts at index
    [i]. *)
Definition smoothedPoint (fusedData : list FusedDataPoint.t)
    (smoothingLevel i : nat) : FusedDataPoint.t :=
  let chunk := slice fusedData i (i + smoothingLevel) in
  let avgLength := average FusedDataPoint.sessionLength chunk in
  let avgSuccess := average FusedDataPoint.successRate chunk in
  FusedDataPoint.mk ("smoothed_" +:+ toString (ofNat i))
    (Math_round (inject_Z (Z.of_nat i)
                 + inject_Z (Z.of_nat smoothingLevel) / 2))
    (Number_ (toFixed avgLength 2))
    (Number_ (toFixed avgSuccess 2)).

(** The loop [for (let i = 0; i < fusedData.length; i += smoothingLevel)].
    Nothing in the loop bounds the number of its turns, so the model
    counts them down from [fuel]: [None] means that the loop has not
    ended within [fuel] turns. *)
Fixpoint smoothLoop (fuel : nat) (fusedData : list FusedDataPoint.t)
    (smoothingLevel i : nat) (smoothed : list FusedDataPoint.t)
    : option (list FusedDataPoint.t) :=
  if (i <? length fusedData)%nat then
    match fuel with
    | O => None
    | S fuel' =>
        let chunk := slice fusedData i (i + smoothingLevel) in
        if (length chunk =? 0)%nat then
          smoothLoop fuel' fusedData smoothingLevel (i + smoothingLevel)
            smoothed
        else
          smoothLoop fuel' fusedData smoothingLevel (i + smoothingLevel)
            (smoothed ++ [smoothedPoint fusedData smoothingLevel i])
    end
  else Some smoothed.

Definition getSmoothedData (fuel : nat) (fusedData : list FusedDataPoint.t)
    (smoothingLevel : nat) : option (list FusedDataPoint.t) :=
  if (length fusedData =? 0)%nat then Some []
  else smoothLoop fuel fusedData smoothingLevel 0 [].

(** *** The sample data: [generateSampleData] (lines 77-102) and
    [generateSampleDataImmediate] (lines 28-53), which is the same text *)

Section WithMath.

(** [Math.pow] is a parameter: the component clamps and scales what it
    returns.  [Math_random i] is what [Math.random()] returns in turn
    [i] of the loop; every call of the generator has draws of its own. *)
Variable Math_pow : num -> num -> num.

Definition samplePoint (Math_random : nat -> num) (i : nat)
    : FusedDataPoint.t :=
  let sessionLength :=
    add (Fin 1) (mul (sub (ofNat i) (Fin 1)) (Fin (2 # 10))) in
  let baseSuccessRate :=
    if (i <=? 130)%nat then
      let progressRatio := div (sub (ofNat i) (Fin 1)) (Fin 129) in
      let curveValue :=
        sub (Fin 1) (Math_pow progressRatio (Fin (7 # 10))) in
      add (Fin (55 # 100))
        (mul (sub (Fin (99 # 100)) (Fin (55 # 100))) curveValue)
    else Fin (5 # 100) in
  let noise := mul (sub (Math_random i) (Fin (5 # 10))) (Fin (2 # 10)) in
  let successRate :=
    Math_max (Fin 0) (Math_min (Fin 1) (add baseSuccessRate noise)) in
  FusedDataPoint.mk ("session_" +:+ toString (ofNat i)) (Z.of_nat i)
    (Number_ (toFixed sessionLength 2))
    (Number_ (toFixed (mul successRate (Fin 100)) 2)).

(** [for (let i = 1; i <= 200; i++) points.push(...)] *)
Definition generateSampleData (Math_random : nat -> num)
    : list FusedDataPoint.t :=
  map (samplePoint Math_random) (seq 1 200).

(** *** The component's state and its event handlers *)

Inductive UploadStatus : Type := Idle | Uploading | Success | Error.

Inductive ViewMode : Type := Raw | Trend.

(** An upload message, kept as its template and the value put into it. *)
Inductive UploadMessage : Type :=
| NoUploadMessage
| PleaseUploadCSV
| Loaded (records : nat)
| ParseFailed (errorMessage : string)
| ReadFailed.

(** All of the state: the part that the report reads and writes, and
    the view and upload fields. *)
Record Component : Type := mkComponent {
  report : State;
  viewMode : ViewMode;
  smoothingLevel : nat;
  shopifyUploadStatus : UploadStatus;
  awsUploadStatus : UploadStatus;
  shopifyMessage : UploadMessage;
  awsMessage : UploadMessage
}.

(** The setters of [useState]. *)
Definition setReport (f : State -> State) (c : Component) : Component :=
  mkComponent (f (report c)) (viewMode c) (smoothingLevel c)
    (shopifyUploadStatus c) (awsUploadStatus c) (shopifyMessage c)
    (awsMessage c).

Definition setShopifyData (v : list ShopifyData.t) : Component -> Component :=
  setReport (fun s => mkState v (awsData s) (fusedData s) (stats s)
                        (isReportGenerated s) (fusionMessage s)).

Definition setAWSData (v : list AWSData.t) : Component -> Component :=
  setReport (fun s => mkState (shopifyData s) v (fusedData s) (stats s)
                        (isReportGenerated s) (fusionMessage s)).

Definition setFusedData (v : list FusedDataPoint.t)
    : Component -> Component :=
  setReport (fun s => mkState (shopifyData s) (awsData s) v (stats s)
                        (isReportGenerated s) (fusionMessage s)).

Definition setStats (v : Stats) : Component -> Component :=
  setReport (fun s => mkState (shopifyData s) (awsData s) (fusedData s) v
                        (isReportGenerated s) (fusionMessage s)).

Definition setIsReportGenerated (v : bool) : Component -> Component :=
  setReport (fun s => mkState (shopifyData s) (awsData s) (fusedData s)
                        (stats s) v (fusionMessage s)).

Definition setFusionMessage (v : FusionMessage) : Component -> Component :=
  setReport (fun s => mkState (shopifyData s) (awsData s) (fusedData s)
                        (stats s) (isReportGenerated s) v).

Definition setViewMode (v : ViewMode) (c : Component) : Component :=
  mkComponent (report c) v (smoothingLevel c) (shopifyUploadStatus c)
    (awsUploadStatus c) (shopifyMessage c) (awsMessage c).

Definition setSmoothingLevel (v : nat) (c : Component) : Component :=
  mkComponent (report c) (viewMode c) v (shopifyUploadStatus c)
    (awsUploadStatus c) (shopifyMessage c) (awsMessage c).

Definition setShopifyUploadStatus (v : UploadStatus) (c : Component)
    : Component :=
  mkComponent (report c) (viewMode c) (smoothingLevel c) v
    (awsUploadStatus c) (shopifyMessage c) (awsMessage c).

Definition setAWSUploadStatus (v : UploadStatus) (c : Component)
    : Component :=
  mkComponent (report c) (viewMode c) (smoothingLevel c)
    (shopifyUploadStatus c) v (shopifyMessage c) (awsMessage c).

Definition setShopifyMessage (v : UploadMessage) (c : Component)
    : Component :=
  mkComponent (report c) (viewMode c) (smoothingLevel c)
    (shopifyUploadStatus c) (awsUploadStatus c) v (awsMessage c).

Definition setAWSMessage (v : UploadMessage) (c : Component) : Component :=
  mkComponent (report c) (viewMode c) (smoothingLevel c)
    (shopifyUploadStatus c) (awsUploadStatus c) (shopifyMessage c) v.

(** The state of the first render (lines 55-73); the statistics are the
    literals of the source. *)
Definition initial (Math_random : nat -> num) : Component :=
  let initialSampleData := generateSampleData Math_random in
  mkComponent
    (mkState [] [] initialSampleData
       (mkStats (length initialSampleData) (length initialSampleData)
          "27.0" "80.5" "5.0")
       true NoMessage)
    Raw 10 Idle Idle NoUploadMessage NoUploadMessage.

Definition messageOf (e : ParseError) : string :=
  match e with
  | MalformedInput m | MissingColumns m | EmptyResult m => m
  end.

(** [handleShopifyUpload] (lines 309-350) up to [reader.readAsText]: the
    chosen file is given by its name, [None] when no file was chosen. *)
Definition handleShopifyUpload (fileName : option string) (c : Component)
    : Component :=
  match fileName with
  | None => c
  | Some name =>
      if negb (endsWith (toLowerCase name) ".csv") then
        setShopifyMessage PleaseUploadCSV (setShopifyUploadStatus Error c)
      else
        setShopifyMessage NoUploadMessage
          (setShopifyUploadStatus Uploading c)
  end.

(** [reader.onload] of the success source, called with the text read. *)
Definition shopifyOnload (csvText : string) (c : Component) : Component :=
  match parseShopifyCSV csvText with
  | Ok parsedData =>
      setFusionMessage NoMessage
        (setIsReportGenerated false
           (setShopifyMessage (Loaded (length parsedData))
              (setShopifyUploadStatus Success
                 (setShopifyData parsedData c))))
  | Throw error =>
      setShopifyMessage
        (ParseFailed
           (replace
              "Shopify CSV must contain columns for session_id and success_rate. Found headers: "
              "Missing required columns. Found: " (messageOf error)))
        (setShopifyUploadStatus Error c)
  end.

(** [reader.onerror] *)
Definition shopifyOnerror (c : Component) : Component :=
  setShopifyMessage ReadFailed (setShopifyUploadStatus Error c).

(** [handleAWSUpload] (lines 352-393) and its two callbacks. *)
Definition handleAWSUpload (fileName : option string) (c : Component)
    : Component :=
  match fileName with
  | None => c
  | Some name =>
      if negb (endsWith (toLowerCase name) ".csv") then
        setAWSMessage PleaseUploadCSV (setAWSUploadStatus Error c)
      else
        setAWSMessage NoUploadMessage (setAWSUploadStatus Uploading c)
  end.

Definition awsOnload (csvText : string) (c : Component) : Component :=
  match parseAWSCSV csvText with
  | Ok parsedData =>
      setFusionMessage NoMessage
        (setIsReportGenerated false
           (setAWSMessage (Loaded (length parsedData))
              (setAWSUploadStatus Success (setAWSData parsedData c))))
  | Throw error =>
      setAWSMessage
        (ParseFailed
           (replace
              "AWS CSV must contain columns for session_id and session_length. Found headers: "
              "Missing required columns. Found: " (messageOf error)))
        (setAWSUploadStatus Error c)
  end.

Definition awsOnerror (c : Component) : Component :=
  setAWSMessage ReadFailed (setAWSUploadStatus Error c).

(** [loadSampleData] (lines 395-413) *)
Definition loadSampleData (Math_random : nat -> num) (c : Component)
    : Component :=
  let sampleData := generateSampleData Math_random in
  let earlyData := slice sampleData 0 130 in
  let lateData := sliceFrom sampleData 130 in
  let inflectionPoint :=
    add (Fin 1) (mul (sub (Fin 130) (Fin 1)) (Fin (2 # 10))) in
  setStats
    (mkStats (length sampleData) (length sampleData)
       (toFixed inflectionPoint 1)
       (toFixed (meanSuccessRate earlyData) 1)
       (toFixed (meanSuccessRate lateData) 1))
    (setIsReportGenerated true
       (setAWSUploadStatus Idle
          (setShopifyUploadStatus Idle (setFusedData sampleData c)))).

(** What the user and the file reader can do to the component.  A
    callback of a reader is taken to be possible at any time. *)
Inductive Event : Type :=
| ShopifyFileChosen (fileName : option string)
| ShopifyFileRead (csvText : string)
| ShopifyReadFailed
| AWSFileChosen (fileName : option string)
| AWSFileRead (csvText : string)
| AWSReadFailed
| GenerateClicked
| LoadDemoClicked (Math_random : nat -> num)
| ViewModeChanged (v : ViewMode)
| SmoothingChanged (v : nat).

(** The controls that the page disables, hides or bounds: the upload
    button of a source while that source is uploading, the report button
    unless both uploads have succeeded, and the slider, which is shown
    in the trend view only and runs from 5 to 25. *)
Definition enabled (e : Event) (c : Component) : Prop :=
  match e with
  | ShopifyFileChosen _ => shopifyUploadStatus c <> Uploading
  | AWSFileChosen _ => awsUploadStatus c <> Uploading
  | GenerateClicked =>
      shopifyUploadStatus c = Success /\ awsUploadStatus c = Success
  | SmoothingChanged v => viewMode c = Trend /\ (5 <= v <= 25)%nat
  | _ => True
  end.

Definition handle (e : Event) (c : Component) : Component :=
  match e with
  | ShopifyFileChosen fileName => handleShopifyUpload fileName c
  | ShopifyFileRead csvText => shopifyOnload csvText c
  | ShopifyReadFailed => shopifyOnerror c
  | AWSFileChosen fileName => handleAWSUpload fileName c
  | AWSFileRead csvText => awsOnload csvText c
  | AWSReadFailed => awsOnerror c
  | GenerateClicked => setReport generateFusionReport c
  | LoadDemoClicked Math_random => loadSampleData Math_random c
  | ViewModeChanged v => setViewMode v c
  | SmoothingChanged v => setSmoothingLevel v c
  end.

(** The states that the component can be in. *)
Inductive reachable (c0 : Component) : Component -> Prop :=
| reachable_initial : reachable c0 c0
| reachable_handle e c :
    reachable c0 c -> enabled e c -> reachable c0 (handle e c).

End WithMath.

End Main.

(** ** part_006: the version with the timestamp-difference path *)

Module V6.

Definition sessionIdHeader (h : string) : bool :=
  String.eqb h "session_id" || String.eqb h "sessionid"
  || String.eqb h "session-id"
  || (includes h "session" && includes h "id").

Definition orderIdHeader (h : string) : bool :=
  String.eqb h "order_id" || String.eqb h "orderid"
  || String.eqb h "order-id"
  || (includes h "order" && includes h "id").

Definition successRateHeader (h : string) : bool :=
  String.eqb h "success_rate" || String.eqb h "successrate"
  || String.eqb h "success-rate" || String.eqb h "success_percent"
  || String.eqb h "success_percentage" || String.eqb h "success"
  || (includes h "success" && (includes h "rate" || includes h "percent"))
  || includes h "success".

Definition missingShopifyColumns (sessionIdIndex successRateIndex : Z)
    : list string :=
  (if sessionIdIndex =? -1 then ["session_id"] else [])
  ++ (if successRateIndex =? -1 then ["success or success_rate"] else []).

Definition parseShopifyCSV (csvText : string)
    : result (list ShopifyData.t) :=
  let lines := linesOf csvText in
  if (length lines <? 2)%nat then
    Throw (MalformedInput
      "Shopify CSV must have at least a header row and one data row")
  else
    let headers := headersOf (default EmptyString (head lines)) in
    let sessionIdIndex := findIndex sessionIdHeader headers in
    let orderIdIndex := findIndex orderIdHeader headers in
    let successRateIndex := findIndex successRateHeader headers in
    let timestampIndex := findIndex timestampHeader headers in
    if (sessionIdIndex =? -1) || (successRateIndex =? -1) then
      Throw (MissingColumns
        ("Missing required columns: "
         +:+ join ", " (missingShopifyColumns sessionIdIndex successRateIndex)
         +:+ ". Found headers: " +:+ join ", " headers))
    else
      let data :=
        forRows (shopifyRow sessionIdIndex orderIdIndex successRateIndex
                   timestampIndex) (tail lines) [] in
      if (length data =? 0)%nat then
        Throw (EmptyResult "No valid Shopify data rows found in CSV")
      else Ok data.

Definition awsSessionIdHeader (h : string) : bool :=
  String.eqb h "session_id" || String.eqb h "sessionid"
  || String.eqb h "session-id"
  || (includes h "session" && includes h "id")
  || String.eqb h "session" || String.eqb h "id".

Definition sessionLengthHeader (h : string) : bool :=
  String.eqb h "session_length" || String.eqb h "sessionlength"
  || String.eqb h "session-length" || String.eqb h "session_duration"
  || String.eqb h "duration" || String.eqb h "length"
  || (includes h "session"
      && (includes h "length" || includes h "duration"))
  || includes h "duration" || includes h "length".

Definition startTimestampHeader (h : string) : bool :=
  (includes h "start" && (includes h "timestamp" || includes h "time"))
  || String.eqb h "start_timestamp" || String.eqb h "starttime"
  || String.eqb h "start_time" || String.eqb h "start"
  || String.eqb h "begin_timestamp" || String.eqb h "begin_time".

Definition endTimestampHeader (h : string) : bool :=
  (includes h "end" && (includes h "timestamp" || includes h "time"))
  || String.eqb h "end_timestamp" || String.eqb h "endtime"
  || String.eqb h "end_time" || String.eqb h "end"
  || String.eqb h "finish_timestamp" || String.eqb h "finish_time".

Definition userIdHeader (h : string) : bool :=
  String.eqb h "user_id" || String.eqb h "userid" || String.eqb h "user-id"
  || (includes h "user" && includes h "id") || String.eqb h "user".

(** The test of the regular expression of line 280 on the whole text: one
    digit or more, an optional point, any digits. *)
Definition numericPattern (s : string) : bool :=
  let '(ip, r) := span_digits s in
  negb (isEmpty ip) &&
  match r with
  | EmptyString => true
  | String c r' =>
      Ascii.eqb c "." && isEmpty (snd (span_digits r'))
  end.

(** [s.replace(' ', 'T')]: the first space only. *)
Fixpoint replaceFirstSpace (s : string) : string :=
  match s with
  | EmptyString => EmptyString
  | String c s' =>
      if Ascii.eqb c " " then String "T" s'
      else String c (replaceFirstSpace s')
  end.

Definition normalizeTime (s : string) : string :=
  if includes s "T" then s else replaceFirstSpace s.

Section WithDate.

(** [new Date(s).getTime()] depends on the host (its time zone and the
    date formats it accepts); it is a parameter of this version's
    duration parser.  [NaN] is an invalid date. *)
Variable Date_getTime : string -> num.

(** The [try] block of lines 272-320: [None] is the [catch] branch, which
    skips the row.  A cell that is [undefined] makes the block throw. *)
Definition timestampLength (startTime endTime : option string)
    : option num :=
  match startTime, endTime with
  | Some startTime, Some endTime =>
      let startNum := parseFloat startTime in
      let endNum := parseFloat endTime in
      let ms : option (num * num) :=
        if negb (isNaN startNum) && negb (isNaN endNum)
           && numericPattern startTime && numericPattern endTime then
          if lt startNum (Fin (10 ^ 10)) then
            Some (mul startNum (Fin 1000), mul endNum (Fin 1000))
          else Some (startNum, endNum)
        else
          let start := Date_getTime (normalizeTime startTime) in
          let end_ := Date_getTime (normalizeTime endTime) in
          if isNaN start || isNaN end_ then None
          else Some (start, end_) in
      match ms with
      | Some (startMs, endMs) =>
          if isNaN startMs || isNaN endMs then None
          else Some (div (sub endMs startMs) (Fin 1000))
      | None => None
      end
  | _, _ => None
  end.

Definition awsRow (sessionIdIndex sessionLengthIndex startTimestampIndex
    endTimestampIndex userIdIndex timestampIndex : Z) (line : string)
    : option AWSData.t :=
  let values := valuesOf line in
  if (length values <? 2)%nat then None
  else
    let sessionId := at_ values sessionIdIndex in
    let sessionLength : option num :=
      if 0 <=? sessionLengthIndex then
        Some (parseFloatAt values sessionLengthIndex)
      else
        timestampLength (at_ values startTimestampIndex)
          (at_ values endTimestampIndex) in
    match sessionLength, sessionId with
    | Some sessionLength, Some sessionId =>
        if negb (isEmpty sessionId) && negb (isNaN sessionLength)
           && gt sessionLength (Fin 0) then
          Some (AWSData.mk sessionId
                  (Number_ (toFixed sessionLength 2))
                  (optionalAt values userIdIndex)
                  (optionalAt values timestampIndex))
        else None
    | _, _ => None
    end.

Definition missingAwsColumns (sessionIdIndex sessionLengthIndex
    startTimestampIndex endTimestampIndex : Z) : list string :=
  (if sessionIdIndex =? -1 then ["session_id (or similar)"] else [])
  ++ (if (sessionLengthIndex =? -1)
         && ((startTimestampIndex =? -1) || (endTimestampIndex =? -1))
      then ["session_length OR (start_timestamp AND end_timestamp)"]
      else []).

Definition parseAWSCSV (csvText : string) : result (list AWSData.t) :=
  let lines := linesOf csvText in
  if (length lines <? 2)%nat then
    Throw (MalformedInput
      "AWS CSV must have at least a header row and one data row")
  else
    let headers := headersOf (default EmptyString (head lines)) in
    let sessionIdIndex := findIndex awsSessionIdHeader headers in
    let sessionLengthIndex := findIndex sessionLengthHeader headers in
    let startTimestampIndex :=
      if sessionLengthIndex =? -1
      then findIndex startTimestampHeader headers else -1 in
    let endTimestampIndex :=
      if sessionLengthIndex =? -1
      then findIndex endTimestampHeader headers else -1 in
    let userIdIndex := findIndex userIdHeader headers in
    let timestampIndex := findIndex timestampHeader headers in
    if (sessionIdIndex =? -1)
       || ((sessionLengthIndex =? -1)
           && ((startTimestampIndex =? -1) || (endTimestampIndex =? -1)))
    then
      Throw (MissingColumns
        ("‚ùå Cannot find required columns. Looking for: "
         +:+ join " AND " (missingAwsColumns sessionIdIndex
                             sessionLengthIndex startTimestampIndex
                             endTimestampIndex)
         +:+ ". Available columns: " +:+ join ", " headers))
    else
      let data :=
        forRows (awsRow sessionIdIndex sessionLengthIndex
                   startTimestampIndex endTimestampIndex userIdIndex
                   timestampIndex) (tail lines) [] in
      if (length data =? 0)%nat then
        Throw (EmptyResult "No valid AWS data rows found in CSV")
      else Ok data.

End WithDate.

(** *** The sample data of part_006: [generateSampleData] (lines 51-85) *)

Section WithMath.

(** [Math.pow] and [Math.exp] are parameters, as [Math.pow] is for
    SessionAnalyzer.tsx. *)
Variable Math_pow : num -> num -> num.
Variable Math_exp : num -> num.

Definition samplePoint (Math_random : nat -> num) (i : nat)
    : FusedDataPoint.t :=
  let inflectionSessionLength := Fin (55 # 10) in
  let sessionLength :=
    add (Fin (5 # 10)) (mul (sub (ofNat i) (Fin 1)) (Fin (1 # 10))) in
  let baseSuccessRate :=
    if le sessionLength inflectionSessionLength then
      let progressRatio := div sessionLength inflectionSessionLength in
      add (Fin (85 # 100))
        (mul (sub (Fin (95 # 100)) (Fin (85 # 100)))
           (sub (Fin 1) (Math_pow progressRatio (Fin (5 # 10)))))
    else
      let excessTime := sub sessionLength inflectionSessionLength in
      let declineRate := Math_exp (mul (neg excessTime) (Fin (3 # 10))) in
      add (Fin (15 # 100))
        (mul (sub (Fin (70 # 100)) (Fin (15 # 100))) declineRate) in
  let noise := mul (sub (Math_random i) (Fin (5 # 10))) (Fin (12 # 100)) in
  let successRate :=
    Math_max (Fin (2 # 100))
      (Math_min (Fin (98 # 100)) (add baseSuccessRate noise)) in
  FusedDataPoint.mk ("session_" +:+ toString (ofNat i)) (Z.of_nat i)
    (Number_ (toFixed sessionLength 2))
    (Number_ (toFixed (mul successRate (Fin 100)) 2)).

Definition generateSampleData (Math_random : nat -> num)
    : list FusedDataPoint.t :=
  map (samplePoint Math_random) (seq 1 200).

(** *** The component of part_006

    The state has the fields of SessionAnalyzer.tsx, and
    [generateFusionReport] (lines 401-435) is the same text; the first
    render, the upload handlers and [loadSampleData] differ. *)

(** The state of the first render (lines 29-47): no data. *)
Definition noStats : Main.Stats := Main.mkStats 0 0 "0" "0" "0".

Definition initial : Main.Component :=
  Main.mkComponent
    (Main.mkState [] [] [] noStats false Main.NoMessage)
    Main.Raw 10 Main.Idle Main.Idle Main.NoUploadMessage
    Main.NoUploadMessage.

(** "Clear all previous session data when starting new upload" *)
Definition clearSession (c : Main.Component) : Main.Component :=
  Main.setStats noStats
    (Main.setFusionMessage Main.NoMessage
       (Main.setIsReportGenerated false (Main.setFusedData [] c))).

(** [handleShopifyUpload] (lines 437-488) up to [reader.readAsText], and
    its callbacks. *)
Definition handleShopifyUpload (fileName : option string)
    (c : Main.Component) : Main.Component :=
  match fileName with
  | None => c
  | Some name =>
      if negb (endsWith (toLowerCase name) ".csv") then
        Main.setShopifyMessage Main.PleaseUploadCSV
          (Main.setShopifyUploadStatus Main.Error c)
      else
        Main.setShopifyMessage Main.NoUploadMessage
          (Main.setShopifyUploadStatus Main.Uploading (clearSession c))
  end.

Definition shopifyOnload (csvText : string) (c : Main.Component)
    : Main.Component :=
  match parseShopifyCSV csvText with
  | Ok parsedData =>
      Main.setShopifyMessage (Main.Loaded (length parsedData))
        (Main.setShopifyUploadStatus Main.Success
           (Main.setShopifyData parsedData c))
  | Throw error =>
      Main.setShopifyMessage (Main.ParseFailed (Main.messageOf error))
        (Main.setShopifyUploadStatus Main.Error c)
  end.

(** [handleAWSUpload] (lines 490-541) and its callbacks.  (The text that
    [replace] looks for is the one that SessionAnalyzer.tsx throws.) *)
Definition handleAWSUpload (fileName : option string) (c : Main.Component)
    : Main.Component :=
  match fileName with
  | None => c
  | Some name =>
      if negb (endsWith (toLowerCase name) ".csv") then
        Main.setAWSMessage Main.PleaseUploadCSV
          (Main.setAWSUploadStatus Main.Error c)
      else
        Main.setAWSMessage Main.NoUploadMessage
          (Main.setAWSUploadStatus Main.Uploading (clearSession c))
  end.

Definition awsOnload (Date_getTime : string -> num) (csvText : string)
    (c : Main.Component) : Main.Component :=
  match parseAWSCSV Date_getTime csvText with
  | Ok parsedData =>
      Main.setAWSMessage (Main.Loaded (length parsedData))
        (Main.setAWSUploadStatus Main.Success
           (Main.setAWSData parsedData c))
  | Throw error =>
      Main.setAWSMessage
        (Main.ParseFailed
           (replace
              "AWS CSV must contain columns for session_id and session_length. Found headers: "
              "Missing required columns. Found: " (Main.messageOf error)))
        (Main.setAWSUploadStatus Main.Error c)
  end.

(** [loadSampleData] (lines 543-564): the sample is sorted as the fuser
    sorts, and the statistics follow the formulas of the report. *)
Definition loadSampleData (Math_random : nat -> num) (c : Main.Component)
    : Main.Component :=
  let sampleData := generateSampleData Math_random in
  let sortedData := sort byLength sampleData in
  let earlyData := slice sortedData 0 (Main.splitIndex sortedData) in
  let lateData := sliceFrom sortedData (Main.splitIndex sortedData) in
  let inflectionPoint :=
    if (0 <? length sortedData)%nat then
      orElse (from_option FusedDataPoint.sessionLength NaN
                (sortedData !! Main.splitIndex sortedData)) (Fin 0)
    else Fin 0 in
  Main.setStats
    (Main.mkStats (length sortedData) (length sortedData)
       (toFixed inflectionPoint 1) (Main.sliceRate earlyData)
       (Main.sliceRate lateData))
    (Main.setIsReportGenerated true
       (Main.setAWSUploadStatus Main.Idle
          (Main.setShopifyUploadStatus Main.Idle
             (Main.setFusedData sortedData c)))).

(** The events are those of SessionAnalyzer.tsx, and the page disables
    and bounds the same controls. *)
Definition handle (Date_getTime : string -> num) (e : Main.Event)
    (c : Main.Component) : Main.Component :=
  match e with
  | Main.ShopifyFileChosen fileName => handleShopifyUpload fileName c
  | Main.ShopifyFileRead csvText => shopifyOnload csvText c
  | Main.ShopifyReadFailed => Main.shopifyOnerror c
  | Main.AWSFileChosen fileName => handleAWSUpload fileName c
  | Main.AWSFileRead csvText => awsOnload Date_getTime csvText c
  | Main.AWSReadFailed => Main.awsOnerror c
  | Main.GenerateClicked => Main.setReport Main.generateFusionReport c
  | Main.LoadDemoClicked Math_random => loadSampleData Math_random c
  | Main.ViewModeChanged v => Main.setViewMode v c
  | Main.SmoothingChanged v => Main.setSmoothingLevel v c
  end.

Inductive reachable (Date_getTime : string -> num)
    : Main.Component -> Prop :=
| reachable_initial : reachable Date_getTime initial
| reachable_handle e c :
    reachable Date_getTime c -> Main.enabled e c ->
    reachable Date_getTime (handle Date_getTime e c).

End WithMath.

End V6.

(** ** part_007: the version that stores the rate unrounded *)

Module V7.

Definition sessionIdHeader (h : string) : bool :=
  includes h "session" && (includes h "id" || includes h "identifier").

Definition orderIdHeader (h : string) : bool :=
  includes h "order" && includes h "id".

Definition successRateHeader (h : string) : bool :=
  includes h "success"
  && (includes h "rate" || includes h "percent" || includes h "%").

Definition shopifyRow (sessionIdIndex orderIdIndex successRateIndex
    timestampIndex : Z) (line : string) : option ShopifyData.t :=
  let values := valuesOf line in
  if (length values <? 2)%nat then None
  else
    let sessionId := at_ values sessionIdIndex in
    let successRate := parseFloatAt values successRateIndex in
    match sessionId with
    | Some sessionId =>
        if negb (isEmpty sessionId) && negb (isNaN successRate) then
          Some (ShopifyData.mk sessionId
                  (optionalAt values orderIdIndex)
                  (if gt successRate (Fin 1) then successRate
                   else mul successRate (Fin 100))
                  (optionalAt values timestampIndex))
        else None
    | None => None
    end.

Definition parseShopifyCSV (csvText : string)
    : result (list ShopifyData.t) :=
  let lines := linesOf csvText in
  if (length lines <? 2)%nat then
    Throw (MalformedInput
      "Shopify CSV must have at least a header row and one data row")
  else
    let headers := headersOf (default EmptyString (head lines)) in
    let sessionIdIndex := findIndex sessionIdHeader headers in
    let orderIdIndex := findIndex orderIdHeader headers in
    let successRateIndex := findIndex successRateHeader headers in
    let timestampIndex := findIndex timestampHeader headers in
    if (sessionIdIndex =? -1) || (successRateIndex =? -1) then
      Throw (MissingColumns
        "Shopify CSV must contain columns for session_id and success_rate")
    else
      let data :=
        forRows (shopifyRow sessionIdIndex orderIdIndex successRateIndex
                   timestampIndex) (tail lines) [] in
      if (length data =? 0)%nat then
        Throw (EmptyResult "No valid Shopify data rows found in CSV")
      else Ok data.

(** The duration-source parser of part_007 (lines 174-223).  Its row body
    is the text of SessionAnalyzer.tsx; only the header tests and the
    message for missing columns differ. *)
Definition sessionLengthHeader (h : string) : bool :=
  includes h "session"
  && (includes h "length" || includes h "duration" || includes h "time").

Definition userIdHeader (h : string) : bool :=
  includes h "user" && includes h "id".

Definition parseAWSCSV (csvText : string) : result (list AWSData.t) :=
  let lines := linesOf csvText in
  if (length lines <? 2)%nat then
    Throw (MalformedInput
      "AWS CSV must have at least a header row and one data row")
  else
    let headers := headersOf (default EmptyString (head lines)) in
    let sessionIdIndex := findIndex sessionIdHeader headers in
    let sessionLengthIndex := findIndex sessionLengthHeader headers in
    let userIdIndex := findIndex userIdHeader headers in
    let timestampIndex := findIndex timestampHeader headers in
    if (sessionIdIndex =? -1) || (sessionLengthIndex =? -1) then
      Throw (MissingColumns
        "AWS CSV must contain columns for session_id and session_length")
    else
      let data :=
        forRows (Main.awsRow sessionIdIndex sessionLengthIndex userIdIndex
                   timestampIndex) (tail lines) [] in
      if (length data =? 0)%nat then
        Throw (EmptyResult "No valid AWS data rows found in CSV")
      else Ok data.

End V7.

(** ** The component in binary64 arithmetic

    The numbers of JavaScript are the IEEE-754 binary64 numbers.  This
    module gives the arithmetic of the built-ins with its rounding, and
    then the functions of the component that compute with numbers, each
    with the text it has above. *)

Module Binary64.

(** *** The nearest binary64 number *)

Definition pow2 (e : Z) : Q := Qpower 2 e.

(** The integer part of the binary logarithm of [|q|], for [q] other
    than 0: the difference of the bit lengths of numerator and
    denominator, or one less. *)
Definition ilog2 (q : Q) : Z :=
  let l := Z.log2 (Z.abs (Qnum q)) - Z.log2 (Zpos (Qden q)) in
  if Qle_bool (pow2 l) (Qabs q) then l else l - 1.

(** The exponent of the last bit of the 53-bit significand; the
    subnormal numbers share the least exponent, -1074. *)
Definition exponentOf (q : Q) : Z := Z.max (ilog2 q - 52) (-1074).

(** The nearest integer, the even one of two that are equally near. *)
Definition roundHalfEven (q : Q) : Z :=
  let f := Qfloor q in
  match (q - inject_Z f ?= 1 # 2)%Q with
  | Lt => f
  | Gt => f + 1
  | Eq => if Z.even f then f else f + 1
  end.

(** The Number value of a real: the nearest multiple of
    [2 ^ exponentOf q], and an infinity when that is [2 ^ 1024] or more
    in magnitude. *)
Definition nearest (q : Q) : num :=
  if Qis0 q then Fin 0
  else
    let e := exponentOf q in
    let r := (inject_Z (roundHalfEven (q / pow2 e)) * pow2 e)%Q in
    if Qle_bool (pow2 1024) (Qabs r) then Inf (Qneg q) else fin r.

Definition number (x : num) : num :=
  match x with
  | Fin q => nearest q
  | _ => x
  end.

(** *** The built-ins

    A literal denotes the binary64 number nearest to its value, and an
    operation returns the one nearest to its exact result. *)
Definition parseFloat (s : string) : num := number (JS.parseFloat s).
Definition Number_ (s : string) : num := number (JS.Number_ s).
Definition add (x y : num) : num := number (JS.add x y).
Definition sub (x y : num) : num := number (JS.sub x y).
Definition mul (x y : num) : num := number (JS.mul x y).
Definition div (x y : num) : num := number (JS.div x y).

(** The position of the decimal point of a positive [q]: the [n] with
    [10 ^ (n - 1) <= q < 10 ^ n], searched upwards from 1 or downwards
    from 0. *)
Fixpoint pointUp (fuel : nat) (q : Q) (n : Z) : Z :=
  match fuel with
  | O => n
  | S f => if Qle_bool (pow10 n) q then pointUp f q (n + 1) else n
  end.

Fixpoint pointDown (fuel : nat) (q : Q) (n : Z) : Z :=
  match fuel with
  | O => n
  | S f => if Qle_bool (pow10 (n - 1)) q then n else pointDown f q (n - 1)
  end.

Definition decimalPoint (q : Q) : Z :=
  if Qle_bool 1 q then pointUp 400 q 1 else pointDown 400 q 0.

(** Number::toString prints the decimal with the fewest digits that
    denotes the number.  With [k] digits the candidates are the two
    neighbours of [q] among the multiples of [10 ^ (n - k)]; of two
    that denote [q] the nearer one is taken, and the even one when they
    are equally near. *)
Definition shortestWith (q : Q) (n k : Z) : option Q :=
  let unit := pow10 (n - k) in
  let s := Qfloor (q / unit) in
  let lo := (inject_Z s * unit)%Q in
  let hi := (inject_Z (s + 1) * unit)%Q in
  let okLo := eqn (nearest lo) (Fin q) in
  let okHi := eqn (nearest hi) (Fin q) in
  if okLo && okHi then
    match (q - lo ?= hi - q)%Q with
    | Lt => Some lo
    | Gt => Some hi
    | Eq => Some (if Z.even s then lo else hi)
    end
  else if okLo then Some lo
  else if okHi then Some hi
  else None.

(** The search over [k = 1, 2, ...]; seventeen digits denote every
    binary64 number, and past them the number is printed in full. *)
Fixpoint shortestFrom (fuel : nat) (q : Q) (n k : Z) : Q :=
  match fuel with
  | O => q
  | S f =>
      match shortestWith q n k with
      | Some d => d
      | None => shortestFrom f q n (k + 1)
      end
  end.

Definition shortest (q : Q) : Q := shortestFrom 17 q (decimalPoint q) 1.

(** [String(x)], as in a template literal. *)
Definition toString (x : num) : string :=
  match x with
  | Fin q =>
      if Qis0 q then "0"
      else JS.toString (fin (if Qneg q then - shortest (- q) else shortest q))
  | _ => JS.toString x
  end.

(** [x.toFixed(f)]: the decimals are those of the exact value of [x];
    from [10 ^ 21] on the number is printed by [toString]. *)
Definition toFixed (x : num) (f : nat) : string :=
  match x with
  | Fin q =>
      if Qle_bool (pow10 21) (Qabs q) then toString x else JS.toFixed x f
  | _ => JS.toFixed x f
  end.

(** *** What the versions share *)

Definition parseFloatAt (values : list string) (i : Z) : num :=
  match at_ values i with
  | Some s => parseFloat s
  | None => NaN
  end.

(** [fuseData] (lines 244-271): the comparison function of the sort
    subtracts two lengths. *)
Definition byLength (a b : FusedDataPoint.t) : num :=
  sub (FusedDataPoint.sessionLength a) (FusedDataPoint.sessionLength b).

Definition fuseData (shopifyData : list ShopifyData.t)
    (awsData : list AWSData.t) : list FusedDataPoint.t :=
  if (length shopifyData =? 0)%nat || (length awsData =? 0)%nat then []
  else
    let awsMap : gmap string AWSData.t :=
      foldl (fun m aws => <[AWSData.sessionId aws := aws]> m) ∅ awsData in
    let '(fused, _) := foldl (fuseStep awsMap) ([], 1) shopifyData in
    sort byLength fused.

(** The row body of the success-source parser of SessionAnalyzer.tsx
    (lines 156-180) and of part_006 (lines 143-167). *)
Definition shopifyRow (sessionIdIndex orderIdIndex successRateIndex
    timestampIndex : Z) (line : string) : option ShopifyData.t :=
  let values := valuesOf line in
  if (length values <? 2)%nat then None
  else
    let sessionId := at_ values sessionIdIndex in
    let successRate := parseFloatAt values successRateIndex in
    match sessionId with
    | Some sessionId =>
        if negb (isEmpty sessionId) && negb (isNaN successRate) then
          let normalizedSuccessRate :=
            if le successRate (Fin 1) then mul successRate (Fin 100)
            else successRate in
          Some (ShopifyData.mk sessionId
                  (optionalAt values orderIdIndex)
                  (Number_ (toFixed normalizedSuccessRate 2))
                  (optionalAt values timestampIndex))
        else None
    | None => None
    end.

(** *** SessionAnalyzer.tsx *)

Module Main.

Definition parseShopifyCSV (csvText : string)
    : result (list ShopifyData.t) :=
  let lines := linesOf csvText in
  if (length lines <? 2)%nat then
    Throw (MalformedInput
      "Shopify CSV must have at least a header row and one data row")
  else
    let headers := headersOf (default EmptyString (head lines)) in
    let sessionIdIndex := findIndex Main.sessionIdHeader headers in
    let orderIdIndex := findIndex Main.orderIdHeader headers in
    let successRateIndex := findIndex Main.successRateHeader headers in
    let timestampIndex := findIndex timestampHeader headers in
    if (sessionIdIndex =? -1) || (successRateIndex =? -1) then
      Throw (MissingColumns
        ("Shopify CSV must contain columns for session_id and success_rate. Found headers: "
         +:+ join ", " headers))
    else
      let data :=
        forRows (shopifyRow sessionIdIndex orderIdIndex successRateIndex
                   timestampIndex) (tail lines) [] in
      if (length data =? 0)%nat then
        Throw (EmptyResult "No valid Shopify data rows found in CSV")
      else Ok data.

Definition awsRow (sessionIdIndex sessionLengthIndex userIdIndex
    timestampIndex : Z) (line : string) : option AWSData.t :=
  let values := valuesOf line in
  if (length values <? 2)%nat then None
  else
    let sessionId := at_ values sessionIdIndex in
    let sessionLength := parseFloatAt values sessionLengthIndex in
    match sessionId with
    | Some sessionId =>
        if negb (isEmpty sessionId) && negb (isNaN sessionLength) then
          Some (AWSData.mk sessionId sessionLength
                  (optionalAt values userIdIndex)
                  (optionalAt values timestampIndex))
        else None
    | None => None
    end.

Definition parseAWSCSV (csvText : string) : result (list AWSData.t) :=
  let lines := linesOf csvText in
  if (length lines <? 2)%nat then
    Throw (MalformedInput
      "AWS CSV must have at least a header row and one data row")
  else
    let headers := headersOf (default EmptyString (head lines)) in
    let sessionIdIndex := findIndex Main.sessionIdHeader headers in
    let sessionLengthIndex := findIndex Main.sessionLengthHeader headers in
    let userIdIndex := findIndex Main.userIdHeader headers in
    let timestampIndex := findIndex timestampHeader headers in
    if (sessionIdIndex =? -1) || (sessionLengthIndex =? -1) then
      Throw (MissingColumns
        ("AWS CSV must contain columns for session_id and session_length. Found headers: "
         +:+ join ", " headers))
    else
      let data :=
        forRows (awsRow sessionIdIndex sessionLengthIndex userIdIndex
                   timestampIndex) (tail lines) [] in
      if (length data =? 0)%nat then
        Throw (EmptyResult "No valid AWS data rows found in CSV")
      else Ok data.

(** [exportData] (lines 415-430): the text handed to the [Blob]. *)
Definition exportRow (row : FusedDataPoint.t) : string :=
  FusedDataPoint.sessionId row +:+ "," +:+
  toString (ofZ (FusedDataPoint.sessionNumber row)) +:+ "," +:+
  toString (FusedDataPoint.sessionLength row) +:+ "," +:+
  toString (FusedDataPoint.successRate row).

Definition exportData (fusedData : list FusedDataPoint.t) : string :=
  join (String LF EmptyString)
    ("Session ID,Session Number,Session Length,Success Rate"
     :: map exportRow fusedData).

(** [Math.floor(fused.length * 0.65)] *)
Definition splitIndex (fused : list FusedDataPoint.t) : nat :=
  Main.toIndex (floor (mul (ofNat (length fused)) (nearest (65 # 100)))).

(** [data.reduce((sum, p) => sum + p.successRate, 0) / data.length] *)
Definition meanSuccessRate (data : list FusedDataPoint.t) : num :=
  div (foldl (fun sum p => add sum (FusedDataPoint.successRate p))
         (Fin 0) data)
      (ofNat (length data)).

Definition sliceRate (data : list FusedDataPoint.t) : string :=
  if (0 <? length data)%nat then toFixed (meanSuccessRate data) 1
  else "0".

(** The statistics of lines 286-303. *)
Definition reportStats (shopifyData : list ShopifyData.t)
    (awsData : list AWSData.t) (fused : list FusedDataPoint.t)
    : Main.Stats :=
  let totalSessions := Nat.max (length shopifyData) (length awsData) in
  let matchedSessions := length fused in
  let earlyData := slice fused 0 (splitIndex fused) in
  let lateData := sliceFrom fused (splitIndex fused) in
  let inflectionPoint :=
    if (0 <? length fused)%nat then
      orElse (from_option FusedDataPoint.sessionLength NaN
                (fused !! splitIndex fused)) (Fin 0)
    else Fin 0 in
  Main.mkStats totalSessions matchedSessions (toFixed inflectionPoint 1)
    (sliceRate earlyData) (sliceRate lateData).

Definition generateFusionReport (st : Main.State) : Main.State :=
  if (length (Main.shopifyData st) =? 0)%nat
     || (length (Main.awsData st) =? 0)%nat
  then Main.mkState (Main.shopifyData st) (Main.awsData st)
         (Main.fusedData st) (Main.stats st)
         (Main.isReportGenerated st) Main.BothRequired
  else
    let fused := fuseData (Main.shopifyData st) (Main.awsData st) in
    if (length fused =? 0)%nat then
      Main.mkState (Main.shopifyData st) (Main.awsData st)
        (Main.fusedData st) (Main.stats st)
        (Main.isReportGenerated st)
        (Main.NoMatchingSessions (length (Main.shopifyData st))
           (length (Main.awsData st)))
    else
      let totalSessions :=
        Nat.max (length (Main.shopifyData st)) (length (Main.awsData st)) in
      let matchedSessions := length fused in
      let matchRate :=
        toFixed (mul (div (ofNat matchedSessions) (ofNat totalSessions))
                   (Fin 100)) 1 in
      Main.mkState (Main.shopifyData st) (Main.awsData st) fused
        (reportStats (Main.shopifyData st) (Main.awsData st) fused)
        true
        (Main.ReportGenerated matchedSessions totalSessions matchRate).

(** [getSmoothedData] (lines 104-123) *)
Definition average (f : FusedDataPoint.t -> num)
    (chunk : list FusedDataPoint.t) : num :=
  div (foldl (fun sum p => add sum (f p)) (Fin 0) chunk)
      (ofNat (length chunk)).

Definition smoothedPoint (fusedData : list FusedDataPoint.t)
    (smoothingLevel i : nat) : FusedDataPoint.t :=
  let chunk := slice fusedData i (i + smoothingLevel) in
  let avgLength := average FusedDataPoint.sessionLength chunk in
  let avgSuccess := average FusedDataPoint.successRate chunk in
  FusedDataPoint.mk ("smoothed_" +:+ toString (ofNat i))
    (Math_round (inject_Z (Z.of_nat i)
                 + inject_Z (Z.of_nat smoothingLevel) / 2))
    (Number_ (toFixed avgLength 2))
    (Number_ (toFixed avgSuccess 2)).

Fixpoint smoothLoop (fuel : nat) (fusedData : list FusedDataPoint.t)
    (smoothingLevel i : nat) (smoothed : list FusedDataPoint.t)
    : option (list FusedDataPoint.t) :=
  if (i <? length fusedData)%nat then
    match fuel with
    | O => None
    | S fuel' =>
        let chunk := slice fusedData i (i + smoothingLevel) in
        if (length chunk =? 0)%nat then
          smoothLoop fuel' fusedData smoothingLevel (i + smoothingLevel)
            smoothed
        else
          smoothLoop fuel' fusedData smoothingLevel (i + smoothingLevel)
            (smoothed ++ [smoothedPoint fusedData smoothingLevel i])
    end
  else Some smoothed.

Definition getSmoothedData (fuel : nat) (fusedData : list FusedDataPoint.t)
    (smoothingLevel : nat) : option (list FusedDataPoint.t) :=
  if (length fusedData =? 0)%nat then Some []
  else smoothLoop fuel fusedData smoothingLevel 0 [].

End Main.

(** *** part_006: the duration rows (lines 257-330) *)

Module V6.

Section WithDate.

Variable Date_getTime : string -> num.

Definition timestampLength (startTime endTime : option string)
    : option num :=
  match startTime, endTime with
  | Some startTime, Some endTime =>
      let startNum := parseFloat startTime in
      let endNum := parseFloat endTime in
      let ms : option (num * num) :=
        if negb (isNaN startNum) && negb (isNaN endNum)
           && V6.numericPattern startTime && V6.numericPattern endTime then
          if lt startNum (Fin (10 ^ 10)) then
            Some (mul startNum (Fin 1000), mul endNum (Fin 1000))
          else Some (startNum, endNum)
        else
          let start := Date_getTime (V6.normalizeTime startTime) in
          let end_ := Date_getTime (V6.normalizeTime endTime) in
          if isNaN start || isNaN end_ then None
          else Some (start, end_) in
      match ms with
      | Some (startMs, endMs) =>
          if isNaN startMs || isNaN endMs then None
          else Some (div (sub endMs startMs) (Fin 1000))
      | None => None
      end
  | _, _ => None
  end.

Definition awsRow (sessionIdIndex sessionLengthIndex startTimestampIndex
    endTimestampIndex userIdIndex timestampIndex : Z) (line : string)
    : option AWSData.t :=
  let values := valuesOf line in
  if (length values <? 2)%nat then None
  else
    let sessionId := at_ values sessionIdIndex in
    let sessionLength : option num :=
      if 0 <=? sessionLengthIndex then
        Some (parseFloatAt values sessionLengthIndex)
      else
        timestampLength (at_ values startTimestampIndex)
          (at_ values endTimestampIndex) in
    match sessionLength, sessionId with
    | Some sessionLength, Some sessionId =>
        if negb (isEmpty sessionId) && negb (isNaN sessionLength)
           && gt sessionLength (Fin 0) then
          Some (AWSData.mk sessionId
                  (Number_ (toFixed sessionLength 2))
                  (optionalAt values userIdIndex)
                  (optionalAt values timestampIndex))
        else None
    | _, _ => None
    end.

End WithDate.

End V6.

(** *** part_007: the success rows (lines 149-171) *)

Module V7.

Definition shopifyRow (sessionIdIndex orderIdIndex successRateIndex
    timestampIndex : Z) (line : string) : option ShopifyData.t :=
  let values := valuesOf line in
  if (length values <? 2)%nat then None
  else
    let sessionId := at_ values sessionIdIndex in
    let successRate := parseFloatAt values successRateIndex in
    match sessionId with
    | Some sessionId =>
        if negb (isEmpty sessionId) && negb (isNaN successRate) then
          Some (ShopifyData.mk sessionId
                  (optionalAt values orderIdIndex)
                  (if gt successRate (Fin 1) then successRate
                   else mul successRate (Fin 100))
                  (optionalAt values timestampIndex))
        else None
    | None => None
    end.

End V7.

End Binary64.

(** * Definitions for the statements *)

(** ** The fuser as the specification words it *)

(** The duration record that the index holds for a session id: the last
    one of that id (a later record overwrites an earlier one). *)
Definition indexLookup (awsData : list AWSData.t) (id : string)
    : option AWSData.t :=
  last (List.filter (fun a => String.eqb (AWSData.sessionId a) id) awsData).

(** Whether the index holds a record for the id. *)
Definition hit (awsData : list AWSData.t) (id : string) : bool :=
  match indexLookup awsData id with Some _ => true | None => false end.

(** The inner join: the success records are scanned in their order, and
    each one whose id is in the index gives one fused record; [k] is the
    sequence number of the next record. *)
Fixpoint innerJoinFrom (awsData : list AWSData.t) (k : Z)
    (shopifyData : list ShopifyData.t) : list FusedDataPoint.t :=
  match shopifyData with
  | [] => []
  | s :: rest =>
      match indexLookup awsData (ShopifyData.sessionId s) with
      | Some a =>
          FusedDataPoint.mk (ShopifyData.sessionId s) k
            (AWSData.sessionLength a) (ShopifyData.successRate s)
          :: innerJoinFrom awsData (k + 1) rest
      | None => innerJoinFrom awsData k rest
      end
  end.

Definition innerJoin (shopifyData : list ShopifyData.t)
    (awsData : list AWSData.t) : list FusedDataPoint.t :=
  innerJoinFrom awsData 1 shopifyData.

Definition successIds (shopifyData : list ShopifyData.t) : list string :=
  map ShopifyData.sessionId shopifyData.

Definition durationIds (awsData : list AWSData.t) : list string :=
  map AWSData.sessionId awsData.

Definition ascendingByLength (l : list FusedDataPoint.t) : Prop :=
  Sorted (fun a b => le (FusedDataPoint.sessionLength a)
                        (FusedDataPoint.sessionLength b) = true) l.

Definition ofLength (d : num) (p : FusedDataPoint.t) : bool :=
  eqn (FusedDataPoint.sessionLength p) d.

(** [out] is the stable ascending sort of [l]: a rearrangement of [l] in
    ascending order of [sessionLength] in which the records of any one
    length stand in the order they have in [l]. *)
Definition stableSortOf (l out : list FusedDataPoint.t) : Prop :=
  Permutation l out
  /\ ascendingByLength out
  /\ forall d, List.filter (ofLength d) out = List.filter (ofLength d) l.

Definition noNaNLength (awsData : list AWSData.t) : Prop :=
  Forall (fun a => isNaN (AWSData.sessionLength a) = false) awsData.

(** ** Rounding and normalization *)

(** A rational that is a decimal fraction: an integer times a power of
    ten.  Every finite number that [parseFloat] returns is one. *)
Definition decimalQ (q : Q) : Prop :=
  exists (m e : Z), (q == inject_Z m * pow10 e)%Q.

(** A number that is an infinity, [NaN], or a decimal fraction in lowest
    terms. *)
Definition decimalNum (x : num) : Prop :=
  match x with
  | Fin q => decimalQ q /\ Qred q = q
  | _ => True
  end.

(** The nearest multiple of [10 ^ -f], away from zero on a tie. *)
Definition roundedQ (f : nat) (q : Q) : Q :=
  let v := (inject_Z (roundHalfUp (Qabs q * pow10 (Z.of_nat f)))
            * pow10 (- Z.of_nat f))%Q in
  if Qneg q then (- v)%Q else v.

Definition isHuge (q : Q) : bool := Qle_bool (pow10 21) (Qabs q).

(** [x] rounded to [f] decimals.  The infinities, [NaN] and the values
    from [10 ^ 21] on, which [toFixed] prints in full, stay as they
    are. *)
Definition roundTo (f : nat) (x : num) : num :=
  match x with
  | Fin q => if isHuge q then x else fin (roundedQ f q)
  | _ => x
  end.

(** The rate as the specification normalizes it: a value of at most 1 is
    a fraction and is scaled by 100, a value above 1 is kept. *)
Definition normalizedRate (v : num) : num :=
  if le v (Fin 1) then mul v (Fin 100) else v.

(** ** Numbers within bounds *)

(** [x] is a finite number from [lo] to [hi]. *)
Definition between (lo hi : Z) (x : num) : Prop :=
  exists q, x = Fin q /\ (inject_Z lo <= q)%Q /\ (q <= inject_Z hi)%Q.

(** [x] is a finite number below [10 ^ 21] in absolute value: one that
    [toFixed] prints with the decimals asked for. *)
Definition moderate (x : num) : Prop :=
  exists q, x = Fin q /\ isHuge q = false.

(** ** Texts *)

(** The number of occurrences of a character. *)
Fixpoint countChar (c : ascii) (s : string) : nat :=
  match s with
  | EmptyString => O
  | String a s' => ((if Ascii.eqb a c then 1 else 0) + countChar c s')%nat
  end.

Fixpoint allChars (p : ascii -> bool) (s : string) : bool :=
  match s with
  | EmptyString => true
  | String c s' => p c && allChars p s'
  end.

Definition allDigits (s : string) : bool := allChars is_digit s.

Definition startsWithDigit (s : string) : bool :=
  match s with
  | String c _ => is_digit c
  | EmptyString => false
  end.

(** A character that a CSV cell keeps as it is: no white space (so no
    line feed), no comma, no quote. *)
Definition plainChar (c : ascii) : bool :=
  negb (is_space c) && negb (Ascii.eqb c comma) && negb (is_quote c).

Definition plainText (s : string) : bool := allChars plainChar s.

(** The text of a decimal literal from its parts: integer digits, an
    optional fraction, an optional exponent with its sign. *)
Definition fractionText (fr : option string) : string :=
  match fr with
  | Some fp => String "." fp
  | None => EmptyString
  end.

Definition exponentText (ex : option (bool * string)) : string :=
  match ex with
  | Some (negative, ds) =>
      String "e" (String (if negative then "-" else "+") ds)
  | None => EmptyString
  end.

Definition literalText (ip : string) (fr : option string)
    (ex : option (bool * string)) : string :=
  ip +:+ fractionText fr +:+ exponentText ex.

Definition signedText (negative : bool) (t : string) : string :=
  if negative then String "-" t else t.

Definition exponentValue (ex : option (bool * string)) : Z :=
  match ex with
  | Some (negative, ds) =>
      (if negative then -1 else 1) * Z.of_N (digits_val 0 ds)
  | None => 0
  end.

(** The value of the literal: its digits as an integer, scaled by the
    exponent less the number of fraction digits. *)
Definition literalValue (ip : string) (fr : option string)
    (ex : option (bool * string)) : Q :=
  let fp := default EmptyString fr in
  (inject_Z (Z.of_N (digits_val 0 (ip +:+ fp)))
   * pow10 (exponentValue ex - Z.of_nat (String.length fp)))%Q.

Definition digitsOpt (fr : option string) : bool :=
  match fr with Some fp => allDigits fp | None => true end.

Definition exponentOk (ex : option (bool * string)) : bool :=
  match ex with
  | Some (_, ds) => allDigits ds && negb (isEmpty ds)
  | None => true
  end.

(** ** Exporting and parsing again *)

(** A session id that survives a CSV cell: not empty, no comma, no line
    feed, and unchanged by trimming and by quote stripping. *)
Definition cleanId (id : string) : Prop :=
  isEmpty id = false
  /\ countChar comma id = O /\ countChar LF id = O
  /\ trim id = id /\ stripQuotes id = id.

(** A fused record whose fields the export prints exactly: a clean id
    and two numbers (decimal fractions or infinities). *)
Definition exportable (p : FusedDataPoint.t) : Prop :=
  cleanId (FusedDataPoint.sessionId p)
  /\ decimalNum (FusedDataPoint.sessionLength p)
  /\ isNaN (FusedDataPoint.sessionLength p) = false
  /\ decimalNum (FusedDataPoint.successRate p)
  /\ isNaN (FusedDataPoint.successRate p) = false.

(** The duration record and the success record that a fused record is
    read back as; the exported header names no user, order or timestamp
    column. *)
Definition durationOf (p : FusedDataPoint.t) : AWSData.t :=
  AWSData.mk (FusedDataPoint.sessionId p) (FusedDataPoint.sessionLength p)
    None None.

Definition successOf (rate : num -> num) (p : FusedDataPoint.t)
    : ShopifyData.t :=
  ShopifyData.mk (FusedDataPoint.sessionId p) None
    (rate (FusedDataPoint.successRate p)) None.

Definition exportHeader : string :=
  "Session ID,Session Number,Session Length,Success Rate".

(** ** Line endings *)

Definition CR : ascii := "013"%char.

(** The text with a carriage return put before every line feed, as a
    file with Windows line endings holds it. *)
Fixpoint toCRLF (s : string) : string :=
  match s with
  | EmptyString => EmptyString
  | String c s' =>
      if Ascii.eqb c LF then String CR (String LF (toCRLF s'))
      else String c (toCRLF s')
  end.

(** Two lines that the parsers cannot tell apart: the same header cells
    and the same value cells. *)
Definition sameCells (a b : string) : Prop :=
  headersOf a = headersOf b /\ valuesOf a = valuesOf b.

(** A success CSV and a duration CSV with Windows line endings. *)
Definition crlfShopifyCSV : string :=
  "session_id,success_rate" +:+ String CR (String LF "a,0.9")
  +:+ String CR (String LF "b,45") +:+ String CR (String LF EmptyString).

Definition missingRateCSV : string :=
  "Session_ID, Order" +:+ String LF "a,1".

(** ** The states of the component *)

(** What holds of the component of SessionAnalyzer.tsx in every state:
    there are fused records, in ascending order of length, and the
    statistics count them; a source whose upload has succeeded has
    records; no duration is [NaN]; the smoothing level is one of the
    slider. *)
Definition consistent (c : Main.Component) : Prop :=
  Main.fusedData (Main.report c) <> []
  /\ Main.matchedSessions (Main.stats (Main.report c))
     = length (Main.fusedData (Main.report c))
  /\ ascendingByLength (Main.fusedData (Main.report c))
  /\ (Main.shopifyUploadStatus c = Main.Success ->
      Main.shopifyData (Main.report c) <> [])
  /\ (Main.awsUploadStatus c = Main.Success ->
      Main.awsData (Main.report c) <> [])
  /\ noNaNLength (Main.awsData (Main.report c))
  /\ (5 <= Main.smoothingLevel c <= 25)%nat.

(** The statistics [s] are the ones that the formulas of the report give
    for the fused records: their number, and the inflection point and
    the two rates of the split at 65 per cent. *)
Definition statsOf (fused : list FusedDataPoint.t) (s : Main.Stats) : Prop :=
  Main.matchedSessions s = length fused
  /\ Main.inflectionPoint s
     = Main.inflectionPoint (Main.reportStats [] [] fused)
  /\ Main.earlySuccessRate s
     = Main.earlySuccessRate (Main.reportStats [] [] fused)
  /\ Main.lateSuccessRate s
     = Main.lateSuccessRate (Main.reportStats [] [] fused).

(** What holds of the component of part_006 in every state: the report
    flag is set exactly when there are fused records; the statistics
    are those of the fused records, and the zeros of the first render
    when there are none; the fused records stand in ascending order of
    length; a source whose upload has succeeded has records; no
    duration is [NaN]; the smoothing level is one of the slider. *)
Definition consistentPart006 (c : Main.Component) : Prop :=
  (Main.isReportGenerated (Main.report c) = true
   <-> Main.fusedData (Main.report c) <> [])
  /\ (Main.fusedData (Main.report c) = [] ->
      Main.stats (Main.report c) = V6.noStats)
  /\ (Main.fusedData (Main.report c) <> [] ->
      statsOf (Main.fusedData (Main.report c)) (Main.stats (Main.report c)))
  /\ ascendingByLength (Main.fusedData (Main.report c))
  /\ (Main.shopifyUploadStatus c = Main.Success ->
      Main.shopifyData (Main.report c) <> [])
  /\ (Main.awsUploadStatus c = Main.Success ->
      Main.awsData (Main.report c) <> [])
  /\ noNaNLength (Main.awsData (Main.report c))
  /\ (5 <= Main.smoothingLevel c <= 25)%nat.

(** The error text that an upload message shows for a parse error: the
    message of the error, the one for missing columns being shortened. *)
Definition shownError (e : ParseError) (headers : list string) : string :=
  match e with
  | MissingColumns _ =>
      "Missing required columns. Found: " +:+ join ", " headers
  | MalformedInput message | EmptyResult message => message
  end.

(** ** Binary64 numbers *)

(** A rational that is a binary64 number: an integer of fewer than 53
    bits times a power of two, the exponent within the range of the
    format. *)
Definition representable (a : Q) : Prop :=
  exists m e : Z,
    (a == inject_Z m * Binary64.pow2 e)%Q
    /\ Z.abs m < 2 ^ 53 /\ -1074 <= e <= 971.

(** [x] is a binary64 number, an infinity or [NaN]. *)
Definition binary64 (x : num) : Prop := Binary64.number x = x.

(** [x] rounded to [f] decimals, as a binary64 number. *)
Definition roundTo64 (f : nat) (x : num) : num :=
  Binary64.number (roundTo f x).

(** The rate as the parsers normalize it, in binary64. *)
Definition normalizedRate64 (v : num) : num :=
  if le v (Fin 1) then Binary64.mul v (Fin 100) else v.

(** The decimal that [toString] prints for a finite number. *)
Definition printed (q : Q) : Q :=
  if Qneg q then (- Binary64.shortest (- q))%Q else Binary64.shortest q.

(** The sum and the mean of a list of numbers as binary64 computes them,
    adding from the left. *)
Definition sum64 (xs : list num) : num := foldl Binary64.add (Fin 0) xs.

Definition mean64 (xs : list num) : num :=
  Binary64.div (sum64 xs) (ofNat (length xs)).

(** The mean of a list of rationals. *)
Definition meanQ (qs : list Q) : Q :=
  (fold_right Qplus 0 qs / inject_Z (Z.of_nat (length qs)))%Q.

(** A fused record whose fields the export prints and the parsers read
    back: a clean id and two binary64 numbers. *)
Definition exportable64 (p : FusedDataPoint.t) : Prop :=
  cleanId (FusedDataPoint.sessionId p)
  /\ binary64 (FusedDataPoint.sessionLength p)
  /\ isNaN (FusedDataPoint.sessionLength p) = false
  /\ binary64 (FusedDataPoint.successRate p)
  /\ isNaN (FusedDataPoint.successRate p) = false.

(** [x] is the binary64 number of a decimal with two decimals:
    [k / 100] with [k] from [lo] to [hi]. *)
Definition hundredths (lo hi : Z) (x : num) : Prop :=
  exists k : Z, lo <= k <= hi /\ x = Binary64.nearest (k # 100).

(** ** The inputs of the examples *)

(** The records of the scenario of the specification, and what the fuser
    makes of them. *)
Definition exampleShopify : list ShopifyData.t :=
  [ShopifyData.mk "sess_1" None (Fin 90) None;
   ShopifyData.mk "sess_2" None (Fin 40) None;
   ShopifyData.mk "sess_3" None (Fin (6 # 5)) None].

Definition exampleAws : list AWSData.t :=
  [AWSData.mk "sess_1" (Fin 2) None None;
   AWSData.mk "sess_2" (Fin 5) None None;
   AWSData.mk "sess_4" (Fin 1) None None].

Definition exampleFused : list FusedDataPoint.t :=
  [FusedDataPoint.mk "sess_1" 1 (Fin 2) (Fin 90);
   FusedDataPoint.mk "sess_2" 2 (Fin 5) (Fin 40)].

(** A success CSV in which one session id occurs twice, and a duration
    CSV with one row of that id. *)
Definition duplicateIdShopifyCSV : string :=
  "session_id,success_rate" +:+ String LF "s,0.5" +:+ String LF "s,0.7".

Definition singleAwsCSV : string :=
  "session_id,session_length" +:+ String LF "s,3".


(** A row whose session-id cell is empty and whose number parses. *)
Definition emptyIdShopifyCSV : string :=
  "session_id,success_rate" +:+ String LF ",0.5" +:+ String LF "s,0.7".

Definition emptyIdAwsCSV : string :=
  "session_id,session_length" +:+ String LF ",3" +:+ String LF "s,4".

(** One row of rate 1.234, and one of rate 150. *)
Definition roundedRateCSV : string :=
  "session_id,success_rate" +:+ String LF "s,1.234".

Definition rate150CSV : string :=
  "session_id,success_rate" +:+ String LF "s,150".

(** Duration rows with a negative, a tiny and an infinite length. *)
Definition negativeLengthCSV : string :=
  "session_id,session_length" +:+ String LF "s,-5".

Definition tinyLengthCSV : string :=
  "session_id,duration" +:+ String LF "s,0.001".

Definition infiniteLengthCSV : string :=
  "session_id,duration" +:+ String LF "s,Infinity".

(** Unix start and end times: the scenario of the specification, and a
    difference with three decimals. *)
Definition unixSecondsRow : string := "s,1724515200,1724515202.5".

(** A state with one matched session of length 2.34 and rate 33.33. *)
Definition oneSessionState : Main.State :=
  Main.mkState [ShopifyData.mk "a" None (Fin (3333 # 100)) None]
    [AWSData.mk "a" (Fin (234 # 100)) None None] []
    (Main.mkStats 0 0 EmptyString EmptyString EmptyString) false
    Main.NoMessage.

(** A state with one matched session of length 2.34 and rate 33.33, as
    binary64 numbers. *)
Definition oneSessionState64 : Main.State :=
  Main.mkState [ShopifyData.mk "a" None (Binary64.nearest (3333 # 100)) None]
    [AWSData.mk "a" (Binary64.nearest (234 # 100)) None None] []
    (Main.mkStats 0 0 EmptyString EmptyString EmptyString) false
    Main.NoMessage.

(** Eleven fused records of length 0.015. *)
Definition elevenShort : list FusedDataPoint.t :=
  repeat (FusedDataPoint.mk "a" 1 (Binary64.nearest (15 # 1000)) (Fin 50)) 11.

(** One fused record of rate 1 (one per cent). *)
Definition onePercentFused : list FusedDataPoint.t :=
  [FusedDataPoint.mk "a" 1 (Fin 5) (Fin 1)].

(** The component after a success file and a duration file have been
    read, with a [Math.pow] and draws of [Math.random] that stand for
    the host's. *)
Definition constantPow (x y : num) : num := Fin 1.

Definition zeroDraws (i : nat) : num := Fin 0.

Definition bothLoaded : Main.Component :=
  Main.handle constantPow (Main.AWSFileRead singleAwsCSV)
    (Main.handle constantPow (Main.ShopifyFileRead duplicateIdShopifyCSV)
       (Main.initial constantPow zeroDraws)).

(** A duration row with date texts, and a date parser that knows the two
    texts of the row (in milliseconds from the first one). *)
Definition dateRow : string := "s,2024-01-01 10:00:00,2024-01-01 10:00:05".

Definition exampleDate (s : string) : num :=
  if String.eqb s "2024-01-01T10:00:00" then Fin 0
  else if String.eqb s "2024-01-01T10:00:05" then Fin 5000
  else NaN.

(** The component of part_006 after a click on the demo button. *)
Definition constantExp (x : num) : num := Fin 1.

Definition demoLoaded006 : Main.Component :=
  V6.handle constantPow constantExp exampleDate
    (Main.LoadDemoClicked zeroDraws) V6.initial.

(** * Verified properties *)

(** ** Strings and lines *)

Lemma split_nonempty sep s : split sep s <> [].
Proof.
  destruct s as [|c s]; simpl; [discriminate|].
  destruct (Ascii.eqb c sep); [discriminate|].
  destruct (split sep s); discriminate.
Qed.

Lemma split_length sep s : length (split sep s) = S (countChar sep s).
Proof.
  induction s as [|c s IH]; simpl; [reflexivity|].
  destruct (Ascii.eqb c sep); simpl; [now rewrite IH|].
  destruct (split sep s) eqn:E; simpl in *; [discriminate|]. exact IH.
Qed.

(** ** The row loop *)

Lemma forRows_omap {A} (body : string -> option A) rows data :
  forRows body rows data = data ++ omap body rows.
Proof.
  revert data. induction rows as [|line rest IH]; intros data; simpl.
  - now rewrite app_nil_r.
  - destruct (body line) as [r|]; rewrite IH; [|reflexivity].
    now rewrite <- app_assoc.
Qed.

Lemma omap_Forall {A B} (f : A -> option B) (P : B -> Prop) l :
  (forall x y, f x = Some y -> P y) -> Forall P (omap f l).
Proof.
  intros Hf. induction l as [|x l IH]; simpl; [constructor|].
  destruct (f x) as [y|] eqn:E; simpl; [constructor; eauto|exact IH].
Qed.

(** What a successful parse returns: the accepted rows of the lines after
    the header, in their order. *)
Lemma parseShopifyCSV_Ok csvText data :
  Main.parseShopifyCSV csvText = Ok data ->
  exists i j k l, data = omap (shopifyRow i j k l) (tail (linesOf csvText)).
Proof.
  unfold Main.parseShopifyCSV.
  destruct (length (linesOf csvText) <? 2)%nat; [discriminate|].
  destruct (_ || _); [discriminate|].
  rewrite forRows_omap; simpl.
  destruct (length _ =? 0)%nat; [discriminate|].
  intros [= <-]. eauto.
Qed.

Lemma parseAWSCSV_Ok csvText data :
  Main.parseAWSCSV csvText = Ok data ->
  exists i j k l, data = omap (Main.awsRow i j k l) (tail (linesOf csvText)).
Proof.
  unfold Main.parseAWSCSV.
  destruct (length (linesOf csvText) <? 2)%nat; [discriminate|].
  destruct (_ || _); [discriminate|].
  rewrite forRows_omap; simpl.
  destruct (length _ =? 0)%nat; [discriminate|].
  intros [= <-]. eauto.
Qed.

Lemma isEmpty_false s : isEmpty s = false -> s <> EmptyString.
Proof. destruct s; [discriminate|discriminate]. Qed.

Lemma shopifyRow_sessionId i j k l line r :
  shopifyRow i j k l line = Some r ->
  at_ (valuesOf line) i = Some (ShopifyData.sessionId r)
  /\ ShopifyData.sessionId r <> EmptyString.
Proof.
  unfold shopifyRow.
  destruct (length (valuesOf line) <? 2)%nat; [discriminate|].
  destruct (at_ (valuesOf line) i) as [id|]; [|discriminate].
  destruct (isEmpty id) eqn:E; simpl; [discriminate|].
  destruct (negb _); [|discriminate].
  intros [= <-]; simpl. split; [reflexivity|now apply isEmpty_false].
Qed.

Lemma awsRow_sessionId i j k l line r :
  Main.awsRow i j k l line = Some r ->
  at_ (valuesOf line) i = Some (AWSData.sessionId r)
  /\ AWSData.sessionId r <> EmptyString
  /\ isNaN (AWSData.sessionLength r) = false.
Proof.
  unfold Main.awsRow.
  destruct (length (valuesOf line) <? 2)%nat; [discriminate|].
  destruct (at_ (valuesOf line) i) as [id|]; [|discriminate].
  destruct (isEmpty id) eqn:E; simpl; [discriminate|].
  destruct (isNaN _) eqn:N; simpl; [discriminate|].
  intros [= <-]; simpl. repeat split; [now apply isEmpty_false|exact N].
Qed.

(** ** The order of numbers *)

Lemma lt_Fin a b : lt (Fin a) (Fin b) = true <-> (a < b)%Q.
Proof.
  simpl. rewrite Qlt_alt. destruct (a ?= b)%Q; split; congruence.
Qed.

Lemma eqn_Fin a b : eqn (Fin a) (Fin b) = true <-> (a == b)%Q.
Proof. simpl. apply Qeq_bool_iff. Qed.

Lemma le_Fin a b : le (Fin a) (Fin b) = true <-> (a <= b)%Q.
Proof.
  unfold le. rewrite orb_true_iff, lt_Fin, eqn_Fin. split.
  - intros [H|H]; [now apply Qlt_le_weak|rewrite H; apply Qle_refl].
  - intros H. destruct (Qlt_le_dec a b) as [L|L]; [now left|right].
    now apply Qle_antisym.
Qed.

Lemma lt_false_Fin a b : lt (Fin a) (Fin b) = false <-> (b <= a)%Q.
Proof.
  rewrite <- not_true_iff_false, lt_Fin. split.
  - apply Qnot_lt_le.
  - apply Qle_not_lt.
Qed.

Lemma le_trans_num x y z :
  le x y = true -> le y z = true -> le x z = true.
Proof.
  destruct x as [|[]|a], y as [|[]|b], z as [|[]|c];
    try (simpl; congruence); try (intros; reflexivity);
    try (unfold le; simpl; discriminate).
  rewrite !le_Fin. apply Qle_trans.
Qed.

Lemma le_total_num x y :
  isNaN x = false -> isNaN y = false -> lt y x = false -> le x y = true.
Proof.
  destruct x as [|[]|a], y as [|[]|b]; simpl; try congruence;
    try (intros; reflexivity).
  intros _ _. change (lt (Fin b) (Fin a) = false -> le (Fin a) (Fin b) = true).
  now rewrite lt_false_Fin, le_Fin.
Qed.

Lemma lt_le_num x y : lt x y = true -> le x y = true.
Proof. unfold le. now intros ->. Qed.

Lemma le_antisym_num x y :
  le x y = true -> le y x = true -> eqn x y = true.
Proof.
  destruct x as [|[]|a], y as [|[]|b];
    try (unfold le; simpl; congruence).
  rewrite !le_Fin, eqn_Fin. apply Qle_antisym.
Qed.

Lemma eqn_le_num x y : eqn x y = true -> le x y = true.
Proof. unfold le. intros ->. apply orb_true_r. Qed.

Lemma eqn_sym_num x y : eqn x y = eqn y x.
Proof.
  destruct x as [|[]|a], y as [|[]|b]; try reflexivity.
  simpl. apply eq_true_iff_eq. rewrite !Qeq_bool_iff.
  split; intros H; now symmetry.
Qed.

Lemma eqn_trans_num x y z :
  eqn x y = true -> eqn y z = true -> eqn x z = true.
Proof.
  destruct x as [|[]|a], y as [|[]|b], z as [|[]|c];
    try (simpl; congruence).
  rewrite !eqn_Fin. intros H1 H2. now rewrite H1.
Qed.

Lemma eqn_refl_num x : isNaN x = false -> eqn x x = true.
Proof.
  destruct x as [|[]|a]; simpl; try congruence. intros _.
  apply Qeq_bool_iff. reflexivity.
Qed.

Lemma lt_not_eqn x y : lt x y = true -> eqn x y = false.
Proof.
  destruct x as [|[]|a], y as [|[]|b]; try (simpl; congruence).
  rewrite lt_Fin. intros H. apply not_true_iff_false. rewrite eqn_Fin.
  intros E. rewrite E in H. exact (Qlt_irrefl _ H).
Qed.

(** The comparison function of the fuser is positive exactly when its
    second argument is the shorter session. *)
Lemma gt_sub x y :
  isNaN x = false -> isNaN y = false ->
  gt (sub x y) (Fin 0) = lt y x.
Proof.
  destruct x as [|[]|a], y as [|[]|b]; try (simpl; congruence);
    try (intros; reflexivity).
  intros _ _. unfold gt, sub, neg, add, fin.
  apply eq_true_iff_eq. rewrite !lt_Fin, !Qred_correct.
  split; intros H; lra.
Qed.

(** ** The stable sort *)

Section Sort.

Local Abbreviation len := FusedDataPoint.sessionLength.
Local Abbreviation noNaN l := (Forall (fun p => isNaN (len p) = false) l).

Lemma byLength_gt a b :
  isNaN (len a) = false -> isNaN (len b) = false ->
  gt (byLength a b) (Fin 0) = lt (len b) (len a).
Proof. apply gt_sub. Qed.

Lemma insert_Permutation {A} (cmp : A -> A -> num) x l :
  Permutation (x :: l) (insert cmp x l).
Proof.
  induction l as [|y l IH]; cbn [insert]; [reflexivity|].
  destruct (gt (cmp x y) (Fin 0)); [|reflexivity].
  rewrite perm_swap. now constructor.
Qed.

Lemma sort_Permutation {A} (cmp : A -> A -> num) l :
  Permutation l (sort cmp l).
Proof.
  induction l as [|x l IH]; cbn [sort]; [reflexivity|].
  rewrite <- insert_Permutation. now constructor.
Qed.

Lemma insert_ascending x l :
  isNaN (len x) = false -> noNaN l ->
  ascendingByLength l -> ascendingByLength (insert byLength x l).
Proof.
  unfold ascendingByLength. intros Hx Hl Hs.
  induction l as [|y l IH]; cbn [insert]; [repeat constructor|].
  inversion Hl as [|? ? Hy Hl']; subst.
  inversion Hs as [|? ? Hs' Hd]; subst.
  rewrite (byLength_gt x y Hx Hy).
  destruct (lt (len y) (len x)) eqn:E.
  - constructor; [now apply IH|].
    destruct l as [|z l]; cbn [insert].
    + constructor. now apply lt_le_num.
    + inversion Hl' as [|? ? Hz _]; subst.
      rewrite (byLength_gt x z Hx Hz).
      destruct (lt (len z) (len x)); constructor.
      * now inversion Hd.
      * now apply lt_le_num.
  - constructor; [exact Hs|]. constructor. now apply le_total_num.
Qed.

Lemma sort_noNaN l : noNaN l -> noNaN (sort byLength l).
Proof.
  intros H. eapply Permutation_Forall; [apply sort_Permutation|exact H].
Qed.

Lemma sort_ascending l : noNaN l -> ascendingByLength (sort byLength l).
Proof.
  induction l as [|x l IH]; intros H; cbn [sort]; [constructor|].
  inversion H; subst.
  apply insert_ascending; auto using sort_noNaN.
Qed.

Lemma insert_filter d x l :
  isNaN (len x) = false -> noNaN l ->
  List.filter (ofLength d) (insert byLength x l)
  = List.filter (ofLength d) (x :: l).
Proof.
  intros Hx Hl. induction l as [|y l IH]; [reflexivity|].
  inversion Hl as [|? ? Hy Hl']; subst. cbn [insert].
  rewrite (byLength_gt x y Hx Hy).
  destruct (lt (len y) (len x)) eqn:E; [|reflexivity].
  cbn [List.filter]. rewrite (IH Hl'). cbn [List.filter]. unfold ofLength.
  destruct (eqn (len x) d) eqn:Ex, (eqn (len y) d) eqn:Ey; try reflexivity.
  exfalso. apply lt_not_eqn in E.
  rewrite (eqn_trans_num (len y) d (len x)) in E; [discriminate|exact Ey|].
  now rewrite eqn_sym_num.
Qed.

Lemma sort_filter d l :
  noNaN l ->
  List.filter (ofLength d) (sort byLength l) = List.filter (ofLength d) l.
Proof.
  induction l as [|x l IH]; intros H; [reflexivity|].
  inversion H; subst. cbn [sort].
  rewrite insert_filter; auto using sort_noNaN.
  cbn [List.filter]. rewrite IH by assumption. reflexivity.
Qed.

Lemma sort_stableSortOf l : noNaN l -> stableSortOf l (sort byLength l).
Proof.
  intros H. split; [apply sort_Permutation|].
  split; [now apply sort_ascending|]. intros d. now apply sort_filter.
Qed.

Lemma filter_eq_In l1 l2 z :
  noNaN l1 ->
  (forall d, List.filter (ofLength d) l1 = List.filter (ofLength d) l2) ->
  In z l1 -> In z l2.
Proof.
  intros N HF Hz.
  assert (Hn : isNaN (len z) = false).
  { rewrite Forall_forall in N. apply N. now apply list_elem_of_In. }
  assert (H : In z (List.filter (ofLength (len z)) l1)).
  { apply filter_In. split; [exact Hz|]. now apply eqn_refl_num. }
  rewrite HF in H. now apply filter_In in H.
Qed.

Lemma ascending_head_le x l z :
  isNaN (len x) = false ->
  StronglySorted (fun a b => le (len a) (len b) = true) (x :: l) ->
  In z (x :: l) -> le (len x) (len z) = true.
Proof.
  intros Nx S [<-|Hz].
  - apply eqn_le_num. now apply eqn_refl_num.
  - inversion S as [|? ? _ A]; subst.
    rewrite Forall_forall in A. apply A. now apply list_elem_of_In.
Qed.

(** Two ascending lists whose records of each length agree, in order,
    are the same list. *)
Lemma ascending_filter_unique l1 l2 :
  noNaN l1 -> noNaN l2 ->
  ascendingByLength l1 -> ascendingByLength l2 ->
  (forall d, List.filter (ofLength d) l1 = List.filter (ofLength d) l2) ->
  l1 = l2.
Proof.
  unfold ascendingByLength.
  revert l2. induction l1 as [|x l1 IH]; intros l2 N1 N2 S1 S2 HF.
  - destruct l2 as [|y l2]; [reflexivity|].
    exfalso. apply (filter_eq_In (y :: l2) [] y);
      [exact N2|intros d; symmetry; apply HF|now left].
  - destruct l2 as [|y l2].
    + exfalso. apply (filter_eq_In (x :: l1) [] x);
        [exact N1|exact HF|now left].
    + assert (T : Transitive (fun a b => le (len a) (len b) = true))
        by (intros a b c; apply le_trans_num).
      pose proof (@Sorted_StronglySorted _ _ T _ S1) as SS1.
      pose proof (@Sorted_StronglySorted _ _ T _ S2) as SS2.
      inversion N1 as [|? ? Nx N1']; inversion N2 as [|? ? Ny N2']; subst.
      assert (Hyx : le (len y) (len x) = true).
      { apply (ascending_head_le y l2 x); auto.
        apply (filter_eq_In (x :: l1)); auto. now left. }
      assert (Hxy : le (len x) (len y) = true).
      { apply (ascending_head_le x l1 y); auto.
        apply (filter_eq_In (y :: l2));
          [exact N2|intros d; symmetry; apply HF|now left]. }
      pose proof (le_antisym_num _ _ Hxy Hyx) as Exy.
      assert (Hd : forall d, ofLength d x = ofLength d y).
      { intros d. unfold ofLength. apply eq_true_iff_eq. split; intros H.
        - eapply eqn_trans_num; [|exact H]. now rewrite eqn_sym_num.
        - eapply eqn_trans_num; [exact Exy|exact H]. }
      assert (Hx : ofLength (len x) x = true) by now apply eqn_refl_num.
      assert (x = y) as ->.
      { pose proof (HF (len x)) as H. cbn [List.filter] in H.
        rewrite <- Hd, Hx in H. congruence. }
      f_equal. inversion S1; inversion S2; subst. apply IH; auto.
      intros d. specialize (HF d). cbn [List.filter] in HF.
      destruct (ofLength d y); congruence.
Qed.

End Sort.

(** ** The fuser *)

Lemma awsMap_lookup (awsData : list AWSData.t) (m : gmap string AWSData.t)
    (id : string) :
  foldl (fun m aws => <[AWSData.sessionId aws := aws]> m) m awsData !! id
  = match indexLookup awsData id with
    | Some a => Some a
    | None => m !! id
    end.
Proof.
  unfold indexLookup. revert m.
  induction awsData as [|a rest IH]; intros m; [reflexivity|].
  cbn [foldl List.filter]. rewrite IH.
  destruct (String.eqb (AWSData.sessionId a) id) eqn:E.
  - apply String.eqb_eq in E. rewrite last_cons.
    destruct (last _); [reflexivity|]. rewrite <- E. apply lookup_insert_eq.
  - apply String.eqb_neq in E.
    destruct (last _); [reflexivity|]. now apply lookup_insert_ne.
Qed.

Lemma indexLookup_In awsData id a :
  indexLookup awsData id = Some a ->
  In a awsData /\ AWSData.sessionId a = id.
Proof.
  unfold indexLookup. intros H.
  apply last_Some_elem_of, list_elem_of_In, filter_In in H as [H1 H2].
  split; [exact H1|]. now apply String.eqb_eq.
Qed.

Lemma indexLookup_None awsData id :
  indexLookup awsData id = None <->
  forall a, In a awsData -> AWSData.sessionId a <> id.
Proof.
  unfold indexLookup. rewrite last_None. split.
  - intros H a Ha E.
    assert (In a (List.filter (fun a => String.eqb (AWSData.sessionId a) id)
                    awsData))
      by (apply filter_In; split; [exact Ha|now apply String.eqb_eq]).
    rewrite H in H0. destruct H0.
  - intros H. destruct (List.filter _ _) as [|a l] eqn:E; [reflexivity|].
    assert (Ha : In a (a :: l)) by now left.
    rewrite <- E in Ha. apply filter_In in Ha as [Ha1 Ha2].
    apply String.eqb_eq in Ha2. now destruct (H a Ha1).
Qed.

Lemma fuse_fold (awsData : list AWSData.t) (awsMap : gmap string AWSData.t)
    shopifyData acc k :
  (forall id, awsMap !! id = indexLookup awsData id) ->
  fst (foldl (fuseStep awsMap) (acc, k) shopifyData)
  = acc ++ innerJoinFrom awsData k shopifyData.
Proof.
  intros Hm. revert acc k.
  induction shopifyData as [|s rest IH]; intros acc k; cbn [foldl].
  - simpl. now rewrite app_nil_r.
  - unfold fuseStep at 2. rewrite Hm. cbn [innerJoinFrom].
    destruct (indexLookup awsData (ShopifyData.sessionId s)) as [a|].
    + rewrite IH, <- app_assoc. reflexivity.
    + apply IH.
Qed.

(** The code is the sort of the join that the specification describes. *)
Lemma fuseData_sort_innerJoin shopifyData awsData :
  fuseData shopifyData awsData
  = sort byLength (innerJoin shopifyData awsData).
Proof.
  unfold fuseData, innerJoin.
  destruct shopifyData as [|s S]; [reflexivity|].
  destruct awsData as [|a A].
  - cbn [length Nat.eqb orb].
    assert (H : forall k S', innerJoinFrom [] k S' = []).
    { intros k S'. revert k. induction S' as [|x S' IH]; intros k;
        [reflexivity|apply IH]. }
    now rewrite H.
  - cbn [length Nat.eqb orb].
    set (awsMap := foldl _ ∅ (a :: A)).
    pose proof (fuse_fold (a :: A) awsMap (s :: S) [] 1) as H.
    destruct (foldl (fuseStep awsMap) ([], 1) (s :: S)) as [fused n].
    cbn [fst] in H. rewrite H; [reflexivity|].
    intros id. unfold awsMap. rewrite awsMap_lookup, lookup_empty.
    now destruct (indexLookup (a :: A) id).
Qed.

Lemma innerJoinFrom_noNaN awsData k shopifyData :
  noNaNLength awsData ->
  Forall (fun p => isNaN (FusedDataPoint.sessionLength p) = false)
    (innerJoinFrom awsData k shopifyData).
Proof.
  intros HA. revert k.
  induction shopifyData as [|s rest IH]; intros k; cbn [innerJoinFrom];
    [constructor|].
  destruct (indexLookup awsData (ShopifyData.sessionId s)) as [a|] eqn:E;
    [|apply IH].
  constructor; [|apply IH]. simpl.
  apply indexLookup_In in E as [E _].
  unfold noNaNLength in HA. rewrite Forall_forall in HA. apply HA.
  now apply list_elem_of_In.
Qed.

(** ** Counting the matched sessions *)

Lemma hit_In awsData id : hit awsData id = true <-> In id (durationIds awsData).
Proof.
  unfold hit, durationIds. split.
  - destruct (indexLookup awsData id) as [a|] eqn:E; [|discriminate].
    intros _. apply indexLookup_In in E as [E <-]. now apply in_map.
  - intros H. apply in_map_iff in H as (a & <- & Ha).
    destruct (indexLookup awsData (AWSData.sessionId a)) eqn:E;
      [reflexivity|].
    rewrite indexLookup_None in E. now destruct (E a Ha).
Qed.

Lemma innerJoinFrom_ids awsData k shopifyData :
  map FusedDataPoint.sessionId (innerJoinFrom awsData k shopifyData)
  = List.filter (hit awsData) (successIds shopifyData).
Proof.
  revert k. induction shopifyData as [|s rest IH]; intros k; [reflexivity|].
  cbn [innerJoinFrom successIds map List.filter]. unfold hit at 1.
  destruct (indexLookup awsData (ShopifyData.sessionId s));
    [cbn [map]; f_equal|]; apply IH.
Qed.

Lemma fuseData_length shopifyData awsData :
  length (fuseData shopifyData awsData)
  = length (List.filter (hit awsData) (successIds shopifyData)).
Proof.
  rewrite fuseData_sort_innerJoin.
  rewrite <- (Permutation_length (sort_Permutation byLength _)).
  unfold innerJoin. rewrite <- (innerJoinFrom_ids awsData 1).
  now rewrite length_map.
Qed.

(** Parsed duration records never hold [NaN]. *)
Lemma parseAWSCSV_noNaN csvText awsData :
  Main.parseAWSCSV csvText = Ok awsData -> noNaNLength awsData.
Proof.
  intros H. apply parseAWSCSV_Ok in H as (i & j & k & l & ->).
  apply omap_Forall. intros line r Hr.
  now apply awsRow_sessionId in Hr.
Qed.

Lemma fuseData_ids shopifyData awsData id :
  In id (map FusedDataPoint.sessionId (fuseData shopifyData awsData))
  <-> In id (successIds shopifyData) /\ In id (durationIds awsData).
Proof.
  rewrite fuseData_sort_innerJoin.
  assert (P : Permutation
                (map FusedDataPoint.sessionId (innerJoin shopifyData awsData))
                (map FusedDataPoint.sessionId
                   (sort byLength (innerJoin shopifyData awsData))))
    by apply Permutation_map, sort_Permutation.
  split.
  - intros H. apply (Permutation_in _ (Permutation_sym P)) in H.
    unfold innerJoin in H. rewrite innerJoinFrom_ids in H.
    apply filter_In in H as [H1 H2]. split; [exact H1|now apply hit_In].
  - intros [H1 H2]. apply (Permutation_in _ P).
    unfold innerJoin. rewrite innerJoinFrom_ids.
    apply filter_In. split; [exact H1|now apply hit_In].
Qed.

(** C1. The output of the fuser is the stable ascending sort, by session
    length, of the inner join of the two record sets: the join indexes
    the duration records by session id (the last record of an id wins),
    scans the success records in their order and emits one record per
    hit, with the rate of the success record and the length of the
    duration record; an id occurs in the output exactly when it occurs
    on both sides, and records of equal length keep the relative order
    of the join.  The output is the only list with these properties.
    (The hypothesis holds of every parsed duration record set.) *)
Theorem fuseData_stable_sorted_inner_join shopifyData awsData :
  noNaNLength awsData ->
  stableSortOf (innerJoin shopifyData awsData)
    (fuseData shopifyData awsData)
  /\ (forall out,
         stableSortOf (innerJoin shopifyData awsData) out ->
         out = fuseData shopifyData awsData)
  /\ (forall id,
         In id (map FusedDataPoint.sessionId
                  (fuseData shopifyData awsData))
         <-> In id (successIds shopifyData)
             /\ In id (durationIds awsData)).
Proof.
  intros HA. split; [|split; [|apply fuseData_ids]];
    rewrite fuseData_sort_innerJoin;
    pose proof (innerJoinFrom_noNaN awsData 1 shopifyData HA) as HN;
    fold (innerJoin shopifyData awsData) in HN.
  - now apply sort_stableSortOf.
  - intros out (HP & HS & HF).
    apply ascending_filter_unique.
    + eapply Permutation_Forall; [exact HP|exact HN].
    + now apply sort_noNaN.
    + exact HS.
    + now apply sort_ascending.
    + intros d. rewrite HF. symmetry. now apply sort_filter.
Qed.

Lemma fuseData_stable_sorted_inner_join_witness :
  Main.parseAWSCSV singleAwsCSV = Ok [AWSData.mk "s" (Fin 3) None None]
  /\ noNaNLength exampleAws
  /\ stableSortOf (innerJoin exampleShopify exampleAws)
       (fuseData exampleShopify exampleAws)
  /\ (forall out,
         stableSortOf (innerJoin exampleShopify exampleAws) out ->
         out = fuseData exampleShopify exampleAws).
Proof.
  split; [vm_compute; reflexivity|].
  assert (H : noNaNLength exampleAws) by repeat constructor.
  split; [exact H|].
  destruct (fuseData_stable_sorted_inner_join exampleShopify exampleAws H)
    as (H1 & H2 & _).
  split; [exact H1|exact H2].
Defined.

(** The scenario of the specification: two matched records, by length. *)
Example fuseData_scenario :
  fuseData exampleShopify exampleAws = exampleFused.
Proof. vm_compute. reflexivity. Qed.

Lemma filter_length_all {A} (p : A -> bool) l :
  length (List.filter p l) = length l -> forall x, In x l -> p x = true.
Proof.
  induction l as [|y l IH]; intros H x Hx; [destruct Hx|].
  cbn [List.filter] in H. pose proof (filter_length_le p l) as Hle.
  destruct (p y) eqn:E; simpl in H.
  - destruct Hx as [<-|Hx]; [exact E|]. apply IH; [lia|exact Hx].
  - lia.
Qed.

(** C7, as the code has it.  The number of fused records is at most the
    number of success records.  When no session id occurs twice among
    the success records, it is at most the smaller of the two record
    counts, and it equals that number only when the ids of one side all
    occur on the other side. *)
Theorem matchedSessions_bound shopifyData awsData :
  (length (fuseData shopifyData awsData) <= length shopifyData)%nat
  /\ (NoDup (successIds shopifyData) ->
      (length (fuseData shopifyData awsData)
       <= Nat.min (length shopifyData) (length awsData))%nat
      /\ (length (fuseData shopifyData awsData)
          = Nat.min (length shopifyData) (length awsData) ->
          incl (successIds shopifyData) (durationIds awsData)
          \/ incl (durationIds awsData) (successIds shopifyData))).
Proof.
  rewrite fuseData_length.
  set (M := List.filter (hit awsData) (successIds shopifyData)).
  assert (HS : (length M <= length shopifyData)%nat).
  { unfold M. rewrite <- (length_map ShopifyData.sessionId shopifyData).
    apply filter_length_le. }
  split; [exact HS|]. intros ND.
  assert (NDM : List.NoDup M)
    by now apply List.NoDup_filter, NoDup_ListNoDup.
  assert (IM : incl M (durationIds awsData)).
  { intros id H. apply filter_In in H as [_ H]. now apply hit_In. }
  assert (HA : (length M <= length awsData)%nat).
  { rewrite <- (length_map AWSData.sessionId awsData).
    now apply List.NoDup_incl_length. }
  split; [lia|]. intros E.
  destruct (Nat.le_ge_cases (length shopifyData) (length awsData)) as [L|L].
  - left. intros id Hid. apply hit_In.
    apply (filter_length_all (hit awsData) (successIds shopifyData));
      [|exact Hid].
    fold M. unfold successIds. rewrite length_map. lia.
  - right. intros id Hid.
    assert (Hin : In id M).
    { apply (@List.NoDup_length_incl _ M (durationIds awsData) NDM);
        [|exact IM|exact Hid].
      unfold durationIds. rewrite length_map. lia. }
    now apply filter_In in Hin as [Hin _].
Qed.

Lemma matchedSessions_bound_witness :
  NoDup (successIds exampleShopify)
  /\ (length (fuseData exampleShopify exampleAws)
      <= Nat.min (length exampleShopify) (length exampleAws))%nat
  /\ (length (fuseData exampleShopify exampleAws)
      = Nat.min (length exampleShopify) (length exampleAws) ->
      incl (successIds exampleShopify) (durationIds exampleAws)
      \/ incl (durationIds exampleAws) (successIds exampleShopify)).
Proof.
  assert (ND : NoDup (successIds exampleShopify)).
  { apply NoDup_ListNoDup. repeat constructor; simpl; intuition discriminate. }
  split; [exact ND|].
  exact (proj2 (matchedSessions_bound exampleShopify exampleAws) ND).
Defined.

(** C7 as stated fails when a session id occurs twice among the success
    records: two success rows of one id and one duration row of that id
    give two fused records, more than the smaller record count. *)
Lemma matchedSessions_exceeds_min :
  exists shopifyData awsData,
    Main.parseShopifyCSV duplicateIdShopifyCSV = Ok shopifyData
    /\ Main.parseAWSCSV singleAwsCSV = Ok awsData
    /\ length shopifyData = 2%nat /\ length awsData = 1%nat
    /\ length (fuseData shopifyData awsData) = 2%nat
    /\ ~ (length (fuseData shopifyData awsData)
          <= Nat.min (length shopifyData) (length awsData))%nat.
Proof.
  eexists _, _. split; [vm_compute; reflexivity|].
  split; [vm_compute; reflexivity|].
  split; [reflexivity|]. split; [reflexivity|].
  split; [vm_compute; reflexivity|].
  vm_compute. lia.
Qed.

(** ** Session ids are never empty *)

(** C10. Both parsers skip a data row whose session-id cell is the empty
    string, whatever its numeric cell holds; every record that a parser
    returns, and every fused record, has a non-empty session id. *)
Theorem sessionId_never_empty :
  (forall i j k l line,
      at_ (valuesOf line) i = Some EmptyString ->
      shopifyRow i j k l line = None /\ Main.awsRow i j k l line = None)
  /\ (forall csvText data,
         Main.parseShopifyCSV csvText = Ok data ->
         Forall (fun r => ShopifyData.sessionId r <> EmptyString) data)
  /\ (forall csvText data,
         Main.parseAWSCSV csvText = Ok data ->
         Forall (fun r => AWSData.sessionId r <> EmptyString) data)
  /\ (forall shopifyData awsData,
         Forall (fun r => ShopifyData.sessionId r <> EmptyString)
           shopifyData ->
         Forall (fun p => FusedDataPoint.sessionId p <> EmptyString)
           (fuseData shopifyData awsData)).
Proof.
  repeat split.
  - unfold shopifyRow. destruct (length (valuesOf line) <? 2)%nat;
      [reflexivity|]. now rewrite H.
  - unfold Main.awsRow. destruct (length (valuesOf line) <? 2)%nat;
      [reflexivity|]. now rewrite H.
  - intros csvText data H.
    apply parseShopifyCSV_Ok in H as (i & j & k & l & ->).
    apply omap_Forall. intros line r Hr.
    now apply shopifyRow_sessionId in Hr.
  - intros csvText data H.
    apply parseAWSCSV_Ok in H as (i & j & k & l & ->).
    apply omap_Forall. intros line r Hr.
    now apply awsRow_sessionId in Hr.
  - intros shopifyData awsData H.
    rewrite fuseData_sort_innerJoin.
    eapply Permutation_Forall; [apply sort_Permutation|].
    apply Forall_forall. intros p Hp.
    assert (Hid : In (FusedDataPoint.sessionId p)
                    (List.filter (hit awsData) (successIds shopifyData))).
    { unfold innerJoin in Hp. rewrite <- (innerJoinFrom_ids awsData 1).
      apply in_map. now apply list_elem_of_In. }
    apply filter_In in Hid as [Hid _].
    apply in_map_iff in Hid as (s & <- & Hs).
    rewrite Forall_forall in H. apply H. now apply list_elem_of_In.
Qed.

Lemma sessionId_never_empty_witness :
  Main.parseShopifyCSV emptyIdShopifyCSV
  = Ok [ShopifyData.mk "s" None (Fin 70) None]
  /\ Main.parseAWSCSV emptyIdAwsCSV = Ok [AWSData.mk "s" (Fin 4) None None]
  /\ Forall (fun r => ShopifyData.sessionId r <> EmptyString)
       [ShopifyData.mk "s" None (Fin 70) None]
  /\ Forall (fun r => AWSData.sessionId r <> EmptyString)
       [AWSData.mk "s" (Fin 4) None None]
  /\ Forall (fun p => FusedDataPoint.sessionId p <> EmptyString)
       (fuseData [ShopifyData.mk "s" None (Fin 70) None]
          [AWSData.mk "s" (Fin 4) None None]).
Proof.
  assert (HS : Main.parseShopifyCSV emptyIdShopifyCSV
               = Ok [ShopifyData.mk "s" None (Fin 70) None])
    by (vm_compute; reflexivity).
  assert (HA : Main.parseAWSCSV emptyIdAwsCSV
               = Ok [AWSData.mk "s" (Fin 4) None None])
    by (vm_compute; reflexivity).
  destruct sessionId_never_empty as (_ & H2 & H3 & H4).
  pose proof (H2 _ _ HS) as F2.
  split; [exact HS|]. split; [exact HA|]. split; [exact F2|].
  split; [exact (H3 _ _ HA)|].
  exact (H4 _ [AWSData.mk "s" (Fin 4) None None] F2).
Defined.

(** ** Header-only input *)





(** The no-valid-rows error: a header and one row that is rejected. *)
Example no_valid_rows_EmptyResult :
  Main.parseShopifyCSV ("session_id,success_rate" +:+ String LF "x")
  = Throw (EmptyResult "No valid Shopify data rows found in CSV").
Proof. vm_compute. reflexivity. Qed.

(** ** Decimal digits *)

#[local] Arguments String.append !s1 s2 : simpl nomatch.

Lemma allChars_app p a b :
  allChars p (a +:+ b) = allChars p a && allChars p b.
Proof.
  induction a as [|c a IH]; simpl; [reflexivity|].
  now rewrite IH, andb_assoc.
Qed.

Lemma length_app_string a b :
  String.length (a +:+ b) = (String.length a + String.length b)%nat.
Proof. induction a as [|c a IH]; simpl; [reflexivity|now rewrite IH]. Qed.

Lemma span_digits_app ds rest :
  allDigits ds = true -> startsWithDigit rest = false ->
  span_digits (ds +:+ rest) = (ds, rest).
Proof.
  intros Hd Hr. induction ds as [|c ds IH]; cbn [String.append].
  - destruct rest as [|c r]; [reflexivity|]. cbn [startsWithDigit] in Hr.
    cbn [span_digits]. now rewrite Hr.
  - unfold allDigits in Hd. cbn [allChars] in Hd.
    apply andb_prop in Hd as [Hc Hd].
    cbn [span_digits]. rewrite Hc, (IH Hd). reflexivity.
Qed.

Lemma span_digits_all ds :
  allDigits ds = true -> span_digits ds = (ds, EmptyString).
Proof.
  intros H. pose proof (span_digits_app ds EmptyString H eq_refl) as E.
  assert (A : ds +:+ EmptyString = ds)
    by (clear; induction ds as [|c ds IH]; simpl; [|rewrite IH]; reflexivity).
  now rewrite A in E.
Qed.

Lemma digits_val_app acc a b :
  digits_val acc (a +:+ b) = digits_val (digits_val acc a) b.
Proof.
  revert acc. induction a as [|c a IH]; intros acc; simpl; [reflexivity|].
  apply IH.
Qed.

Lemma digits_val_acc acc s :
  digits_val acc s
  = (acc * 10 ^ N.of_nat (String.length s) + digits_val 0 s)%N.
Proof.
  revert acc. induction s as [|c s IH]; intros acc.
  - simpl. lia.
  - cbn [digits_val String.length]. rewrite (IH (10 * acc + digit_val c)%N).
    rewrite (IH (10 * 0 + digit_val c)%N).
    rewrite Nat2N.inj_succ, N.pow_succ_r'. lia.
Qed.

Lemma digit_char_spec d :
  (d < 10)%N ->
  is_digit (digit_char d) = true /\ digit_val (digit_char d) = d.
Proof.
  intros H.
  assert (C : (d = 0 \/ d = 1 \/ d = 2 \/ d = 3 \/ d = 4 \/ d = 5 \/ d = 6
               \/ d = 7 \/ d = 8 \/ d = 9)%N) by lia.
  repeat (destruct C as [->|C]; [split; reflexivity|]).
  subst. split; reflexivity.
Qed.

Lemma digits_of_allDigits fuel n acc :
  allDigits acc = true -> allDigits (digits_of fuel n acc) = true.
Proof.
  revert n acc. induction fuel as [|f IH]; intros n acc H; [exact H|].
  cbn [digits_of].
  assert (A : allDigits (String (digit_char (n mod 10)) acc) = true).
  { unfold allDigits. cbn [allChars]. fold (allDigits acc). rewrite H.
    destruct (digit_char_spec (n mod 10)%N) as [-> _]; [|reflexivity].
    apply N.mod_lt. lia. }
  destruct (n / 10 =? 0)%N; [exact A|now apply IH].
Qed.

Lemma digits_of_val fuel n acc :
  (n < 10 ^ N.of_nat fuel)%N ->
  digits_val 0 (digits_of fuel n acc)
  = (n * 10 ^ N.of_nat (String.length acc) + digits_val 0 acc)%N.
Proof.
  revert n acc. induction fuel as [|f IH]; intros n acc H.
  - simpl in H. assert (n = 0%N) as -> by lia. simpl. lia.
  - cbn [digits_of].
    assert (D : (n mod 10 < 10)%N) by (apply N.mod_lt; lia).
    destruct (digit_char_spec _ D) as [_ Dv].
    pose proof (N.div_mod n 10 ltac:(lia)) as E.
    assert (V : digits_val 0 (String (digit_char (n mod 10)) acc)
                = ((n mod 10) * 10 ^ N.of_nat (String.length acc)
                   + digits_val 0 acc)%N).
    { cbn [digits_val]. rewrite digits_val_acc, Dv. lia. }
    destruct (n / 10 =? 0)%N eqn:Z.
    + apply N.eqb_eq in Z. rewrite V. rewrite Z in E. f_equal. f_equal. lia.
    + rewrite IH.
      * rewrite V. cbn [String.length].
        rewrite Nat2N.inj_succ, N.pow_succ_r'. lia.
      * rewrite Nat2N.inj_succ, N.pow_succ_r' in H.
        apply N.Div0.div_lt_upper_bound. lia.
Qed.

Lemma digits_of_nonempty fuel n acc :
  (0 < fuel)%nat -> digits_of fuel n acc <> EmptyString.
Proof.
  assert (G : forall f m a, a <> EmptyString -> digits_of f m a <> EmptyString).
  { induction f as [|f IH]; intros m a Ha; [exact Ha|]. cbn [digits_of].
    destruct (m / 10 =? 0)%N; [discriminate|]. apply IH. discriminate. }
  destruct fuel as [|f]; [lia|]. intros _. cbn [digits_of].
  destruct (n / 10 =? 0)%N; [discriminate|]. apply G. discriminate.
Qed.

Lemma N_to_string_allDigits n : allDigits (N_to_string n) = true.
Proof. now apply digits_of_allDigits. Qed.

Lemma N_to_string_nonempty n : N_to_string n <> EmptyString.
Proof. apply digits_of_nonempty. lia. Qed.

Lemma N_to_string_val n : digits_val 0 (N_to_string n) = n.
Proof.
  unfold N_to_string. rewrite digits_of_val; [simpl; lia|].
  destruct (N.eq_dec n 0%N) as [->|Hn]; [reflexivity|].
  rewrite Nat2N.inj_succ, N2Nat.id.
  destruct (N.log2_spec n ltac:(lia)) as [_ H].
  eapply N.lt_le_trans; [exact H|].
  apply N.pow_le_mono_l. lia.
Qed.

Lemma zeros_allDigits n : allDigits (zeros n) = true.
Proof. induction n as [|n IH]; [reflexivity|exact IH]. Qed.

Lemma zeros_length n : String.length (zeros n) = n.
Proof. induction n as [|n IH]; simpl; [reflexivity|now rewrite IH]. Qed.

Lemma zeros_val n : digits_val 0 (zeros n) = 0%N.
Proof. induction n as [|n IH]; [reflexivity|exact IH]. Qed.

Lemma take_drop_chars n s : takeChars n s +:+ dropChars n s = s.
Proof.
  revert s. induction n as [|n IH]; intros [|c s]; simpl; try reflexivity.
  now rewrite IH.
Qed.

Lemma takeChars_length n s :
  (n <= String.length s)%nat -> String.length (takeChars n s) = n.
Proof.
  revert s. induction n as [|n IH]; intros [|c s] H; simpl in *;
    try reflexivity; try lia.
  rewrite IH; lia.
Qed.

Lemma dropChars_length n s :
  String.length (dropChars n s) = (String.length s - n)%nat.
Proof.
  revert s. induction n as [|n IH]; intros [|c s]; simpl; try reflexivity.
  apply IH.
Qed.

(** ** Scanning a decimal literal *)

Lemma digit_cases c :
  is_digit c = true ->
  c = "0"%char \/ c = "1"%char \/ c = "2"%char \/ c = "3"%char
  \/ c = "4"%char \/ c = "5"%char \/ c = "6"%char \/ c = "7"%char
  \/ c = "8"%char \/ c = "9"%char.
Proof.
  destruct c as [[] [] [] [] [] [] [] []]; intros H;
    try discriminate H; tauto.
Qed.

Lemma app_empty_r s : s +:+ EmptyString = s.
Proof. induction s as [|c s IH]; simpl; [|rewrite IH]; reflexivity. Qed.

Lemma app_assoc_string a b c : (a +:+ b) +:+ c = a +:+ (b +:+ c).
Proof. induction a as [|x a IH]; simpl; [|rewrite IH]; reflexivity. Qed.

Lemma scanExponent_text ex :
  exponentOk ex = true ->
  scanExponent (exponentText ex) = (exponentValue ex, EmptyString).
Proof.
  destruct ex as [[negative ds]|]; [|reflexivity]. simpl.
  intros H. apply andb_prop in H as [Hd He].
  destruct negative; simpl; rewrite (span_digits_all ds Hd);
    destruct ds; try discriminate; reflexivity.
Qed.

Lemma scanUnsigned_literal ip fr ex :
  allDigits ip = true -> isEmpty ip = false ->
  digitsOpt fr = true -> exponentOk ex = true ->
  scanUnsigned (literalText ip fr ex)
  = Some (literalValue ip fr ex, EmptyString).
Proof.
  intros Hip Hne Hfr Hex. unfold scanUnsigned, literalText.
  rewrite span_digits_app; [|exact Hip|].
  2:{ destruct fr; [reflexivity|]. destruct ex as [[[] ?]|]; reflexivity. }
  assert (E : (let '(fp, r2) :=
                 match fractionText fr +:+ exponentText ex with
                 | String "." r => span_digits r
                 | _ => (EmptyString, fractionText fr +:+ exponentText ex)
                 end in (fp, r2))
              = (default EmptyString fr, exponentText ex)).
  { destruct fr as [fp|]; simpl.
    - simpl in Hfr. rewrite span_digits_app; [reflexivity|exact Hfr|].
      destruct ex as [[[] ?]|]; reflexivity.
    - destruct ex as [[[] ?]|]; reflexivity. }
  destruct (match fractionText fr +:+ exponentText ex with
            | String "." r => span_digits r
            | _ => (EmptyString, fractionText fr +:+ exponentText ex)
            end) as [fp r2].
  injection E as -> ->. rewrite Hne. cbn [andb].
  rewrite (scanExponent_text ex Hex). unfold literalValue.
  now rewrite digits_val_app.
Qed.

Lemma scanDecimal_literal negative ip fr ex :
  allDigits ip = true -> isEmpty ip = false ->
  digitsOpt fr = true -> exponentOk ex = true ->
  scanDecimal (signedText negative (literalText ip fr ex))
  = Some (fin (if negative then (- literalValue ip fr ex)%Q
               else literalValue ip fr ex), EmptyString).
Proof.
  intros Hip Hne Hfr Hex.
  pose proof (scanUnsigned_literal ip fr ex Hip Hne Hfr Hex) as HU.
  assert (HI : startsWith "Infinity" (literalText ip fr ex) = false).
  { unfold literalText. destruct ip as [|c ip]; [discriminate|].
    unfold allDigits in Hip. cbn [allChars] in Hip.
    apply andb_prop in Hip as [Hc _].
    destruct (digit_cases c Hc) as [->|[->|[->|[->|[->|[->|[->|[->|[->| ->]]]]]]]]];
      reflexivity. }
  destruct negative; unfold scanDecimal, signedText.
  - rewrite HI, HU. reflexivity.
  - assert (E : match literalText ip fr ex with
                | String "+" r => (false, r)
                | String "-" r => (true, r)
                | _ => (false, literalText ip fr ex)
                end = (false, literalText ip fr ex)).
    { unfold literalText. destruct ip as [|c ip]; [discriminate|].
      unfold allDigits in Hip. cbn [allChars] in Hip.
      apply andb_prop in Hip as [Hc _].
      destruct (digit_cases c Hc) as [->|[->|[->|[->|[->|[->|[->|[->|[->| ->]]]]]]]]];
        reflexivity. }
    rewrite E, HI, HU. reflexivity.
Qed.

Lemma allChars_impl (p q : ascii -> bool) s :
  (forall c, p c = true -> q c = true) ->
  allChars p s = true -> allChars q s = true.
Proof.
  intros H. induction s as [|c s IH]; simpl; [reflexivity|].
  intros E. apply andb_prop in E as [E1 E2].
  now rewrite (H c E1), (IH E2).
Qed.

Lemma digit_plain c : is_digit c = true -> plainChar c = true.
Proof.
  intros H.
  destruct (digit_cases c H) as [->|[->|[->|[->|[->|[->|[->|[->|[->| ->]]]]]]]]];
    reflexivity.
Qed.

Lemma allDigits_plain s : allDigits s = true -> plainText s = true.
Proof. apply allChars_impl, digit_plain. Qed.

Lemma plainText_app a b :
  plainText (a +:+ b) = plainText a && plainText b.
Proof. apply allChars_app. Qed.

Lemma plainChar_noSpace c : plainChar c = true -> is_space c = false.
Proof.
  unfold plainChar. intros H. apply andb_prop in H as [H _].
  apply andb_prop in H as [H _]. now apply negb_true_iff in H.
Qed.

Lemma trimStart_plain s : plainText s = true -> trimStart s = s.
Proof.
  destruct s as [|c s]; [reflexivity|]. unfold plainText. cbn [allChars].
  intros H. apply andb_prop in H as [H _]. cbn [trimStart].
  now rewrite (plainChar_noSpace c H).
Qed.

Lemma trimEnd_plain s : plainText s = true -> trimEnd s = s.
Proof.
  induction s as [|c s IH]; [reflexivity|]. unfold plainText.
  cbn [allChars]. intros H. apply andb_prop in H as [H1 H2].
  cbn [trimEnd]. rewrite (IH H2), (plainChar_noSpace c H1). reflexivity.
Qed.

Lemma trim_plain s : plainText s = true -> trim s = s.
Proof.
  intros H. unfold trim. rewrite trimStart_plain by exact H.
  now apply trimEnd_plain.
Qed.

Lemma literalText_plain ip fr ex :
  allDigits ip = true -> digitsOpt fr = true -> exponentOk ex = true ->
  plainText (literalText ip fr ex) = true.
Proof.
  intros Hip Hfr Hex. unfold literalText. rewrite !plainText_app.
  rewrite (allDigits_plain ip Hip). cbn [andb].
  apply andb_true_intro. split.
  - destruct fr as [fp|]; [|reflexivity]. simpl in Hfr.
    unfold plainText. cbn [fractionText allChars].
    fold (plainText fp). now rewrite (allDigits_plain fp Hfr).
  - destruct ex as [[negative ds]|]; [|reflexivity]. simpl in Hex.
    apply andb_prop in Hex as [Hd _].
    unfold plainText. cbn [exponentText allChars].
    fold (plainText ds). rewrite (allDigits_plain ds Hd).
    destruct negative; reflexivity.
Qed.

Lemma signedText_plain negative t :
  plainText t = true -> plainText (signedText negative t) = true.
Proof.
  intros H. destruct negative; [|exact H]. unfold plainText.
  cbn [signedText allChars]. fold (plainText t). now rewrite H.
Qed.

Lemma literalText_nonempty ip fr ex :
  isEmpty ip = false -> isEmpty (literalText ip fr ex) = false.
Proof. destruct ip; [discriminate|reflexivity]. Qed.

Lemma Number_literal negative ip fr ex :
  allDigits ip = true -> isEmpty ip = false ->
  digitsOpt fr = true -> exponentOk ex = true ->
  Number_ (signedText negative (literalText ip fr ex))
  = fin (if negative then (- literalValue ip fr ex)%Q
         else literalValue ip fr ex).
Proof.
  intros Hip Hne Hfr Hex. unfold Number_.
  rewrite trim_plain
    by now apply signedText_plain, literalText_plain.
  rewrite scanDecimal_literal by assumption.
  destruct negative; [reflexivity|].
  cbn [signedText]. now rewrite literalText_nonempty.
Qed.

Lemma parseFloat_literal negative ip fr ex :
  allDigits ip = true -> isEmpty ip = false ->
  digitsOpt fr = true -> exponentOk ex = true ->
  parseFloat (signedText negative (literalText ip fr ex))
  = fin (if negative then (- literalValue ip fr ex)%Q
         else literalValue ip fr ex).
Proof.
  intros Hip Hne Hfr Hex. unfold parseFloat.
  rewrite trimStart_plain
    by now apply signedText_plain, literalText_plain.
  now rewrite scanDecimal_literal.
Qed.

(** ** Powers of ten *)

Lemma pow10_pos e : (0 < pow10 e)%Q.
Proof. unfold pow10. apply Qpower_0_lt. reflexivity. Qed.

Lemma pow10_add a b : (pow10 (a + b) == pow10 a * pow10 b)%Q.
Proof. unfold pow10. apply Qpower_plus. discriminate. Qed.

Lemma pow10_0 : (pow10 0 == 1)%Q.
Proof. reflexivity. Qed.

Lemma pow10_nat (n : N) : (pow10 (Z.of_N n) == inject_Z (Z.of_N (10 ^ n)))%Q.
Proof.
  unfold pow10. rewrite N2Z.inj_pow. change (Z.of_N 10) with 10%Z.
  rewrite Zpower_Qpower by lia. reflexivity.
Qed.

(** ** [Number(x.toFixed(f))] *)

Lemma takeChars_allDigits n s :
  allDigits s = true -> allDigits (takeChars n s) = true.
Proof.
  intros H. rewrite <- (take_drop_chars n s) in H.
  unfold allDigits in *. rewrite allChars_app in H.
  now apply andb_prop in H as [H _].
Qed.

Lemma dropChars_allDigits n s :
  allDigits s = true -> allDigits (dropChars n s) = true.
Proof.
  intros H. rewrite <- (take_drop_chars n s) in H.
  unfold allDigits in *. rewrite allChars_app in H.
  now apply andb_prop in H as [_ H].
Qed.

Lemma isEmpty_length s : isEmpty s = false <-> (0 < String.length s)%nat.
Proof. destruct s; simpl; split; intros; try lia; congruence. Qed.

Lemma roundHalfUp_nonneg q : (0 <= q)%Q -> 0 <= roundHalfUp q.
Proof.
  intros H. unfold roundHalfUp.
  change 0 with (Qfloor 0). apply Qfloor_resp_le. lra.
Qed.

(** The digits that [toFixed] splits around the decimal point. *)
Lemma toFixed_digits (n : N) (f : nat) :
  let m := N_to_string n in
  let m' := if (String.length m <=? f)%nat
            then zeros (f + 1 - String.length m) +:+ m else m in
  allDigits m' = true
  /\ (f < String.length m')%nat
  /\ digits_val 0 m' = n.
Proof.
  intros m m'. subst m'.
  pose proof (N_to_string_allDigits n) as Hd.
  pose proof (N_to_string_val n) as Hv. fold m in Hd, Hv.
  destruct (String.length m <=? f)%nat eqn:E.
  - apply Nat.leb_le in E. repeat split.
    + unfold allDigits. rewrite allChars_app.
      fold (allDigits m). rewrite Hd.
      fold (allDigits (zeros (f + 1 - String.length m))).
      now rewrite zeros_allDigits.
    + rewrite length_app_string, zeros_length. lia.
    + rewrite digits_val_app, zeros_val. exact Hv.
  - apply Nat.leb_gt in E. repeat split; assumption.
Qed.

Lemma Number_toFixed q f :
  isHuge q = false ->
  Number_ (toFixed (Fin q) f) = fin (roundedQ f q).
Proof.
  intros Hh. unfold toFixed. unfold isHuge in Hh. rewrite Hh.
  set (n := Z.to_N (roundHalfUp (Qabs q * pow10 (Z.of_nat f)))).
  assert (Hn : Z.of_N n = roundHalfUp (Qabs q * pow10 (Z.of_nat f))).
  { unfold n. rewrite Z2N.id; [reflexivity|].
    apply roundHalfUp_nonneg. apply Qmult_le_0_compat;
      [apply Qabs_nonneg|apply Qlt_le_weak, pow10_pos]. }
  destruct (toFixed_digits n f) as (Hd & Hl & Hv).
  set (m := N_to_string n) in *.
  set (m' := if (String.length m <=? f)%nat
             then zeros (f + 1 - String.length m) +:+ m else m) in *.
  assert (Hs : forall t, (if Qneg q then "-" else EmptyString) +:+ t
                         = signedText (Qneg q) t)
    by (intros t; destruct (Qneg q); reflexivity).
  rewrite Hs. unfold roundedQ. rewrite <- Hn.
  destruct (f =? 0)%nat eqn:F.
  - apply Nat.eqb_eq in F. subst f.
    replace (signedText (Qneg q) m)
      with (signedText (Qneg q) (literalText m None None))
      by (unfold literalText; simpl; now rewrite app_empty_r).
    rewrite Number_literal;
      [|apply N_to_string_allDigits
       |apply isEmpty_length;
        pose proof (N_to_string_nonempty n); fold m in H |- *;
        destruct m; [congruence|simpl; lia]
       |reflexivity|reflexivity].
    unfold literalValue. simpl default. rewrite app_empty_r.
    unfold m. rewrite N_to_string_val. reflexivity.
  - set (k := String.length m').
    replace (takeChars (k - f) m' +:+ "." +:+ dropChars (k - f) m')
      with (literalText (takeChars (k - f) m')
              (Some (dropChars (k - f) m')) None)
      by (unfold literalText; simpl; now rewrite app_empty_r).
    rewrite Number_literal.
    + unfold literalValue. simpl default. rewrite take_drop_chars, Hv.
      rewrite dropChars_length. fold k.
      replace (exponentValue None - Z.of_nat (k - (k - f)))
        with (- Z.of_nat f) by (simpl; lia).
      reflexivity.
    + now apply takeChars_allDigits.
    + apply isEmpty_length. rewrite takeChars_length; unfold k; lia.
    + simpl. now apply dropChars_allDigits.
    + reflexivity.
Qed.

(** ** A decimal fraction as digits and an exponent *)

Lemma find_scale_sound fuel a b j s j' :
  b <> 0%N ->
  find_scale fuel a b j = Some (s, j') ->
  exists d : nat, j' = (j + d)%nat /\ (s * b = a * 10 ^ N.of_nat d)%N.
Proof.
  intros Hb. revert a j.
  induction fuel as [|f IH]; intros a j; cbn [find_scale].
  - destruct (a mod b =? 0)%N eqn:E; [|discriminate].
    intros [= <- <-]. exists O. split; [lia|].
    apply N.eqb_eq in E.
    pose proof (N.div_mod a b Hb). simpl. lia.
  - destruct (a mod b =? 0)%N eqn:E.
    + intros [= <- <-]. exists O. split; [lia|].
      apply N.eqb_eq in E.
      pose proof (N.div_mod a b Hb). simpl. lia.
    + intros H. apply IH in H as (d & -> & H). exists (S d).
      split; [lia|]. rewrite Nat2N.inj_succ, N.pow_succ_r'. lia.
Qed.

Lemma find_scale_complete fuel a b j :
  b <> 0%N ->
  (exists d : nat, (d <= fuel)%nat /\ (b | a * 10 ^ N.of_nat d)%N) ->
  find_scale fuel a b j <> None.
Proof.
  intros Hb. revert a j.
  induction fuel as [|f IH]; intros a j (d & Hd & Hdiv); cbn [find_scale].
  - assert (d = O) as -> by lia. simpl in Hdiv. rewrite N.mul_1_r in Hdiv.
    apply N.Lcm0.mod_divide in Hdiv. rewrite Hdiv. simpl. discriminate.
  - destruct (a mod b =? 0)%N eqn:E; [discriminate|].
    apply IH. destruct d as [|d].
    + simpl in Hdiv. rewrite N.mul_1_r in Hdiv.
      apply N.Lcm0.mod_divide in Hdiv. apply N.eqb_neq in E. contradiction.
    + exists d. split; [lia|].
      rewrite Nat2N.inj_succ, N.pow_succ_r' in Hdiv.
      now replace (10 * a * 10 ^ N.of_nat d)%N
        with (a * (10 * 10 ^ N.of_nat d))%N by lia.
Qed.

(** If some power of ten clears the denominator, one within the bit
    length of the denominator does. *)
Lemma decimal_scale_bound (J : nat) (a b : N) :
  b <> 0%N -> (b | a * 10 ^ N.of_nat J)%N ->
  exists d : nat, (N.of_nat d <= N.log2 b)%N /\ (b | a * 10 ^ N.of_nat d)%N.
Proof.
  revert a b. induction J as [|J IH]; intros a b Hb Hdiv.
  - exists O. split; [simpl; lia|exact Hdiv].
  - rewrite Nat2N.inj_succ, N.pow_succ_r' in Hdiv.
    destruct (N.eq_dec (N.gcd b 10) 1%N) as [G|G].
    + apply IH; [exact Hb|].
      apply (N.gauss b 10); [|exact G].
      now replace (10 * (a * 10 ^ N.of_nat J))%N
        with (a * (10 * 10 ^ N.of_nat J))%N by lia.
    + destruct (N.gcd_divide_l b 10) as [b1 Hb1].
      destruct (N.gcd_divide_r b 10) as [t Ht].
      set (g := N.gcd b 10) in *.
      assert (Hg : (2 <= g)%N).
      { assert (g <> 0%N) by (intros Z; rewrite Z in Ht; lia). lia. }
      assert (Hb1' : b1 <> 0%N) by (intros ->; lia).
      destruct (IH (a * t)%N b1 Hb1') as (d & Hd & Hdd).
      * apply (N.mul_divide_cancel_l _ _ g); [lia|].
        replace (g * b1)%N with b by lia.
        replace (g * (a * t * 10 ^ N.of_nat J))%N
          with (a * (10 * 10 ^ N.of_nat J))%N; [exact Hdiv|].
        generalize (10 ^ N.of_nat J)%N. intros P. rewrite Ht. ring.
      * exists (S d). split.
        -- rewrite Nat2N.inj_succ.
           assert (L : (N.succ (N.log2 b1) <= N.log2 b)%N).
           { rewrite <- N.log2_double by lia.
             apply N.log2_le_mono. rewrite Hb1. nia. }
           lia.
        -- rewrite Nat2N.inj_succ, N.pow_succ_r'.
           replace (a * (10 * 10 ^ N.of_nat d))%N
             with (g * (a * t * 10 ^ N.of_nat d))%N
             by (generalize (10 ^ N.of_nat d)%N; intros P; rewrite Ht; ring).
           rewrite Hb1, (N.mul_comm b1 g).
           now apply N.mul_divide_mono_l.
Qed.

Lemma strip_zeros_sound fuel s e :
  let '(s', e') := strip_zeros fuel s e in
  (inject_Z (Z.of_N s') * pow10 e' == inject_Z (Z.of_N s) * pow10 e)%Q.
Proof.
  revert s e. induction fuel as [|f IH]; intros s e; cbn [strip_zeros];
    [reflexivity|].
  destruct ((s mod 10 =? 0)%N && negb (s =? 0)%N) eqn:E; [|reflexivity].
  apply andb_prop in E as [E _]. apply N.eqb_eq in E.
  specialize (IH (s / 10)%N (e + 1)).
  destruct (strip_zeros f (s / 10) (e + 1)) as [s' e'].
  rewrite IH, pow10_add.
  pose proof (N.div_mod s 10 ltac:(lia)) as D. rewrite E in D.
  rewrite D at 2. replace (10 * (s / 10) + 0)%N with (10 * (s / 10))%N by lia.
  rewrite N2Z.inj_mul, inject_Z_mult.
  change (pow10 1) with (inject_Z 10). change (Z.of_N 10) with 10%Z. ring.
Qed.

Lemma decimalQ_divides q :
  (0 < q)%Q -> decimalQ q ->
  exists J : nat,
    (N.pos (Qden q) | Z.to_N (Qnum q) * 10 ^ N.of_nat J)%N.
Proof.
  intros Hq (m & e & Hm).
  set (k := Z.max 0 (- e)).
  assert (Hk : 0 <= k) by lia.
  assert (He : 0 <= e + k) by lia.
  assert (H1 : (q * inject_Z (10 ^ k) == inject_Z (m * 10 ^ (e + k)))%Q).
  { rewrite Hm, inject_Z_mult, !Zpower_Qpower by lia.
    change (inject_Z 10 ^ k)%Q with (pow10 k).
    change (inject_Z 10 ^ (e + k))%Q with (pow10 (e + k)).
    rewrite pow10_add. ring. }
  unfold Qeq in H1. simpl in H1.
  assert (Hn : 0 < Qnum q) by (destruct q as [n d]; unfold Qlt in Hq;
                                 simpl in *; lia).
  exists (Z.to_nat k).
  exists (Z.to_N (m * 10 ^ (e + k))).
  apply N2Z.inj. rewrite !N2Z.inj_mul, N2Z.inj_pow.
  rewrite nat_N_Z, !Z2N.id, Z2Nat.id by lia.
  simpl Z.of_N. rewrite Pos.mul_1_r in H1. lia.
Qed.

Lemma toDecimal_sound q :
  (0 < q)%Q -> decimalQ q ->
  let '(s, e) := toDecimal q in
  (q == inject_Z (Z.of_N s) * pow10 e)%Q.
Proof.
  intros Hq Hd. unfold toDecimal.
  destruct (decimalQ_divides q Hq Hd) as (J & HJ).
  assert (Hb : N.pos (Qden q) <> 0%N) by discriminate.
  destruct (decimal_scale_bound J _ _ Hb HJ) as (d & Hd1 & Hd2).
  destruct (find_scale (N.to_nat (N.log2 (N.pos (Qden q))))
              (Z.to_N (Qnum q)) (N.pos (Qden q)) 0) as [[s j]|] eqn:F.
  - apply find_scale_sound in F as (d' & -> & F); [|discriminate].
    pose proof (strip_zeros_sound (S (N.to_nat (N.log2 s))) s
                  (- Z.of_nat (0 + d'))) as S.
    destruct (strip_zeros _ s _) as [s' e']. rewrite S.
    assert (Hn : 0 < Qnum q) by (destruct q as [n dd]; unfold Qlt in Hq;
                                   simpl in *; lia).
    apply (f_equal Z.of_N) in F.
    rewrite !N2Z.inj_mul, N2Z.inj_pow, Z2N.id in F by lia.
    simpl Z.of_N in F. rewrite nat_N_Z in F.
    assert (P : (pow10 (- Z.of_nat (0 + d')) * pow10 (Z.of_nat d') == 1)%Q).
    { rewrite <- pow10_add. replace (- Z.of_nat (0 + d') + Z.of_nat d')
        with 0 by lia. reflexivity. }
    assert (P2 : (pow10 (Z.of_nat d') == inject_Z (10 ^ Z.of_nat d'))%Q).
    { unfold pow10. rewrite Zpower_Qpower by lia. reflexivity. }
    assert (Hq2 : (q * pow10 (Z.of_nat d') == inject_Z (Z.of_N s))%Q).
    { rewrite P2. unfold Qeq. simpl. lia. }
    rewrite <- Hq2. rewrite <- Qmult_assoc, (Qmult_comm (pow10 (Z.of_nat d'))), P.
    ring.
  - exfalso. revert F. apply find_scale_complete; [discriminate|].
    exists d. split; [lia|exact Hd2].
Qed.

(** ** Printing a number and reading it back *)

Lemma inject_N_pow (s : N) (z : nat) :
  (inject_Z (Z.of_N (s * 10 ^ N.of_nat z))
   == inject_Z (Z.of_N s) * pow10 (Z.of_nat z))%Q.
Proof.
  rewrite N2Z.inj_mul, N2Z.inj_pow, inject_Z_mult, nat_N_Z.
  change (Z.of_N 10) with 10. unfold pow10.
  rewrite Zpower_Qpower by lia. reflexivity.
Qed.

Lemma printDecimal_literal s e :
  exists ip fr ex,
    printDecimal s e = literalText ip fr ex
    /\ allDigits ip = true /\ isEmpty ip = false
    /\ digitsOpt fr = true /\ exponentOk ex = true
    /\ (literalValue ip fr ex == inject_Z (Z.of_N s) * pow10 e)%Q.
Proof.
  unfold printDecimal.
  pose proof (N_to_string_allDigits s) as Hd.
  pose proof (N_to_string_val s) as Hv.
  pose proof (N_to_string_nonempty s) as Hne.
  remember (N_to_string s) as ds eqn:Eds0. clear Eds0.
  set (k := Z.of_nat (String.length ds)).
  assert (Hk : 0 < k).
  { unfold k. destruct ds; [congruence|simpl; lia]. }
  set (n := k + e).
  destruct ((k <=? n) && (n <=? 21)) eqn:C1.
  { (* digits, then zeros *)
    apply andb_prop in C1 as [C1 _]. apply Z.leb_le in C1.
    exists (ds +:+ zeros (Z.to_nat (n - k))), None, None.
    split; [unfold literalText; simpl; now rewrite !app_empty_r|].
    split.
    { unfold allDigits. rewrite allChars_app. fold (allDigits ds).
      rewrite Hd. apply zeros_allDigits. }
    split; [destruct ds; [congruence|reflexivity]|].
    split; [reflexivity|]. split; [reflexivity|].
    unfold literalValue. simpl default. rewrite app_empty_r.
    rewrite digits_val_app, digits_val_acc, zeros_val, zeros_length, Hv.
    rewrite N.add_0_r, inject_N_pow. cbn [exponentValue String.length].
    rewrite Z2Nat.id by lia. replace (n - k) with e by lia.
    change (pow10 (0 - Z.of_nat 0)) with 1%Q. ring. }
  destruct ((0 <? n) && (n <=? 21)) eqn:C2.
  { (* the point inside the digits *)
    apply andb_prop in C2 as [C2 C2']. apply Z.ltb_lt in C2.
    apply Z.leb_le in C2'.
    assert (Hnk : n < k).
    { apply andb_false_iff in C1 as [C1|C1]; apply Z.leb_gt in C1; lia. }
    exists (takeChars (Z.to_nat n) ds), (Some (dropChars (Z.to_nat n) ds)),
      None.
    split; [unfold literalText; simpl; now rewrite !app_empty_r|].
    split; [now apply takeChars_allDigits|].
    split.
    { apply isEmpty_length. rewrite takeChars_length; unfold k in *; lia. }
    split; [simpl; now apply dropChars_allDigits|].
    split; [reflexivity|].
    unfold literalValue. simpl default. rewrite take_drop_chars, Hv.
    rewrite dropChars_length. cbn [exponentValue].
    replace (0 - Z.of_nat (String.length ds - Z.to_nat n)) with e
      by (unfold n, k in *; lia).
    reflexivity. }
  destruct ((-6 <? n) && (n <=? 0)) eqn:C3.
  { (* zeros after the point *)
    apply andb_prop in C3 as [_ C3]. apply Z.leb_le in C3.
    exists "0", (Some (zeros (Z.to_nat (- n)) +:+ ds)), None.
    split; [unfold literalText; simpl; now rewrite !app_empty_r|].
    split; [reflexivity|]. split; [reflexivity|].
    split.
    { simpl. unfold allDigits. rewrite allChars_app. fold (allDigits ds).
      rewrite Hd, andb_true_r. apply zeros_allDigits. }
    split; [reflexivity|].
    unfold literalValue. simpl default.
    replace (digits_val 0 ("0" +:+ zeros (Z.to_nat (- n)) +:+ ds)) with s.
    2:{ change ("0" +:+ zeros (Z.to_nat (- n)) +:+ ds)
          with (String "0" (zeros (Z.to_nat (- n)) +:+ ds)).
        cbn [digits_val]. change (10 * 0 + digit_val "0")%N with 0%N.
        now rewrite digits_val_app, zeros_val. }
    rewrite length_app_string, zeros_length. cbn [exponentValue].
    replace (0 - Z.of_nat (Z.to_nat (- n) + String.length ds)) with e
      by (unfold n, k in *; lia).
    reflexivity. }
  (* exponent notation *)
  set (ex := n - 1).
  set (es := N_to_string (Z.to_N (Z.abs ex))).
  assert (Hes : exponentOk (Some (ex <? 0, es)) = true).
  { simpl. unfold es. rewrite N_to_string_allDigits. simpl.
    pose proof (N_to_string_nonempty (Z.to_N (Z.abs ex))).
    destruct (N_to_string _); [congruence|reflexivity]. }
  assert (Hev : exponentValue (Some (ex <? 0, es)) = ex).
  { simpl. unfold es. rewrite N_to_string_val.
    destruct (Z.ltb_spec ex 0); lia. }
  assert (Het : forall t, t +:+ exponentText (Some (ex <? 0, es))
                     = t +:+ "e" +:+ (if ex <? 0 then "-" else "+") +:+ es).
  { intros t. f_equal. simpl. destruct (ex <? 0); reflexivity. }
  destruct ds as [|d rest]; [congruence|].
  destruct rest as [|d' rest'].
  - exists (String d EmptyString), None, (Some (ex <? 0, es)).
    split.
    { unfold literalText. cbn [fractionText]. 
      change (String d EmptyString +:+ EmptyString +:+ exponentText (Some (ex <? 0, es)))
        with (String d (exponentText (Some (ex <? 0, es)))).
      f_equal. simpl. destruct (ex <? 0); reflexivity. }
    split; [exact Hd|]. split; [reflexivity|]. split; [reflexivity|].
    split; [exact Hes|].
    unfold literalValue. simpl default. rewrite app_empty_r, Hv, Hev.
    cbn [String.length]. replace (ex - Z.of_nat 0) with e
      by (unfold ex, n, k in *; simpl in *; lia).
    reflexivity.
  - exists (String d EmptyString), (Some (String d' rest')),
      (Some (ex <? 0, es)).
    split.
    { unfold literalText. cbn [fractionText].
      change (String d EmptyString +:+ String "." (String d' rest')
              +:+ exponentText (Some (ex <? 0, es)))
        with (String d (String "." (String d' rest'
                +:+ exponentText (Some (ex <? 0, es))))).
      f_equal. f_equal. simpl. f_equal. f_equal.
      destruct (ex <? 0); reflexivity. }
    unfold allDigits in Hd. cbn [allChars] in Hd.
    apply andb_prop in Hd as [Hd1 Hd2].
    split; [unfold allDigits; cbn [allChars]; now rewrite Hd1|].
    split; [reflexivity|].
    split; [exact Hd2|]. split; [exact Hes|].
    unfold literalValue. simpl default.
    change (String d EmptyString +:+ String d' rest')
      with (String d (String d' rest')).
    rewrite Hv, Hev.
    replace (ex - Z.of_nat (String.length (String d' rest'))) with e
      by (unfold ex, n, k in *; cbn [String.length] in *; lia).
    reflexivity.
Qed.

Lemma decimalQ_abs q : decimalQ q -> decimalQ (Qabs q).
Proof.
  intros (m & e & H). exists (Z.abs m), e.
  rewrite H, Qabs_Qmult. rewrite (Qabs_pos (pow10 e))
    by apply Qlt_le_weak, pow10_pos.
  apply Qmult_comp; [|reflexivity].
  unfold Qabs, inject_Z. simpl. reflexivity.
Qed.

Lemma Qis0_spec q : Qis0 q = true <-> (q == 0)%Q.
Proof.
  unfold Qis0, Qeq. simpl. rewrite Z.eqb_eq. lia.
Qed.

Lemma Qneg_spec q : Qneg q = true <-> (q < 0)%Q.
Proof.
  unfold Qneg, Qlt. simpl. rewrite Z.ltb_lt. lia.
Qed.

(** The text of a finite non-zero decimal number is a signed literal
    whose value is the number. *)
Lemma toString_literal q :
  decimalQ q -> Qis0 q = false ->
  exists ip fr ex,
    toString (Fin q) = signedText (Qneg q) (literalText ip fr ex)
    /\ allDigits ip = true /\ isEmpty ip = false
    /\ digitsOpt fr = true /\ exponentOk ex = true
    /\ ((if Qneg q then - literalValue ip fr ex else literalValue ip fr ex)
        == q)%Q.
Proof.
  intros Hd Hz. unfold toString. rewrite Hz.
  assert (Hnz : ~ (q == 0)%Q) by (rewrite <- Qis0_spec; congruence).
  assert (Hpos : (0 < Qabs q)%Q).
  { destruct (Qlt_le_dec 0 (Qabs q)) as [L|L]; [exact L|].
    exfalso. apply Hnz. apply Qabs_Qle_condition in L. lra. }
  pose proof (toDecimal_sound (Qabs q) Hpos (decimalQ_abs q Hd)) as HS.
  destruct (toDecimal (Qabs q)) as [s e].
  destruct (printDecimal_literal s e)
    as (ip & fr & ex & Ht & H1 & H2 & H3 & H4 & Hv).
  exists ip, fr, ex. rewrite Ht.
  split; [destruct (Qneg q); reflexivity|].
  repeat (split; [assumption|]).
  destruct (Qneg q) eqn:N; rewrite Hv, <- HS.
  - apply Qneg_spec in N. rewrite Qabs_neg by lra. ring.
  - assert (0 <= q)%Q.
    { destruct (Qlt_le_dec q 0) as [L|L]; [|exact L].
      apply Qneg_spec in L. congruence. }
    now rewrite Qabs_pos.
Qed.

Lemma Qred_0 q : (q == 0)%Q -> Qred q = 0%Q.
Proof. intros H. now rewrite (Qred_complete q 0 H). Qed.

(** Reading back the text of a number gives the number. *)
Lemma parseFloat_toString x :
  decimalNum x -> parseFloat (toString x) = x.
Proof.
  destruct x as [|[]|q]; try reflexivity. intros [Hd Hc].
  destruct (Qis0 q) eqn:Z.
  - unfold toString. rewrite Z. apply Qis0_spec in Z.
    transitivity (Fin (Qred q)); [|now rewrite Hc].
    rewrite (Qred_0 q Z). reflexivity.
  - destruct (toString_literal q Hd Z)
      as (ip & fr & ex & -> & H1 & H2 & H3 & H4 & Hv).
    rewrite parseFloat_literal by assumption.
    unfold fin. transitivity (Fin (Qred q)); [|now rewrite Hc].
    f_equal. now apply Qred_complete.
Qed.

Lemma Number_toString x : decimalNum x -> Number_ (toString x) = x.
Proof.
  destruct x as [|[]|q]; try reflexivity.
  intros [Hd Hc].
  destruct (Qis0 q) eqn:Z.
  - unfold toString. rewrite Z. apply Qis0_spec in Z.
    transitivity (Fin (Qred q)); [|now rewrite Hc].
    rewrite (Qred_0 q Z). reflexivity.
  - destruct (toString_literal q Hd Z)
      as (ip & fr & ex & -> & H1 & H2 & H3 & H4 & Hv).
    rewrite Number_literal by assumption.
    unfold fin. transitivity (Fin (Qred q)); [|now rewrite Hc].
    f_equal. now apply Qred_complete.
Qed.

Lemma toString_plain x : plainText (toString x) = true.
Proof.
  destruct x as [|[]|q]; try reflexivity.
  unfold toString. destruct (Qis0 q); [reflexivity|].
  destruct (toDecimal (Qabs q)) as [s e].
  destruct (printDecimal_literal s e)
    as (ip & fr & ex & -> & H1 & H2 & H3 & H4 & _).
  rewrite plainText_app, literalText_plain by assumption.
  destruct (Qneg q); reflexivity.
Qed.

Lemma toString_nonempty x : isEmpty (toString x) = false.
Proof.
  destruct x as [|[]|q]; try reflexivity.
  unfold toString. destruct (Qis0 q); [reflexivity|].
  destruct (toDecimal (Qabs q)) as [s e].
  destruct (printDecimal_literal s e)
    as (ip & fr & ex & -> & H1 & H2 & H3 & H4 & _).
  destruct (Qneg q); [reflexivity|].
  simpl. now apply literalText_nonempty.
Qed.

(** ** Numbers that the parsers compute with *)

Lemma Qred_Qred q : Qred (Qred q) = Qred q.
Proof. apply Qred_complete, Qred_correct. Qed.

Lemma decimalNum_fin q : decimalQ q -> decimalNum (fin q).
Proof.
  intros (m & e & H). split; [|apply Qred_Qred].
  exists m, e. now rewrite Qred_correct.
Qed.

Lemma decimalQ_opp q : decimalQ q -> decimalQ (- q).
Proof.
  intros (m & e & H). exists (- m), e. rewrite H, inject_Z_opp. ring.
Qed.

Lemma decimalQ_mulZ q (z : Z) : decimalQ q -> decimalQ (q * inject_Z z).
Proof.
  intros (m & e & H). exists (m * z), e. rewrite H, inject_Z_mult. ring.
Qed.

Lemma decimalQ_literal ip fr ex : decimalQ (literalValue ip fr ex).
Proof. unfold literalValue. eexists _, _. reflexivity. Qed.

Lemma span_digits_spec s :
  let '(d, r) := span_digits s in
  s = d +:+ r /\ allDigits d = true /\ startsWithDigit r = false.
Proof.
  induction s as [|c s IH]; cbn [span_digits]; [repeat split|].
  destruct (is_digit c) eqn:E.
  - destruct (span_digits s) as [d r]. destruct IH as (-> & Hd & Hr).
    repeat split; [|exact Hr]. unfold allDigits. cbn [allChars].
    now rewrite E.
  - repeat split. exact E.
Qed.

Lemma scanUnsigned_decimal s q r :
  scanUnsigned s = Some (q, r) -> decimalQ q.
Proof.
  unfold scanUnsigned. destruct (span_digits s) as [ip r1].
  destruct (match r1 with String "." r0 => span_digits r0 | _ => _ end)
    as [fp r2].
  destruct (isEmpty ip && isEmpty fp); [discriminate|].
  destruct (scanExponent r2) as [e r3]. intros [= <- _].
  eexists _, _. reflexivity.
Qed.

Lemma scanDecimal_decimal s v r :
  scanDecimal s = Some (v, r) -> decimalNum v.
Proof.
  unfold scanDecimal.
  destruct (match s with
            | String "+" r0 => (false, r0)
            | String "-" r0 => (true, r0)
            | _ => (false, s)
            end) as [negative s1].
  destruct (startsWith "Infinity" s1); [intros [= <- _]; exact I|].
  destruct (scanUnsigned s1) as [[q rest]|] eqn:E; [|discriminate].
  intros [= <- _]. apply decimalNum_fin.
  apply scanUnsigned_decimal in E.
  destruct negative; [now apply decimalQ_opp|exact E].
Qed.

Lemma parseFloat_decimal s : decimalNum (parseFloat s).
Proof.
  unfold parseFloat. destruct (scanDecimal (trimStart s)) as [[v r]|] eqn:E;
    [|exact I].
  now apply scanDecimal_decimal in E.
Qed.

Lemma parseFloatAt_decimal values i : decimalNum (parseFloatAt values i).
Proof.
  unfold parseFloatAt. destruct (at_ values i); [|exact I].
  apply parseFloat_decimal.
Qed.

Lemma mul_decimal x (z : Z) :
  decimalNum x -> decimalNum (mul x (Fin (inject_Z z))).
Proof.
  destruct x as [|s|q]; simpl; try (intros; exact I).
  - intros _. destruct (Qis0 (inject_Z z)); exact I.
  - intros [H _]. apply decimalNum_fin. now apply decimalQ_mulZ.
Qed.

(** [Number(x.toFixed(f))] is [x] rounded to [f] decimals. *)
Lemma Number_toFixed_roundTo x f :
  decimalNum x -> Number_ (toFixed x f) = roundTo f x.
Proof.
  intros Hx. destruct x as [|[]|q]; try reflexivity.
  unfold roundTo. destruct (isHuge q) eqn:H.
  - unfold toFixed. unfold isHuge in H. rewrite H.
    now apply Number_toString.
  - now apply Number_toFixed.
Qed.

Lemma gt_negb_le x y :
  isNaN x = false -> isNaN y = false -> gt x y = negb (le x y).
Proof.
  destruct x as [|[]|a], y as [|[]|b]; try (simpl; congruence);
    try (intros; reflexivity).
  intros _ _. unfold gt. apply eq_true_iff_eq.
  rewrite negb_true_iff, <- not_true_iff_false, lt_Fin, le_Fin.
  split; [apply Qlt_not_le|apply Qnot_le_lt].
Qed.

Lemma Qfloor_half (n : Z) : Qfloor (inject_Z n + (1 # 2)) = n.
Proof.
  pose proof (Qfloor_le (inject_Z n + (1 # 2))) as L.
  pose proof (Qlt_floor (inject_Z n + (1 # 2))) as U.
  set (f := Qfloor (inject_Z n + (1 # 2))) in *.
  assert (L' : (inject_Z f < inject_Z (n + 1))%Q)
    by (rewrite inject_Z_plus; change (inject_Z 1) with 1%Q; lra).
  assert (U' : (inject_Z n < inject_Z (f + 1))%Q) by lra.
  rewrite <- Zlt_Qlt in L', U'. lia.
Qed.

(** A value with at most [f] decimals is its own rounding. *)
Lemma roundedQ_exact (f : nat) q (z : Z) :
  (q == inject_Z z * pow10 (- Z.of_nat f))%Q -> (roundedQ f q == q)%Q.
Proof.
  intros H. unfold roundedQ.
  assert (P : (pow10 (- Z.of_nat f) * pow10 (Z.of_nat f) == 1)%Q).
  { rewrite <- pow10_add. replace (- Z.of_nat f + Z.of_nat f) with 0 by lia.
    reflexivity. }
  assert (A : (Qabs q * pow10 (Z.of_nat f) == inject_Z (Z.abs z))%Q).
  { rewrite H, Qabs_Qmult, (Qabs_pos (pow10 _))
      by apply Qlt_le_weak, pow10_pos.
    rewrite <- Qmult_assoc, P, Qmult_1_r.
    unfold Qabs, inject_Z. simpl. reflexivity. }
  unfold roundHalfUp. rewrite (Qfloor_comp _ _ (Qplus_comp _ _ A _ _ (Qeq_refl _))).
  rewrite Qfloor_half.
  destruct (Qneg q) eqn:N.
  - apply Qneg_spec in N. rewrite H in N |- *.
    assert (z < 0).
    { destruct (Z.ltb_spec z 0) as [L|L]; [exact L|exfalso].
      assert (0 <= inject_Z z * pow10 (- Z.of_nat f))%Q; [|lra].
      apply Qmult_le_0_compat; [|apply Qlt_le_weak, pow10_pos].
      unfold Qle. simpl. lia. }
    rewrite Z.abs_neq by lia. rewrite inject_Z_opp. ring.
  - assert (0 <= q)%Q.
    { destruct (Qlt_le_dec q 0) as [L|L]; [|exact L].
      apply Qneg_spec in L. congruence. }
    rewrite H in H0 |- *.
    assert (0 <= z).
    { destruct (Z.leb_spec 0 z) as [L|L]; [exact L|exfalso].
      assert (inject_Z z * pow10 (- Z.of_nat f) < 0)%Q; [|lra].
      assert (L' : (inject_Z z < 0)%Q) by (unfold Qlt; simpl; lia).
      pose proof (pow10_pos (- Z.of_nat f)). nra. }
    now rewrite Z.abs_eq.
Qed.

(** ** The success rate that a row stores *)

Lemma shopifyRow_rate i j k l line r :
  shopifyRow i j k l line = Some r ->
  isNaN (parseFloatAt (valuesOf line) k) = false
  /\ ShopifyData.successRate r
     = roundTo 2 (normalizedRate (parseFloatAt (valuesOf line) k)).
Proof.
  unfold shopifyRow.
  destruct (length (valuesOf line) <? 2)%nat; [discriminate|].
  destruct (at_ (valuesOf line) i) as [id|]; [|discriminate].
  destruct (negb (isEmpty id)); [|discriminate].
  pose proof (parseFloatAt_decimal (valuesOf line) k) as Hd.
  destruct (isNaN (parseFloatAt (valuesOf line) k)) eqn:N; [discriminate|].
  cbn [negb andb]. intros [= <-]. split; [reflexivity|].
  cbn [ShopifyData.successRate]. apply Number_toFixed_roundTo.
  fold (normalizedRate (parseFloatAt (valuesOf line) k)).
  unfold normalizedRate. destruct (le _ _); [|exact Hd].
  now apply (mul_decimal _ 100).
Qed.

(** ** The range of the stored success rate *)

Lemma Qabs_nonneg_eq q : (0 <= q)%Q -> Qabs q = q.
Proof.
  destruct q as [n d]. unfold Qle, Qabs. simpl. intros H.
  f_equal. apply Z.abs_eq. lia.
Qed.

Lemma roundedQ_range (f : nat) q (hi : Z) :
  (0 <= q)%Q -> (q <= inject_Z hi)%Q ->
  (0 <= roundedQ f q)%Q /\ (roundedQ f q <= inject_Z hi)%Q.
Proof.
  intros H0 H1. unfold roundedQ.
  assert (N : Qneg q = false).
  { apply not_true_iff_false. rewrite Qneg_spec. lra. }
  rewrite N, Qabs_nonneg_eq by exact H0.
  pose proof (pow10_pos (Z.of_nat f)) as Pp.
  pose proof (pow10_pos (- Z.of_nat f)) as Pn.
  assert (P : (pow10 (Z.of_nat f) * pow10 (- Z.of_nat f) == 1)%Q).
  { rewrite <- pow10_add. replace (Z.of_nat f + - Z.of_nat f) with 0 by lia.
    reflexivity. }
  assert (P2 : (pow10 (Z.of_nat f) == inject_Z (10 ^ Z.of_nat f))%Q).
  { unfold pow10. rewrite Zpower_Qpower by lia. reflexivity. }
  set (n := roundHalfUp (q * pow10 (Z.of_nat f))).
  assert (Hn0 : 0 <= n).
  { apply roundHalfUp_nonneg. apply Qmult_le_0_compat; lra. }
  assert (Hn1 : n <= hi * 10 ^ Z.of_nat f).
  { unfold n, roundHalfUp.
    rewrite <- (Qfloor_half (hi * 10 ^ Z.of_nat f)).
    apply Qfloor_resp_le. rewrite inject_Z_mult, <- P2.
    assert (q * pow10 (Z.of_nat f) <= inject_Z hi * pow10 (Z.of_nat f))%Q
      by (apply Qmult_le_compat_r; lra).
    lra. }
  split.
  - apply Qmult_le_0_compat; [|lra]. unfold Qle. simpl. lia.
  - assert (inject_Z n <= inject_Z hi * pow10 (Z.of_nat f))%Q.
    { rewrite P2, <- inject_Z_mult. now rewrite <- Zle_Qle. }
    assert (inject_Z n * pow10 (- Z.of_nat f)
            <= inject_Z hi * pow10 (Z.of_nat f) * pow10 (- Z.of_nat f))%Q
      by (apply Qmult_le_compat_r; lra).
    rewrite <- Qmult_assoc, P, Qmult_1_r in H2. exact H2.
Qed.

Lemma not_huge_le q (hi : Z) :
  (0 <= q)%Q -> (q <= inject_Z hi)%Q -> hi < 10 ^ 21 -> isHuge q = false.
Proof.
  intros H0 H1 H2. unfold isHuge. apply not_true_iff_false.
  rewrite Qle_bool_iff, Qabs_nonneg_eq by exact H0.
  assert (E : (pow10 21 == inject_Z (10 ^ 21))%Q) by reflexivity.
  rewrite E. intros C.
  assert (inject_Z (10 ^ 21) <= inject_Z hi)%Q by lra.
  rewrite <- Zle_Qle in H. lia.
Qed.

Lemma roundTo_range (f : nat) q (hi : Z) :
  (0 <= q)%Q -> (q <= inject_Z hi)%Q -> hi < 10 ^ 21 ->
  le (Fin 0) (roundTo f (Fin q)) = true
  /\ le (roundTo f (Fin q)) (Fin (inject_Z hi)) = true.
Proof.
  intros H0 H1 H2. unfold roundTo.
  rewrite (not_huge_le q hi H0 H1 H2). unfold fin.
  rewrite !le_Fin, !Qred_correct. now apply roundedQ_range.
Qed.

(** C6 as stated fails: the cell 150 is above 1, is taken for a
    percentage and is stored as 150. *)
Lemma successRate_above_100 :
  Main.parseShopifyCSV rate150CSV
  = Ok [ShopifyData.mk "s" None (Fin 150) None]
  /\ V6.parseShopifyCSV rate150CSV
     = Ok [ShopifyData.mk "s" None (Fin 150) None]
  /\ le (Fin 150) (Fin 100) = false.
Proof.
  split; [vm_compute; reflexivity|]. split; [vm_compute; reflexivity|].
  reflexivity.
Qed.

(** C6, as the code has it.  For a row that is accepted and whose
    success-rate cell parses to a number between 0 and 100, the stored
    rate lies between 0 and 100: a value of at most 1 is scaled by 100,
    a value above 1 is kept, and both are rounded to two decimals.
    (Nothing clamps a value outside that range.) *)
Theorem successRate_range i j k l line r :
  shopifyRow i j k l line = Some r ->
  le (Fin 0) (parseFloatAt (valuesOf line) k) = true ->
  le (parseFloatAt (valuesOf line) k) (Fin 100) = true ->
  le (Fin 0) (ShopifyData.successRate r) = true
  /\ le (ShopifyData.successRate r) (Fin 100) = true.
Proof.
  intros H L0 L1. apply shopifyRow_rate in H as [_ ->].
  destruct (parseFloatAt (valuesOf line) k) as [|[]|q];
    try discriminate.
  apply le_Fin in L0, L1. unfold normalizedRate.
  destruct (le (Fin q) (Fin 1)) eqn:E.
  - apply le_Fin in E. unfold mul, fin.
    apply (roundTo_range 2 _ 100); [| |reflexivity];
      rewrite Qred_correct; [|change (inject_Z 100) with 100%Q]; lra.
  - apply (roundTo_range 2 q 100); [exact L0|exact L1|reflexivity].
Qed.

Lemma successRate_range_witness :
  shopifyRow 0 (-1) 1 (-1) "s,0.5"
  = Some (ShopifyData.mk "s" None (Fin 50) None)
  /\ le (Fin 0) (parseFloatAt (valuesOf "s,0.5") 1) = true
  /\ le (parseFloatAt (valuesOf "s,0.5") 1) (Fin 100) = true
  /\ le (Fin 0) (Fin 50) = true /\ le (Fin 50) (Fin 100) = true.
Proof.
  assert (H : shopifyRow 0 (-1) 1 (-1) "s,0.5"
              = Some (ShopifyData.mk "s" None (Fin 50) None))
    by (vm_compute; reflexivity).
  assert (L0 : le (Fin 0) (parseFloatAt (valuesOf "s,0.5") 1) = true)
    by (vm_compute; reflexivity).
  assert (L1 : le (parseFloatAt (valuesOf "s,0.5") 1) (Fin 100) = true)
    by (vm_compute; reflexivity).
  split; [exact H|]. split; [exact L0|]. split; [exact L1|].
  exact (successRate_range 0 (-1) 1 (-1) "s,0.5" _ H L0 L1).
Defined.

(** ** Durations that are not positive *)

(** C4. The code does not keep the invariant.  SessionAnalyzer.tsx
    accepts every duration that is not [NaN], so a negative one is
    stored; part_006 tests [sessionLength > 0] before it rounds to two
    decimals, so a duration below 0.005 is stored as 0, and its test
    lets [Infinity] through. *)
Theorem duration_not_positive (Date_getTime : string -> num) :
  Main.parseAWSCSV negativeLengthCSV
  = Ok [AWSData.mk "s" (Fin (-5)) None None]
  /\ V6.parseAWSCSV Date_getTime tinyLengthCSV
     = Ok [AWSData.mk "s" (Fin 0) None None]
  /\ V6.parseAWSCSV Date_getTime infiniteLengthCSV
     = Ok [AWSData.mk "s" (Inf false) None None]
  /\ gt (Fin (-5)) (Fin 0) = false /\ gt (Fin 0) (Fin 0) = false.
Proof.
  split; [vm_compute; reflexivity|]. split; [vm_compute; reflexivity|].
  split; [vm_compute; reflexivity|]. split; reflexivity.
Qed.

(** ** The timestamp-difference path of part_006 *)

Lemma numericPattern_literal s :
  V6.numericPattern s = true ->
  exists ip fr,
    s = signedText false (literalText ip fr None)
    /\ allDigits ip = true /\ isEmpty ip = false /\ digitsOpt fr = true.
Proof.
  unfold V6.numericPattern.
  pose proof (span_digits_spec s) as H.
  destruct (span_digits s) as [ip r]. destruct H as (-> & Hip & _).
  intros H. apply andb_prop in H as [Hne Hr].
  apply negb_true_iff in Hne.
  destruct r as [|c r'].
  - exists ip, None.
    split; [reflexivity|]. split; [exact Hip|]. split; [exact Hne|].
    reflexivity.
  - apply andb_prop in Hr as [Hc Hr]. apply Ascii.eqb_eq in Hc. subst c.
    pose proof (span_digits_spec r') as H.
    destruct (span_digits r') as [fp r2]. destruct H as (-> & Hfp & _).
    simpl in Hr. destruct r2; [|discriminate].
    exists ip, (Some fp).
    split; [reflexivity|]. split; [exact Hip|]. split; [exact Hne|].
    exact Hfp.
Qed.

Lemma numericPattern_parseFloat s :
  V6.numericPattern s = true ->
  exists q, parseFloat s = Fin q /\ decimalQ q /\ Qred q = q.
Proof.
  intros H. apply numericPattern_literal in H
    as (ip & fr & -> & H1 & H2 & H3).
  rewrite parseFloat_literal by (assumption || reflexivity).
  eexists. split; [reflexivity|].
  split; [|apply Qred_Qred].
  destruct (decimalQ_literal ip fr None) as (m & e & E).
  exists m, e. now rewrite Qred_correct.
Qed.

(** ** The statistics of the report *)

Lemma splitIndex_spec fused :
  Main.splitIndex fused = Z.to_nat (Z.of_nat (length fused) * 65 / 100).
Proof.
  unfold Main.splitIndex, Main.toIndex, floor, mul, ofNat, ofZ, fin.
  rewrite Qfloor_Z. f_equal.
  rewrite (Qfloor_comp _ _ (Qred_correct _)).
  unfold Qfloor, Qmult, inject_Z. simpl. f_equal; lia.
Qed.

(** ** Exporting and parsing again *)

Lemma split_single sep s : countChar sep s = O -> split sep s = [s].
Proof.
  induction s as [|c s IH]; [reflexivity|]. cbn [countChar split].
  destruct (Ascii.eqb c sep); [discriminate|]. intros H.
  now rewrite (IH H).
Qed.

Lemma split_app_sep sep x r :
  countChar sep x = O ->
  split sep (x +:+ String sep r) = x :: split sep r.
Proof.
  induction x as [|c x IH]; cbn [String.append countChar split].
  - intros _. now rewrite Ascii.eqb_refl.
  - destruct (Ascii.eqb c sep); [discriminate|]. intros H.
    now rewrite (IH H).
Qed.

Lemma join_cons sep x y rest :
  join sep (x :: y :: rest) = x +:+ sep +:+ join sep (y :: rest).
Proof. reflexivity. Qed.

Lemma app_char c s : String c EmptyString +:+ s = String c s.
Proof. reflexivity. Qed.

Lemma split_join sep lines :
  lines <> [] -> Forall (fun l => countChar sep l = O) lines ->
  split sep (join (String sep EmptyString) lines) = lines.
Proof.
  induction lines as [|x rest IH]; [congruence|]. intros _ H.
  inversion H as [|? ? Hx Hr]; subst.
  destruct rest as [|y rest]; [now apply split_single|].
  rewrite join_cons, app_char.
  rewrite split_app_sep by exact Hx. f_equal. now apply IH.
Qed.

Lemma countChar_app c a b :
  countChar c (a +:+ b) = (countChar c a + countChar c b)%nat.
Proof.
  induction a as [|x a IH]; cbn [String.append countChar]; [reflexivity|].
  rewrite IH. lia.
Qed.

Lemma plainText_no_comma s : plainText s = true -> countChar comma s = O.
Proof.
  induction s as [|c s IH]; [reflexivity|]. unfold plainText.
  cbn [allChars countChar]. intros H. apply andb_prop in H as [Hc Hs].
  rewrite (IH Hs). unfold plainChar in Hc.
  apply andb_prop in Hc as [Hc _]. apply andb_prop in Hc as [_ Hc].
  apply negb_true_iff in Hc. now rewrite Hc.
Qed.

Lemma plainText_no_LF s : plainText s = true -> countChar LF s = O.
Proof.
  induction s as [|c s IH]; [reflexivity|]. unfold plainText.
  cbn [allChars countChar]. intros H. apply andb_prop in H as [Hc Hs].
  rewrite (IH Hs). apply plainChar_noSpace in Hc.
  destruct (Ascii.eqb_spec c LF) as [->|_]; [discriminate Hc|reflexivity].
Qed.

Lemma dropTrailingQuote_plain s :
  plainText s = true -> dropTrailingQuote s = s.
Proof.
  induction s as [|c s IH]; [reflexivity|]. unfold plainText.
  cbn [allChars]. intros H. apply andb_prop in H as [Hc Hs].
  cbn [dropTrailingQuote]. rewrite (IH Hs).
  unfold plainChar in Hc. apply andb_prop in Hc as [_ Hc].
  apply negb_true_iff in Hc. rewrite Hc. now destruct s.
Qed.

Lemma stripQuotes_plain s : plainText s = true -> stripQuotes s = s.
Proof.
  intros H. unfold stripQuotes.
  assert (E : dropLeadingQuote s = s).
  { destruct s as [|c s]; [reflexivity|]. unfold plainText in H.
    cbn [allChars] in H. apply andb_prop in H as [Hc _].
    unfold plainChar in Hc. apply andb_prop in Hc as [_ Hc].
    apply negb_true_iff in Hc. cbn [dropLeadingQuote]. now rewrite Hc. }
  rewrite E. now apply dropTrailingQuote_plain.
Qed.

Lemma trimEnd_app_plain a b :
  plainText b = true -> isEmpty b = false ->
  trimEnd (a +:+ b) = a +:+ b.
Proof.
  intros Hb Hne. induction a as [|c a IH]; cbn [String.append].
  - now apply trimEnd_plain.
  - cbn [trimEnd]. rewrite IH.
    assert (E : isEmpty (a +:+ b) = false)
      by (destruct a; [exact Hne|reflexivity]).
    rewrite E, andb_false_r. reflexivity.
Qed.

Lemma join_ends_plain sep x rows :
  (forall r, In r rows ->
     exists a b, r = a +:+ b /\ plainText b = true /\ isEmpty b = false) ->
  rows <> [] ->
  exists a b, join sep (x :: rows) = a +:+ b
              /\ plainText b = true /\ isEmpty b = false.
Proof.
  revert x. induction rows as [|r rest IH]; intros x H Hne; [congruence|].
  destruct rest as [|r' rest].
  - destruct (H r ltac:(now left)) as (a & b & -> & Hb & He).
    exists (x +:+ sep +:+ a), b. split; [|split; assumption].
    cbn [join]. now rewrite !app_assoc_string.
  - destruct (IH r) as (a & b & E & Hb & He).
    + intros r0 Hr0. apply H. now right.
    + discriminate.
    + exists (x +:+ sep +:+ a), b. split; [|split; assumption].
      change (join sep (x :: r :: r' :: rest))
        with (x +:+ sep +:+ join sep (r :: r' :: rest)).
      rewrite E. now rewrite !app_assoc_string.
Qed.

Lemma omap_map_Some {A B C} (f : B -> option C) (g : A -> B) (h : A -> C) l :
  (forall x, In x l -> f (g x) = Some (h x)) ->
  omap f (map g l) = map h l.
Proof.
  induction l as [|x l IH]; intros H; [reflexivity|].
  simpl. rewrite (H x) by now left. simpl. f_equal.
  apply IH. intros y Hy. apply H. now right.
Qed.

Lemma at_four {A} (a b c d : A) :
  at_ [a; b; c; d] 0 = Some a /\ at_ [a; b; c; d] 2 = Some c
  /\ at_ [a; b; c; d] 3 = Some d.
Proof. repeat split. Qed.

Lemma optionalAt_none values : optionalAt values (-1) = None.
Proof. reflexivity. Qed.

Lemma normalizedRate_decimal v : decimalNum v -> decimalNum (normalizedRate v).
Proof.
  intros H. unfold normalizedRate. destruct (le _ _); [|exact H].
  now apply (mul_decimal _ 100).
Qed.

(** The numbers of the pipeline are numbers that the export prints
    exactly: what the parsers store, and so what the fuser emits, is an
    infinity or a decimal fraction, never [NaN]. *)
Lemma roundTo_decimal f x : decimalNum x -> decimalNum (roundTo f x).
Proof.
  destruct x as [|s|q]; try (intros; exact I). intros H. unfold roundTo.
  destruct (isHuge q); [exact H|]. apply decimalNum_fin. unfold roundedQ.
  destruct (Qneg q); [apply decimalQ_opp|]; eexists _, _; reflexivity.
Qed.

Lemma roundTo_notNaN f x : isNaN x = false -> isNaN (roundTo f x) = false.
Proof.
  destruct x as [|s|q]; try (intros; assumption). intros _.
  unfold roundTo. now destruct (isHuge q).
Qed.

Lemma normalizedRate_notNaN v :
  isNaN v = false -> isNaN (normalizedRate v) = false.
Proof.
  destruct v as [|s|q]; try discriminate; intros _; unfold normalizedRate.
  - now destruct (le _ _).
  - now destruct (le _ _).
Qed.

Lemma shopifyRow_exportable_rate i j k l line r :
  shopifyRow i j k l line = Some r ->
  decimalNum (ShopifyData.successRate r)
  /\ isNaN (ShopifyData.successRate r) = false.
Proof.
  intros H. apply shopifyRow_rate in H as [N ->]. split.
  - apply roundTo_decimal, normalizedRate_decimal, parseFloatAt_decimal.
  - now apply roundTo_notNaN, normalizedRate_notNaN.
Qed.

Lemma awsRow_exportable_length i j k l line r :
  Main.awsRow i j k l line = Some r ->
  decimalNum (AWSData.sessionLength r)
  /\ isNaN (AWSData.sessionLength r) = false.
Proof.
  intros H. split; [|now apply awsRow_sessionId in H].
  unfold Main.awsRow in H.
  destruct (length (valuesOf line) <? 2)%nat; [discriminate|].
  destruct (at_ (valuesOf line) i) as [id|]; [|discriminate].
  destruct (_ && _); [|discriminate].
  injection H as <-. apply parseFloatAt_decimal.
Qed.

Lemma innerJoinFrom_In awsData k shopifyData p :
  In p (innerJoinFrom awsData k shopifyData) ->
  exists s a,
    In s shopifyData /\ In a awsData
    /\ FusedDataPoint.sessionId p = ShopifyData.sessionId s
    /\ FusedDataPoint.successRate p = ShopifyData.successRate s
    /\ FusedDataPoint.sessionLength p = AWSData.sessionLength a.
Proof.
  revert k. induction shopifyData as [|s rest IH]; intros k H;
    [destruct H|].
  cbn [innerJoinFrom] in H.
  destruct (indexLookup awsData (ShopifyData.sessionId s)) as [a|] eqn:E.
  - destruct H as [<-|H].
    + apply indexLookup_In in E as [E _].
      exists s, a. repeat split; [now left|exact E].
    + destruct (IH _ H) as (s' & a' & H1 & H2). exists s', a'.
      split; [now right|exact H2].
  - destruct (IH _ H) as (s' & a' & H1 & H2). exists s', a'.
    split; [now right|exact H2].
Qed.

Lemma fuseData_exportable csvShopify csvAws shopifyData awsData :
  Main.parseShopifyCSV csvShopify = Ok shopifyData ->
  Main.parseAWSCSV csvAws = Ok awsData ->
  Forall (fun p => cleanId (FusedDataPoint.sessionId p))
    (fuseData shopifyData awsData) ->
  Forall exportable (fuseData shopifyData awsData).
Proof.
  intros HS HA Hc.
  apply parseShopifyCSV_Ok in HS as (i & j & k & l & ->).
  apply parseAWSCSV_Ok in HA as (i' & j' & k' & l' & ->).
  rewrite Forall_forall in Hc. apply Forall_forall. intros p Hp.
  pose proof (Hc p Hp) as Hid.
  rewrite fuseData_sort_innerJoin in Hp. apply list_elem_of_In in Hp.
  apply (Permutation_in _ (Permutation_sym (sort_Permutation _ _))) in Hp.
  apply innerJoinFrom_In in Hp as (s & a & Hs & Ha & _ & Hr & Hl).
  apply list_elem_of_In, list_elem_of_omap in Hs as (ls & _ & Hs).
  apply list_elem_of_In, list_elem_of_omap in Ha as (la & _ & Ha).
  apply shopifyRow_exportable_rate in Hs as [S1 S2].
  apply awsRow_exportable_length in Ha as [A1 A2].
  unfold exportable. rewrite Hr, Hl.
  split; [exact Hid|]. repeat split; assumption.
Qed.

Lemma decimalNum_ofZ (z : Z) : decimalNum (Fin (inject_Z z)).
Proof.
  split; [exists z, 0; unfold pow10; simpl; ring|].
  apply Qcanon.Qred_identity. simpl. apply Z.gcd_1_r.
Qed.

(** * Further properties of the pipeline *)

(** ** The fuser: sequence numbers and repeated ids *)

Lemma innerJoinFrom_numbers awsData k shopifyData :
  map FusedDataPoint.sessionNumber (innerJoinFrom awsData k shopifyData)
  = map (fun i => k + Z.of_nat i)
      (seq 0 (length (innerJoinFrom awsData k shopifyData))).
Proof.
  revert k. induction shopifyData as [|s rest IH]; intros k; [reflexivity|].
  cbn [innerJoinFrom].
  destruct (indexLookup awsData (ShopifyData.sessionId s)); [|apply IH].
  cbn [map length seq]. f_equal; [simpl; lia|].
  rewrite IH, <- seq_shift, map_map. apply map_ext. intros i. lia.
Qed.

(** X1. The sequence numbers of the fused records are the numbers from 1 to
    the number of fused records, each one once: the counter starts at 1
    and advances on every hit, and the sort only rearranges. *)
Theorem fuseData_sessionNumbers shopifyData awsData :
  Permutation
    (map FusedDataPoint.sessionNumber (fuseData shopifyData awsData))
    (map Z.of_nat (seq 1 (length (fuseData shopifyData awsData)))).
Proof.
  rewrite fuseData_sort_innerJoin.
  pose proof (sort_Permutation byLength (innerJoin shopifyData awsData))
    as P.
  rewrite <- (Permutation_length P).
  rewrite <- (Permutation_map FusedDataPoint.sessionNumber P).
  unfold innerJoin. rewrite innerJoinFrom_numbers.
  rewrite <- seq_shift, map_map.
  erewrite map_ext; [reflexivity|]. intros i. simpl. lia.
Qed.

Lemma innerJoinFrom_lookup awsData k shopifyData p :
  In p (innerJoinFrom awsData k shopifyData) ->
  exists a,
    indexLookup awsData (FusedDataPoint.sessionId p) = Some a
    /\ FusedDataPoint.sessionLength p = AWSData.sessionLength a.
Proof.
  revert k. induction shopifyData as [|s rest IH]; intros k H;
    [destruct H|].
  cbn [innerJoinFrom] in H.
  destruct (indexLookup awsData (ShopifyData.sessionId s)) as [a|] eqn:E;
    [|now apply IH in H].
  destruct H as [<-|H]; [|now apply IH in H].
  exists a. split; [exact E|reflexivity].
Qed.

Lemma indexLookup_last earlier a later :
  (forall b, In b later -> AWSData.sessionId b <> AWSData.sessionId a) ->
  indexLookup (earlier ++ a :: later) (AWSData.sessionId a) = Some a.
Proof.
  intros H. unfold indexLookup.
  rewrite List.filter_app. cbn [List.filter]. rewrite String.eqb_refl.
  assert (E : List.filter
                (fun b => String.eqb (AWSData.sessionId b)
                            (AWSData.sessionId a)) later = []).
  { induction later as [|b later IH]; [reflexivity|]. cbn [List.filter].
    destruct (String.eqb _ _) eqn:Eb.
    - apply String.eqb_eq in Eb. destruct (H b); [now left|exact Eb].
    - apply IH. intros c Hc. apply H. now right. }
  rewrite E. apply last_snoc.
Qed.

(** X2. When several duration records carry one session id, the fused
    records of that id take the length of the last of them: the index is
    a [Map], and a later [set] replaces the earlier value. *)
Theorem fuseData_last_duration_wins shopifyData earlier a later p :
  (forall b, In b later -> AWSData.sessionId b <> AWSData.sessionId a) ->
  In p (fuseData shopifyData (earlier ++ a :: later)) ->
  FusedDataPoint.sessionId p = AWSData.sessionId a ->
  FusedDataPoint.sessionLength p = AWSData.sessionLength a.
Proof.
  intros Hlater Hp Hid.
  rewrite fuseData_sort_innerJoin in Hp.
  apply (Permutation_in _ (Permutation_sym (sort_Permutation _ _))) in Hp.
  apply innerJoinFrom_lookup in Hp as (a' & Ha' & ->).
  rewrite Hid, (indexLookup_last _ _ _ Hlater) in Ha'.
  now injection Ha' as <-.
Qed.

Lemma fuseData_last_duration_wins_witness :
  (forall b, In b [] -> AWSData.sessionId b <> "a"%string)
  /\ fuseData [ShopifyData.mk "a" None (Fin 50) None]
       [AWSData.mk "a" (Fin 3) None None; AWSData.mk "a" (Fin 7) None None]
     = [FusedDataPoint.mk "a" 1 (Fin 7) (Fin 50)]
  /\ FusedDataPoint.sessionLength (FusedDataPoint.mk "a" 1 (Fin 7) (Fin 50))
     = Fin 7.
Proof.
  assert (H : forall b : AWSData.t, In b [] ->
                AWSData.sessionId b <> "a"%string) by (intros b []).
  split; [exact H|]. split; [reflexivity|].
  apply (fuseData_last_duration_wins
           [ShopifyData.mk "a" None (Fin 50) None]
           [AWSData.mk "a" (Fin 3) None None]
           (AWSData.mk "a" (Fin 7) None None) []
           (FusedDataPoint.mk "a" 1 (Fin 7) (Fin 50)) H).
  - vm_compute. now left.
  - reflexivity.
Defined.

(** ** The outcomes of the fusion report *)

Lemma fuseData_nil_iff shopifyData awsData :
  fuseData shopifyData awsData = [] <->
  forall s, In s shopifyData ->
    ~ In (ShopifyData.sessionId s) (durationIds awsData).
Proof.
  split.
  - intros E s Hs Hid.
    assert (H : In (ShopifyData.sessionId s)
                  (map FusedDataPoint.sessionId
                     (fuseData shopifyData awsData))).
    { apply fuseData_ids. split; [|exact Hid].
      unfold successIds. now apply in_map. }
    rewrite E in H. destruct H.
  - intros H. destruct (fuseData shopifyData awsData) as [|p l] eqn:E;
      [reflexivity|].
    assert (Hp : In (FusedDataPoint.sessionId p)
                   (map FusedDataPoint.sessionId
                      (fuseData shopifyData awsData)))
      by (rewrite E; now left).
    apply fuseData_ids in Hp as [H1 H2].
    unfold successIds in H1. apply in_map_iff in H1 as (s & Hs & Hin).
    destruct (H s Hin). now rewrite Hs.
Qed.

Lemma length_eqb_0 {A} (l : list A) : (length l =? 0)%nat = true <-> l = [].
Proof. destruct l; simpl; split; congruence. Qed.

(** X3. What [generateFusionReport] does to the state.  It never changes the
    two uploaded record sets.  When one of them is empty, or when no
    success record has a session id that a duration record has, it only
    sets the message: the fused records, the statistics and the report
    flag stay as they were.  Otherwise it stores the fused records (at
    least one) and their statistics, sets the report flag and reports
    the number of matches out of the larger of the two record counts. *)
Theorem generateFusionReport_outcome (st : Main.State) :
  Main.shopifyData (Main.generateFusionReport st) = Main.shopifyData st
  /\ Main.awsData (Main.generateFusionReport st) = Main.awsData st
  /\ (Main.shopifyData st = [] \/ Main.awsData st = [] ->
      Main.generateFusionReport st
      = Main.mkState (Main.shopifyData st) (Main.awsData st)
          (Main.fusedData st) (Main.stats st) (Main.isReportGenerated st)
          Main.BothRequired)
  /\ (Main.shopifyData st <> [] -> Main.awsData st <> [] ->
      (forall s, In s (Main.shopifyData st) ->
         ~ In (ShopifyData.sessionId s) (durationIds (Main.awsData st))) ->
      Main.generateFusionReport st
      = Main.mkState (Main.shopifyData st) (Main.awsData st)
          (Main.fusedData st) (Main.stats st) (Main.isReportGenerated st)
          (Main.NoMatchingSessions (length (Main.shopifyData st))
             (length (Main.awsData st))))
  /\ ((exists s, In s (Main.shopifyData st)
         /\ In (ShopifyData.sessionId s) (durationIds (Main.awsData st))) ->
      Main.fusedData (Main.generateFusionReport st)
      = fuseData (Main.shopifyData st) (Main.awsData st)
      /\ Main.fusedData (Main.generateFusionReport st) <> []
      /\ Main.stats (Main.generateFusionReport st)
         = Main.reportStats (Main.shopifyData st) (Main.awsData st)
             (fuseData (Main.shopifyData st) (Main.awsData st))
      /\ Main.isReportGenerated (Main.generateFusionReport st) = true
      /\ exists matchRate,
           Main.fusionMessage (Main.generateFusionReport st)
           = Main.ReportGenerated
               (length (fuseData (Main.shopifyData st) (Main.awsData st)))
               (Nat.max (length (Main.shopifyData st))
                  (length (Main.awsData st)))
               matchRate).
Proof.
  unfold Main.generateFusionReport.
  destruct ((length (Main.shopifyData st) =? 0)%nat
            || (length (Main.awsData st) =? 0)%nat) eqn:E0.
  - assert (H0 : Main.shopifyData st = [] \/ Main.awsData st = []).
    { apply orb_true_iff in E0 as [E|E]; apply length_eqb_0 in E; auto. }
    assert (Hf : fuseData (Main.shopifyData st) (Main.awsData st) = []).
    { unfold fuseData. now rewrite E0. }
    repeat split; try reflexivity.
    + intros HS HA. destruct H0; contradiction.
    + destruct H as (s & Hs & Hid).
      rewrite fuseData_nil_iff in Hf. destruct (Hf s Hs Hid).
    + destruct H as (s & Hs & Hid).
      rewrite fuseData_nil_iff in Hf. destruct (Hf s Hs Hid).
    + destruct H as (s & Hs & Hid).
      rewrite fuseData_nil_iff in Hf. destruct (Hf s Hs Hid).
    + destruct H as (s & Hs & Hid).
      rewrite fuseData_nil_iff in Hf. destruct (Hf s Hs Hid).
    + destruct H as (s & Hs & Hid).
      rewrite fuseData_nil_iff in Hf. destruct (Hf s Hs Hid).
  - apply orb_false_iff in E0 as [ES EA].
    assert (HS : Main.shopifyData st <> [])
      by (intros E; apply length_eqb_0 in E; congruence).
    assert (HA : Main.awsData st <> [])
      by (intros E; apply length_eqb_0 in E; congruence).
    destruct (length (fuseData (Main.shopifyData st) (Main.awsData st))
              =? 0)%nat eqn:EF.
    + apply length_eqb_0 in EF.
      split; [reflexivity|]. split; [reflexivity|].
      split; [intros [H|H]; contradiction|].
      split; [reflexivity|].
      intros (s & Hs & Hid).
      rewrite fuseData_nil_iff in EF. destruct (EF s Hs Hid).
    + assert (HF : fuseData (Main.shopifyData st) (Main.awsData st) <> [])
        by (intros E; apply length_eqb_0 in E; congruence).
      split; [reflexivity|]. split; [reflexivity|].
      split; [intros [H|H]; contradiction|].
      split.
      * intros _ _ H. apply fuseData_nil_iff in H. contradiction.
      * intros _. cbn [Main.fusedData Main.stats Main.isReportGenerated
                         Main.fusionMessage].
        split; [reflexivity|]. split; [exact HF|].
        split; [reflexivity|]. split; [reflexivity|]. eauto.
Qed.

(** X4. Generating the report twice is generating it once: the second run
    reads the same two record sets and writes the same values. *)
Theorem generateFusionReport_idempotent (st : Main.State) :
  Main.generateFusionReport (Main.generateFusionReport st)
  = Main.generateFusionReport st.
Proof.
  unfold Main.generateFusionReport.
  destruct ((length (Main.shopifyData st) =? 0)%nat
            || (length (Main.awsData st) =? 0)%nat) eqn:E0.
  - cbn [Main.shopifyData Main.awsData]. rewrite E0. reflexivity.
  - destruct (length (fuseData (Main.shopifyData st) (Main.awsData st))
              =? 0)%nat eqn:EF.
    + cbn [Main.shopifyData Main.awsData]. rewrite E0, EF. reflexivity.
    + cbn [Main.shopifyData Main.awsData]. rewrite E0, EF. reflexivity.
Qed.

Lemma fuseData_length_le shopifyData awsData :
  (length (fuseData shopifyData awsData) <= length shopifyData)%nat.
Proof.
  rewrite fuseData_length.
  etransitivity; [apply List.filter_length_le|].
  unfold successIds. now rewrite length_map.
Qed.

(** X5. The match rate of the report message is the text, with one decimal,
    of a percentage above 0 and of at most 100: at least one session is
    matched, and the matches are counted against the larger of the two
    record counts, which the number of matches never exceeds (also when
    session ids repeat). *)
Theorem matchRate_at_most_100 (st : Main.State) matched total matchRate :
  Main.fusionMessage (Main.generateFusionReport st)
  = Main.ReportGenerated matched total matchRate ->
  (1 <= matched <= total)%nat
  /\ exists q : Q, (0 < q)%Q /\ (q <= 100)%Q
       /\ matchRate = toFixed (Fin q) 1.
Proof.
  unfold Main.generateFusionReport.
  destruct ((length (Main.shopifyData st) =? 0)%nat
            || (length (Main.awsData st) =? 0)%nat); [discriminate|].
  destruct (length (fuseData (Main.shopifyData st) (Main.awsData st))
            =? 0)%nat eqn:EF; [discriminate|].
  cbn [Main.fusionMessage]. intros [= <- <- <-].
  apply Nat.eqb_neq in EF.
  pose proof (fuseData_length_le (Main.shopifyData st) (Main.awsData st))
    as Hle.
  set (m := length (fuseData (Main.shopifyData st) (Main.awsData st))) in *.
  set (t := Nat.max (length (Main.shopifyData st))
              (length (Main.awsData st))).
  assert (Hmt : (m <= t)%nat) by (unfold t; lia).
  split; [lia|].
  assert (Ht : (0 < inject_Z (Z.of_nat t))%Q).
  { replace 0%Q with (inject_Z 0) by reflexivity.
    rewrite <- Zlt_Qlt. lia. }
  assert (Hm : (0 < inject_Z (Z.of_nat m))%Q).
  { replace 0%Q with (inject_Z 0) by reflexivity.
    rewrite <- Zlt_Qlt. lia. }
  assert (Hmt' : (inject_Z (Z.of_nat m) <= inject_Z (Z.of_nat t))%Q).
  { rewrite <- Zle_Qle. lia. }
  unfold ofNat, ofZ, div.
  assert (E0 : Qis0 (inject_Z (Z.of_nat t)) = false).
  { unfold Qis0. simpl. lia. }
  rewrite E0. unfold fin, mul.
  eexists. split; [|split; [|reflexivity]].
  - rewrite !Qred_correct. apply Qmult_lt_0_compat; [|reflexivity].
    apply Qlt_shift_div_l; [exact Ht|]. now rewrite Qmult_0_l.
  - rewrite !Qred_correct.
    assert (H1 : (inject_Z (Z.of_nat m) / inject_Z (Z.of_nat t) <= 1)%Q).
    { apply Qle_shift_div_r; [exact Ht|]. now rewrite Qmult_1_l. }
    apply (Qle_trans _ (1 * 100)); [|discriminate].
    apply Qmult_le_compat_r; [exact H1|discriminate].
Qed.

Lemma matchRate_at_most_100_witness :
  Main.fusionMessage (Main.generateFusionReport oneSessionState)
  = Main.ReportGenerated 1 1 "100.0"
  /\ (1 <= 1 <= 1)%nat
  /\ exists q : Q, (0 < q)%Q /\ (q <= 100)%Q
       /\ "100.0"%string = toFixed (Fin q) 1.
Proof.
  assert (H : Main.fusionMessage (Main.generateFusionReport oneSessionState)
              = Main.ReportGenerated 1 1 "100.0") by (vm_compute; reflexivity).
  split; [exact H|].
  exact (matchRate_at_most_100 oneSessionState 1%nat 1%nat "100.0" H).
Defined.

(** ** What a parser returns, and when it reports missing columns *)

Lemma findIndex_ge {A} (p : A -> bool) l : -1 <= findIndex p l.
Proof.
  induction l as [|x l IH]; simpl; [lia|].
  destruct (p x); [lia|]. destruct (findIndex p l <? 0) eqn:E; lia.
Qed.

Lemma findIndex_none {A} (p : A -> bool) l :
  findIndex p l = -1 <-> Forall (fun x => p x = false) l.
Proof.
  induction l as [|x l IH]; simpl.
  - split; [constructor|reflexivity].
  - destruct (p x) eqn:E.
    + split; [discriminate|]. intros H. inversion H. congruence.
    + pose proof (findIndex_ge p l).
      destruct (findIndex p l <? 0) eqn:E'.
      * apply Z.ltb_lt in E'. split; [|reflexivity].
        intros _. constructor; [exact E|]. apply IH. lia.
      * apply Z.ltb_ge in E'. split; [lia|].
        intros H'. inversion H' as [|? ? ? Hl]. apply IH in Hl. lia.
Qed.






(** X7. For a text of two lines or more, the success-source parser reports
    missing columns exactly when no header cell passes the session-id
    test or none passes the success-rate test, and the duration-source
    parser exactly when none passes the session-id test or none the
    session-length test.  The message ends with the header cells as
    they are compared: trimmed, in lower case, joined by a comma and a
    blank. *)
Theorem missing_columns csvText :
  (2 <= length (linesOf csvText))%nat ->
  (Forall (fun h => Main.sessionIdHeader h = false)
     (headersOf (default EmptyString (head (linesOf csvText))))
   \/ Forall (fun h => Main.successRateHeader h = false)
        (headersOf (default EmptyString (head (linesOf csvText))))
   <-> Main.parseShopifyCSV csvText
       = Throw (MissingColumns
           ("Shopify CSV must contain columns for session_id and success_rate. Found headers: "
            +:+ join ", "
                  (headersOf (default EmptyString
                                (head (linesOf csvText)))))))
  /\ (forall message,
        Main.parseShopifyCSV csvText = Throw (MissingColumns message) ->
        message
        = "Shopify CSV must contain columns for session_id and success_rate. Found headers: "
          +:+ join ", "
                (headersOf (default EmptyString (head (linesOf csvText)))))
  /\ (Forall (fun h => Main.sessionIdHeader h = false)
        (headersOf (default EmptyString (head (linesOf csvText))))
      \/ Forall (fun h => Main.sessionLengthHeader h = false)
           (headersOf (default EmptyString (head (linesOf csvText))))
      <-> Main.parseAWSCSV csvText
          = Throw (MissingColumns
              ("AWS CSV must contain columns for session_id and session_length. Found headers: "
               +:+ join ", "
                     (headersOf (default EmptyString
                                   (head (linesOf csvText)))))))
  /\ (forall message,
        Main.parseAWSCSV csvText = Throw (MissingColumns message) ->
        message
        = "AWS CSV must contain columns for session_id and session_length. Found headers: "
          +:+ join ", "
                (headersOf (default EmptyString (head (linesOf csvText))))).
Proof.
  intros H2. apply Nat.ltb_ge in H2.
  set (headers := headersOf (default EmptyString (head (linesOf csvText)))).
  rewrite <- !findIndex_none.
  unfold Main.parseShopifyCSV, Main.parseAWSCSV. rewrite H2. cbv zeta.
  fold headers.
  repeat split.
  - intros [E|E]; rewrite E; [reflexivity|].
    now rewrite orb_true_r.
  - destruct (findIndex Main.sessionIdHeader headers =? -1) eqn:E1;
      [apply Z.eqb_eq in E1; auto|].
    destruct (findIndex Main.successRateHeader headers =? -1) eqn:E2;
      [apply Z.eqb_eq in E2; auto|].
    cbn [orb]. destruct (length _ =? 0)%nat; discriminate.
  - intros message.
    destruct (_ || _); [now intros [= <-]|].
    destruct (length _ =? 0)%nat; discriminate.
  - intros [E|E]; rewrite E; [reflexivity|].
    now rewrite orb_true_r.
  - destruct (findIndex Main.sessionIdHeader headers =? -1) eqn:E1;
      [apply Z.eqb_eq in E1; auto|].
    destruct (findIndex Main.sessionLengthHeader headers =? -1) eqn:E2;
      [apply Z.eqb_eq in E2; auto|].
    cbn [orb]. destruct (length _ =? 0)%nat; discriminate.
  - intros message.
    destruct (_ || _); [now intros [= <-]|].
    destruct (length _ =? 0)%nat; discriminate.
Qed.

Lemma missing_columns_witness :
  (2 <= length (linesOf missingRateCSV))%nat
  /\ Main.parseShopifyCSV missingRateCSV
     = Throw (MissingColumns
         "Shopify CSV must contain columns for session_id and success_rate. Found headers: session_id, order").
Proof.
  assert (H : (2 <= length (linesOf missingRateCSV))%nat)
    by (vm_compute; lia).
  split; [exact H|].
  destruct (missing_columns missingRateCSV H) as ((H1 & _) & _).
  rewrite H1; [reflexivity|].
  right. vm_compute. repeat constructor.
Defined.

(** ** Cells and line endings *)

Lemma split_app sep a b :
  split sep (a +:+ String sep b) = split sep a ++ split sep b.
Proof.
  induction a as [|c a IH]; cbn [String.append split].
  - now rewrite Ascii.eqb_refl.
  - rewrite IH. destruct (Ascii.eqb c sep); [reflexivity|].
    destruct (split sep a) as [|w ws] eqn:E; [|reflexivity].
    now destruct (split_nonempty sep a).
Qed.

(** X8. Every comma separates two cells, whatever stands around it: the
    cells of two texts joined by a comma are the cells of the first
    followed by the cells of the second, and a row has one cell more
    than it has commas.  The quotes around a cell do not protect a comma
    inside it; they are stripped from the pieces afterwards.  A line
    without a comma, a blank line for one, gives no record. *)
Theorem valuesOf_cells line a b :
  valuesOf (a +:+ String comma b) = valuesOf a ++ valuesOf b
  /\ length (valuesOf line) = S (countChar comma line)
  /\ (countChar comma line = O ->
      forall i j k l,
        shopifyRow i j k l line = None /\ Main.awsRow i j k l line = None).
Proof.
  assert (L : length (valuesOf line) = S (countChar comma line)).
  { unfold valuesOf. now rewrite length_map, split_length. }
  split; [|split; [exact L|]].
  - unfold valuesOf. now rewrite split_app, map_app.
  - intros H i j k l. unfold shopifyRow, Main.awsRow.
    rewrite L, H. split; reflexivity.
Qed.

Lemma trimEnd_app_CR s : trimEnd (s +:+ String CR EmptyString) = trimEnd s.
Proof.
  induction s as [|c s IH]; [reflexivity|].
  cbn [String.append trimEnd]. now rewrite IH.
Qed.

Lemma trim_app_CR s : trim (s +:+ String CR EmptyString) = trim s.
Proof.
  unfold trim. induction s as [|c s IH]; [reflexivity|].
  cbn [String.append trimStart]. destruct (is_space c); [exact IH|].
  apply (trimEnd_app_CR (String c s)).
Qed.

Lemma split_app_CR sep s :
  Ascii.eqb CR sep = false ->
  exists ws w,
    split sep s = ws ++ [w]
    /\ split sep (s +:+ String CR EmptyString)
       = ws ++ [w +:+ String CR EmptyString].
Proof.
  intros Hsep. induction s as [|c s (ws & w & E1 & E2)].
  - exists [], EmptyString. cbn [String.append split]. rewrite Hsep.
    split; reflexivity.
  - cbn [String.append split]. rewrite E1, E2.
    destruct (Ascii.eqb c sep).
    + exists (EmptyString :: ws), w. split; reflexivity.
    + destruct ws as [|x xs].
      * exists [], (String c w). split; reflexivity.
      * exists (String c x :: xs), w. split; reflexivity.
Qed.

Lemma map_split_app_CR (f : string -> string) sep s :
  Ascii.eqb CR sep = false ->
  (forall x, f (x +:+ String CR EmptyString) = f x) ->
  map f (split sep (s +:+ String CR EmptyString)) = map f (split sep s).
Proof.
  intros Hsep Hf. destruct (split_app_CR sep s Hsep) as (ws & w & -> & ->).
  rewrite !map_app. cbn [map]. now rewrite Hf.
Qed.

Lemma sameCells_CR line : sameCells (line +:+ String CR EmptyString) line.
Proof.
  split.
  - unfold headersOf. apply map_split_app_CR; [reflexivity|].
    intros x. now rewrite trim_app_CR.
  - unfold valuesOf. apply map_split_app_CR; [reflexivity|].
    intros x. now rewrite trim_app_CR.
Qed.

Lemma trimStart_toCRLF s : trimStart (toCRLF s) = toCRLF (trimStart s).
Proof.
  induction s as [|c s IH]; [reflexivity|].
  cbn [toCRLF]. destruct (Ascii.eqb c LF) eqn:E.
  - apply Ascii.eqb_eq in E. subst c.
    change (trimStart (String LF s)) with (trimStart s).
    change (trimStart (String CR (String LF (toCRLF s))))
      with (trimStart (toCRLF s)). exact IH.
  - cbn [trimStart]. destruct (is_space c); [exact IH|].
    cbn [toCRLF]. now rewrite E.
Qed.

Lemma isEmpty_toCRLF s : isEmpty (toCRLF s) = isEmpty s.
Proof.
  destruct s as [|c s]; [reflexivity|]. simpl.
  now destruct (Ascii.eqb c LF).
Qed.

Lemma trimEnd_toCRLF s : trimEnd (toCRLF s) = toCRLF (trimEnd s).
Proof.
  induction s as [|c s IH]; [reflexivity|].
  cbn [toCRLF]. destruct (Ascii.eqb c LF) eqn:E.
  - apply Ascii.eqb_eq in E. subst c.
    cbn [trimEnd]. rewrite IH, isEmpty_toCRLF.
    change (is_space LF) with true. change (is_space CR) with true.
    cbn [andb]. destruct (isEmpty (trimEnd s)) eqn:Et; [reflexivity|].
    cbn [isEmpty toCRLF]. reflexivity.
  - cbn [trimEnd]. rewrite IH, isEmpty_toCRLF.
    destruct (is_space c && isEmpty (trimEnd s)); [reflexivity|].
    cbn [toCRLF]. now rewrite E.
Qed.

Lemma trim_toCRLF s : trim (toCRLF s) = toCRLF (trim s).
Proof. unfold trim. now rewrite trimStart_toCRLF, trimEnd_toCRLF. Qed.

Lemma split_toCRLF s :
  Forall2 (fun a b => a = b \/ a = b +:+ String CR EmptyString)
    (split LF (toCRLF s)) (split LF s).
Proof.
  induction s as [|c s IH]; [repeat constructor|].
  cbn [toCRLF]. destruct (Ascii.eqb c LF) eqn:E.
  - cbn [split]. rewrite E. change (Ascii.eqb CR LF) with false.
    change (Ascii.eqb LF LF) with true. cbv iota.
    constructor; [now right|exact IH].
  - cbn [split]. rewrite E.
    destruct IH as [|a b la lb Hab Hl]; [repeat constructor|].
    constructor; [|exact Hl].
    destruct Hab as [->| ->]; [now left|now right].
Qed.

Lemma omap_cons {A B} (f : A -> option B) x l :
  omap f (x :: l)
  = match f x with Some y => y :: omap f l | None => omap f l end.
Proof. reflexivity. Qed.

Lemma omap_sameCells {A} (body : string -> option A) rows1 rows2 :
  (forall a b, valuesOf a = valuesOf b -> body a = body b) ->
  Forall2 sameCells rows1 rows2 ->
  omap body rows1 = omap body rows2.
Proof.
  intros Hb H. induction H as [|a b la lb [_ Hv] Hl IH]; [reflexivity|].
  rewrite !omap_cons, (Hb a b Hv), IH. reflexivity.
Qed.

Lemma shopifyRow_cells i j k l a b :
  valuesOf a = valuesOf b -> shopifyRow i j k l a = shopifyRow i j k l b.
Proof. intros H. unfold shopifyRow. now rewrite H. Qed.

Lemma awsRow_cells i j k l a b :
  valuesOf a = valuesOf b -> Main.awsRow i j k l a = Main.awsRow i j k l b.
Proof. intros H. unfold Main.awsRow. now rewrite H. Qed.

Lemma head_tail_sameCells lines1 lines2 :
  Forall2 sameCells lines1 lines2 ->
  length lines1 = length lines2
  /\ headersOf (default EmptyString (head lines1))
     = headersOf (default EmptyString (head lines2))
  /\ Forall2 sameCells (tail lines1) (tail lines2).
Proof.
  intros H. split; [now apply Forall2_length in H|].
  destruct H as [|a b la lb [Hh Hv] Hl]; [split; [reflexivity|constructor]|].
  split; [exact Hh|exact Hl].
Qed.

Lemma V7_shopifyRow_cells i j k l a b :
  valuesOf a = valuesOf b ->
  V7.shopifyRow i j k l a = V7.shopifyRow i j k l b.
Proof. intros H. unfold V7.shopifyRow. now rewrite H. Qed.

Lemma V6_awsRow_cells Date_getTime i sl st en u t a b :
  valuesOf a = valuesOf b ->
  V6.awsRow Date_getTime i sl st en u t a
  = V6.awsRow Date_getTime i sl st en u t b.
Proof. intros H. unfold V6.awsRow. now rewrite H. Qed.

(** Two texts whose lines hold the same cells are parsed alike. *)
Lemma parse_sameCells Date_getTime csv1 csv2 :
  Forall2 sameCells (linesOf csv1) (linesOf csv2) ->
  Main.parseShopifyCSV csv1 = Main.parseShopifyCSV csv2
  /\ Main.parseAWSCSV csv1 = Main.parseAWSCSV csv2
  /\ V6.parseShopifyCSV csv1 = V6.parseShopifyCSV csv2
  /\ V6.parseAWSCSV Date_getTime csv1 = V6.parseAWSCSV Date_getTime csv2
  /\ V7.parseShopifyCSV csv1 = V7.parseShopifyCSV csv2
  /\ V7.parseAWSCSV csv1 = V7.parseAWSCSV csv2.
Proof.
  intros H. apply head_tail_sameCells in H as (Hn & Hh & Ht).
  unfold Main.parseShopifyCSV, Main.parseAWSCSV, V6.parseShopifyCSV,
    V6.parseAWSCSV, V7.parseShopifyCSV, V7.parseAWSCSV. cbv zeta.
  rewrite Hn, Hh, !forRows_omap. cbn [app].
  split; [|split; [|split; [|split; [|split]]]].
  - now rewrite (omap_sameCells _ _ _ (shopifyRow_cells _ _ _ _) Ht).
  - now rewrite (omap_sameCells _ _ _ (awsRow_cells _ _ _ _) Ht).
  - now rewrite (omap_sameCells _ _ _ (shopifyRow_cells _ _ _ _) Ht).
  - now rewrite (omap_sameCells _ _ _
                   (V6_awsRow_cells Date_getTime _ _ _ _ _ _) Ht).
  - now rewrite (omap_sameCells _ _ _ (V7_shopifyRow_cells _ _ _ _) Ht).
  - now rewrite (omap_sameCells _ _ _ (awsRow_cells _ _ _ _) Ht).
Qed.

(** X9. Windows line endings make no difference to any of the parsers: a
    text in which every line feed is preceded by a carriage return is
    parsed to the same records, or fails with the same error, as the
    text without the carriage returns.  (The carriage return ends the
    last cell of its line, and every cell is trimmed.) *)
Theorem crlf_line_endings (Date_getTime : string -> num) csvText :
  Main.parseShopifyCSV (toCRLF csvText) = Main.parseShopifyCSV csvText
  /\ Main.parseAWSCSV (toCRLF csvText) = Main.parseAWSCSV csvText
  /\ V6.parseShopifyCSV (toCRLF csvText) = V6.parseShopifyCSV csvText
  /\ V6.parseAWSCSV Date_getTime (toCRLF csvText)
     = V6.parseAWSCSV Date_getTime csvText
  /\ V7.parseShopifyCSV (toCRLF csvText) = V7.parseShopifyCSV csvText
  /\ V7.parseAWSCSV (toCRLF csvText) = V7.parseAWSCSV csvText.
Proof.
  pose proof (split_toCRLF (trim csvText)) as H.
  rewrite <- trim_toCRLF in H. fold (linesOf (toCRLF csvText)) in H.
  fold (linesOf csvText) in H.
  apply parse_sameCells.
  eapply Forall2_impl; [exact H|].
  intros a b [->| ->]; [split; reflexivity|apply sameCells_CR].
Qed.

Example crlf_scenario :
  Main.parseShopifyCSV crlfShopifyCSV
  = Ok [ShopifyData.mk "a" None (Fin 90) None;
        ShopifyData.mk "b" None (Fin 45) None].
Proof. vm_compute. reflexivity. Qed.

(** ** The header tests *)

Lemma includes_identifier h :
  includes h "identifier" = true -> includes h "id" = true.
Proof.
  induction h as [|c h IH]; [discriminate|].
  cbn [includes]. intros H. apply orb_true_iff in H as [H|H].
  - apply orb_true_iff. left.
    cbn [startsWith] in *. apply andb_prop in H as [H1 H].
    destruct h as [|d h]; [discriminate|].
    apply andb_prop in H as [H2 _]. now rewrite H1, H2.
  - apply orb_true_iff. right. now apply IH.
Qed.

(** X10. The header tests are substring tests.  In SessionAnalyzer.tsx every
    exact name that a test lists holds the substrings that the same
    test asks for, except [duration] for the session length; in
    part_006 the success-rate test comes down to the substring
    [success], and the session-length test to [duration] or [length]. *)
Theorem header_tests_by_substring (h : string) :
  Main.sessionIdHeader h = includes h "session" && includes h "id"
  /\ Main.orderIdHeader h = includes h "order" && includes h "id"
  /\ Main.successRateHeader h
     = includes h "success" && (includes h "rate" || includes h "percent")
  /\ Main.sessionLengthHeader h
     = String.eqb h "duration"
       || includes h "session"
          && (includes h "length" || includes h "duration")
  /\ Main.userIdHeader h = includes h "user" && includes h "id"
  /\ V6.successRateHeader h = includes h "success"
  /\ V6.sessionLengthHeader h
     = includes h "duration" || includes h "length"
  /\ V6.awsSessionIdHeader h
     = includes h "session" && includes h "id"
       || String.eqb h "session" || String.eqb h "id"
  /\ V7.sessionIdHeader h = includes h "session" && includes h "id".
Proof.
  unfold Main.sessionIdHeader, Main.orderIdHeader, Main.successRateHeader,
    Main.sessionLengthHeader, Main.userIdHeader, V6.successRateHeader,
    V6.sessionLengthHeader, V6.awsSessionIdHeader, V7.sessionIdHeader.
  pose proof (includes_identifier h) as Hid.
  repeat split;
    repeat match goal with
    | |- context [String.eqb h ?s] =>
        let E := fresh "E" in
        destruct (String.eqb h s) eqn:E;
        [apply String.eqb_eq in E; subst h; vm_compute; reflexivity
        |clear E]
    end;
    cbn [orb];
    repeat match goal with
    | |- context [includes h ?s] => destruct (includes h s)
    end; try reflexivity.
  now discriminate Hid.
Qed.

(** ** The durations that part_006 stores *)

Lemma decimalQ_shift (m e e' : Z) :
  e' <= e -> exists m', (inject_Z m * pow10 e == inject_Z m' * pow10 e')%Q.
Proof.
  intros H. exists (m * 10 ^ (e - e')).
  replace e with ((e - e') + e') at 1 by lia.
  rewrite pow10_add, inject_Z_mult.
  assert (E : (pow10 (e - e') == inject_Z (10 ^ (e - e')))%Q).
  { unfold pow10. rewrite Zpower_Qpower by lia. reflexivity. }
  rewrite E. ring.
Qed.

Lemma decimalQ_add a b : decimalQ a -> decimalQ b -> decimalQ (a + b).
Proof.
  intros (m1 & e1 & H1) (m2 & e2 & H2).
  destruct (decimalQ_shift m1 e1 (Z.min e1 e2)) as (n1 & E1); [lia|].
  destruct (decimalQ_shift m2 e2 (Z.min e1 e2)) as (n2 & E2); [lia|].
  exists (n1 + n2), (Z.min e1 e2).
  rewrite H1, H2, E1, E2, inject_Z_plus. ring.
Qed.

Lemma add_decimal x y : decimalNum x -> decimalNum y -> decimalNum (add x y).
Proof.
  destruct x as [|s|a], y as [|t|b]; simpl; try (intros; exact I).
  - intros _ _. destruct (Bool.eqb s t); exact I.
  - intros [Ha _] [Hb _]. apply decimalNum_fin. now apply decimalQ_add.
Qed.

Lemma neg_decimal x : decimalNum x -> decimalNum (neg x).
Proof.
  destruct x as [|s|a]; simpl; try (intros; exact I).
  intros [Ha _]. apply decimalNum_fin. now apply decimalQ_opp.
Qed.

Lemma div_1000_decimal x : decimalNum x -> decimalNum (div x (Fin 1000)).
Proof.
  destruct x as [|s|a]; try (intros; exact I).
  intros [(m & e & H) _]. cbn [div]. change (Qis0 1000) with false.
  cbv iota. apply decimalNum_fin. exists m, (e - 3).
  rewrite H. replace (e - 3) with (e + -3) by lia. rewrite pow10_add.
  assert (E : (pow10 (-3) == 1 / 1000)%Q) by reflexivity.
  rewrite E. field.
Qed.

Lemma timestampLength_decimal Date_getTime startTime endTime x :
  (forall s, decimalNum (Date_getTime s)) ->
  V6.timestampLength Date_getTime startTime endTime = Some x ->
  decimalNum x.
Proof.
  intros HD. unfold V6.timestampLength.
  destruct startTime as [startTime|]; [|discriminate].
  destruct endTime as [endTime|]; [|discriminate].
  assert (H : forall a b,
            decimalNum a -> decimalNum b ->
            (if isNaN a || isNaN b then None
             else Some (div (sub b a) (Fin 1000))) = Some x ->
            decimalNum x).
  { intros a b Ha Hb. destruct (isNaN a || isNaN b); [discriminate|].
    intros [= <-]. apply div_1000_decimal, add_decimal;
      [exact Hb|now apply neg_decimal]. }
  destruct (_ && _).
  - destruct (lt _ _); apply H;
      try apply (mul_decimal _ 1000); apply parseFloat_decimal.
  - destruct (isNaN _ || isNaN _); [discriminate|]. apply H; apply HD.
Qed.

Lemma V6_awsRow_length Date_getTime i sl st en u t line r :
  (forall s, decimalNum (Date_getTime s)) ->
  V6.awsRow Date_getTime i sl st en u t line = Some r ->
  exists x,
    decimalNum x /\ gt x (Fin 0) = true
    /\ AWSData.sessionLength r = roundTo 2 x.
Proof.
  intros HD. unfold V6.awsRow.
  destruct (length (valuesOf line) <? 2)%nat; [discriminate|].
  set (len := if 0 <=? sl then _ else _).
  assert (Hlen : forall x, len = Some x -> decimalNum x).
  { unfold len. destruct (0 <=? sl).
    - intros x [= <-]. apply parseFloatAt_decimal.
    - intros x. now apply timestampLength_decimal. }
  destruct len as [x|]; [|discriminate].
  destruct (at_ (valuesOf line) i) as [id|]; [|discriminate].
  destruct (negb (isEmpty id) && negb (isNaN x) && gt x (Fin 0)) eqn:E;
    [|discriminate].
  apply andb_prop in E as [_ E]. intros [= <-].
  exists x. split; [now apply Hlen|]. split; [exact E|].
  cbn [AWSData.sessionLength]. apply Number_toFixed_roundTo.
  now apply Hlen.
Qed.

Lemma roundTo_positive x :
  gt x (Fin 0) = true ->
  isNaN (roundTo 2 x) = false /\ le (Fin 0) (roundTo 2 x) = true.
Proof.
  destruct x as [|s|q]; [discriminate| |].
  - destruct s; [discriminate|]. intros _. split; reflexivity.
  - intros H. unfold gt in H. apply lt_Fin in H.
    unfold roundTo. destruct (isHuge q).
    + split; [reflexivity|]. apply le_Fin. lra.
    + split; [reflexivity|]. unfold fin. rewrite le_Fin, Qred_correct.
      unfold roundedQ.
      assert (N : Qneg q = false).
      { apply not_true_iff_false. rewrite Qneg_spec. lra. }
      rewrite N. apply Qmult_le_0_compat.
      * replace 0%Q with (inject_Z 0) by reflexivity. rewrite <- Zle_Qle.
        apply roundHalfUp_nonneg. apply Qmult_le_0_compat.
        -- apply Qabs_nonneg.
        -- apply Qlt_le_weak, pow10_pos.
      * apply Qlt_le_weak, pow10_pos.
Qed.

(** X11. What part_006 does guarantee of a duration record: the stored length
    is a number (never [NaN]) and is not negative, on the direct path
    and on the timestamp path alike.  It is the accepted length, which
    is above 0, rounded to two decimals.  (The date parser of the host
    is taken to return [NaN] or a decimal number.) *)
Theorem part_006_duration_not_negative Date_getTime csvText awsData :
  (forall s, decimalNum (Date_getTime s)) ->
  V6.parseAWSCSV Date_getTime csvText = Ok awsData ->
  Forall (fun r => isNaN (AWSData.sessionLength r) = false
                   /\ le (Fin 0) (AWSData.sessionLength r) = true
                   /\ exists x, gt x (Fin 0) = true
                        /\ AWSData.sessionLength r = roundTo 2 x)
    awsData.
Proof.
  intros HD. unfold V6.parseAWSCSV.
  destruct (length (linesOf csvText) <? 2)%nat; [discriminate|].
  cbv zeta. destruct (_ || _); [discriminate|].
  rewrite forRows_omap. cbn [app].
  destruct (length _ =? 0)%nat; [discriminate|].
  intros [= <-]. apply omap_Forall. intros line r Hr.
  apply (V6_awsRow_length _ _ _ _ _ _ _ _ _ HD) in Hr
    as (x & _ & Hx & ->).
  destruct (roundTo_positive x Hx) as [H1 H2].
  split; [exact H1|]. split; [exact H2|]. now exists x.
Qed.

Lemma part_006_duration_not_negative_witness :
  (forall s, decimalNum ((fun _ : string => NaN) s))
  /\ V6.parseAWSCSV (fun _ => NaN) tinyLengthCSV
     = Ok [AWSData.mk "s" (Fin 0) None None]
  /\ Forall (fun r => isNaN (AWSData.sessionLength r) = false
                      /\ le (Fin 0) (AWSData.sessionLength r) = true
                      /\ exists x, gt x (Fin 0) = true
                           /\ AWSData.sessionLength r = roundTo 2 x)
       [AWSData.mk "s" (Fin 0) None None].
Proof.
  assert (HD : forall s, decimalNum ((fun _ : string => NaN) s))
    by (intros s; exact I).
  assert (H : V6.parseAWSCSV (fun _ => NaN) tinyLengthCSV
              = Ok [AWSData.mk "s" (Fin 0) None None])
    by (vm_compute; reflexivity).
  split; [exact HD|]. split; [exact H|].
  exact (part_006_duration_not_negative _ _ _ HD H).
Defined.

(** * The trend view *)

(** ** The loop of [getSmoothedData] *)

Lemma slice_length {A} (l : list A) i j :
  length (slice l i j) = Nat.min (j - i) (length l - i).
Proof. unfold slice. now rewrite length_take, length_drop. Qed.

Lemma chunk_count (n level : nat) :
  (1 <= level)%nat -> (1 <= n)%nat ->
  ((n + level - 1) / level = S ((n - level + level - 1) / level))%nat.
Proof.
  intros Hl Hn. destruct (Nat.le_gt_cases level n) as [H|H].
  - replace (n + level - 1)%nat with ((n - level + level - 1) + 1 * level)%nat
      by lia.
    rewrite Nat.div_add by lia. lia.
  - replace (n - level + level - 1)%nat with (level - 1)%nat by lia.
    rewrite (Nat.div_small (level - 1)) by lia.
    replace (n + level - 1)%nat with ((n - 1) + 1 * level)%nat by lia.
    rewrite Nat.div_add by lia. rewrite Nat.div_small by lia. reflexivity.
Qed.

Lemma smoothLoop_chunks fuel fusedData level i smoothed :
  (1 <= level)%nat -> (length fusedData - i <= fuel)%nat ->
  Main.smoothLoop fuel fusedData level i smoothed
  = Some (smoothed
          ++ map (fun k => Main.smoothedPoint fusedData level
                             (i + k * level))
               (seq 0 ((length fusedData - i + level - 1) / level))).
Proof.
  intros Hl. revert i smoothed.
  induction fuel as [|fuel IH]; intros i smoothed Hf.
  - cbn [Main.smoothLoop].
    assert (E : (i <? length fusedData)%nat = false)
      by (apply Nat.ltb_ge; lia).
    rewrite E. replace (length fusedData - i)%nat with O by lia.
    rewrite Nat.div_small by lia. cbn [seq map]. now rewrite app_nil_r.
  - cbn [Main.smoothLoop].
    destruct (i <? length fusedData)%nat eqn:E.
    + apply Nat.ltb_lt in E.
      assert (E0 : (length (slice fusedData i (i + level)) =? 0)%nat
                   = false).
      { apply Nat.eqb_neq. rewrite slice_length. lia. }
      rewrite E0, IH by lia.
      rewrite (chunk_count (length fusedData - i) level) by lia.
      cbn [seq map]. rewrite <- app_assoc. cbn [app].
      replace (i + 0 * level)%nat with i by lia.
      replace (length fusedData - (i + level))%nat
        with (length fusedData - i - level)%nat by lia.
      do 3 f_equal.
      rewrite <- seq_shift, map_map. apply map_ext. intros k.
      f_equal. lia.
    + apply Nat.ltb_ge in E.
      replace (length fusedData - i)%nat with O by lia.
      rewrite Nat.div_small by lia. cbn [seq map]. now rewrite app_nil_r.
Qed.

Lemma Math_round_half (i level : nat) :
  Math_round (inject_Z (Z.of_nat i) + inject_Z (Z.of_nat level) / 2)
  = Z.of_nat (i + (level + 1) / 2).
Proof.
  unfold Math_round.
  assert (E : (inject_Z (Z.of_nat i) + inject_Z (Z.of_nat level) / 2
               + (1 # 2)
               == (2 * Z.of_nat i + Z.of_nat level + 1) # 2)%Q).
  { unfold Qeq, Qplus, Qdiv, Qmult, Qinv, inject_Z. simpl. lia. }
  rewrite (Qfloor_comp _ _ E). unfold Qfloor.
  rewrite Nat2Z.inj_add, Nat2Z.inj_div, Nat2Z.inj_add.
  change (Z.of_nat 2) with 2. change (Z.of_nat 1) with 1.
  change (Z.pos 2) with 2.
  replace (2 * Z.of_nat i + Z.of_nat level + 1)
    with (Z.of_nat level + 1 + Z.of_nat i * 2) by lia.
  rewrite Z.div_add by lia. lia.
Qed.

Lemma getSmoothedData_map fuel fusedData level :
  (1 <= level)%nat -> (length fusedData <= fuel)%nat ->
  Main.getSmoothedData fuel fusedData level
  = Some (map (fun k => Main.smoothedPoint fusedData level (k * level))
            (seq 0 ((length fusedData + level - 1) / level))).
Proof.
  intros Hl Hf. unfold Main.getSmoothedData.
  destruct (length fusedData =? 0)%nat eqn:E.
  - apply Nat.eqb_eq in E. rewrite E.
    rewrite Nat.div_small by lia. reflexivity.
  - rewrite smoothLoop_chunks by lia. cbn [app].
    rewrite Nat.sub_0_r. reflexivity.
Qed.

(** X12. For a smoothing level of 1 or more the loop of the trend view ends
    within as many turns as there are fused records.  It returns one
    record per chunk of [smoothingLevel] consecutive records, the last
    chunk being the shorter rest: the number of fused records divided
    by the level, rounded up.  The record of the chunk that starts at
    index [i] carries the sequence number [i] plus half the level,
    rounded up. *)
Theorem getSmoothedData_chunks fuel fusedData level :
  (1 <= level)%nat -> (length fusedData <= fuel)%nat ->
  Main.getSmoothedData fuel fusedData level
  = Some (map (fun k => Main.smoothedPoint fusedData level (k * level))
            (seq 0 ((length fusedData + level - 1) / level)))
  /\ forall i,
       FusedDataPoint.sessionNumber (Main.smoothedPoint fusedData level i)
       = Z.of_nat (i + (level + 1) / 2).
Proof.
  intros Hl Hf. split; [now apply getSmoothedData_map|].
  intros i. apply Math_round_half.
Qed.

Lemma getSmoothedData_chunks_witness :
  (1 <= 5)%nat /\ (length exampleFused <= 2)%nat
  /\ Main.getSmoothedData 2 exampleFused 5
     = Some [FusedDataPoint.mk "smoothed_0" 3 (Fin (7 # 2)) (Fin 65)].
Proof.
  assert (H1 : (1 <= 5)%nat) by lia.
  assert (H2 : (length exampleFused <= 2)%nat) by (vm_compute; lia).
  split; [exact H1|]. split; [exact H2|].
  rewrite (proj1 (getSmoothedData_chunks 2 exampleFused 5 H1 H2)).
  vm_compute. reflexivity.
Defined.

Lemma smoothLoop_level_0 fuel fusedData i smoothed :
  (i < length fusedData)%nat ->
  Main.smoothLoop fuel fusedData 0 i smoothed = None.
Proof.
  intros H. apply Nat.ltb_lt in H. revert smoothed.
  induction fuel as [|fuel IH]; intros smoothed; cbn [Main.smoothLoop];
    rewrite H; [reflexivity|].
  rewrite Nat.add_0_r.
  destruct (length (slice fusedData i i) =? 0)%nat; apply IH.
Qed.

(** X13. With a smoothing level of 0 and at least one fused record the loop
    never ends: the index does not advance.  (The slider of the page
    starts at 5.) *)
Theorem getSmoothedData_level_0_never_returns fuel fusedData :
  fusedData <> [] -> Main.getSmoothedData fuel fusedData 0 = None.
Proof.
  intros H. unfold Main.getSmoothedData.
  destruct fusedData as [|p l]; [congruence|]. cbn [length Nat.eqb].
  apply smoothLoop_level_0. simpl. lia.
Qed.

Lemma getSmoothedData_level_0_never_returns_witness :
  exampleFused <> [] /\ Main.getSmoothedData 1000 exampleFused 0 = None.
Proof.
  assert (H : exampleFused <> []) by discriminate.
  split; [exact H|].
  exact (getSmoothedData_level_0_never_returns 1000 exampleFused H).
Defined.

(** ** The chunks of the trend view *)

Lemma Forall_slice {A} (P : A -> Prop) (l : list A) i j :
  Forall P l -> Forall P (slice l i j).
Proof. intros H. unfold slice. now apply Forall_take, Forall_drop. Qed.

Lemma chunk_start_lt (n level k : nat) :
  (1 <= level)%nat -> (k < (n + level - 1) / level)%nat ->
  (k * level < n)%nat.
Proof.
  intros Hl Hk.
  pose proof (Nat.Div0.mul_div_le (n + level - 1) level) as H.
  nia.
Qed.

(** ** Rounding and order *)

Lemma roundedQ_mono_nonneg (f : nat) x y :
  (0 <= x)%Q -> (x <= y)%Q -> (roundedQ f x <= roundedQ f y)%Q.
Proof.
  intros H0 H. unfold roundedQ.
  assert (Nx : Qneg x = false)
    by (apply not_true_iff_false; rewrite Qneg_spec; lra).
  assert (Ny : Qneg y = false)
    by (apply not_true_iff_false; rewrite Qneg_spec; lra).
  rewrite Nx, Ny, !Qabs_nonneg_eq by lra.
  pose proof (pow10_pos (Z.of_nat f)) as P1.
  pose proof (pow10_pos (- Z.of_nat f)) as P2.
  apply Qmult_le_compat_r; [|lra].
  rewrite <- Zle_Qle. unfold roundHalfUp. apply Qfloor_resp_le.
  assert (x * pow10 (Z.of_nat f) <= y * pow10 (Z.of_nat f))%Q
    by (apply Qmult_le_compat_r; lra).
  lra.
Qed.

Lemma Sorted_map_seq {A} (R : A -> A -> Prop) (g : nat -> A) a c :
  (forall k, (a <= k)%nat -> (S k < a + c)%nat -> R (g k) (g (S k))) ->
  Sorted R (map g (seq a c)).
Proof.
  revert a. induction c as [|c IH]; intros a H; [constructor|].
  cbn [seq map]. constructor.
  - apply IH. intros k Hk1 Hk2. apply H; lia.
  - destruct c as [|c]; [constructor|]. cbn [seq map]. constructor.
    apply H; lia.
Qed.

Lemma In_take_drop {A} (x : A) l i n :
  In x (take n (drop i l)) -> In x (take (i + n) l).
Proof.
  revert l. induction i as [|i IH]; intros l H; [exact H|].
  destruct l as [|y l].
  - rewrite drop_nil, take_nil in H. destruct H.
  - cbn [drop] in H. cbn [Nat.add take]. right. now apply IH.
Qed.

(** * The sample data *)

Lemma roundedQ_Z (f : nat) (z : Z) : (roundedQ f (inject_Z z) == inject_Z z)%Q.
Proof.
  apply (roundedQ_exact f _ (z * 10 ^ Z.of_nat f)).
  rewrite inject_Z_mult.
  assert (E : (inject_Z (10 ^ Z.of_nat f) == pow10 (Z.of_nat f))%Q).
  { unfold pow10. rewrite Zpower_Qpower by lia. reflexivity. }
  rewrite E, <- Qmult_assoc, <- pow10_add.
  replace (Z.of_nat f + - Z.of_nat f) with 0 by lia.
  rewrite pow10_0. ring.
Qed.

Lemma roundedQ_between (f : nat) q (lo hi : Z) :
  0 <= lo -> (inject_Z lo <= q)%Q -> (q <= inject_Z hi)%Q ->
  (inject_Z lo <= roundedQ f q)%Q /\ (roundedQ f q <= inject_Z hi)%Q.
Proof.
  intros H0 Hlo Hhi.
  assert (H0q : (0 <= inject_Z lo)%Q).
  { replace 0%Q with (inject_Z 0) by reflexivity. now rewrite <- Zle_Qle. }
  split.
  - rewrite <- (roundedQ_Z f lo). now apply roundedQ_mono_nonneg.
  - apply (roundedQ_range f q hi); lra.
Qed.

(** A percentage from [lo] to [hi], stored with two decimals. *)
Lemma stored_percent_between c (lo hi : Z) :
  0 <= lo -> hi < 10 ^ 21 ->
  (inject_Z lo <= c * 100)%Q -> (c * 100 <= inject_Z hi)%Q ->
  between lo hi (Number_ (toFixed (mul (Fin c) (Fin 100)) 2)).
Proof.
  intros H0 Hh Hlo Hhi. cbn [mul]. unfold fin.
  assert (H0q : (0 <= inject_Z lo)%Q).
  { replace 0%Q with (inject_Z 0) by reflexivity. now rewrite <- Zle_Qle. }
  assert (E := Qred_correct (c * 100)).
  rewrite Number_toFixed
    by (apply (not_huge_le _ hi); [rewrite E; lra|rewrite E; lra|exact Hh]).
  eexists. split; [reflexivity|]. unfold fin. rewrite Qred_correct.
  apply roundedQ_between; [exact H0|rewrite E; lra|rewrite E; lra].
Qed.

Lemma clamp_Fin (lo hi x : Q) :
  (lo <= hi)%Q ->
  exists c,
    Math_max (Fin lo) (Math_min (Fin hi) (Fin x)) = Fin c
    /\ (lo <= c)%Q /\ (c <= hi)%Q
    /\ (forall a, (a <= x)%Q -> (a <= hi)%Q -> (a <= c)%Q)
    /\ (forall b, (x <= b)%Q -> (lo <= b)%Q -> (c <= b)%Q).
Proof.
  intros H. unfold Math_min. cbn [isNaN orb].
  destruct (lt (Fin x) (Fin hi)) eqn:E1.
  - apply lt_Fin in E1. unfold Math_max. cbn [isNaN orb].
    destruct (lt (Fin lo) (Fin x)) eqn:E2.
    + apply lt_Fin in E2. exists x. repeat split; intros; lra.
    + apply lt_false_Fin in E2. exists lo. repeat split; intros; lra.
  - apply lt_false_Fin in E1. unfold Math_max. cbn [isNaN orb].
    destruct (lt (Fin lo) (Fin hi)) eqn:E2.
    + apply lt_Fin in E2. exists hi. repeat split; intros; lra.
    + apply lt_false_Fin in E2. exists lo. repeat split; intros; lra.
Qed.

Lemma add_Fin a b : exists c, add (Fin a) (Fin b) = Fin c /\ (c == a + b)%Q.
Proof. eexists. split; [reflexivity|apply Qred_correct]. Qed.

Lemma sub_Fin a b : exists c, sub (Fin a) (Fin b) = Fin c /\ (c == a - b)%Q.
Proof.
  eexists. split; [reflexivity|]. rewrite !Qred_correct. reflexivity.
Qed.

Lemma mul_Fin a b : exists c, mul (Fin a) (Fin b) = Fin c /\ (c == a * b)%Q.
Proof. eexists. split; [reflexivity|apply Qred_correct]. Qed.

Lemma div_Fin a b :
  ~ (b == 0)%Q -> exists c, div (Fin a) (Fin b) = Fin c /\ (c == a / b)%Q.
Proof.
  intros H. cbn [div].
  assert (E : Qis0 b = false)
    by (apply not_true_iff_false; now rewrite Qis0_spec).
  rewrite E. eexists. split; [reflexivity|apply Qred_correct].
Qed.

Section SampleData.

Variable Math_pow : num -> num -> num.
Variable Math_random : nat -> num.

Hypothesis random_range :
  forall i, exists r, Math_random i = Fin r /\ (0 <= r)%Q /\ (r < 1)%Q.

Hypothesis pow_range :
  forall q, (0 <= q)%Q -> (q <= 1)%Q ->
  exists p, Math_pow (Fin q) (Fin (7 # 10)) = Fin p
            /\ (0 <= p)%Q /\ (p <= 1)%Q.

Lemma sample_length i :
  (1 <= i <= 200)%nat ->
  FusedDataPoint.sessionLength (Main.samplePoint Math_pow Math_random i)
  = fin (1 + inject_Z (Z.of_nat i - 1) * (2 # 10)).
Proof.
  intros Hi. unfold Main.samplePoint. cbn [FusedDataPoint.sessionLength].
  unfold ofNat, ofZ.
  destruct (sub_Fin (inject_Z (Z.of_nat i)) 1) as (d & -> & Ed).
  destruct (mul_Fin d (2 # 10)) as (m & -> & Em).
  destruct (add_Fin 1 m) as (v & -> & Ev).
  assert (E : (v == 1 + inject_Z (Z.of_nat i - 1) * (2 # 10))%Q).
  { rewrite Ev, Em, Ed. unfold Z.sub. rewrite inject_Z_plus, inject_Z_opp.
    ring. }
  assert (E2 : (v == inject_Z (20 * (Z.of_nat i + 4))
                     * pow10 (- Z.of_nat 2))%Q).
  { rewrite E. unfold Z.sub.
    rewrite inject_Z_plus, inject_Z_opp, inject_Z_mult, inject_Z_plus.
    change (pow10 (- Z.of_nat 2)) with (1 # 100)%Q. 
    change (inject_Z 20) with (20 # 1)%Q. change (inject_Z 4) with (4 # 1)%Q.
    change (inject_Z 1) with 1%Q. field. }
  assert (B0 : (0 <= v)%Q).
  { rewrite E. assert (0 <= inject_Z (Z.of_nat i - 1))%Q.
    { replace 0%Q with (inject_Z 0) by reflexivity. rewrite <- Zle_Qle. lia. }
    lra. }
  assert (B1 : (v <= inject_Z 41)%Q).
  { rewrite E. assert (inject_Z (Z.of_nat i - 1) <= inject_Z 199)%Q
      by (rewrite <- Zle_Qle; lia).
    change (inject_Z 199) with (199 # 1)%Q in H.
    change (inject_Z 41) with (41 # 1)%Q. lra. }
  rewrite Number_toFixed by (apply (not_huge_le v 41); [exact B0|exact B1|lia]).
  unfold fin. f_equal. apply Qred_complete.
  rewrite (roundedQ_exact 2 v _ E2). exact E.
Qed.

Lemma sample_rate_late i :
  (130 < i)%nat ->
  between 0 15
    (FusedDataPoint.successRate (Main.samplePoint Math_pow Math_random i)).
Proof.
  intros Hi. unfold Main.samplePoint. cbn [FusedDataPoint.successRate].
  assert (E : (i <=? 130)%nat = false) by (apply Nat.leb_gt; lia).
  rewrite E.
  destruct (random_range i) as (r & -> & R0 & R1).
  destruct (sub_Fin r (5 # 10)) as (d & -> & Ed).
  destruct (mul_Fin d (2 # 10)) as (n & -> & En).
  destruct (add_Fin (5 # 100) n) as (x & -> & Ex).
  destruct (clamp_Fin 0 1 x ltac:(lra)) as (c & -> & C0 & C1 & _ & Cb).
  assert (Hc : (c <= 15 # 100)%Q).
  { apply Cb; [|lra]. rewrite Ex, En, Ed. lra. }
  apply stored_percent_between; [lia|lia| |].
  - change (inject_Z 0) with 0%Q. lra.
  - change (inject_Z 15) with (15 # 1)%Q. lra.
Qed.

Lemma sample_rate_early i :
  (1 <= i <= 130)%nat ->
  between 45 100
    (FusedDataPoint.successRate (Main.samplePoint Math_pow Math_random i)).
Proof.
  intros Hi. unfold Main.samplePoint. cbn [FusedDataPoint.successRate].
  assert (E : (i <=? 130)%nat = true) by (apply Nat.leb_le; lia).
  rewrite E. unfold ofNat, ofZ.
  destruct (sub_Fin (inject_Z (Z.of_nat i)) 1) as (d0 & -> & Ed0).
  destruct (div_Fin d0 129 ltac:(discriminate)) as (pr & -> & Epr).
  assert (Hi1 : (0 <= inject_Z (Z.of_nat i) - 1)%Q).
  { assert (inject_Z 1 <= inject_Z (Z.of_nat i))%Q by (rewrite <- Zle_Qle; lia).
    change (inject_Z 1) with 1%Q in H. lra. }
  assert (Hi2 : (inject_Z (Z.of_nat i) - 1 <= 129)%Q).
  { assert (inject_Z (Z.of_nat i) <= inject_Z 130)%Q
      by (rewrite <- Zle_Qle; lia).
    change (inject_Z 130) with (130 # 1)%Q in H. lra. }
  assert (P0 : (0 <= pr)%Q).
  { rewrite Epr, Ed0. apply Qle_shift_div_l; [reflexivity|]. lra. }
  assert (P1 : (pr <= 1)%Q).
  { rewrite Epr, Ed0. apply Qle_shift_div_r; [reflexivity|]. lra. }
  destruct (pow_range pr P0 P1) as (p & -> & Q0 & Q1).
  destruct (sub_Fin 1 p) as (cv & -> & Ecv).
  destruct (sub_Fin (99 # 100) (55 # 100)) as (k & -> & Ek).
  destruct (mul_Fin k cv) as (kc & -> & Ekc).
  destruct (add_Fin (55 # 100) kc) as (b & -> & Eb).
  destruct (random_range i) as (r & -> & R0 & R1).
  destruct (sub_Fin r (5 # 10)) as (d & -> & Ed).
  destruct (mul_Fin d (2 # 10)) as (n & -> & En).
  destruct (add_Fin b n) as (x & -> & Ex).
  destruct (clamp_Fin 0 1 x ltac:(lra)) as (c & -> & C0 & C1 & Ca & _).
  assert (Hkc : (0 <= kc)%Q).
  { rewrite Ekc, Ek. apply Qmult_le_0_compat; lra. }
  assert (Hc : (45 # 100 <= c)%Q).
  { apply Ca; [|lra]. rewrite Ex, En, Ed, Eb. lra. }
  apply stored_percent_between; [lia|lia| |].
  - change (inject_Z 45) with (45 # 1)%Q. lra.
  - change (inject_Z 100) with (100 # 1)%Q. lra.
Qed.

Lemma sample_lengths :
  map FusedDataPoint.sessionLength
    (Main.generateSampleData Math_pow Math_random)
  = map (fun i => fin (1 + inject_Z (Z.of_nat i - 1) * (2 # 10)))
      (seq 1 200).
Proof.
  unfold Main.generateSampleData. rewrite map_map.
  apply map_ext_in. intros i Hi. apply in_seq in Hi.
  apply sample_length. lia.
Qed.

Lemma sample_ascending :
  ascendingByLength (Main.generateSampleData Math_pow Math_random).
Proof.
  unfold ascendingByLength, Main.generateSampleData.
  apply Sorted_map_seq. intros k Hk1 Hk2.
  rewrite !sample_length by lia. unfold fin.
  rewrite le_Fin, !Qred_correct.
  assert (inject_Z (Z.of_nat k - 1) <= inject_Z (Z.of_nat (S k) - 1))%Q
    by (rewrite <- Zle_Qle; lia).
  lra.
Qed.

Lemma sample_rates :
  Forall (fun p => between 45 100 (FusedDataPoint.successRate p))
    (take 130 (Main.generateSampleData Math_pow Math_random))
  /\ Forall (fun p => between 0 15 (FusedDataPoint.successRate p))
       (drop 130 (Main.generateSampleData Math_pow Math_random)).
Proof.
  unfold Main.generateSampleData.
  rewrite firstn_map, skipn_map.
  change (firstn 130 (seq 1 200)) with (seq 1 130).
  change (skipn 130 (seq 1 200)) with (seq 131 70).
  split; apply Forall_map, Forall_forall; intros i Hi;
    apply elem_of_seq in Hi.
  - apply sample_rate_early. lia.
  - apply sample_rate_late. lia.
Qed.

End SampleData.

(** X16. The demo data.  Whatever [Math.random] draws from 0 (included) to 1
    (excluded), and for a [Math.pow] that maps a ratio from 0 to 1 to a
    value from 0 to 1, the generator returns 200 records numbered 1 to
    200 whose lengths are 1.0, 1.2, ... 40.8, in ascending order; the
    rates of the first 130 records are from 45 to 100 and the rates of
    the last 70 from 0 to 15, so the drop at record 131 is always there. *)
Theorem generateSampleData_shape (Math_pow : num -> num -> num)
    (Math_random : nat -> num) :
  (forall i, exists r, Math_random i = Fin r /\ (0 <= r)%Q /\ (r < 1)%Q) ->
  (forall q, (0 <= q)%Q -> (q <= 1)%Q ->
     exists p, Math_pow (Fin q) (Fin (7 # 10)) = Fin p
               /\ (0 <= p)%Q /\ (p <= 1)%Q) ->
  length (Main.generateSampleData Math_pow Math_random) = 200%nat
  /\ map FusedDataPoint.sessionNumber
       (Main.generateSampleData Math_pow Math_random)
     = map Z.of_nat (seq 1 200)
  /\ map FusedDataPoint.sessionLength
       (Main.generateSampleData Math_pow Math_random)
     = map (fun i => fin (1 + inject_Z (Z.of_nat i - 1) * (2 # 10)))
         (seq 1 200)
  /\ ascendingByLength (Main.generateSampleData Math_pow Math_random)
  /\ Forall (fun p => between 45 100 (FusedDataPoint.successRate p))
       (take 130 (Main.generateSampleData Math_pow Math_random))
  /\ Forall (fun p => between 0 15 (FusedDataPoint.successRate p))
       (drop 130 (Main.generateSampleData Math_pow Math_random)).
Proof.
  intros Hr Hp.
  split; [unfold Main.generateSampleData; now rewrite length_map, length_seq|].
  split; [unfold Main.generateSampleData; now rewrite map_map|].
  split; [apply sample_lengths|].
  split; [apply sample_ascending|].
  now apply sample_rates.
Qed.

Lemma generateSampleData_shape_witness :
  (forall i, exists r, zeroDraws i = Fin r /\ (0 <= r)%Q /\ (r < 1)%Q)
  /\ (forall q, (0 <= q)%Q -> (q <= 1)%Q ->
        exists p, constantPow (Fin q) (Fin (7 # 10)) = Fin p
                  /\ (0 <= p)%Q /\ (p <= 1)%Q)
  /\ length (Main.generateSampleData constantPow zeroDraws) = 200%nat
  /\ Forall (fun p => between 0 15 (FusedDataPoint.successRate p))
       (drop 130 (Main.generateSampleData constantPow zeroDraws)).
Proof.
  assert (Hr : forall i, exists r,
             zeroDraws i = Fin r /\ (0 <= r)%Q /\ (r < 1)%Q).
  { intros i. exists 0%Q.
    split; [reflexivity|split; [discriminate|reflexivity]]. }
  assert (Hp : forall q, (0 <= q)%Q -> (q <= 1)%Q ->
             exists p, constantPow (Fin q) (Fin (7 # 10)) = Fin p
                       /\ (0 <= p)%Q /\ (p <= 1)%Q).
  { intros q _ _. exists 1%Q. split; [reflexivity|split; discriminate]. }
  split; [exact Hr|]. split; [exact Hp|].
  destruct (generateSampleData_shape _ _ Hr Hp) as (H1 & _ & _ & _ & _ & H2).
  split; [exact H1|exact H2].
Defined.

(** ** Loading the demo data *)

Lemma sample_lookup Math_pow Math_random (k : nat) :
  (k < 200)%nat ->
  Main.generateSampleData Math_pow Math_random !! k
  = Some (Main.samplePoint Math_pow Math_random (S k)).
Proof.
  intros H. unfold Main.generateSampleData.
  rewrite list_lookup_fmap_Some. exists (S k). split; [reflexivity|].
  now apply lookup_seq_lt.
Qed.

(** X17. [loadSampleData] replaces the fused records by fresh demo data and
    leaves the uploaded record sets alone.  Its statistics are the ones
    that the report computes for the same 200 records (the split index
    of the report is 130 as well), except for the inflection point: the
    demo shows 26.8, the length of record 130, where the report shows
    the length of the record at index 130, which is 27.0. *)
Theorem loadSampleData_statistics Math_pow Math_random (c : Main.Component)
    shopifyData awsData :
  Main.fusedData (Main.report (Main.loadSampleData Math_pow Math_random c))
  = Main.generateSampleData Math_pow Math_random
  /\ Main.shopifyData
       (Main.report (Main.loadSampleData Math_pow Math_random c))
     = Main.shopifyData (Main.report c)
  /\ Main.awsData (Main.report (Main.loadSampleData Math_pow Math_random c))
     = Main.awsData (Main.report c)
  /\ Main.stats (Main.report (Main.loadSampleData Math_pow Math_random c))
     = Main.mkStats 200 200 "26.8"
         (Main.sliceRate
            (take 130 (Main.generateSampleData Math_pow Math_random)))
         (Main.sliceRate
            (drop 130 (Main.generateSampleData Math_pow Math_random)))
  /\ Main.reportStats shopifyData awsData
       (Main.generateSampleData Math_pow Math_random)
     = Main.mkStats (Nat.max (length shopifyData) (length awsData)) 200
         "27.0"
         (Main.sliceRate
            (take 130 (Main.generateSampleData Math_pow Math_random)))
         (Main.sliceRate
            (drop 130 (Main.generateSampleData Math_pow Math_random))).
Proof.
  assert (L : length (Main.generateSampleData Math_pow Math_random)
              = 200%nat)
    by (unfold Main.generateSampleData; now rewrite length_map, length_seq).
  split; [reflexivity|]. split; [reflexivity|]. split; [reflexivity|].
  split.
  - unfold Main.loadSampleData, Main.setStats, Main.setReport.
    cbv zeta. cbn [Main.report Main.stats]. rewrite L.
    unfold Main.sliceRate, slice, sliceFrom.
    rewrite length_take, length_drop, L. cbn [drop].
    f_equal.
  - unfold Main.reportStats.
    assert (S : Main.splitIndex (Main.generateSampleData Math_pow Math_random)
                = 130%nat) by (rewrite splitIndex_spec, L; reflexivity).
    rewrite S, L, (sample_lookup _ _ 130) by lia.
    cbn [from_option]. rewrite sample_length by lia.
    unfold slice, sliceFrom. cbn [drop]. f_equal.
Qed.

(** * The component and its events *)

(** ** What an upload shows *)

Lemma startsWith_app p s : startsWith p (p +:+ s) = true.
Proof.
  induction p as [|c p IH]; [now destruct s|].
  cbn [String.append startsWith]. now rewrite Ascii.eqb_refl, IH.
Qed.

Lemma dropChars_app p s : dropChars (String.length p) (p +:+ s) = s.
Proof. induction p as [|c p IH]; [now destruct s|exact IH]. Qed.

Lemma replace_prefix p r s : replace p r (p +:+ s) = r +:+ s.
Proof.
  destruct p as [|c p]; [now destruct s|].
  cbn [String.append]. unfold replace; fold replace.
  change (String c (p +:+ s)) with (String c p +:+ s).
  now rewrite startsWith_app, dropChars_app.
Qed.

Lemma parseShopifyCSV_error csvText e :
  Main.parseShopifyCSV csvText = Throw e ->
  replace
    "Shopify CSV must contain columns for session_id and success_rate. Found headers: "
    "Missing required columns. Found: " (Main.messageOf e)
  = shownError e (headersOf (default EmptyString (head (linesOf csvText)))).
Proof.
  unfold Main.parseShopifyCSV.
  destruct (length (linesOf csvText) <? 2)%nat;
    [intros [= <-]; vm_compute; reflexivity|].
  cbv zeta. destruct (_ || _).
  - intros [= <-]. exact (replace_prefix _ _ _).
  - destruct (length _ =? 0)%nat; [|discriminate].
    intros [= <-]. vm_compute. reflexivity.
Qed.

Lemma parseAWSCSV_error csvText e :
  Main.parseAWSCSV csvText = Throw e ->
  replace
    "AWS CSV must contain columns for session_id and session_length. Found headers: "
    "Missing required columns. Found: " (Main.messageOf e)
  = shownError e (headersOf (default EmptyString (head (linesOf csvText)))).
Proof.
  unfold Main.parseAWSCSV.
  destruct (length (linesOf csvText) <? 2)%nat;
    [intros [= <-]; vm_compute; reflexivity|].
  cbv zeta. destruct (_ || _).
  - intros [= <-]. exact (replace_prefix _ _ _).
  - destruct (length _ =? 0)%nat; [|discriminate].
    intros [= <-]. vm_compute. reflexivity.
Qed.

(** X18. What the callback of a finished read does, for either source.  When
    the text parses, the records of that source are replaced, its
    status is success, the message counts the records, the report flag
    is reset and the fusion message is cleared; the fused records and
    the statistics stay.  When the parser throws, the state of the
    report is left as it was (the records of an earlier upload stay),
    the status is error and the message shows the text of the error,
    the one for missing columns shortened to the header cells found. *)
Theorem upload_outcome csvText (c : Main.Component) :
  (forall parsedData,
      Main.parseShopifyCSV csvText = Ok parsedData ->
      Main.shopifyOnload csvText c
      = Main.mkComponent
          (Main.mkState parsedData (Main.awsData (Main.report c))
             (Main.fusedData (Main.report c)) (Main.stats (Main.report c))
             false Main.NoMessage)
          (Main.viewMode c) (Main.smoothingLevel c) Main.Success
          (Main.awsUploadStatus c) (Main.Loaded (length parsedData))
          (Main.awsMessage c))
  /\ (forall e,
        Main.parseShopifyCSV csvText = Throw e ->
        Main.shopifyOnload csvText c
        = Main.mkComponent (Main.report c) (Main.viewMode c)
            (Main.smoothingLevel c) Main.Error (Main.awsUploadStatus c)
            (Main.ParseFailed
               (shownError e
                  (headersOf (default EmptyString
                                (head (linesOf csvText))))))
            (Main.awsMessage c))
  /\ (forall parsedData,
        Main.parseAWSCSV csvText = Ok parsedData ->
        Main.awsOnload csvText c
        = Main.mkComponent
            (Main.mkState (Main.shopifyData (Main.report c)) parsedData
               (Main.fusedData (Main.report c))
               (Main.stats (Main.report c)) false Main.NoMessage)
            (Main.viewMode c) (Main.smoothingLevel c)
            (Main.shopifyUploadStatus c) Main.Success
            (Main.shopifyMessage c) (Main.Loaded (length parsedData)))
  /\ (forall e,
        Main.parseAWSCSV csvText = Throw e ->
        Main.awsOnload csvText c
        = Main.mkComponent (Main.report c) (Main.viewMode c)
            (Main.smoothingLevel c) (Main.shopifyUploadStatus c)
            Main.Error (Main.shopifyMessage c)
            (Main.ParseFailed
               (shownError e
                  (headersOf (default EmptyString
                                (head (linesOf csvText))))))).
Proof.
  repeat split.
  - intros parsedData H. unfold Main.shopifyOnload. rewrite H. reflexivity.
  - intros e H. unfold Main.shopifyOnload. rewrite H.
    rewrite (parseShopifyCSV_error _ _ H). reflexivity.
  - intros parsedData H. unfold Main.awsOnload. rewrite H. reflexivity.
  - intros e H. unfold Main.awsOnload. rewrite H.
    rewrite (parseAWSCSV_error _ _ H). reflexivity.
Qed.

(** ** What holds in every state *)

Lemma parseShopifyCSV_nonempty csvText data :
  Main.parseShopifyCSV csvText = Ok data -> data <> [].
Proof.
  unfold Main.parseShopifyCSV.
  destruct (length (linesOf csvText) <? 2)%nat; [discriminate|].
  cbv zeta. destruct (_ || _); [discriminate|].
  destruct (length _ =? 0)%nat eqn:E; [discriminate|].
  intros [= <-] C. rewrite C in E. discriminate.
Qed.

Lemma parseAWSCSV_nonempty csvText data :
  Main.parseAWSCSV csvText = Ok data -> data <> [].
Proof.
  unfold Main.parseAWSCSV.
  destruct (length (linesOf csvText) <? 2)%nat; [discriminate|].
  cbv zeta. destruct (_ || _); [discriminate|].
  destruct (length _ =? 0)%nat eqn:E; [discriminate|].
  intros [= <-] C. rewrite C in E. discriminate.
Qed.

Lemma fuseData_ascending shopifyData awsData :
  noNaNLength awsData -> ascendingByLength (fuseData shopifyData awsData).
Proof.
  intros H. rewrite fuseData_sort_innerJoin.
  apply sort_ascending. now apply innerJoinFrom_noNaN.
Qed.

Lemma initial_consistent Math_pow Math_random :
  consistent (Main.initial Math_pow Math_random).
Proof.
  unfold consistent, Main.initial. cbv zeta.
  cbn [Main.report Main.fusedData Main.stats Main.matchedSessions
       Main.shopifyUploadStatus Main.awsUploadStatus Main.shopifyData
       Main.awsData Main.smoothingLevel].
  split; [|split; [reflexivity|split; [apply sample_ascending|]]].
  - intros C. apply (f_equal length) in C.
    unfold Main.generateSampleData in C.
    rewrite length_map, length_seq in C. discriminate.
  - split; [discriminate|]. split; [discriminate|].
    split; [constructor|lia].
Qed.

Lemma generateFusionReport_consistent (s : Main.State) :
  noNaNLength (Main.awsData s) ->
  Main.fusedData s <> [] ->
  Main.matchedSessions (Main.stats s) = length (Main.fusedData s) ->
  ascendingByLength (Main.fusedData s) ->
  Main.shopifyData (Main.generateFusionReport s) = Main.shopifyData s
  /\ Main.awsData (Main.generateFusionReport s) = Main.awsData s
  /\ Main.fusedData (Main.generateFusionReport s) <> []
  /\ Main.matchedSessions (Main.stats (Main.generateFusionReport s))
     = length (Main.fusedData (Main.generateFusionReport s))
  /\ ascendingByLength (Main.fusedData (Main.generateFusionReport s)).
Proof.
  intros HN H1 H2 H3. unfold Main.generateFusionReport.
  destruct (_ || _); [now repeat split|].
  destruct (length (fuseData (Main.shopifyData s) (Main.awsData s)) =? 0)%nat
    eqn:E; [now repeat split|].
  cbn [Main.shopifyData Main.awsData Main.fusedData Main.stats].
  split; [reflexivity|]. split; [reflexivity|]. split; [|split].
  - intros C. rewrite C in E. discriminate.
  - reflexivity.
  - now apply fuseData_ascending.
Qed.

Lemma handle_consistent Math_pow e c :
  consistent c -> Main.enabled e c -> consistent (Main.handle Math_pow e c).
Proof.
  intros (I1 & I2 & I3 & I4 & I5 & I6 & I7) He.
  destruct e as [[name|]| csvText | | [name|] | csvText | | | Math_random
                 | v | v]; cbn [Main.handle].
  - unfold Main.handleShopifyUpload.
    destruct (negb _); repeat split; try assumption; try discriminate;
      apply I7.
  - repeat split; try assumption; apply I7.
  - unfold Main.shopifyOnload.
    destruct (Main.parseShopifyCSV csvText) as [data|err] eqn:E.
    + apply parseShopifyCSV_nonempty in E.
      repeat split; try assumption; try apply I7. now intros _.
    + repeat split; try assumption; try discriminate; apply I7.
  - repeat split; try assumption; try discriminate; apply I7.
  - unfold Main.handleAWSUpload.
    destruct (negb _); repeat split; try assumption; try discriminate;
      apply I7.
  - repeat split; try assumption; apply I7.
  - unfold Main.awsOnload.
    destruct (Main.parseAWSCSV csvText) as [data|err] eqn:E.
    + pose proof (parseAWSCSV_noNaN _ _ E) as HN.
      apply parseAWSCSV_nonempty in E.
      repeat split; try assumption; try apply I7. now intros _.
    + repeat split; try assumption; try discriminate; apply I7.
  - repeat split; try assumption; try discriminate; apply I7.
  - destruct (generateFusionReport_consistent (Main.report c) I6 I1 I2 I3)
      as (G1 & G2 & G3 & G4 & G5).
    unfold consistent, Main.setReport.
    cbn [Main.report Main.shopifyUploadStatus Main.awsUploadStatus
         Main.smoothingLevel].
    rewrite G1, G2. repeat split; try assumption; apply I7.
  - unfold consistent, Main.loadSampleData. cbv zeta.
    cbn [Main.setStats Main.setIsReportGenerated Main.setAWSUploadStatus
         Main.setShopifyUploadStatus Main.setFusedData Main.setReport
         Main.report Main.fusedData Main.stats Main.matchedSessions
         Main.shopifyUploadStatus Main.awsUploadStatus Main.shopifyData
         Main.awsData Main.smoothingLevel Main.viewMode
         Main.isReportGenerated Main.fusionMessage].
    split; [|split; [reflexivity|split; [apply sample_ascending|]]].
    + intros C. apply (f_equal length) in C.
      unfold Main.generateSampleData in C.
      rewrite length_map, length_seq in C. discriminate.
    + split; [discriminate|]. split; [discriminate|].
      split; [exact I6|exact I7].
  - repeat split; try assumption; apply I7.
  - destruct He as [_ He]. repeat split; try assumption; apply He.
Qed.

(** X19. In every state that the component of SessionAnalyzer.tsx can reach
    from its first render, by uploads that succeed or fail, reports,
    demo loads and the view controls: there are fused records (the
    export button is never disabled and the chart never shows its
    no-data text), they stand in ascending order of length, and the
    matched-sessions figure counts them; a source marked as loaded has
    records; the smoothing level is from 5 to 25. *)
Theorem component_consistent Math_pow Math_random c :
  Main.reachable Math_pow (Main.initial Math_pow Math_random) c ->
  consistent c.
Proof.
  induction 1 as [|e c _ IH He]; [apply initial_consistent|].
  now apply handle_consistent.
Qed.

(** X20. The report button is enabled only when both sources are marked as
    loaded, and then both record sets hold records: a click on the
    enabled button never yields the message that asks for both
    uploads. *)
Theorem report_button_has_records Math_pow Math_random c :
  Main.reachable Math_pow (Main.initial Math_pow Math_random) c ->
  Main.enabled Main.GenerateClicked c ->
  Main.fusionMessage
    (Main.report (Main.handle Math_pow Main.GenerateClicked c))
  <> Main.BothRequired.
Proof.
  intros H.
  assert (I : consistent c).
  { induction H as [|e c _ IH He]; [apply initial_consistent|].
    now apply handle_consistent. }
  intros [E1 E2]. destruct I as (_ & _ & _ & I4 & I5 & _).
  specialize (I4 E1). specialize (I5 E2).
  cbn [Main.handle Main.setReport Main.report].
  unfold Main.generateFusionReport.
  destruct (Main.shopifyData (Main.report c)) as [|s S]; [congruence|].
  destruct (Main.awsData (Main.report c)) as [|a A]; [congruence|].
  cbn [length Nat.eqb orb].
  destruct (length _ =? 0)%nat; discriminate.
Qed.

(** X21. In every reachable state the trend view is computed: the loop of
    [getSmoothedData] ends within as many turns as there are fused
    records and returns at least one record. *)
Theorem trend_view_returns Math_pow Math_random c :
  Main.reachable Math_pow (Main.initial Math_pow Math_random) c ->
  exists smoothed,
    Main.getSmoothedData (length (Main.fusedData (Main.report c)))
      (Main.fusedData (Main.report c)) (Main.smoothingLevel c)
    = Some smoothed
    /\ smoothed <> []
    /\ (length smoothed <= length (Main.fusedData (Main.report c)))%nat.
Proof.
  intros H.
  assert (I : consistent c).
  { induction H as [|e c _ IH He]; [apply initial_consistent|].
    now apply handle_consistent. }
  destruct I as (I1 & _ & _ & _ & _ & _ & I7).
  set (fused := Main.fusedData (Main.report c)) in *.
  set (level := Main.smoothingLevel c) in *.
  rewrite (getSmoothedData_map (length fused) fused level) by lia.
  eexists. split; [reflexivity|].
  assert (Hn : (1 <= length fused)%nat)
    by (destruct fused; [congruence|simpl; lia]).
  rewrite length_map, length_seq.
  split.
  - intros C. apply (f_equal length) in C.
    rewrite length_map, length_seq in C. cbn [length] in C.
    rewrite (chunk_count (length fused) level) in C by lia. discriminate.
  - apply Nat.Div0.div_le_upper_bound. nia.
Qed.

Lemma bothLoaded_reachable :
  Main.reachable constantPow (Main.initial constantPow zeroDraws) bothLoaded.
Proof.
  unfold bothLoaded.
  apply Main.reachable_handle; [|exact I].
  apply Main.reachable_handle; [|exact I].
  apply Main.reachable_initial.
Qed.

Lemma component_consistent_witness :
  Main.reachable constantPow (Main.initial constantPow zeroDraws) bothLoaded
  /\ consistent bothLoaded.
Proof.
  split; [exact bothLoaded_reachable|].
  exact (component_consistent _ _ _ bothLoaded_reachable).
Defined.

Lemma report_button_has_records_witness :
  Main.reachable constantPow (Main.initial constantPow zeroDraws) bothLoaded
  /\ Main.enabled Main.GenerateClicked bothLoaded
  /\ Main.fusionMessage
       (Main.report (Main.handle constantPow Main.GenerateClicked bothLoaded))
     <> Main.BothRequired.
Proof.
  assert (H : Main.enabled Main.GenerateClicked bothLoaded)
    by (split; vm_compute; reflexivity).
  split; [exact bothLoaded_reachable|]. split; [exact H|].
  exact (report_button_has_records _ _ _ bothLoaded_reachable H).
Defined.

Lemma trend_view_returns_witness :
  Main.reachable constantPow (Main.initial constantPow zeroDraws) bothLoaded
  /\ exists smoothed,
       Main.getSmoothedData
         (length (Main.fusedData (Main.report bothLoaded)))
         (Main.fusedData (Main.report bothLoaded))
         (Main.smoothingLevel bothLoaded)
       = Some smoothed
       /\ smoothed <> []
       /\ (length smoothed
           <= length (Main.fusedData (Main.report bothLoaded)))%nat.
Proof.
  split; [exact bothLoaded_reachable|].
  exact (trend_view_returns _ _ _ bothLoaded_reachable).
Defined.

(** * The date parser of the examples *)

Lemma exampleDate_decimal s : decimalNum (exampleDate s).
Proof.
  unfold exampleDate.
  destruct (String.eqb s _); [apply (decimalNum_ofZ 0)|].
  destruct (String.eqb s _); [apply (decimalNum_ofZ 5000)|exact I].
Qed.

(** * The component of part_006 *)

(** ** Its sample data *)

Section SampleData006.

Variable Math_pow : num -> num -> num.
Variable Math_exp : num -> num.
Variable Math_random : nat -> num.

Lemma sample006_length i :
  (1 <= i <= 200)%nat ->
  FusedDataPoint.sessionLength
    (V6.samplePoint Math_pow Math_exp Math_random i)
  = fin ((5 # 10) + inject_Z (Z.of_nat i - 1) * (1 # 10)).
Proof.
  intros Hi. unfold V6.samplePoint. cbn [FusedDataPoint.sessionLength].
  unfold ofNat, ofZ.
  destruct (sub_Fin (inject_Z (Z.of_nat i)) 1) as (d & -> & Ed).
  destruct (mul_Fin d (1 # 10)) as (m & -> & Em).
  destruct (add_Fin (5 # 10) m) as (v & -> & Ev).
  assert (E : (v == (5 # 10) + inject_Z (Z.of_nat i - 1) * (1 # 10))%Q).
  { rewrite Ev, Em, Ed. unfold Z.sub. rewrite inject_Z_plus, inject_Z_opp.
    ring. }
  assert (E2 : (v == inject_Z (10 * (Z.of_nat i + 4))
                     * pow10 (- Z.of_nat 2))%Q).
  { rewrite E. unfold Z.sub.
    rewrite inject_Z_plus, inject_Z_opp, inject_Z_mult, inject_Z_plus.
    change (pow10 (- Z.of_nat 2)) with (1 # 100)%Q.
    change (inject_Z 10) with (10 # 1)%Q. change (inject_Z 4) with (4 # 1)%Q.
    change (inject_Z 1) with 1%Q. field. }
  assert (I0 : (0 <= inject_Z (Z.of_nat i - 1))%Q).
  { replace 0%Q with (inject_Z 0) by reflexivity. rewrite <- Zle_Qle. lia. }
  assert (I1 : (inject_Z (Z.of_nat i - 1) <= 199)%Q).
  { change 199%Q with (inject_Z 199). rewrite <- Zle_Qle. lia. }
  rewrite Number_toFixed.
  - unfold fin. f_equal. apply Qred_complete.
    rewrite (roundedQ_exact 2 v _ E2). exact E.
  - apply (not_huge_le v 21); [rewrite E; lra| |lia].
    rewrite E. change (inject_Z 21) with (21 # 1)%Q. lra.
Qed.

Lemma sample006_ascending :
  ascendingByLength (V6.generateSampleData Math_pow Math_exp Math_random).
Proof.
  unfold ascendingByLength, V6.generateSampleData.
  apply Sorted_map_seq. intros k Hk1 Hk2.
  rewrite !sample006_length by lia. unfold fin.
  rewrite le_Fin, !Qred_correct.
  assert (inject_Z (Z.of_nat k - 1) <= inject_Z (Z.of_nat (S k) - 1))%Q
    by (rewrite <- Zle_Qle; lia).
  lra.
Qed.

Lemma sample006_noNaN :
  Forall (fun p => isNaN (FusedDataPoint.sessionLength p) = false)
    (V6.generateSampleData Math_pow Math_exp Math_random).
Proof.
  unfold V6.generateSampleData. apply Forall_map, Forall_forall.
  intros i Hi. apply elem_of_seq in Hi.
  now rewrite sample006_length by lia.
Qed.

Hypothesis random_finite : forall i, exists r, Math_random i = Fin r.
Hypothesis pow_finite : forall x y, exists p, Math_pow x y = Fin p.
Hypothesis exp_finite : forall x, exists p, Math_exp x = Fin p.

Lemma sample006_rate i :
  between 2 98
    (FusedDataPoint.successRate
       (V6.samplePoint Math_pow Math_exp Math_random i)).
Proof.
  unfold V6.samplePoint. cbn [FusedDataPoint.successRate].
  set (base := if le _ _ then _ else _).
  assert (Hb : exists b, base = Fin b).
  { unfold base. unfold ofNat, ofZ.
    destruct (sub_Fin (inject_Z (Z.of_nat i)) 1) as (d & -> & _).
    destruct (mul_Fin d (1 # 10)) as (m & -> & _).
    destruct (add_Fin (5 # 10) m) as (v & -> & _).
    destruct (le (Fin v) (Fin (55 # 10))).
    - destruct (pow_finite (div (Fin v) (Fin (55 # 10))) (Fin (5 # 10)))
        as (p & ->).
      destruct (sub_Fin 1 p) as (cv & -> & _).
      destruct (sub_Fin (95 # 100) (85 # 100)) as (k & -> & _).
      destruct (mul_Fin k cv) as (kc & -> & _).
      destruct (add_Fin (85 # 100) kc) as (b & -> & _). now exists b.
    - destruct (exp_finite
                  (mul (neg (sub (Fin v) (Fin (55 # 10)))) (Fin (3 # 10))))
        as (p & ->).
      destruct (sub_Fin (70 # 100) (15 # 100)) as (k & -> & _).
      destruct (mul_Fin k p) as (kc & -> & _).
      destruct (add_Fin (15 # 100) kc) as (b & -> & _). now exists b. }
  destruct Hb as (b & ->).
  destruct (random_finite i) as (r & ->).
  destruct (sub_Fin r (5 # 10)) as (d & -> & _).
  destruct (mul_Fin d (12 # 100)) as (n & -> & _).
  destruct (add_Fin b n) as (x & -> & _).
  destruct (clamp_Fin (2 # 100) (98 # 100) x ltac:(discriminate))
    as (c & -> & C0 & C1 & _).
  apply stored_percent_between; [lia|lia| |].
  - change (inject_Z 2) with (2 # 1)%Q. lra.
  - change (inject_Z 98) with (98 # 1)%Q. lra.
Qed.

End SampleData006.

Lemma sort_ascending_same l :
  Forall (fun p => isNaN (FusedDataPoint.sessionLength p) = false) l ->
  ascendingByLength l -> sort byLength l = l.
Proof.
  unfold ascendingByLength. intros HN HS.
  induction HS as [|x l HS IH Hd]; [reflexivity|].
  inversion HN as [|? ? Hx HN']; subst.
  cbn [sort]. rewrite (IH HN').
  destruct Hd as [|y l' Hxy]; [reflexivity|].
  inversion HN' as [|? ? Hy _]; subst.
  cbn [insert]. rewrite (byLength_gt x y Hx Hy).
  change (lt (FusedDataPoint.sessionLength y)
            (FusedDataPoint.sessionLength x))
    with (gt (FusedDataPoint.sessionLength x)
            (FusedDataPoint.sessionLength y)).
  now rewrite (gt_negb_le _ _ Hx Hy), Hxy.
Qed.

(** X23. The demo data of part_006.  The generator returns 200 records
    numbered 1 to 200 whose lengths are 0.5, 0.6, ... 20.4, in
    ascending order, so that the sort in [loadSampleData] leaves them as
    they are; whatever finite values [Math.random], [Math.pow] and
    [Math.exp] return, every rate is from 2 to 98. *)
Theorem part_006_sample_data Math_pow Math_exp Math_random :
  (forall i, exists r, Math_random i = Fin r) ->
  (forall x y, exists p, Math_pow x y = Fin p) ->
  (forall x, exists p, Math_exp x = Fin p) ->
  length (V6.generateSampleData Math_pow Math_exp Math_random) = 200%nat
  /\ map FusedDataPoint.sessionNumber
       (V6.generateSampleData Math_pow Math_exp Math_random)
     = map Z.of_nat (seq 1 200)
  /\ map FusedDataPoint.sessionLength
       (V6.generateSampleData Math_pow Math_exp Math_random)
     = map (fun i => fin ((5 # 10) + inject_Z (Z.of_nat i - 1) * (1 # 10)))
         (seq 1 200)
  /\ ascendingByLength (V6.generateSampleData Math_pow Math_exp Math_random)
  /\ sort byLength (V6.generateSampleData Math_pow Math_exp Math_random)
     = V6.generateSampleData Math_pow Math_exp Math_random
  /\ Forall (fun p => between 2 98 (FusedDataPoint.successRate p))
       (V6.generateSampleData Math_pow Math_exp Math_random).
Proof.
  intros Hr Hp He.
  split; [unfold V6.generateSampleData; now rewrite length_map, length_seq|].
  split; [unfold V6.generateSampleData; now rewrite map_map|].
  split.
  { unfold V6.generateSampleData. rewrite map_map.
    apply map_ext_in. intros i Hi. apply in_seq in Hi.
    apply sample006_length. lia. }
  split; [apply sample006_ascending|].
  split; [apply sort_ascending_same;
          [apply sample006_noNaN|apply sample006_ascending]|].
  unfold V6.generateSampleData. apply Forall_map, Forall_forall.
  intros i _. now apply sample006_rate.
Qed.

Lemma part_006_sample_data_witness :
  (forall i, exists r, zeroDraws i = Fin r)
  /\ (forall x y, exists p, constantPow x y = Fin p)
  /\ (forall x, exists p, constantExp x = Fin p)
  /\ length (V6.generateSampleData constantPow constantExp zeroDraws)
     = 200%nat
  /\ Forall (fun p => between 2 98 (FusedDataPoint.successRate p))
       (V6.generateSampleData constantPow constantExp zeroDraws).
Proof.
  assert (Hr : forall i, exists r, zeroDraws i = Fin r)
    by (intros i; now exists 0%Q).
  assert (Hp : forall x y, exists p, constantPow x y = Fin p)
    by (intros x y; now exists 1%Q).
  assert (He : forall x, exists p, constantExp x = Fin p)
    by (intros x; now exists 1%Q).
  split; [exact Hr|]. split; [exact Hp|]. split; [exact He|].
  destruct (part_006_sample_data _ _ _ Hr Hp He)
    as (H1 & _ & _ & _ & _ & H2).
  split; [exact H1|exact H2].
Defined.

(** ** What holds in every state of part_006 *)

Lemma V6_parseShopifyCSV_nonempty csvText data :
  V6.parseShopifyCSV csvText = Ok data -> data <> [].
Proof.
  unfold V6.parseShopifyCSV.
  destruct (length (linesOf csvText) <? 2)%nat; [discriminate|].
  cbv zeta. destruct (_ || _); [discriminate|].
  destruct (length _ =? 0)%nat eqn:E; [discriminate|].
  intros [= <-] C. rewrite C in E. discriminate.
Qed.

Lemma V6_parseAWSCSV_records Date_getTime csvText data :
  (forall s, decimalNum (Date_getTime s)) ->
  V6.parseAWSCSV Date_getTime csvText = Ok data ->
  data <> [] /\ noNaNLength data.
Proof.
  intros HD. unfold V6.parseAWSCSV.
  destruct (length (linesOf csvText) <? 2)%nat; [discriminate|].
  cbv zeta. destruct (_ || _); [discriminate|].
  rewrite forRows_omap. cbn [app].
  destruct (length _ =? 0)%nat eqn:E; [discriminate|].
  intros [= <-]. split.
  - intros C. rewrite C in E. discriminate.
  - apply omap_Forall. intros line r Hr.
    apply (V6_awsRow_length _ _ _ _ _ _ _ _ _ HD) in Hr
      as (x & _ & Hx & ->).
    now apply roundTo_positive.
Qed.

Lemma statsOf_reportStats shopifyData awsData fused :
  statsOf fused (Main.reportStats shopifyData awsData fused).
Proof. repeat split. Qed.

Lemma generateFusionReport_part006 (s : Main.State) :
  noNaNLength (Main.awsData s) ->
  (Main.isReportGenerated s = true <-> Main.fusedData s <> []) ->
  (Main.fusedData s = [] -> Main.stats s = V6.noStats) ->
  (Main.fusedData s <> [] -> statsOf (Main.fusedData s) (Main.stats s)) ->
  ascendingByLength (Main.fusedData s) ->
  Main.shopifyData (Main.generateFusionReport s) = Main.shopifyData s
  /\ Main.awsData (Main.generateFusionReport s) = Main.awsData s
  /\ (Main.isReportGenerated (Main.generateFusionReport s) = true
      <-> Main.fusedData (Main.generateFusionReport s) <> [])
  /\ (Main.fusedData (Main.generateFusionReport s) = [] ->
      Main.stats (Main.generateFusionReport s) = V6.noStats)
  /\ (Main.fusedData (Main.generateFusionReport s) <> [] ->
      statsOf (Main.fusedData (Main.generateFusionReport s))
        (Main.stats (Main.generateFusionReport s)))
  /\ ascendingByLength (Main.fusedData (Main.generateFusionReport s)).
Proof.
  intros HN H1 H2 H3 H4. unfold Main.generateFusionReport.
  destruct (_ || _);
    [cbn [Main.shopifyData Main.awsData Main.fusedData Main.stats
          Main.isReportGenerated]; tauto|].
  destruct (length (fuseData (Main.shopifyData s) (Main.awsData s)) =? 0)%nat
    eqn:E;
    [cbn [Main.shopifyData Main.awsData Main.fusedData Main.stats
          Main.isReportGenerated]; tauto|].
  cbn [Main.shopifyData Main.awsData Main.fusedData Main.stats
       Main.isReportGenerated].
  assert (Hne : fuseData (Main.shopifyData s) (Main.awsData s) <> [])
    by (intros C; rewrite C in E; discriminate).
  split; [reflexivity|]. split; [reflexivity|].
  split; [split; [now intros _|reflexivity]|].
  split; [intros C; contradiction|].
  split; [intros _; apply statsOf_reportStats|].
  now apply fuseData_ascending.
Qed.

Section Component006.

Variable Math_pow : num -> num -> num.
Variable Math_exp : num -> num.
Variable Date_getTime : string -> num.
Hypothesis Date_decimal : forall s, decimalNum (Date_getTime s).

Lemma initial006_consistent : consistentPart006 V6.initial.
Proof.
  unfold consistentPart006, V6.initial.
  cbn [Main.report Main.fusedData Main.stats Main.isReportGenerated
       Main.shopifyUploadStatus Main.awsUploadStatus Main.shopifyData
       Main.awsData Main.smoothingLevel].
  split; [split; [discriminate|congruence]|].
  split; [reflexivity|]. split; [congruence|].
  split; [constructor|]. split; [discriminate|]. split; [discriminate|].
  split; [constructor|lia].
Qed.

Lemma clearSession_consistent c :
  consistentPart006 c -> consistentPart006 (V6.clearSession c).
Proof.
  intros (_ & _ & _ & _ & I5 & I6 & I7 & I8).
  unfold consistentPart006, V6.clearSession.
  cbn [Main.setStats Main.setFusionMessage Main.setIsReportGenerated
       Main.setFusedData Main.setReport Main.report Main.fusedData
       Main.stats Main.isReportGenerated Main.shopifyUploadStatus
       Main.awsUploadStatus Main.shopifyData Main.awsData
       Main.smoothingLevel Main.fusionMessage].
  split; [split; [discriminate|congruence]|].
  split; [reflexivity|]. split; [congruence|].
  split; [constructor|]. split; [exact I5|]. split; [exact I6|].
  split; [exact I7|exact I8].
Qed.

Lemma loadSampleData006_consistent Math_random c :
  consistentPart006 c ->
  consistentPart006 (V6.loadSampleData Math_pow Math_exp Math_random c).
Proof.
  intros (_ & _ & _ & _ & _ & _ & I7 & I8).
  set (sorted := sort byLength
                   (V6.generateSampleData Math_pow Math_exp Math_random)).
  assert (Hne : sorted <> []).
  { intros C. apply (f_equal length) in C. unfold sorted in C.
    rewrite <- (Permutation_length (sort_Permutation byLength _)) in C.
    unfold V6.generateSampleData in C.
    rewrite length_map, length_seq in C. discriminate. }
  unfold consistentPart006, V6.loadSampleData. cbv zeta. fold sorted.
  cbn [Main.setStats Main.setIsReportGenerated Main.setAWSUploadStatus
       Main.setShopifyUploadStatus Main.setFusedData Main.setReport
       Main.report Main.fusedData Main.stats Main.isReportGenerated
       Main.shopifyUploadStatus Main.awsUploadStatus Main.shopifyData
       Main.awsData Main.smoothingLevel Main.viewMode Main.fusionMessage].
  split; [split; [now intros _|reflexivity]|].
  split; [intros C; contradiction|].
  split.
  { intros _. unfold statsOf, Main.reportStats. cbv zeta.
    cbn [Main.matchedSessions Main.inflectionPoint Main.earlySuccessRate
         Main.lateSuccessRate].
    split; [reflexivity|]. split; [reflexivity|].
    split; reflexivity. }
  split; [apply sort_ascending, sample006_noNaN|].
  split; [discriminate|]. split; [discriminate|].
  split; [exact I7|exact I8].
Qed.

Lemma same_report_consistent c c' :
  Main.report c' = Main.report c ->
  Main.smoothingLevel c' = Main.smoothingLevel c ->
  (Main.shopifyUploadStatus c' = Main.Success ->
   Main.shopifyUploadStatus c = Main.Success) ->
  (Main.awsUploadStatus c' = Main.Success ->
   Main.awsUploadStatus c = Main.Success) ->
  consistentPart006 c -> consistentPart006 c'.
Proof.
  intros Hr Hl Hs Ha (I1 & I2 & I3 & I4 & I5 & I6 & I7 & I8).
  unfold consistentPart006. rewrite Hr, Hl.
  split; [exact I1|]. split; [exact I2|]. split; [exact I3|].
  split; [exact I4|]. split; [auto|]. split; [auto|].
  split; [exact I7|exact I8].
Qed.

Lemma handle006_consistent e c :
  consistentPart006 c -> Main.enabled e c ->
  consistentPart006 (V6.handle Math_pow Math_exp Date_getTime e c).
Proof.
  intros I He. pose proof I as (I1 & I2 & I3 & I4 & I5 & I6 & I7 & I8).
  destruct e as [[name|]| csvText | | [name|] | csvText | | | Math_random
                 | v | v]; cbn [V6.handle].
  - unfold V6.handleShopifyUpload. destruct (negb _).
    + apply (same_report_consistent c); try reflexivity; try discriminate;
        auto.
    + apply (same_report_consistent (V6.clearSession c));
        try reflexivity; try discriminate; auto.
      now apply clearSession_consistent.
  - exact I.
  - unfold V6.shopifyOnload.
    destruct (V6.parseShopifyCSV csvText) as [data|err] eqn:E.
    + apply V6_parseShopifyCSV_nonempty in E.
      split; [exact I1|]. split; [exact I2|]. split; [exact I3|].
      split; [exact I4|]. split; [now intros _|]. split; [exact I6|].
      split; [exact I7|exact I8].
    + apply (same_report_consistent c); try reflexivity; try discriminate;
        auto.
  - apply (same_report_consistent c); try reflexivity; try discriminate;
      auto.
  - unfold V6.handleAWSUpload. destruct (negb _).
    + apply (same_report_consistent c); try reflexivity; try discriminate;
        auto.
    + apply (same_report_consistent (V6.clearSession c));
        try reflexivity; try discriminate; auto.
      now apply clearSession_consistent.
  - exact I.
  - unfold V6.awsOnload.
    destruct (V6.parseAWSCSV Date_getTime csvText) as [data|err] eqn:E.
    + apply (V6_parseAWSCSV_records _ _ _ Date_decimal) in E as [E1 E2].
      split; [exact I1|]. split; [exact I2|]. split; [exact I3|].
      split; [exact I4|]. split; [exact I5|]. split; [now intros _|].
      split; [exact E2|exact I8].
    + apply (same_report_consistent c); try reflexivity; try discriminate;
        auto.
  - apply (same_report_consistent c); try reflexivity; try discriminate;
      auto.
  - destruct (generateFusionReport_part006 (Main.report c) I7 I1 I2 I3 I4)
      as (G1 & G2 & G3 & G4 & G5 & G6).
    unfold consistentPart006, Main.setReport.
    cbn [Main.report Main.shopifyUploadStatus Main.awsUploadStatus
         Main.smoothingLevel].
    rewrite G1, G2.
    split; [exact G3|]. split; [exact G4|]. split; [exact G5|].
    split; [exact G6|]. split; [exact I5|]. split; [exact I6|].
    split; [exact I7|exact I8].
  - now apply loadSampleData006_consistent.
  - exact I.
  - destruct He as [_ He].
    split; [exact I1|]. split; [exact I2|]. split; [exact I3|].
    split; [exact I4|]. split; [exact I5|]. split; [exact I6|].
    split; [exact I7|exact He].
Qed.

End Component006.

(** X24. In every state that the component of part_006 can reach from its
    first render: the report flag is set exactly when there are fused
    records; the statistics shown are the ones that the formulas of the
    report give for the fused records shown, and the zeros of the first
    render when there are none (choosing a new CSV file clears both);
    the fused records stand in ascending order of length; a source
    marked as loaded has records; the smoothing level is from 5 to 25.
    (The date parser of the host is taken to return [NaN] or a decimal
    number.) *)
Theorem part_006_consistent Math_pow Math_exp Date_getTime c :
  (forall s, decimalNum (Date_getTime s)) ->
  V6.reachable Math_pow Math_exp Date_getTime c ->
  consistentPart006 c.
Proof.
  intros HD. induction 1 as [|e c _ IH He]; [apply initial006_consistent|].
  now apply handle006_consistent.
Qed.

Lemma part_006_consistent_witness :
  (forall s, decimalNum (exampleDate s))
  /\ V6.reachable constantPow constantExp exampleDate demoLoaded006
  /\ consistentPart006 demoLoaded006.
Proof.
  assert (R : V6.reachable constantPow constantExp exampleDate
                demoLoaded006).
  { unfold demoLoaded006.
    apply V6.reachable_handle; [apply V6.reachable_initial|exact I]. }
  split; [exact exampleDate_decimal|]. split; [exact R|].
  exact (part_006_consistent _ _ _ _ exampleDate_decimal R).
Defined.

(** * The versions side by side, and the order of the input *)

(** ** The order of the duration records *)

Lemma filter_id_unique awsData id :
  NoDup (durationIds awsData) ->
  forall a b,
    In a (List.filter (fun x => String.eqb (AWSData.sessionId x) id) awsData)
    ->
    In b (List.filter (fun x => String.eqb (AWSData.sessionId x) id) awsData)
    -> a = b.
Proof.
  unfold durationIds. induction awsData as [|x l IH]; intros N a b Ha Hb;
    [destruct Ha|].
  cbn [map] in N. apply NoDup_cons in N as [Nx N].
  cbn [List.filter] in Ha, Hb.
  assert (Hno : forall y, String.eqb (AWSData.sessionId x) id = true ->
                  In y (List.filter
                          (fun x => String.eqb (AWSData.sessionId x) id) l)
                  -> False).
  { intros y Ex Hy. apply filter_In in Hy as [Hy Ey].
    apply String.eqb_eq in Ex, Ey. apply Nx.
    apply list_elem_of_In, in_map_iff. exists y. split; [congruence|exact Hy]. }
  destruct (String.eqb (AWSData.sessionId x) id) eqn:E.
  - destruct Ha as [<-|Ha]; [|destruct (Hno a eq_refl Ha)].
    destruct Hb as [<-|Hb]; [reflexivity|destruct (Hno b eq_refl Hb)].
  - now apply IH.
Qed.

Lemma indexLookup_Permutation awsData awsData' id :
  Permutation awsData awsData' -> NoDup (durationIds awsData) ->
  indexLookup awsData id = indexLookup awsData' id.
Proof.
  intros P N.
  assert (N' : NoDup (durationIds awsData')).
  { unfold durationIds in *. now rewrite <- P. }
  assert (H : forall A B, Permutation A B -> NoDup (durationIds A) ->
              forall a, indexLookup A id = Some a ->
              NoDup (durationIds B) -> indexLookup B id = Some a).
  { intros A B PAB NA a Ha NB. unfold indexLookup in *.
    apply last_Some_elem_of, list_elem_of_In in Ha.
    assert (Hb : In a (List.filter
                         (fun x => String.eqb (AWSData.sessionId x) id) B)).
    { apply filter_In in Ha as [Ha Ea]. apply filter_In. split; [|exact Ea].
      now apply (Permutation_in _ PAB). }
    destruct (last (List.filter _ B)) as [b|] eqn:Eb.
    - f_equal. apply last_Some_elem_of, list_elem_of_In in Eb.
      now apply (filter_id_unique B id NB).
    - apply last_None in Eb. rewrite Eb in Hb. destruct Hb. }
  destruct (indexLookup awsData id) as [a|] eqn:E.
  - symmetry. now apply (H awsData awsData').
  - destruct (indexLookup awsData' id) as [b|] eqn:E'; [|reflexivity].
    apply (H awsData' awsData (Permutation_sym P) N') in E'; [|exact N].
    congruence.
Qed.

(** X26. When no two duration records carry the same session id, the
    order of the duration records makes no difference to the fused
    records: the fuser only looks the records up by their id. *)
Theorem fuseData_duration_order shopifyData awsData awsData' :
  Permutation awsData awsData' -> NoDup (durationIds awsData) ->
  fuseData shopifyData awsData = fuseData shopifyData awsData'.
Proof.
  intros P N. rewrite !fuseData_sort_innerJoin. f_equal.
  unfold innerJoin. generalize 1.
  induction shopifyData as [|s rest IH]; intros k; [reflexivity|].
  cbn [innerJoinFrom].
  rewrite (indexLookup_Permutation awsData awsData' _ P N).
  destruct (indexLookup awsData' (ShopifyData.sessionId s));
    now rewrite IH.
Qed.

Lemma fuseData_duration_order_witness :
  Permutation exampleAws (rev exampleAws)
  /\ NoDup (durationIds exampleAws)
  /\ fuseData exampleShopify exampleAws
     = fuseData exampleShopify (rev exampleAws).
Proof.
  assert (P : Permutation exampleAws (rev exampleAws))
    by apply Permutation_rev.
  assert (N : NoDup (durationIds exampleAws)).
  { unfold durationIds, exampleAws. cbn [map AWSData.sessionId].
    apply NoDup_ListNoDup. repeat constructor; cbn [In];
      intuition discriminate. }
  split; [exact P|]. split; [exact N|].
  exact (fuseData_duration_order exampleShopify _ _ P N).
Defined.

(** * The pipeline in binary64 arithmetic *)

(** ** Powers of two *)

Lemma pow2_pos e : (0 < Binary64.pow2 e)%Q.
Proof. unfold Binary64.pow2. apply Qpower_0_lt. reflexivity. Qed.

Lemma pow2_add a b :
  (Binary64.pow2 (a + b) == Binary64.pow2 a * Binary64.pow2 b)%Q.
Proof. unfold Binary64.pow2. apply Qpower_plus. discriminate. Qed.

Lemma pow2_Z (n : Z) : 0 <= n -> (Binary64.pow2 n == inject_Z (2 ^ n))%Q.
Proof.
  intros H. unfold Binary64.pow2. rewrite Zpower_Qpower by exact H.
  reflexivity.
Qed.

Lemma pow2_ge_1 (n : Z) : 0 <= n -> (1 <= Binary64.pow2 n)%Q.
Proof.
  intros H. rewrite pow2_Z by exact H.
  change 1%Q with (inject_Z 1). rewrite <- Zle_Qle.
  pose proof (Z.pow_pos_nonneg 2 n). lia.
Qed.

Lemma pow2_le a b : a <= b -> (Binary64.pow2 a <= Binary64.pow2 b)%Q.
Proof.
  intros H. replace b with (a + (b - a)) by lia. rewrite pow2_add.
  pose proof (pow2_pos a). pose proof (pow2_ge_1 (b - a) ltac:(lia)). nra.
Qed.

Lemma pow2_lt_inv a b : (Binary64.pow2 a < Binary64.pow2 b)%Q -> a < b.
Proof.
  intros H. destruct (Z.lt_ge_cases a b) as [L|L]; [exact L|].
  pose proof (pow2_le b a L). lra.
Qed.

Lemma pow2_sub a b :
  (Binary64.pow2 (a - b) == Binary64.pow2 a / Binary64.pow2 b)%Q.
Proof.
  pose proof (pow2_pos b). pose proof (pow2_add (a - b) b) as E.
  replace (a - b + b) with a in E by lia. rewrite E. field. lra.
Qed.

(** ** The binary exponent of a rational *)

Lemma Qabs_make (q : Q) :
  (Qabs q == inject_Z (Z.abs (Qnum q)) / inject_Z (Zpos (Qden q)))%Q.
Proof.
  destruct q as [n d]. unfold Qabs. cbn [Qnum Qden].
  rewrite (Qmake_Qdiv (Z.abs n) d). reflexivity.
Qed.

Lemma ilog2_spec q :
  ~ (q == 0)%Q ->
  (Binary64.pow2 (Binary64.ilog2 q) <= Qabs q)%Q
  /\ (Qabs q < Binary64.pow2 (Binary64.ilog2 q + 1))%Q.
Proof.
  intros Hq. unfold Binary64.ilog2.
  set (a := Z.abs (Qnum q)). set (d := Zpos (Qden q)).
  assert (Ha : 0 < a).
  { unfold a. destruct q as [n dd]. unfold Qeq in Hq. simpl in *. lia. }
  assert (Hd : 0 < d) by (unfold d; lia).
  pose proof (Z.log2_spec a Ha) as [A1 A2].
  pose proof (Z.log2_spec d Hd) as [D1 D2].
  pose proof (Z.log2_nonneg a) as La. pose proof (Z.log2_nonneg d) as Ld.
  set (la := Z.log2 a) in *. set (ld := Z.log2 d) in *.
  assert (E : (Qabs q == inject_Z a / inject_Z d)%Q) by apply Qabs_make.
  assert (Pd : (0 < inject_Z d)%Q)
    by (change 0%Q with (inject_Z 0); now rewrite <- Zlt_Qlt).
  assert (B1 : (inject_Z (2 ^ la) <= inject_Z a)%Q) by now rewrite <- Zle_Qle.
  assert (B2 : (inject_Z a < inject_Z (2 ^ Z.succ la))%Q)
    by now rewrite <- Zlt_Qlt.
  assert (B3 : (inject_Z (2 ^ ld) <= inject_Z d)%Q) by now rewrite <- Zle_Qle.
  assert (B4 : (inject_Z d < inject_Z (2 ^ Z.succ ld))%Q)
    by now rewrite <- Zlt_Qlt.
  rewrite <- !pow2_Z in B1, B2, B3, B4 by lia.
  assert (U : (Qabs q < Binary64.pow2 (la - ld + 1))%Q).
  { rewrite E. apply Qlt_shift_div_r; [exact Pd|].
    replace (la - ld + 1) with (Z.succ la - ld) by lia. rewrite pow2_sub.
    pose proof (pow2_pos ld). pose proof (pow2_pos (Z.succ la)).
    assert (Binary64.pow2 (Z.succ la) / Binary64.pow2 ld * inject_Z d
            == Binary64.pow2 (Z.succ la) * (inject_Z d / Binary64.pow2 ld))%Q
      as -> by (field; lra).
    assert (1 <= inject_Z d / Binary64.pow2 ld)%Q
      by (apply Qle_shift_div_l; lra).
    nra. }
  assert (L : (Binary64.pow2 (la - ld - 1) < Qabs q)%Q).
  { rewrite E. apply Qlt_shift_div_l; [exact Pd|].
    replace (la - ld - 1) with (la - Z.succ ld) by lia. rewrite pow2_sub.
    pose proof (pow2_pos (Z.succ ld)). pose proof (pow2_pos la).
    assert (Binary64.pow2 la / Binary64.pow2 (Z.succ ld) * inject_Z d
            == Binary64.pow2 la * (inject_Z d / Binary64.pow2 (Z.succ ld)))%Q
      as -> by (field; lra).
    assert (inject_Z d / Binary64.pow2 (Z.succ ld) < 1)%Q
      by (apply Qlt_shift_div_r; lra).
    nra. }
  destruct (Qle_bool (Binary64.pow2 (la - ld)) (Qabs q)) eqn:C.
  - apply Qle_bool_iff in C. split; assumption.
  - assert (C' : ~ (Binary64.pow2 (la - ld) <= Qabs q)%Q)
      by (rewrite <- Qle_bool_iff; congruence).
    split; [now apply Qlt_le_weak|].
    replace (la - ld - 1 + 1) with (la - ld) by lia. lra.
Qed.

Lemma ilog2_unique q L :
  (Binary64.pow2 L <= Qabs q)%Q -> (Qabs q < Binary64.pow2 (L + 1))%Q ->
  Binary64.ilog2 q = L.
Proof.
  intros H1 H2.
  assert (Hq : ~ (q == 0)%Q).
  { intros E. rewrite E in H1. pose proof (pow2_pos L).
    change (Qabs 0) with 0%Q in H1. lra. }
  destruct (ilog2_spec q Hq) as [S1 S2].
  assert (Binary64.ilog2 q < L + 1) by (apply pow2_lt_inv; lra).
  assert (L < Binary64.ilog2 q + 1) by (apply pow2_lt_inv; lra).
  lia.
Qed.

Lemma ilog2_comp q q' :
  (q == q')%Q -> ~ (q == 0)%Q -> Binary64.ilog2 q = Binary64.ilog2 q'.
Proof.
  intros E Hq. assert (Hq' : ~ (q' == 0)%Q) by now rewrite <- E.
  destruct (ilog2_spec q' Hq') as [S1 S2].
  apply ilog2_unique; now rewrite E.
Qed.

Lemma exponentOf_spec q :
  ~ (q == 0)%Q ->
  let e := Binary64.exponentOf q in
  -1074 <= e
  /\ (Qabs q < Binary64.pow2 (e + 53))%Q
  /\ (e = -1074 \/ (Binary64.pow2 (e + 52) <= Qabs q)%Q).
Proof.
  intros Hq e. destruct (ilog2_spec q Hq) as [S1 S2].
  unfold e, Binary64.exponentOf.
  set (L := Binary64.ilog2 q) in *.
  split; [lia|]. split.
  - apply (Qlt_le_trans _ _ _ S2). apply pow2_le. lia.
  - destruct (Z.max_spec (L - 52) (-1074)) as [[_ ->]|[_ ->]];
      [now left|right].
    replace (L - 52 + 52) with L by lia. exact S1.
Qed.

Lemma exponentOf_comp q q' :
  (q == q')%Q -> ~ (q == 0)%Q ->
  Binary64.exponentOf q = Binary64.exponentOf q'.
Proof.
  intros E Hq. unfold Binary64.exponentOf. now rewrite (ilog2_comp q q' E Hq).
Qed.

(** ** Rounding to the nearest integer, to the even one on a tie *)

Lemma roundHalfEven_cases x :
  let n := Binary64.roundHalfEven x in
  (Qabs (inject_Z n - x) < 1 # 2)%Q
  \/ ((Qabs (inject_Z n - x) == 1 # 2)%Q /\ Z.even n = true).
Proof.
  intros n. unfold n, Binary64.roundHalfEven.
  pose proof (Qfloor_le x) as L. pose proof (Qlt_floor x) as U.
  set (f := Qfloor x) in *.
  rewrite inject_Z_plus in U. change (inject_Z 1) with 1%Q in U.
  destruct (Qcompare_spec (x - inject_Z f) (1 # 2)) as [E|C|C].
  - right. destruct (Z.even f) eqn:Ev.
    + split; [|exact Ev]. rewrite Qabs_neg by lra. lra.
    + split.
      * rewrite inject_Z_plus. change (inject_Z 1) with 1%Q.
        rewrite Qabs_pos by lra. lra.
      * rewrite Z.even_add, Ev. reflexivity.
  - left. apply Qabs_Qlt_condition. lra.
  - left. rewrite inject_Z_plus. change (inject_Z 1) with 1%Q.
    apply Qabs_Qlt_condition. lra.
Qed.

Lemma roundHalfEven_unique x n :
  (Qabs (inject_Z n - x) < 1 # 2)%Q
  \/ ((Qabs (inject_Z n - x) == 1 # 2)%Q /\ Z.even n = true) ->
  Binary64.roundHalfEven x = n.
Proof.
  intros H. pose proof (roundHalfEven_cases x) as H'.
  set (m := Binary64.roundHalfEven x) in *. cbv zeta in H'.
  assert (D : forall k : Z, (Qabs (inject_Z k - x) <= 1 # 2)%Q ->
                (x - (1 # 2) <= inject_Z k)%Q /\ (inject_Z k <= x + (1 # 2))%Q).
  { intros k Hk. apply Qabs_Qle_condition in Hk. lra. }
  assert (Hn : (Qabs (inject_Z n - x) <= 1 # 2)%Q)
    by (destruct H as [H|[H _]]; lra).
  assert (Hm : (Qabs (inject_Z m - x) <= 1 # 2)%Q)
    by (destruct H' as [H'|[H' _]]; lra).
  destruct (D n Hn) as [N1 N2]. destruct (D m Hm) as [M1 M2].
  destruct (Z.lt_trichotomy m n) as [C|[C|C]]; [exfalso|exact C|exfalso].
  - (* m < n: both are at distance one half *)
    assert (C' : (inject_Z m + 1 <= inject_Z n)%Q).
    { change 1%Q with (inject_Z 1). rewrite <- inject_Z_plus, <- Zle_Qle. lia. }
    assert (En : (inject_Z n == x + (1 # 2))%Q) by lra.
    assert (Em : (inject_Z m == x - (1 # 2))%Q) by lra.
    assert (Enm : n = m + 1).
    { apply inject_Z_injective. rewrite inject_Z_plus. change (inject_Z 1) with 1%Q. lra. }
    destruct H as [H|[_ Evn]]; [apply Qabs_Qlt_condition in H; lra|].
    destruct H' as [H'|[_ Evm]]; [apply Qabs_Qlt_condition in H'; lra|].
    rewrite Enm, Z.even_add, Evm in Evn. discriminate.
  - assert (C' : (inject_Z n + 1 <= inject_Z m)%Q).
    { change 1%Q with (inject_Z 1). rewrite <- inject_Z_plus, <- Zle_Qle. lia. }
    assert (Em : (inject_Z m == x + (1 # 2))%Q) by lra.
    assert (En : (inject_Z n == x - (1 # 2))%Q) by lra.
    assert (Enm : m = n + 1).
    { apply inject_Z_injective. rewrite inject_Z_plus. change (inject_Z 1) with 1%Q. lra. }
    destruct H as [H|[_ Evn]]; [apply Qabs_Qlt_condition in H; lra|].
    destruct H' as [H'|[_ Evm]]; [apply Qabs_Qlt_condition in H'; lra|].
    rewrite Enm, Z.even_add, Evn in Evm. discriminate.
Qed.

Lemma roundHalfEven_comp x y :
  (x == y)%Q -> Binary64.roundHalfEven x = Binary64.roundHalfEven y.
Proof.
  intros E. apply roundHalfEven_unique.
  pose proof (roundHalfEven_cases y) as H. cbv zeta in H.
  now rewrite E.
Qed.

Lemma roundHalfEven_opp x :
  Binary64.roundHalfEven (- x) = - Binary64.roundHalfEven x.
Proof.
  apply roundHalfEven_unique.
  pose proof (roundHalfEven_cases x) as H. cbv zeta in H.
  set (n := Binary64.roundHalfEven x) in *.
  assert (E : (inject_Z (- n) - - x == - (inject_Z n - x))%Q)
    by (rewrite inject_Z_opp; ring).
  rewrite E, Qabs_opp, Z.even_opp. exact H.
Qed.

Lemma roundHalfEven_error x :
  (Qabs (inject_Z (Binary64.roundHalfEven x) - x) <= 1 # 2)%Q.
Proof.
  destruct (roundHalfEven_cases x) as [H|[H _]]; cbv zeta in H; lra.
Qed.

Lemma roundHalfEven_le x (n : Z) :
  (x <= inject_Z n)%Q -> Binary64.roundHalfEven x <= n.
Proof.
  intros H. pose proof (roundHalfEven_error x) as E.
  apply Qabs_Qle_condition in E.
  set (m := Binary64.roundHalfEven x) in *.
  destruct (Z.le_gt_cases m n) as [L|L]; [exact L|exfalso].
  assert (C : (inject_Z n + 1 <= inject_Z m)%Q).
  { change 1%Q with (inject_Z 1). rewrite <- inject_Z_plus, <- Zle_Qle. lia. }
  (* then x = n and m = n + 1 lies at one half: impossible *)
  lra.
Qed.

Lemma roundHalfEven_ge x (n : Z) :
  (inject_Z n <= x)%Q -> n <= Binary64.roundHalfEven x.
Proof.
  intros H. pose proof (roundHalfEven_error x) as E.
  apply Qabs_Qle_condition in E.
  set (m := Binary64.roundHalfEven x) in *.
  destruct (Z.le_gt_cases n m) as [L|L]; [exact L|exfalso].
  assert (C : (inject_Z m + 1 <= inject_Z n)%Q).
  { change 1%Q with (inject_Z 1). rewrite <- inject_Z_plus, <- Zle_Qle. lia. }
  lra.
Qed.

(** ** The nearest binary64 number *)

Lemma Qis0_false q : Qis0 q = false <-> ~ (q == 0)%Q.
Proof. rewrite <- Qis0_spec. destruct (Qis0 q); split; congruence. Qed.

Lemma nearest_zero q : (q == 0)%Q -> Binary64.nearest q = Fin 0.
Proof. intros H. unfold Binary64.nearest. apply Qis0_spec in H. now rewrite H. Qed.

Lemma nearest_nonzero q :
  ~ (q == 0)%Q ->
  Binary64.nearest q
  = let e := Binary64.exponentOf q in
    let r := (inject_Z (Binary64.roundHalfEven (q / Binary64.pow2 e))
              * Binary64.pow2 e)%Q in
    if Qle_bool (Binary64.pow2 1024) (Qabs r) then Inf (Qneg q) else fin r.
Proof.
  intros H. unfold Binary64.nearest. apply Qis0_false in H. now rewrite H.
Qed.

Lemma Qneg_comp q q' : (q == q')%Q -> Qneg q = Qneg q'.
Proof.
  intros E. apply eq_true_iff_eq. rewrite !Qneg_spec. now rewrite E.
Qed.

Lemma Qle_bool_comp a a' b b' :
  (a == a')%Q -> (b == b')%Q -> Qle_bool a b = Qle_bool a' b'.
Proof.
  intros E1 E2. apply eq_true_iff_eq. rewrite !Qle_bool_iff.
  now rewrite E1, E2.
Qed.

Lemma nearest_comp q q' :
  (q == q')%Q -> Binary64.nearest q = Binary64.nearest q'.
Proof.
  intros E. destruct (Qeq_dec q 0) as [Z|NZ].
  - rewrite (nearest_zero q Z). symmetry. apply nearest_zero. now rewrite <- E.
  - assert (NZ' : ~ (q' == 0)%Q) by now rewrite <- E.
    rewrite (nearest_nonzero q NZ), (nearest_nonzero q' NZ'). cbv zeta.
    rewrite <- (exponentOf_comp q q' E NZ).
    set (e := Binary64.exponentOf q).
    assert (Em : Binary64.roundHalfEven (q / Binary64.pow2 e)
                 = Binary64.roundHalfEven (q' / Binary64.pow2 e))
      by (apply roundHalfEven_comp; now rewrite E).
    rewrite <- Em. rewrite (Qneg_comp q q' E). reflexivity.
Qed.

Lemma ilog2_opp q : ~ (q == 0)%Q -> Binary64.ilog2 (- q) = Binary64.ilog2 q.
Proof.
  intros H. destruct (ilog2_spec q H) as [S1 S2].
  apply ilog2_unique; now rewrite Qabs_opp.
Qed.

Lemma nearest_opp q : Binary64.nearest (- q) = neg (Binary64.nearest q).
Proof.
  destruct (Qeq_dec q 0) as [Z|NZ].
  - rewrite (nearest_zero q Z), nearest_zero; [reflexivity|].
    rewrite Z. reflexivity.
  - assert (NZ' : ~ (- q == 0)%Q) by (intros C; apply NZ; lra).
    rewrite (nearest_nonzero q NZ), (nearest_nonzero _ NZ'). cbv zeta.
    unfold Binary64.exponentOf. rewrite (ilog2_opp q NZ).
    fold (Binary64.exponentOf q). set (e := Binary64.exponentOf q).
    pose proof (pow2_pos e) as Pe.
    assert (Em : Binary64.roundHalfEven (- q / Binary64.pow2 e)
                 = - Binary64.roundHalfEven (q / Binary64.pow2 e)).
    { rewrite <- roundHalfEven_opp. apply roundHalfEven_comp. field. lra. }
    rewrite Em. set (m := Binary64.roundHalfEven (q / Binary64.pow2 e)).
    assert (Er : (inject_Z (- m) * Binary64.pow2 e
                  == - (inject_Z m * Binary64.pow2 e))%Q)
      by (rewrite inject_Z_opp; ring).
    rewrite (Qle_bool_comp _ (Binary64.pow2 1024) _
               (Qabs (inject_Z m * Binary64.pow2 e)) (Qeq_refl _))
      by (rewrite Er; apply Qabs_opp).
    assert (En : Qneg (- q) = negb (Qneg q)).
    { apply eq_true_iff_eq. rewrite negb_true_iff, <- not_true_iff_false.
      rewrite !Qneg_spec. split; intros C; lra. }
    destruct (Qle_bool _ _); cbn [neg]; [now rewrite En|].
    unfold fin. cbn [neg]. unfold fin. f_equal. apply Qred_complete.
    rewrite Er, Qred_correct. reflexivity.
Qed.

(** The value before the test for overflow. *)
Lemma nearest_cases q :
  ~ (q == 0)%Q ->
  let e := Binary64.exponentOf q in
  let r := (inject_Z (Binary64.roundHalfEven (q / Binary64.pow2 e))
            * Binary64.pow2 e)%Q in
  ((Binary64.pow2 1024 <= Qabs r)%Q /\ Binary64.nearest q = Inf (Qneg q))
  \/ ((Qabs r < Binary64.pow2 1024)%Q /\ Binary64.nearest q = fin r).
Proof.
  intros H e r. rewrite (nearest_nonzero q H). cbv zeta. fold e. fold r.
  destruct (Qle_bool (Binary64.pow2 1024) (Qabs r)) eqn:C.
  - left. apply Qle_bool_iff in C. now split.
  - right. split; [|reflexivity].
    apply Qnot_le_lt. rewrite <- Qle_bool_iff. congruence.
Qed.

Lemma Qabs_pow2_mul (m : Z) e :
  (Qabs (inject_Z m * Binary64.pow2 e)
   == inject_Z (Z.abs m) * Binary64.pow2 e)%Q.
Proof.
  rewrite Qabs_Qmult, (Qabs_pos (Binary64.pow2 e))
    by apply Qlt_le_weak, pow2_pos.
  reflexivity.
Qed.

Lemma representable_bound a :
  representable a -> (Qabs a < Binary64.pow2 1024)%Q.
Proof.
  intros (M & E & Ha & HM & HE). rewrite Ha, Qabs_pow2_mul.
  pose proof (pow2_pos E) as PE.
  assert (H1 : (inject_Z (Z.abs M) < Binary64.pow2 53)%Q).
  { rewrite pow2_Z by lia. now rewrite <- Zlt_Qlt. }
  assert (H2 : (Binary64.pow2 E <= Binary64.pow2 971)%Q)
    by (apply pow2_le; lia).
  assert (H3 : (Binary64.pow2 1024 == Binary64.pow2 53 * Binary64.pow2 971)%Q)
    by (rewrite <- pow2_add; reflexivity).
  rewrite H3. pose proof (pow2_pos 53). pose proof (pow2_pos 971).
  assert (0 <= inject_Z (Z.abs M))%Q
    by (change 0%Q with (inject_Z 0); rewrite <- Zle_Qle; lia).
  nra.
Qed.

(** Rounding does not pass a binary64 number. *)
Lemma nearest_rounded_le q a :
  representable a -> ~ (q == 0)%Q -> (q <= a)%Q ->
  let e := Binary64.exponentOf q in
  (inject_Z (Binary64.roundHalfEven (q / Binary64.pow2 e)) * Binary64.pow2 e
   <= a)%Q.
Proof.
  intros (M & E & Ha & HM & HE) NZ Hq e.
  destruct (exponentOf_spec q NZ) as (E1 & E2 & E3). fold e in E1, E2, E3.
  pose proof (pow2_pos e) as Pe.
  set (x := (q / Binary64.pow2 e)%Q).
  set (m := Binary64.roundHalfEven x).
  destruct (Z.le_gt_cases e E) as [L|L].
  - (* [a] is a multiple of the unit of [q] *)
    set (N := M * 2 ^ (E - e)).
    assert (EN : (a == inject_Z N * Binary64.pow2 e)%Q).
    { unfold N. rewrite inject_Z_mult, <- pow2_Z by lia.
      rewrite Ha. replace E with ((E - e) + e) at 1 by lia.
      rewrite pow2_add. ring. }
    assert (Hx : (x <= inject_Z N)%Q).
    { unfold x. apply Qle_shift_div_r; [exact Pe|]. now rewrite <- EN. }
    apply roundHalfEven_le in Hx. fold m in Hx.
    rewrite EN. apply Qmult_le_compat_r; [|lra]. now rewrite <- Zle_Qle.
  - destruct E3 as [E3|E3]; [lia|].
    assert (Ba : (Qabs a < Binary64.pow2 (e + 52))%Q).
    { rewrite Ha, Qabs_pow2_mul.
      assert (H1 : (inject_Z (Z.abs M) < Binary64.pow2 53)%Q).
      { rewrite pow2_Z by lia. now rewrite <- Zlt_Qlt. }
      assert (H2 : (Binary64.pow2 53 * Binary64.pow2 E
                    <= Binary64.pow2 (e + 52))%Q).
      { rewrite <- pow2_add. apply pow2_le. lia. }
      pose proof (pow2_pos E). pose proof (pow2_pos 53).
      assert (0 <= inject_Z (Z.abs M))%Q
        by (change 0%Q with (inject_Z 0); rewrite <- Zle_Qle; lia).
      nra. }
    pose proof (Qle_Qabs a) as A1.
    assert (A2 : (- Qabs a <= a)%Q).
    { pose proof (Qle_Qabs (- a)) as T. rewrite Qabs_opp in T. lra. }
    destruct (Qlt_le_dec q 0) as [Neg|Pos].
    + rewrite Qabs_neg in E3 by lra.
      assert (Hx : (x <= inject_Z (- 2 ^ 52))%Q).
      { unfold x. apply Qle_shift_div_r; [exact Pe|].
        rewrite inject_Z_opp, <- pow2_Z by lia.
        rewrite pow2_add in E3. lra. }
      apply roundHalfEven_le in Hx. fold m in Hx.
      assert (Hm : (inject_Z m <= inject_Z (- 2 ^ 52))%Q)
        by now rewrite <- Zle_Qle.
      rewrite inject_Z_opp, <- pow2_Z in Hm by lia.
      rewrite pow2_add in Ba. pose proof (pow2_pos 52).
      assert (inject_Z m * Binary64.pow2 e
              <= - Binary64.pow2 52 * Binary64.pow2 e)%Q
        by (apply Qmult_le_compat_r; lra).
      lra.
    + rewrite Qabs_pos in E3 by exact Pos. lra.
Qed.

Lemma nearest_upper q a :
  representable a -> (q <= a)%Q ->
  Binary64.nearest q = Inf true
  \/ exists r, Binary64.nearest q = Fin r /\ Qred r = r /\ (r <= a)%Q.
Proof.
  intros Ra Hq. destruct (Qeq_dec q 0) as [Z|NZ].
  - right. exists 0%Q. rewrite (nearest_zero q Z).
    split; [reflexivity|]. split; [reflexivity|]. lra.
  - pose proof (nearest_rounded_le q a Ra NZ Hq) as S. cbv zeta in S.
    destruct (nearest_cases q NZ) as [[O ->]|[F ->]]; cbv zeta in *.
    + destruct (Qneg q) eqn:N; [now left|exfalso].
      assert (Pos : (0 <= q)%Q).
      { destruct (Qlt_le_dec q 0) as [C|C]; [|exact C].
        apply Qneg_spec in C. congruence. }
      set (e := Binary64.exponentOf q) in *.
      pose proof (pow2_pos e) as Pe.
      assert (Hx : (inject_Z 0 <= q / Binary64.pow2 e)%Q).
      { apply Qle_shift_div_l; [exact Pe|]. change (inject_Z 0) with 0%Q. lra. }
      apply roundHalfEven_ge in Hx.
      set (m := Binary64.roundHalfEven (q / Binary64.pow2 e)) in *.
      assert (Hr : (0 <= inject_Z m * Binary64.pow2 e)%Q).
      { apply Qmult_le_0_compat; [|lra].
        change 0%Q with (inject_Z 0). now rewrite <- Zle_Qle. }
      rewrite Qabs_pos in O by exact Hr.
      pose proof (representable_bound a Ra) as Ba.
      pose proof (Qle_Qabs a). lra.
    + right. eexists. split; [reflexivity|].
      split; [apply Qred_Qred|]. now rewrite Qred_correct.
Qed.

Lemma representable_opp a : representable a -> representable (- a).
Proof.
  intros (M & E & Ha & HM & HE). exists (- M), E.
  split; [rewrite Ha, inject_Z_opp; ring|]. split; [lia|exact HE].
Qed.

Lemma nearest_shape q :
  (exists s, Binary64.nearest q = Inf s)
  \/ (exists r, Binary64.nearest q = Fin r /\ Qred r = r).
Proof.
  destruct (Qeq_dec q 0) as [Z|NZ].
  - right. exists 0%Q. now rewrite (nearest_zero q Z).
  - destruct (nearest_cases q NZ) as [[_ ->]|[_ ->]].
    + left. now eexists.
    + right. eexists. split; [reflexivity|apply Qred_Qred].
Qed.

Lemma nearest_lower q a :
  representable a -> (a <= q)%Q ->
  Binary64.nearest q = Inf false
  \/ exists r, Binary64.nearest q = Fin r /\ Qred r = r /\ (a <= r)%Q.
Proof.
  intros Ra Hq.
  assert (Hq' : (- q <= - a)%Q) by lra.
  pose proof (nearest_upper (- q) (- a) (representable_opp a Ra) Hq') as H.
  rewrite nearest_opp in H.
  destruct (nearest_shape q) as [[s E]|(r & E & Hr)]; rewrite E in H |- *.
  - destruct H as [H|(r & H & _)]; [|discriminate].
    left. destruct s; [discriminate|reflexivity].
  - right. exists r. split; [reflexivity|]. split; [exact Hr|].
    destruct H as [H|(r' & H & _ & H')]; [discriminate|].
    cbn [neg] in H. unfold fin in H. injection H as <-.
    rewrite Qred_correct in H'. lra.
Qed.

Lemma nearest_between q a b :
  representable a -> representable b -> (a <= q)%Q -> (q <= b)%Q ->
  exists r,
    Binary64.nearest q = Fin r /\ Qred r = r /\ (a <= r)%Q /\ (r <= b)%Q.
Proof.
  intros Ra Rb Ha Hb.
  destruct (nearest_lower q a Ra Ha) as [L|(r & E & Hr & L)];
    destruct (nearest_upper q b Rb Hb) as [U|(r' & E' & _ & U)];
    try congruence.
  exists r. rewrite E in E'. injection E' as <-. repeat split; assumption.
Qed.

(** A binary64 number is its own rounding. *)
Lemma nearest_representable a : representable a -> Binary64.nearest a = fin a.
Proof.
  intros Ra.
  destruct (nearest_between a a a Ra Ra (Qle_refl _) (Qle_refl _))
    as (r & -> & Hr & L & U).
  unfold fin. f_equal. rewrite <- Hr. apply Qred_complete. lra.
Qed.

Lemma representable_Z (z : Z) : Z.abs z <= 2 ^ 53 -> representable (inject_Z z).
Proof.
  intros H. destruct (Z.eq_dec (Z.abs z) (2 ^ 53)) as [E|NE].
  - exists (z / 2), 1. split; [|split; [|lia]].
    + assert (z = (z / 2) * 2) as E2.
      { assert (z = 2 ^ 53 \/ z = - 2 ^ 53) as [-> | ->] by lia; reflexivity. }
      rewrite E2 at 1. rewrite inject_Z_mult. reflexivity.
    + assert (z = 2 ^ 53 \/ z = - 2 ^ 53) as [-> | ->] by lia; reflexivity.
  - exists z, 0. split; [|split; [lia|lia]].
    change (Binary64.pow2 0) with 1%Q. ring.
Qed.

Lemma nearest_Z (z : Z) :
  Z.abs z <= 2 ^ 53 -> Binary64.nearest (inject_Z z) = Fin (inject_Z z).
Proof.
  intros H. rewrite (nearest_representable _ (representable_Z z H)).
  unfold fin. f_equal. apply Qcanon.Qred_identity. simpl. apply Z.gcd_1_r.
Qed.

(** A multiple of [2 ^ - j] with fewer than 53 bits. *)
Lemma representable_dyadic (k : Z) (j : Z) :
  Z.abs k < 2 ^ 53 -> 0 <= j <= 1074 ->
  representable (inject_Z k / Binary64.pow2 j).
Proof.
  intros Hk Hj. exists k, (- j). split; [|split; [exact Hk|lia]].
  pose proof (pow2_pos j). pose proof (pow2_add j (- j)) as E.
  replace (j + - j) with 0 in E by lia. change (Binary64.pow2 0) with 1%Q in E.
  field_simplify_eq; [|lra]. rewrite <- Qmult_assoc, <- E. ring.
Qed.

(** What rounding returns is a binary64 number. *)
Lemma nearest_is_representable q r :
  Binary64.nearest q = Fin r -> representable r.
Proof.
  intros H. destruct (Qeq_dec q 0) as [Z|NZ].
  - rewrite (nearest_zero q Z) in H. injection H as <-.
    apply (representable_Z 0). lia.
  - destruct (exponentOf_spec q NZ) as (E1 & E2 & E3).
    destruct (nearest_cases q NZ) as [[_ E]|[F E]]; rewrite E in H;
      [discriminate|]. cbv zeta in *.
    set (e := Binary64.exponentOf q) in *.
    set (x := (q / Binary64.pow2 e)%Q) in *.
    set (m := Binary64.roundHalfEven x) in *.
    injection H as <-.
    pose proof (pow2_pos e) as Pe.
    assert (P53 : (Binary64.pow2 (e + 53)
                   == Binary64.pow2 53 * Binary64.pow2 e)%Q)
      by (rewrite Z.add_comm; apply pow2_add).
    assert (P52 : (Binary64.pow2 (e + 52)
                   == Binary64.pow2 52 * Binary64.pow2 e)%Q)
      by (rewrite Z.add_comm; apply pow2_add).
    assert (Aq : (- Qabs q <= q)%Q /\ (q <= Qabs q)%Q).
    { split; [|apply Qle_Qabs].
      pose proof (Qle_Qabs (- q)) as T. rewrite Qabs_opp in T. lra. }
    destruct Aq as [Aq1 Aq2].
    assert (Hm1 : m <= 2 ^ 53).
    { apply roundHalfEven_le. unfold x.
      apply Qle_shift_div_r; [exact Pe|]. rewrite <- pow2_Z by lia. lra. }
    assert (Hm2 : - 2 ^ 53 <= m).
    { apply roundHalfEven_ge. unfold x.
      apply Qle_shift_div_l; [exact Pe|].
      rewrite inject_Z_opp, <- pow2_Z by lia. lra. }
    rewrite Qabs_pow2_mul in F.
    assert (Top : forall k : Z, 0 < k -> k <= Z.abs m ->
               (inject_Z k * Binary64.pow2 e < Binary64.pow2 1024)%Q).
    { intros k _ Hk. apply (Qle_lt_trans _ (inject_Z (Z.abs m) * Binary64.pow2 e));
        [|exact F].
      apply Qmult_le_compat_r; [|lra]. now rewrite <- Zle_Qle. }
    assert (Big : 2 ^ 52 <= Z.abs m \/ e = -1074).
    { destruct E3 as [E3|E3]; [now right|left].
      destruct (Qlt_le_dec q 0) as [Neg|Pos].
      - rewrite Qabs_neg in E3 by lra.
        assert (Hx : (x <= inject_Z (- 2 ^ 52))%Q).
        { unfold x. apply Qle_shift_div_r; [exact Pe|].
          rewrite inject_Z_opp, <- pow2_Z by lia. lra. }
        apply roundHalfEven_le in Hx. fold m in Hx. lia.
      - rewrite Qabs_pos in E3 by exact Pos.
        assert (Hx : (inject_Z (2 ^ 52) <= x)%Q).
        { unfold x. apply Qle_shift_div_l; [exact Pe|].
          rewrite <- pow2_Z by lia. lra. }
        apply roundHalfEven_ge in Hx. fold m in Hx. lia. }
    destruct (Z.eq_dec (Z.abs m) (2 ^ 53)) as [E53|N53].
    + (* a carry: the value is a power of two *)
      exists (m / 2), (e + 1). split; [|split].
      * rewrite Qred_correct.
        assert (m = (m / 2) * 2) as Eh.
        { assert (m = 2 ^ 53 \/ m = - 2 ^ 53) as [-> | ->] by lia;
            reflexivity. }
        rewrite Eh at 1. rewrite inject_Z_mult, pow2_add.
        change (Binary64.pow2 1) with (inject_Z 2). ring.
      * assert (m = 2 ^ 53 \/ m = - 2 ^ 53) as [-> | ->] by lia; reflexivity.
      * split; [lia|].
        destruct (Z.le_gt_cases (e + 1) 971) as [L|L]; [exact L|exfalso].
        pose proof (Top (2 ^ 53) ltac:(lia) ltac:(lia)) as T.
        rewrite <- pow2_Z, <- P53 in T by lia. apply pow2_lt_inv in T. lia.
    + exists m, e. split; [apply Qred_correct|]. split; [lia|].
      split; [exact E1|].
      destruct (Z.le_gt_cases e 971) as [L|L]; [exact L|exfalso].
      destruct Big as [Big|Big]; [|lia].
      pose proof (Top (2 ^ 52) ltac:(lia) Big) as T.
      rewrite <- pow2_Z, <- P52 in T by lia. apply pow2_lt_inv in T. lia.
Qed.

Lemma nearest_idempotent q r :
  Binary64.nearest q = Fin r -> Binary64.nearest r = Fin r.
Proof.
  intros H. pose proof (nearest_is_representable q r H) as R.
  rewrite (nearest_representable r R). unfold fin. f_equal.
  destruct (nearest_shape q) as [[s E]|(r' & E & Hr)]; rewrite E in H;
    [discriminate|].
  now injection H as <-.
Qed.

Lemma number_idempotent x :
  Binary64.number (Binary64.number x) = Binary64.number x.
Proof.
  destruct x as [|s|q]; try reflexivity. cbn [Binary64.number].
  destruct (Binary64.nearest q) as [|s|r] eqn:E; try reflexivity.
  cbn [Binary64.number]. now apply (nearest_idempotent q).
Qed.

(** The error of rounding a number of magnitude at most [2 ^ J]. *)
Lemma nearest_error q (J : Z) :
  -1022 <= J <= 1023 -> (Qabs q <= Binary64.pow2 J)%Q ->
  exists r,
    Binary64.nearest q = Fin r /\ Qred r = r
    /\ (Qabs (r - q) <= Binary64.pow2 (J - 52))%Q.
Proof.
  intros HJ Hq. set (u := Binary64.pow2 (J - 52)).
  assert (Pu : (0 < u)%Q) by apply pow2_pos.
  assert (EJ : (Binary64.pow2 J == Binary64.pow2 52 * u)%Q).
  { unfold u. replace J with (52 + (J - 52)) at 1 by lia.
    apply pow2_add. }
  set (k := Qfloor (q / u)).
  pose proof (Qfloor_le (q / u)) as K1. pose proof (Qlt_floor (q / u)) as K2.
  fold k in K1, K2. rewrite inject_Z_plus in K2.
  change (inject_Z 1) with 1%Q in K2.
  assert (Aq : (- Qabs q <= q)%Q /\ (q <= Qabs q)%Q).
  { split; [|apply Qle_Qabs].
    pose proof (Qle_Qabs (- q)) as T. rewrite Qabs_opp in T. lra. }
  destruct Aq as [Aq1 Aq2].
  assert (Q1 : (q / u <= inject_Z (2 ^ 52))%Q)
    by (apply Qle_shift_div_r; [exact Pu|rewrite <- pow2_Z by lia; lra]).
  assert (Q2 : (inject_Z (- 2 ^ 52) <= q / u)%Q)
    by (apply Qle_shift_div_l;
        [exact Pu|rewrite inject_Z_opp, <- pow2_Z by lia; lra]).
  assert (Hk1 : k <= 2 ^ 52).
  { rewrite Zle_Qle. apply (Qle_trans _ _ _ K1 Q1). }
  assert (Hk2 : - 2 ^ 52 <= k).
  { unfold k. rewrite <- (Qfloor_Z (- 2 ^ 52)). now apply Qfloor_resp_le. }
  assert (Hqu : (q == q / u * u)%Q) by (field; lra).
  assert (Ra : representable (inject_Z k * u)).
  { exists k, (J - 52). split; [reflexivity|]. split; lia. }
  assert (Rb : representable (inject_Z (k + 1) * u)).
  { exists (k + 1), (J - 52). split; [reflexivity|]. split; lia. }
  assert (La : (inject_Z k * u <= q)%Q).
  { apply (Qle_trans _ (q / u * u)); [|rewrite <- Hqu; apply Qle_refl].
    apply Qmult_le_compat_r; lra. }
  assert (Lb : (q <= inject_Z (k + 1) * u)%Q).
  { apply (Qle_trans _ (q / u * u)); [rewrite <- Hqu; apply Qle_refl|].
    rewrite inject_Z_plus. change (inject_Z 1) with 1%Q.
    apply Qmult_le_compat_r; lra. }
  destruct (nearest_between q _ _ Ra Rb La Lb) as (r & E & Hr & L & U).
  exists r. split; [exact E|]. split; [exact Hr|].
  rewrite inject_Z_plus in U, Lb. change (inject_Z 1) with 1%Q in U, Lb.
  apply Qabs_Qle_condition. lra.
Qed.

(** ** Binary64 numbers *)

Lemma binary64_number x : binary64 (Binary64.number x).
Proof. apply number_idempotent. Qed.

Lemma binary64_reduced q : binary64 (Fin q) -> Qred q = q.
Proof.
  intros H. change (Binary64.nearest q = Fin q) in H.
  destruct (nearest_shape q) as [[s E]|(r & E & Hr)]; rewrite E in H;
    [discriminate|].
  now injection H as <-.
Qed.

Lemma binary64_representable q : binary64 (Fin q) -> representable q.
Proof. intros H. now apply (nearest_is_representable q). Qed.

Lemma binary64_opp q : binary64 (Fin q) -> binary64 (Fin (- q)).
Proof.
  intros H. pose proof (binary64_reduced q H) as R.
  change (Binary64.nearest q = Fin q) in H.
  change (Binary64.nearest (- q) = Fin (- q)).
  rewrite nearest_opp, H. cbn [neg]. unfold fin.
  now rewrite Qred_opp, R.
Qed.

Lemma binary64_Z (z : Z) : Z.abs z <= 2 ^ 53 -> binary64 (Fin (inject_Z z)).
Proof. intros H. now apply nearest_Z. Qed.

(** A binary64 number is a decimal fraction. *)
Lemma pow2_decimal e : decimalQ (Binary64.pow2 e).
Proof.
  destruct (Z.le_gt_cases 0 e) as [L|L].
  - exists (2 ^ e), 0. rewrite pow2_Z by exact L.
    change (pow10 0) with 1%Q. ring.
  - exists (5 ^ (- e)), e.
    assert (E5 : (inject_Z (5 ^ (- e)) == Qpower 5 (- e))%Q)
      by (rewrite Zpower_Qpower by lia; reflexivity).
    assert (E10 : (pow10 e == Qpower 2 e * Qpower 5 e)%Q).
    { unfold pow10. rewrite <- Qmult_power. reflexivity. }
    rewrite E5, E10. unfold Binary64.pow2.
    rewrite Qpower_opp.
    assert (P : (0 < Qpower 5 e)%Q) by (apply Qpower_0_lt; reflexivity).
    field. lra.
Qed.

Lemma representable_decimal a : representable a -> decimalQ a.
Proof.
  intros (m & e & H & _). destruct (pow2_decimal e) as (k & j & E).
  exists (m * k), j. rewrite H, E, inject_Z_mult. ring.
Qed.

(** ** Printing a binary64 number and reading it back *)

Lemma shortestWith_spec p n k d :
  Binary64.shortestWith p n k = Some d ->
  decimalQ d /\ eqn (Binary64.nearest d) (Fin p) = true.
Proof.
  unfold Binary64.shortestWith.
  set (unit := pow10 (n - k)). set (s := Qfloor (p / unit)).
  set (lo := (inject_Z s * unit)%Q). set (hi := (inject_Z (s + 1) * unit)%Q).
  assert (Dlo : decimalQ lo) by (eexists _, _; reflexivity).
  assert (Dhi : decimalQ hi) by (eexists _, _; reflexivity).
  destruct (eqn (Binary64.nearest lo) (Fin p)) eqn:Elo;
    destruct (eqn (Binary64.nearest hi) (Fin p)) eqn:Ehi; cbn [andb].
  - destruct (p - lo ?= hi - p)%Q; [destruct (Z.even s)| |];
      intros [= <-]; now split.
  - intros [= <-]; now split.
  - intros [= <-]; now split.
  - discriminate.
Qed.

Lemma shortestFrom_spec fuel p n k :
  Binary64.shortestFrom fuel p n k = p
  \/ (decimalQ (Binary64.shortestFrom fuel p n k)
      /\ eqn (Binary64.nearest (Binary64.shortestFrom fuel p n k)) (Fin p)
         = true).
Proof.
  revert k. induction fuel as [|fuel IH]; intros k; [now left|].
  cbn [Binary64.shortestFrom].
  destruct (Binary64.shortestWith p n k) as [d|] eqn:E; [|apply IH].
  right. now apply (shortestWith_spec p n k).
Qed.

Lemma shortest_spec p :
  binary64 (Fin p) ->
  decimalQ (Binary64.shortest p)
  /\ Binary64.nearest (Binary64.shortest p) = Fin p.
Proof.
  intros H. unfold Binary64.shortest.
  destruct (shortestFrom_spec 17 p (Binary64.decimalPoint p) 1)
    as [->|[D E]].
  - split; [|exact H]. now apply representable_decimal, binary64_representable.
  - split; [exact D|].
    destruct (nearest_shape (Binary64.shortestFrom 17 p (Binary64.decimalPoint p) 1))
      as [[s E']|(r & E' & Hr)]; rewrite E' in E |- *; [discriminate|].
    apply eqn_Fin in E. f_equal.
    rewrite <- Hr, <- (binary64_reduced p H). now apply Qred_complete.
Qed.

Lemma printed_spec q :
  binary64 (Fin q) ->
  decimalQ (printed q) /\ Binary64.nearest (printed q) = Fin q.
Proof.
  intros H. unfold printed. destruct (Qneg q).
  - destruct (shortest_spec (- q) (binary64_opp q H)) as [D E]. split.
    + now apply decimalQ_opp.
    + rewrite nearest_opp, E. cbn [neg]. unfold fin. f_equal.
      rewrite <- (binary64_reduced q H) at 2. apply Qred_complete. ring.
  - now apply shortest_spec.
Qed.

Lemma toString64_Fin q :
  Qis0 q = false ->
  Binary64.toString (Fin q) = toString (fin (printed q)).
Proof. intros H. unfold Binary64.toString, printed. now rewrite H. Qed.

Lemma toString64_plain x : plainText (Binary64.toString x) = true.
Proof.
  destruct x as [|s|q]; try apply toString_plain.
  unfold Binary64.toString. destruct (Qis0 q); [reflexivity|].
  apply toString_plain.
Qed.

Lemma toString64_nonempty x : isEmpty (Binary64.toString x) = false.
Proof.
  destruct x as [|s|q]; try apply toString_nonempty.
  unfold Binary64.toString. destruct (Qis0 q); [reflexivity|].
  apply toString_nonempty.
Qed.

Lemma binary64_zero q : binary64 (Fin q) -> Qis0 q = true -> q = 0%Q.
Proof.
  intros H Z. apply Qis0_spec in Z.
  rewrite <- (binary64_reduced q H). now apply Qred_0.
Qed.

Lemma number_fin q : Binary64.number (fin q) = Binary64.nearest q.
Proof. cbn [Binary64.number fin]. apply nearest_comp, Qred_correct. Qed.

Lemma parseFloat_toString64 x :
  binary64 x -> Binary64.parseFloat (Binary64.toString x) = x.
Proof.
  intros H. destruct x as [|[]|q]; try reflexivity.
  destruct (Qis0 q) eqn:Z.
  - rewrite (binary64_zero q H Z). reflexivity.
  - rewrite (toString64_Fin q Z). unfold Binary64.parseFloat.
    destruct (printed_spec q H) as [D E].
    rewrite parseFloat_toString by now apply decimalNum_fin.
    now rewrite number_fin.
Qed.

Lemma Number_toString64 x :
  binary64 x -> Binary64.Number_ (Binary64.toString x) = x.
Proof.
  intros H. destruct x as [|[]|q]; try reflexivity.
  destruct (Qis0 q) eqn:Z.
  - rewrite (binary64_zero q H Z). reflexivity.
  - rewrite (toString64_Fin q Z). unfold Binary64.Number_.
    destruct (printed_spec q H) as [D E].
    rewrite Number_toString by now apply decimalNum_fin.
    now rewrite number_fin.
Qed.

(** ** [Number(x.toFixed(f))] in binary64 *)

Lemma Number_toFixed64 x f :
  binary64 x -> Binary64.Number_ (Binary64.toFixed x f) = roundTo64 f x.
Proof.
  intros H. destruct x as [|[]|q]; try reflexivity.
  unfold Binary64.toFixed, roundTo64, roundTo, isHuge.
  destruct (Qle_bool (pow10 21) (Qabs q)) eqn:Hh.
  - rewrite (Number_toString64 _ H). symmetry. exact H.
  - unfold Binary64.Number_. now rewrite Number_toFixed.
Qed.

Lemma binary64_parseFloatAt values i :
  binary64 (Binary64.parseFloatAt values i).
Proof.
  unfold Binary64.parseFloatAt. destruct (at_ values i); [|reflexivity].
  apply binary64_number.
Qed.

Lemma binary64_mul x y : binary64 (Binary64.mul x y).
Proof. apply binary64_number. Qed.

Lemma binary64_div x y : binary64 (Binary64.div x y).
Proof. apply binary64_number. Qed.

(** A number that is nearer than half a unit of the last decimal to a
    decimal with [f] decimals is rounded to it. *)
Lemma roundedQ_near (f : nat) x (k : Z) :
  (Qabs (x - inject_Z k * pow10 (- Z.of_nat f))
   < (1 # 2) * pow10 (- Z.of_nat f))%Q ->
  (roundedQ f x == inject_Z k * pow10 (- Z.of_nat f))%Q.
Proof.
  intros H. apply Qabs_Qlt_condition in H as [H1 H2].
  pose proof (pow10_pos (Z.of_nat f)) as Pp.
  pose proof (pow10_pos (- Z.of_nat f)) as Pn.
  assert (P : (pow10 (- Z.of_nat f) * pow10 (Z.of_nat f) == 1)%Q).
  { rewrite <- pow10_add. replace (- Z.of_nat f + Z.of_nat f) with 0 by lia.
    reflexivity. }
  set (u := pow10 (- Z.of_nat f)) in *. set (t := pow10 (Z.of_nat f)) in *.
  assert (Ht : forall y, (y * u * t == y)%Q)
    by (intros y; rewrite <- Qmult_assoc, P; ring).
  unfold roundedQ. fold t u. unfold roundHalfUp.
  destruct (Qneg x) eqn:N.
  - apply Qneg_spec in N. rewrite Qabs_neg by lra.
    assert (F : Qfloor (- x * t + (1 # 2)) = - k).
    { assert (L : (inject_Z (- k) <= - x * t + (1 # 2))%Q).
      { rewrite inject_Z_opp.
        assert ((x - inject_Z k * u) * t <= (1 # 2) * u * t)%Q
          by (apply Qmult_le_compat_r; lra).
        rewrite Ht in H. 
        assert ((x - inject_Z k * u) * t == x * t - inject_Z k * u * t)%Q
          as E by ring.
        rewrite E, Ht in H. lra. }
      assert (U : (- x * t + (1 # 2) < inject_Z (- k + 1))%Q).
      { rewrite inject_Z_plus, inject_Z_opp. change (inject_Z 1) with 1%Q.
        assert (- ((1 # 2) * u) * t < (x - inject_Z k * u) * t)%Q
          by (apply Qmult_lt_compat_r; lra).
        assert ((x - inject_Z k * u) * t == x * t - inject_Z k * u * t)%Q
          as E by ring.
        assert (- ((1 # 2) * u) * t == - ((1 # 2) * u * t))%Q as E' by ring.
        rewrite E, E', !Ht in H. lra. }
      pose proof (Qfloor_le (- x * t + (1 # 2))) as F1.
      pose proof (Qlt_floor (- x * t + (1 # 2))) as F2.
      set (n := Qfloor (- x * t + (1 # 2))) in *.
      assert (A : (inject_Z n < inject_Z (- k + 1))%Q) by lra.
      assert (B : (inject_Z (- k) < inject_Z (n + 1))%Q) by lra.
      rewrite <- Zlt_Qlt in A, B. lia. }
    rewrite F, inject_Z_opp. ring.
  - assert (Pos : (0 <= x)%Q).
    { destruct (Qlt_le_dec x 0) as [C|C]; [|exact C].
      apply Qneg_spec in C. congruence. }
    rewrite Qabs_pos by exact Pos.
    assert (F : Qfloor (x * t + (1 # 2)) = k).
    { assert (L : (inject_Z k <= x * t + (1 # 2))%Q).
      { assert (- ((1 # 2) * u) * t < (x - inject_Z k * u) * t)%Q
          by (apply Qmult_lt_compat_r; lra).
        assert ((x - inject_Z k * u) * t == x * t - inject_Z k * u * t)%Q
          as E by ring.
        assert (- ((1 # 2) * u) * t == - ((1 # 2) * u * t))%Q as E' by ring.
        rewrite E, E', !Ht in H. lra. }
      assert (U : (x * t + (1 # 2) < inject_Z (k + 1))%Q).
      { rewrite inject_Z_plus. change (inject_Z 1) with 1%Q.
        assert ((x - inject_Z k * u) * t < (1 # 2) * u * t)%Q
          by (apply Qmult_lt_compat_r; lra).
        assert ((x - inject_Z k * u) * t == x * t - inject_Z k * u * t)%Q
          as E by ring.
        rewrite E, !Ht in H. lra. }
      pose proof (Qfloor_le (x * t + (1 # 2))) as F1.
      pose proof (Qlt_floor (x * t + (1 # 2))) as F2.
      set (n := Qfloor (x * t + (1 # 2))) in *.
      assert (A : (inject_Z n < inject_Z (k + 1))%Q) by lra.
      assert (B : (inject_Z k < inject_Z (n + 1))%Q) by lra.
      rewrite <- Zlt_Qlt in A, B. lia. }
    rewrite F. reflexivity.
Qed.

(** ** The success rate that a row stores, in binary64 *)

Lemma parseFloatAt64 values i :
  Binary64.parseFloatAt values i = Binary64.number (parseFloatAt values i).
Proof.
  unfold Binary64.parseFloatAt, parseFloatAt.
  now destruct (at_ values i).
Qed.

Lemma isNaN_number x : isNaN (Binary64.number x) = isNaN x.
Proof.
  destruct x as [|s|q]; try reflexivity. cbn [Binary64.number].
  destruct (nearest_shape q) as [[s ->]|(r & -> & _)]; reflexivity.
Qed.

Lemma binary64_normalizedRate64 v : binary64 v -> binary64 (normalizedRate64 v).
Proof.
  intros H. unfold normalizedRate64. destruct (le v (Fin 1)); [|exact H].
  apply binary64_mul.
Qed.

Lemma shopifyRow64_rate i j k l line r :
  Binary64.shopifyRow i j k l line = Some r ->
  isNaN (Binary64.parseFloatAt (valuesOf line) k) = false
  /\ ShopifyData.successRate r
     = roundTo64 2 (normalizedRate64 (Binary64.parseFloatAt (valuesOf line) k)).
Proof.
  unfold Binary64.shopifyRow.
  destruct (length (valuesOf line) <? 2)%nat; [discriminate|].
  destruct (at_ (valuesOf line) i) as [id|]; [|discriminate].
  destruct (negb (isEmpty id)); [|discriminate].
  pose proof (binary64_parseFloatAt (valuesOf line) k) as Hd.
  destruct (isNaN (Binary64.parseFloatAt (valuesOf line) k)) eqn:N;
    [discriminate|].
  cbn [negb andb]. intros [= <-]. split; [reflexivity|].
  cbn [ShopifyData.successRate].
  fold (normalizedRate64 (Binary64.parseFloatAt (valuesOf line) k)).
  apply Number_toFixed64. now apply binary64_normalizedRate64.
Qed.

Lemma normalizedRate64_gt v :
  isNaN v = false ->
  normalizedRate64 v = if gt v (Fin 1) then v else Binary64.mul v (Fin 100).
Proof.
  intros N. unfold normalizedRate64.
  rewrite gt_negb_le by (exact N || reflexivity).
  now destruct (le _ _).
Qed.

Lemma V7_shopifyRow64_rate i j k l line r :
  Binary64.V7.shopifyRow i j k l line = Some r ->
  ShopifyData.successRate r
  = normalizedRate64 (Binary64.parseFloatAt (valuesOf line) k).
Proof.
  unfold Binary64.V7.shopifyRow.
  destruct (length (valuesOf line) <? 2)%nat; [discriminate|].
  destruct (at_ (valuesOf line) i) as [id|]; [|discriminate].
  destruct (negb (isEmpty id)); [|discriminate].
  destruct (isNaN (Binary64.parseFloatAt (valuesOf line) k)) eqn:N;
    [discriminate|].
  intros H. injection H as <-.
  rewrite normalizedRate64_gt by exact N. reflexivity.
Qed.

Lemma Qabs_le_iff x y : (Qabs x <= y)%Q <-> (- y <= x)%Q /\ (x <= y)%Q.
Proof. apply Qabs_Qle_condition. Qed.

(** A cell above 1 with at most two decimals is stored as it parses. *)
Lemma two_decimals_kept (z : Z) q :
  100 < z <= 10 ^ 15 -> (q == z # 100)%Q ->
  normalizedRate64 (Binary64.nearest q) = Binary64.nearest q
  /\ roundTo64 2 (Binary64.nearest q) = Binary64.nearest q.
Proof.
  intros Hz Eq.
  assert (Q1 : (101 # 100 <= q)%Q).
  { rewrite Eq. unfold Qle. simpl. lia. }
  assert (Q2 : (q <= inject_Z (10 ^ 13))%Q).
  { rewrite Eq. unfold Qle, inject_Z. cbn [Qnum Qden]. lia. }
  destruct (nearest_error q 44 ltac:(lia)) as (r & E & Hr & Err).
  { rewrite Qabs_pos by lra.
    apply (Qle_trans _ _ _ Q2). vm_compute. discriminate. }
  change (Binary64.pow2 (44 - 52)) with (1 # 256)%Q in Err.
  apply Qabs_le_iff in Err as [Er1 Er2].
  destruct (nearest_lower q (inject_Z 129 / Binary64.pow2 7))
    as [C|(r' & E' & _ & L)].
  { apply representable_dyadic; [reflexivity|lia]. }
  { change (inject_Z 129 / Binary64.pow2 7)%Q with (129 # 128)%Q.
    apply (Qle_trans _ (101 # 100)); [discriminate|exact Q1]. }
  { congruence. }
  rewrite E in E'. injection E' as <-.
  change (inject_Z 129 / Binary64.pow2 7)%Q with (129 # 128)%Q in L.
  rewrite E. split.
  - unfold normalizedRate64.
    assert (N : le (Fin r) (Fin 1) = false).
    { apply not_true_iff_false. rewrite le_Fin. lra. }
    now rewrite N.
  - unfold roundTo64, roundTo.
    assert (H : isHuge r = false).
    { apply (not_huge_le r (10 ^ 13 + 1)); [lra| |reflexivity].
      rewrite inject_Z_plus. change (inject_Z 1) with 1%Q. lra. }
    rewrite H, number_fin, <- E. apply nearest_comp.
    rewrite (roundedQ_near 2 r z).
    + rewrite Eq. change (pow10 (- Z.of_nat 2)) with (1 # 100)%Q.
      unfold Qeq, Qmult, inject_Z. cbn [Qnum Qden]. lia.
    + change (pow10 (- Z.of_nat 2)) with (1 # 100)%Q.
      assert (Ez : (inject_Z z * (1 # 100) == q)%Q).
      { rewrite Eq. unfold Qeq, Qmult, inject_Z. cbn [Qnum Qden]. lia. }
      rewrite Ez. apply Qabs_Qlt_condition. lra.
Qed.

(** A fraction from 0 to 1 with at most two decimals is stored as its
    percentage. *)
Lemma two_decimals_scaled (z : Z) q :
  0 <= z <= 100 -> (q == z # 100)%Q ->
  roundTo64 2 (normalizedRate64 (Binary64.nearest q)) = Fin (inject_Z z).
Proof.
  intros Hz Eq.
  assert (Q1 : (0 <= q)%Q) by (rewrite Eq; unfold Qle; simpl; lia).
  assert (Q2 : (q <= 1)%Q) by (rewrite Eq; unfold Qle; simpl; lia).
  destruct (nearest_error q 0 ltac:(lia)) as (r & E & Hr & Err).
  { rewrite Qabs_pos by lra. exact Q2. }
  change (Binary64.pow2 (0 - 52)) with (1 # 4503599627370496)%Q in Err.
  apply Qabs_le_iff in Err as [Er1 Er2].
  destruct (nearest_between q (inject_Z 0) (inject_Z 1))
    as (r' & E' & _ & L & U);
    [apply representable_Z; lia|apply representable_Z; lia
    |exact Q1|exact Q2|].
  rewrite E in E'. injection E' as <-.
  change (inject_Z 0) with 0%Q in L. change (inject_Z 1) with 1%Q in U.
  rewrite E. unfold normalizedRate64.
  assert (N : le (Fin r) (Fin 1) = true) by now apply le_Fin.
  rewrite N. unfold Binary64.mul. cbn [mul]. rewrite number_fin.
  destruct (nearest_error (r * 100) 7 ltac:(lia)) as (r2 & E2 & Hr2 & Err2).
  { rewrite Qabs_pos by lra. change (Binary64.pow2 7) with 128%Q. lra. }
  change (Binary64.pow2 (7 - 52)) with (1 # 35184372088832)%Q in Err2.
  apply Qabs_le_iff in Err2 as [Er3 Er4].
  destruct (nearest_between (r * 100) (inject_Z 0) (inject_Z 100))
    as (r2' & E2' & _ & L2 & U2);
    [apply representable_Z; lia|apply representable_Z; lia
    |change (inject_Z 0) with 0%Q; lra
    |change (inject_Z 100) with 100%Q; lra|].
  rewrite E2 in E2'. injection E2' as <-.
  change (inject_Z 0) with 0%Q in L2.
  rewrite E2. unfold roundTo64, roundTo.
  assert (H : isHuge r2 = false)
    by (apply (not_huge_le r2 100); [exact L2|exact U2|reflexivity]).
  rewrite H, number_fin, <- (nearest_Z z) by lia. apply nearest_comp.
  assert (Ez : (inject_Z z == q * 100)%Q).
  { rewrite Eq. unfold Qeq, Qmult, inject_Z. cbn [Qnum Qden]. lia. }
  rewrite (roundedQ_near 2 r2 (100 * z)).
  - change (pow10 (- Z.of_nat 2)) with (1 # 100)%Q.
    rewrite inject_Z_mult. change (inject_Z 100) with 100%Q. field.
  - change (pow10 (- Z.of_nat 2)) with (1 # 100)%Q.
    rewrite inject_Z_mult. change (inject_Z 100) with 100%Q.
    apply Qabs_Qlt_condition. lra.
Qed.

(** C2 as stated fails in SessionAnalyzer.tsx: the cell 1.234 is above 1
    and is stored as 1.23. *)
Lemma successRate_stored_rounded :
  Binary64.Main.parseShopifyCSV roundedRateCSV
  = Ok [ShopifyData.mk "s" None (Binary64.nearest (123 # 100)) None]
  /\ Binary64.parseFloat "1.234" = Binary64.nearest (1234 # 1000)
  /\ gt (Binary64.nearest (1234 # 1000)) (Fin 1) = true
  /\ Binary64.nearest (123 # 100) <> Binary64.nearest (1234 # 1000).
Proof.
  split; [vm_compute; reflexivity|]. split; [vm_compute; reflexivity|].
  split; [vm_compute; reflexivity|vm_compute; discriminate].
Qed.

(** C2, as the code has it, in binary64.  For a row that is accepted,
    with [v] the number its success-rate cell parses to:
    SessionAnalyzer.tsx and part_006 store [v * 100] when [v <= 1] and
    [v] when [v > 1], rounded to two decimals; part_007 stores that value
    unrounded.  When the cell is a decimal with at most two decimals, a
    fraction from 0 to 1 is stored as its percentage and a value above
    1 and up to [10 ^ 13] is stored as it parses; [v = 1] is stored as
    100.  Other cells are stored as the arithmetic rounds them: the
    cell 1.005 parses to a number below 1.005 and is stored as 1, and
    part_007 stores the cell 0.07 as 7.000000000000001. *)
Theorem successRate_normalization i j k l line :
  let v := Binary64.parseFloatAt (valuesOf line) k in
  (forall r, Binary64.shopifyRow i j k l line = Some r ->
     ShopifyData.successRate r = roundTo64 2 (normalizedRate64 v))
  /\ (forall r, Binary64.V7.shopifyRow i j k l line = Some r ->
        ShopifyData.successRate r = normalizedRate64 v)
  /\ (forall (z : Z) q,
        parseFloatAt (valuesOf line) k = Fin q -> (q == z # 100)%Q ->
        (0 <= z <= 100 ->
         roundTo64 2 (normalizedRate64 v) = Fin (inject_Z z))
        /\ (100 < z <= 10 ^ 15 ->
            normalizedRate64 v = v /\ roundTo64 2 (normalizedRate64 v) = v))
  /\ (v = Fin 1 ->
      normalizedRate64 v = Fin 100
      /\ roundTo64 2 (normalizedRate64 v) = Fin 100)
  /\ Binary64.shopifyRow 0 (-1) 1 (-1) "s,1.005"
     = Some (ShopifyData.mk "s" None (Fin 1) None)
  /\ option_map (fun r => Binary64.toString (ShopifyData.successRate r))
       (Binary64.V7.shopifyRow 0 (-1) 1 (-1) "s,0.07")
     = Some "7.000000000000001".
Proof.
  intros v. split; [|split; [|split; [|split; [|split]]]].
  - intros r H. now apply shopifyRow64_rate in H.
  - intros r H. now apply V7_shopifyRow64_rate in H.
  - intros z q Hq Eq.
    assert (Ev : v = Binary64.nearest q)
      by (unfold v; rewrite parseFloatAt64, Hq; reflexivity).
    rewrite Ev. split; intros Hz.
    + now apply two_decimals_scaled.
    + destruct (two_decimals_kept z q Hz Eq) as [H1 H2].
      split; [exact H1|]. now rewrite H1.
  - intros ->. split; vm_compute; reflexivity.
  - vm_compute. reflexivity.
  - vm_compute. reflexivity.
Qed.

Lemma successRate_normalization_witness :
  Binary64.shopifyRow 0 (-1) 1 (-1) "s,0.5"
  = Some (ShopifyData.mk "s" None (Fin 50) None)
  /\ ShopifyData.successRate (ShopifyData.mk "s" None (Fin 50) None)
     = roundTo64 2
         (normalizedRate64 (Binary64.parseFloatAt (valuesOf "s,0.5") 1)).
Proof.
  assert (H : Binary64.shopifyRow 0 (-1) 1 (-1) "s,0.5"
              = Some (ShopifyData.mk "s" None (Fin 50) None))
    by (vm_compute; reflexivity).
  split; [exact H|].
  exact (proj1 (successRate_normalization 0 (-1) 1 (-1) "s,0.5") _ H).
Defined.

(** ** The timestamp-difference path of part_006, in binary64 *)

Lemma gt_notNaN x y : negb (isNaN x) && gt x y = gt x y.
Proof. destruct x as [|[]|a]; try reflexivity. now destruct y. Qed.

Lemma isNaN_mul_1000 x : isNaN (Binary64.mul x (Fin 1000)) = isNaN x.
Proof.
  unfold Binary64.mul. rewrite isNaN_number. now destruct x as [|[]|a].
Qed.

Lemma isNaN_parseFloat64 s :
  isNaN (Binary64.parseFloat s) = isNaN (parseFloat s).
Proof. apply isNaN_number. Qed.

Lemma awsRow64_timestamps Date_getTime i sl st en u t line id
    startTime endTime :
  sl < 0 ->
  (2 <= length (valuesOf line))%nat ->
  at_ (valuesOf line) i = Some id ->
  at_ (valuesOf line) st = Some startTime ->
  at_ (valuesOf line) en = Some endTime ->
  Binary64.V6.awsRow Date_getTime i sl st en u t line
  = match Binary64.V6.timestampLength Date_getTime (Some startTime)
            (Some endTime) with
    | Some sessionLength =>
        if negb (isEmpty id) && gt sessionLength (Fin 0)
        then Some (AWSData.mk id
                     (Binary64.Number_ (Binary64.toFixed sessionLength 2))
                     (optionalAt (valuesOf line) u)
                     (optionalAt (valuesOf line) t))
        else None
    | None => None
    end.
Proof.
  intros Hsl Hlen Hid Hst Hen. unfold Binary64.V6.awsRow.
  destruct (Nat.ltb_spec (length (valuesOf line)) 2) as [L|_]; [lia|].
  destruct (Z.leb_spec 0 sl) as [L|_]; [lia|].
  rewrite Hid, Hst, Hen.
  destruct (Binary64.V6.timestampLength _ _ _) as [x|]; [|reflexivity].
  now rewrite <- andb_assoc, gt_notNaN.
Qed.

(** C5 as stated fails: the difference 1.234 is stored as 1.23.  (The
    date parser is not consulted on this path; one that rejects every
    text stands for the host.) *)
Lemma unix_difference_rounded :
  Binary64.V6.awsRow (fun _ => NaN) 0 (-1) 1 2 (-1) 1 "s,0,1.234"
  = Some (AWSData.mk "s" (Binary64.nearest (123 # 100)) None (Some "0"))
  /\ Binary64.sub (Binary64.parseFloat "1.234") (Binary64.parseFloat "0")
     = Binary64.nearest (1234 # 1000)
  /\ Binary64.nearest (123 # 100) <> Binary64.nearest (1234 # 1000).
Proof.
  split; [vm_compute; reflexivity|].
  split; [vm_compute; reflexivity|vm_compute; discriminate].
Qed.

(** C5, as the code has it, in binary64.  On the timestamp-difference
    path, for a row of two cells or more whose start and end cells match
    the numeric pattern, the two values are Unix times: both are scaled
    from seconds to milliseconds when the start value is below
    [10 ^ 10], and both are taken as milliseconds otherwise.  The row is
    kept when its session id is not empty and the difference, in
    seconds, is positive; the stored duration is that difference
    rounded to two decimals, every step in binary64.  The start
    1724515200 and the end 1724515202.5 give 2.5; the end
    1724515201.005 gives 1, the difference computed being below
    1.005. *)
Theorem unix_timestamp_difference Date_getTime i sl st en u t line id
    startTime endTime :
  sl < 0 ->
  (2 <= length (valuesOf line))%nat ->
  at_ (valuesOf line) i = Some id ->
  at_ (valuesOf line) st = Some startTime ->
  at_ (valuesOf line) en = Some endTime ->
  V6.numericPattern startTime = true ->
  V6.numericPattern endTime = true ->
  let startNum := Binary64.parseFloat startTime in
  let endNum := Binary64.parseFloat endTime in
  let inSeconds := lt startNum (Fin (10 ^ 10)) in
  let startMs :=
    if inSeconds then Binary64.mul startNum (Fin 1000) else startNum in
  let endMs :=
    if inSeconds then Binary64.mul endNum (Fin 1000) else endNum in
  let seconds := Binary64.div (Binary64.sub endMs startMs) (Fin 1000) in
  isNaN startNum = false /\ isNaN endNum = false
  /\ Binary64.V6.awsRow Date_getTime i sl st en u t line
     = (if negb (isEmpty id) && gt seconds (Fin 0)
        then Some (AWSData.mk id (roundTo64 2 seconds)
                     (optionalAt (valuesOf line) u)
                     (optionalAt (valuesOf line) t))
        else None)
  /\ Binary64.V6.awsRow Date_getTime 0 (-1) 1 2 (-1) 1 unixSecondsRow
     = Some (AWSData.mk "s" (Fin (5 # 2)) None (Some "1724515200"))
  /\ Binary64.V6.awsRow Date_getTime 0 (-1) 1 2 (-1) 1
       "s,1724515200,1724515201.005"
     = Some (AWSData.mk "s" (Fin 1) None (Some "1724515200")).
Proof.
  intros Hsl Hlen Hid Hst Hen Ps Pe startNum endNum inSeconds startMs endMs
    seconds.
  destruct (numericPattern_parseFloat _ Ps) as (qs & Hs & _).
  destruct (numericPattern_parseFloat _ Pe) as (qe & He & _).
  assert (Ns : isNaN startNum = false)
    by (unfold startNum; now rewrite isNaN_parseFloat64, Hs).
  assert (Ne : isNaN endNum = false)
    by (unfold endNum; now rewrite isNaN_parseFloat64, He).
  split; [exact Ns|]. split; [exact Ne|].
  split; [|split; vm_compute; reflexivity].
  rewrite (awsRow64_timestamps _ _ _ _ _ _ _ _ _ _ _ Hsl Hlen Hid Hst Hen).
  assert (T : Binary64.V6.timestampLength Date_getTime (Some startTime)
                (Some endTime) = Some seconds).
  { unfold Binary64.V6.timestampLength. fold startNum endNum.
    rewrite Ns, Ne, Ps, Pe. cbn [negb andb]. fold inSeconds.
    unfold seconds, endMs, startMs.
    destruct inSeconds; [|now rewrite Ns, Ne].
    now rewrite !isNaN_mul_1000, Ns, Ne. }
  rewrite T. rewrite Number_toFixed64 by apply binary64_div. reflexivity.
Qed.

Lemma unix_timestamp_difference_witness :
  -1 < 0
  /\ (2 <= length (valuesOf unixSecondsRow))%nat
  /\ at_ (valuesOf unixSecondsRow) 0 = Some "s"
  /\ at_ (valuesOf unixSecondsRow) 1 = Some "1724515200"
  /\ at_ (valuesOf unixSecondsRow) 2 = Some "1724515202.5"
  /\ V6.numericPattern "1724515200" = true
  /\ V6.numericPattern "1724515202.5" = true
  /\ Binary64.V6.awsRow (fun _ => NaN) 0 (-1) 1 2 (-1) 1 unixSecondsRow
     = Some (AWSData.mk "s" (Fin (5 # 2)) None (Some "1724515200")).
Proof.
  assert (H1 : -1 < 0) by lia.
  assert (H2 : (2 <= length (valuesOf unixSecondsRow))%nat)
    by (vm_compute; lia).
  assert (H3 : at_ (valuesOf unixSecondsRow) 0 = Some "s")
    by (vm_compute; reflexivity).
  assert (H4 : at_ (valuesOf unixSecondsRow) 1 = Some "1724515200")
    by (vm_compute; reflexivity).
  assert (H5 : at_ (valuesOf unixSecondsRow) 2 = Some "1724515202.5")
    by (vm_compute; reflexivity).
  assert (H6 : V6.numericPattern "1724515200" = true)
    by (vm_compute; reflexivity).
  assert (H7 : V6.numericPattern "1724515202.5" = true)
    by (vm_compute; reflexivity).
  repeat (split; [assumption|]).
  rewrite (proj1 (proj2 (proj2
             (unix_timestamp_difference (fun _ => NaN) 0 (-1) 1 2 (-1) 1
                unixSecondsRow "s" "1724515200" "1724515202.5"
                H1 H2 H3 H4 H5 H6 H7)))).
  vm_compute. reflexivity.
Defined.

(** ** The date path of part_006, in binary64 *)

(** X22. On the timestamp-difference path, a row whose start and end
    cells do not both match the numeric pattern is read through the
    date parser of the host, each text with its first blank replaced by
    [T] unless it holds a [T] already.  When either text is no date the
    row is skipped.  Otherwise the duration is the difference of the two
    times divided by 1000, in binary64; the row is kept when its session
    id is not empty and that duration is positive, and the stored
    duration is it rounded to two decimals. *)
Theorem date_timestamp_difference Date_getTime i sl st en u t line id
    startTime endTime :
  sl < 0 ->
  (2 <= length (valuesOf line))%nat ->
  at_ (valuesOf line) i = Some id ->
  at_ (valuesOf line) st = Some startTime ->
  at_ (valuesOf line) en = Some endTime ->
  V6.numericPattern startTime && V6.numericPattern endTime = false ->
  let start := Date_getTime (V6.normalizeTime startTime) in
  let end_ := Date_getTime (V6.normalizeTime endTime) in
  let seconds := Binary64.div (Binary64.sub end_ start) (Fin 1000) in
  Binary64.V6.awsRow Date_getTime i sl st en u t line
  = if isNaN start || isNaN end_ then None
    else if negb (isEmpty id) && gt seconds (Fin 0)
    then Some (AWSData.mk id (roundTo64 2 seconds)
                 (optionalAt (valuesOf line) u)
                 (optionalAt (valuesOf line) t))
    else None.
Proof.
  intros Hsl Hlen Hid Hst Hen Hp start end_ seconds.
  rewrite (awsRow64_timestamps _ _ _ _ _ _ _ _ _ _ _ Hsl Hlen Hid Hst Hen).
  assert (T : Binary64.V6.timestampLength Date_getTime (Some startTime)
                (Some endTime)
              = if isNaN start || isNaN end_ then None else Some seconds).
  { unfold Binary64.V6.timestampLength.
    replace (negb (isNaN (Binary64.parseFloat startTime))
             && negb (isNaN (Binary64.parseFloat endTime))
             && V6.numericPattern startTime && V6.numericPattern endTime)
      with false.
    - fold start end_. destruct (isNaN start || isNaN end_) eqn:N;
        [reflexivity|]. now rewrite N.
    - rewrite <- andb_assoc, Hp. now rewrite andb_false_r. }
  rewrite T. destruct (isNaN start || isNaN end_); [reflexivity|].
  rewrite Number_toFixed64 by apply binary64_div. reflexivity.
Qed.

Lemma date_timestamp_difference_witness :
  -1 < 0
  /\ (2 <= length (valuesOf dateRow))%nat
  /\ at_ (valuesOf dateRow) 0 = Some "s"%string
  /\ at_ (valuesOf dateRow) 1 = Some "2024-01-01 10:00:00"%string
  /\ at_ (valuesOf dateRow) 2 = Some "2024-01-01 10:00:05"%string
  /\ V6.numericPattern "2024-01-01 10:00:00"
     && V6.numericPattern "2024-01-01 10:00:05" = false
  /\ Binary64.V6.awsRow exampleDate 0 (-1) 1 2 (-1) 1 dateRow
     = Some (AWSData.mk "s" (Fin 5) None (Some "2024-01-01 10:00:00")).
Proof.
  assert (H1 : -1 < 0) by lia.
  assert (H2 : (2 <= length (valuesOf dateRow))%nat) by (vm_compute; lia).
  assert (H3 : at_ (valuesOf dateRow) 0 = Some "s"%string) by reflexivity.
  assert (H4 : at_ (valuesOf dateRow) 1
               = Some "2024-01-01 10:00:00"%string) by reflexivity.
  assert (H5 : at_ (valuesOf dateRow) 2
               = Some "2024-01-01 10:00:05"%string) by reflexivity.
  assert (H6 : V6.numericPattern "2024-01-01 10:00:00"
               && V6.numericPattern "2024-01-01 10:00:05" = false)
    by reflexivity.
  split; [exact H1|]. split; [exact H2|]. split; [exact H3|].
  split; [exact H4|]. split; [exact H5|]. split; [exact H6|].
  rewrite (date_timestamp_difference exampleDate 0 (-1) 1 2 (-1) 1 dateRow
             "s" "2024-01-01 10:00:00" "2024-01-01 10:00:05"
             H1 H2 H3 H4 H5 H6).
  vm_compute. reflexivity.
Defined.

(** ** The duration rows of part_006 and of SessionAnalyzer.tsx *)

(** X25. With a session-length column, part_006 keeps a row exactly when
    SessionAnalyzer.tsx keeps it and its length, a binary64 number, is
    above 0, and stores the record of SessionAnalyzer.tsx with the
    length rounded to two decimals; the other rows it skips.  It never
    consults the date parser for such a row. *)
Theorem part_006_direct_length_row Date_getTime i sl st en u t line :
  0 <= sl ->
  Binary64.V6.awsRow Date_getTime i sl st en u t line
  = match Binary64.Main.awsRow i sl u t line with
    | Some r =>
        if gt (AWSData.sessionLength r) (Fin 0) then
          Some (AWSData.mk (AWSData.sessionId r)
                  (roundTo64 2 (AWSData.sessionLength r))
                  (AWSData.userId r) (AWSData.timestamp r))
        else None
    | None => None
    end.
Proof.
  intros Hsl. unfold Binary64.V6.awsRow, Binary64.Main.awsRow.
  destruct (length (valuesOf line) <? 2)%nat; [reflexivity|].
  destruct (Z.leb_spec 0 sl) as [_|L]; [|lia].
  destruct (at_ (valuesOf line) i) as [id|]; [|reflexivity].
  destruct (negb (isEmpty id)
            && negb (isNaN (Binary64.parseFloatAt (valuesOf line) sl)))
    ; [|reflexivity].
  cbn [andb AWSData.sessionLength AWSData.sessionId AWSData.userId
       AWSData.timestamp].
  destruct (gt _ _); [|reflexivity].
  now rewrite Number_toFixed64 by apply binary64_parseFloatAt.
Qed.

Lemma part_006_direct_length_row_witness :
  0 <= 1
  /\ Binary64.V6.awsRow exampleDate 0 1 (-1) (-1) (-1) (-1) "s,0.001"
     = Some (AWSData.mk "s" (Fin 0) None None)
  /\ Binary64.Main.awsRow 0 1 (-1) (-1) "s,0.001"
     = Some (AWSData.mk "s" (Binary64.nearest (1 # 1000)) None None).
Proof.
  assert (H : 0 <= 1) by lia.
  split; [exact H|]. split; [|vm_compute; reflexivity].
  rewrite (part_006_direct_length_row exampleDate 0 1 (-1) (-1) (-1) (-1)
             "s,0.001" H).
  vm_compute. reflexivity.
Defined.

(** ** The statistics of the report, in binary64 *)

Lemma Qfloor_unique q (n : Z) :
  (inject_Z n <= q)%Q -> (q < inject_Z (n + 1))%Q -> Qfloor q = n.
Proof.
  intros L U. pose proof (Qfloor_le q) as F1. pose proof (Qlt_floor q) as F2.
  set (f := Qfloor q) in *.
  assert (A : (inject_Z f < inject_Z (n + 1))%Q) by lra.
  assert (B : (inject_Z n < inject_Z (f + 1))%Q) by lra.
  rewrite <- Zlt_Qlt in A, B. lia.
Qed.

(** [Math.floor(N * 0.65)] in binary64 is the integer part of [65 N / 100]
    for every length that an array can have. *)
Lemma splitIndex64_spec fused :
  Z.of_nat (length fused) < 2 ^ 32 ->
  Binary64.Main.splitIndex fused
  = Z.to_nat (Z.of_nat (length fused) * 65 / 100).
Proof.
  intros Hlen. unfold Binary64.Main.splitIndex.
  set (N := Z.of_nat (length fused)) in *.
  assert (HN : 0 <= N < 2 ^ 32) by (unfold N; lia).
  set (d := (5854679515581645 # 9007199254740992)%Q).
  assert (Ed : Binary64.nearest (65 # 100) = Fin d) by (vm_compute; reflexivity).
  rewrite Ed. unfold Binary64.mul, ofNat, ofZ. cbn [mul]. rewrite number_fin.
  fold N. set (I := N * 65 / 100).
  assert (HI : 100 * I <= 65 * N <= 100 * I + 95).
  { pose proof (Z.div_mod (N * 65) 100 ltac:(lia)) as DM.
    pose proof (Z.mod_pos_bound (N * 65) 100 ltac:(lia)) as MB.
    fold I in DM. lia. }
  clearbody I N.
  assert (L : (inject_Z I <= inject_Z N * d)%Q).
  { unfold d, Qle, Qmult, inject_Z. cbn [Qnum Qden Pos.mul]. lia. }
  assert (U : (inject_Z N * d <= inject_Z (32 * I + 31) / Binary64.pow2 5)%Q).
  { change (Binary64.pow2 5) with (inject_Z 32).
    unfold d, Qle, Qdiv. unfold Qinv, inject_Z. unfold Qmult.
    cbn [Qnum Qden Pos.mul]. lia. }
  destruct (nearest_between (inject_Z N * d) (inject_Z I)
              (inject_Z (32 * I + 31) / Binary64.pow2 5))
    as (r & E & _ & L' & U');
    [apply representable_Z; lia
    |apply representable_dyadic; lia|exact L|exact U|].
  rewrite E. cbn [floor]. unfold Main.toIndex, ofZ. rewrite Qfloor_Z.
  f_equal. apply Qfloor_unique; [exact L'|].
  apply (Qle_lt_trans _ _ _ U').
  change (Binary64.pow2 5) with (inject_Z 32).
  unfold Qlt, Qdiv. unfold Qinv, inject_Z. unfold Qmult.
  cbn [Qnum Qden Pos.mul]. lia.
Qed.

Lemma splitIndex64_lt fused :
  fused <> [] -> Z.of_nat (length fused) < 2 ^ 32 ->
  (Binary64.Main.splitIndex fused < length fused)%nat.
Proof.
  intros H Hl. rewrite splitIndex64_spec by exact Hl.
  assert (0 < length fused)%nat by (destruct fused; [congruence|simpl; lia]).
  apply Nat2Z.inj_lt. rewrite Z2Nat.id by (apply Z.div_pos; lia).
  apply Z.div_lt_upper_bound; lia.
Qed.

Lemma index65_0 (n : nat) :
  Z.to_nat (Z.of_nat n * 65 / 100) = O <-> (n <= 1)%nat.
Proof.
  split.
  - intros H. destruct (Nat.le_gt_cases n 1) as [L|L]; [exact L|exfalso].
    assert (1 <= Z.of_nat n * 65 / 100)
      by (apply Z.div_le_lower_bound; lia).
    lia.
  - intros H. assert (Z.of_nat n * 65 / 100 = 0); [|lia].
    apply Z.div_small. lia.
Qed.

Lemma foldl_map {A B C} (f : A -> C -> A) (g : B -> C) a l :
  foldl f a (map g l) = foldl (fun acc x => f acc (g x)) a l.
Proof. revert a. induction l as [|x l IH]; intros a; [reflexivity|apply IH]. Qed.

Lemma meanSuccessRate64 data :
  Binary64.Main.meanSuccessRate data
  = mean64 (map FusedDataPoint.successRate data).
Proof.
  unfold Binary64.Main.meanSuccessRate, mean64, sum64.
  now rewrite foldl_map, length_map.
Qed.

(** The binary64 sum of numbers from 0 to 100 stays near their sum. *)
Lemma sum64_error (qs : list Q) (acc A : Q) (k : Z) :
  0 <= k -> k + Z.of_nat (length qs) <= 2 ^ 32 ->
  Forall (fun q => (0 <= q)%Q /\ (q <= 100)%Q) qs ->
  (0 <= acc)%Q -> (acc <= inject_Z (100 * k))%Q ->
  (Qabs (acc - A) <= inject_Z k * (1 # 8192))%Q ->
  exists r,
    foldl Binary64.add (Fin acc) (map Fin qs) = Fin r
    /\ (0 <= r)%Q
    /\ (r <= inject_Z (100 * (k + Z.of_nat (length qs))))%Q
    /\ (Qabs (r - (A + fold_right Qplus 0 qs))
        <= inject_Z (k + Z.of_nat (length qs)) * (1 # 8192))%Q.
Proof.
  revert acc A k. induction qs as [|q qs IH]; intros acc A k Hk Hn HF H0 H1 HE.
  - exists acc. cbn [map foldl length fold_right Z.of_nat].
    rewrite Z.add_0_r. split; [reflexivity|]. split; [exact H0|].
    split; [exact H1|].
    assert (E : (acc - (A + 0) == acc - A)%Q) by ring. now rewrite E.
  - inversion HF as [|? ? [Q0 Q1] HF']; subst.
    cbn [length] in Hn. rewrite Nat2Z.inj_succ in Hn.
    cbn [map foldl]. unfold Binary64.add at 2. cbn [add].
    rewrite number_fin.
    assert (B1 : (inject_Z (100 * (k + 1)) == inject_Z (100 * k) + 100)%Q).
    { unfold Qeq, Qplus, inject_Z. cbn [Qnum Qden Pos.mul]. lia. }
    destruct (nearest_between (acc + q) (inject_Z 0)
                (inject_Z (100 * (k + 1))))
      as (r & E & _ & L & U);
      [apply representable_Z; lia|apply representable_Z; lia
      |change (inject_Z 0) with 0%Q; lra|rewrite B1; lra|].
    change (inject_Z 0) with 0%Q in L.
    destruct (nearest_error (acc + q) 39 ltac:(lia)) as (r' & E' & _ & Err).
    { rewrite Qabs_pos by lra.
      apply (Qle_trans _ (inject_Z (100 * (k + 1)))); [rewrite B1; lra|].
      rewrite pow2_Z by lia. rewrite <- Zle_Qle. lia. }
    rewrite E in E'. injection E' as <-.
    change (Binary64.pow2 (39 - 52)) with (1 # 8192)%Q in Err.
    rewrite E.
    destruct (IH r (A + q)%Q (k + 1) ltac:(lia) ltac:(lia) HF' L U)
      as (r2 & E2 & R0 & R1 & RE).
    { rewrite inject_Z_plus. change (inject_Z 1) with 1%Q.
      apply Qabs_Qle_condition in HE as [HE1 HE2].
      apply Qabs_Qle_condition in Err as [Er1 Er2].
      apply Qabs_Qle_condition. lra. }
    exists r2. split; [exact E2|]. split; [exact R0|].
    cbn [length fold_right]. rewrite Nat2Z.inj_succ.
    replace (k + Z.succ (Z.of_nat (length qs)))
      with (k + 1 + Z.of_nat (length qs)) by lia.
    split; [exact R1|].
    assert (Es : (A + (q + fold_right Qplus 0 qs)
                  == A + q + fold_right Qplus 0 qs)%Q) by ring.
    now rewrite Es.
Qed.

(** The binary64 mean of rates from 0 to 100 lies within [2 ^ -12] of
    their mean. *)
Lemma mean64_error (qs : list Q) :
  qs <> [] -> Z.of_nat (length qs) < 2 ^ 32 ->
  Forall (fun q => (0 <= q)%Q /\ (q <= 100)%Q) qs ->
  exists m,
    mean64 (map Fin qs) = Fin m
    /\ (Qabs (m - meanQ qs) <= 1 # 4096)%Q.
Proof.
  intros Hne Hlen HF. unfold mean64, sum64, meanQ. rewrite length_map.
  set (n := Z.of_nat (length qs)) in *.
  assert (Hn : 0 < n < 2 ^ 32).
  { split; [|exact Hlen]. unfold n. destruct qs; [congruence|simpl; lia]. }
  destruct (sum64_error qs 0 0 0 ltac:(lia) ltac:(fold n; lia) HF)
    as (r & E & R0 & R1 & RE);
    [apply Qle_refl|change (inject_Z (100 * 0)) with 0%Q; apply Qle_refl
    |vm_compute; discriminate|].
  rewrite E. fold n in R1, RE. rewrite Z.add_0_l in R1, RE.
  set (S := fold_right Qplus 0%Q qs) in *.
  assert (ES : (r - (0 + S) == r - S)%Q) by ring. rewrite ES in RE.
  assert (Pn : (0 < inject_Z n)%Q)
    by (change 0%Q with (inject_Z 0); rewrite <- Zlt_Qlt; lia).
  unfold Binary64.div, ofNat, ofZ. fold n. cbn [div].
  assert (Z0 : Qis0 (inject_Z n) = false) by (unfold Qis0; simpl; lia).
  rewrite Z0, number_fin.
  assert (M1 : (r / inject_Z n <= 100)%Q).
  { apply Qle_shift_div_r; [exact Pn|].
    rewrite inject_Z_mult in R1. change (inject_Z 100) with 100%Q in R1.
    exact R1. }
  assert (M0 : (0 <= r / inject_Z n)%Q)
    by (apply Qle_shift_div_l; [exact Pn|lra]).
  destruct (nearest_error (r / inject_Z n) 7 ltac:(lia)) as (m & Em & _ & Err).
  { rewrite Qabs_pos by exact M0. change (Binary64.pow2 7) with 128%Q. lra. }
  change (Binary64.pow2 (7 - 52)) with (1 # 35184372088832)%Q in Err.
  exists m. split; [exact Em|].
  assert (D : (Qabs (r / inject_Z n - S / inject_Z n) <= 1 # 8192)%Q).
  { assert (Ed : (r / inject_Z n - S / inject_Z n
                  == (r - S) / inject_Z n)%Q) by (field; lra).
    rewrite Ed. apply Qabs_Qle_condition in RE as [RE1 RE2].
    apply Qabs_Qle_condition. split.
    - apply Qle_shift_div_l; [exact Pn|]. lra.
    - apply Qle_shift_div_r; [exact Pn|]. lra. }
  apply Qabs_Qle_condition in D as [D1 D2].
  apply Qabs_Qle_condition in Err as [Er1 Er2].
  apply Qabs_Qle_condition.
  set (x := (r / inject_Z n)%Q) in *. set (y := (S / inject_Z n)%Q) in *.
  split; lra.
Qed.

(** C3 as stated fails: the statistics are texts with one decimal.  For
    the one matched session of length 2.34 and rate 33.33 the report
    shows 2.3 and 33.3. *)
Lemma report_statistics_rounded :
  Binary64.fuseData (Main.shopifyData oneSessionState64)
    (Main.awsData oneSessionState64)
  = [FusedDataPoint.mk "a" 1 (Binary64.nearest (234 # 100))
       (Binary64.nearest (3333 # 100))]
  /\ Main.stats (Binary64.Main.generateFusionReport oneSessionState64)
     = Main.mkStats 1 1 "2.3" "0" "33.3"
  /\ Binary64.Number_ "2.3" <> Binary64.nearest (234 # 100)
  /\ Binary64.Number_ "33.3" <> Binary64.nearest (3333 # 100).
Proof.
  split; [vm_compute; reflexivity|]. split; [vm_compute; reflexivity|].
  split; vm_compute; discriminate.
Qed.

(** C3, as the code has it, in binary64.  When the fuser returns
    [N >= 1] records, the report stores them and these statistics:
    [totalSessions] is the larger of the two record counts,
    [matchedSessions] is [N], the inflection point is the session length
    of the record at index [floor (N * 0.65)] printed with one decimal,
    and the early and late success rates are the means of the rate over
    the records before that index and from it on, printed with one
    decimal.  The mean is the sum from the left divided by the count,
    each step rounded to binary64; for rates from 0 to 100 it lies
    within [2 ^ -12] of the mean of the rates.  The record at that
    index exists, the late slice is never empty, and the early slice is
    empty, and its rate is the text 0, exactly when [N = 1]. *)
Theorem report_statistics (st : Main.State) :
  let fused := Binary64.fuseData (Main.shopifyData st) (Main.awsData st) in
  let idx := Z.to_nat (Z.of_nat (length fused) * 65 / 100) in
  let st' := Binary64.Main.generateFusionReport st in
  fused <> [] -> Z.of_nat (length fused) < 2 ^ 32 ->
  Main.fusedData st' = fused
  /\ Main.isReportGenerated st' = true
  /\ Main.totalSessions (Main.stats st')
     = Nat.max (length (Main.shopifyData st)) (length (Main.awsData st))
  /\ Main.matchedSessions (Main.stats st') = length fused
  /\ (exists p,
         fused !! idx = Some p
         /\ Main.inflectionPoint (Main.stats st')
            = Binary64.toFixed
                (orElse (FusedDataPoint.sessionLength p) (Fin 0)) 1)
  /\ Main.earlySuccessRate (Main.stats st')
     = (if (length fused =? 1)%nat then "0"
        else Binary64.toFixed
               (mean64 (map FusedDataPoint.successRate (take idx fused))) 1)
  /\ Main.lateSuccessRate (Main.stats st')
     = Binary64.toFixed
         (mean64 (map FusedDataPoint.successRate (drop idx fused))) 1
  /\ drop idx fused <> []
  /\ (forall qs : list Q,
        qs <> [] -> Z.of_nat (length qs) < 2 ^ 32 ->
        Forall (fun q => (0 <= q)%Q /\ (q <= 100)%Q) qs ->
        exists m,
          mean64 (map Fin qs) = Fin m
          /\ (Qabs (m - meanQ qs) <= 1 # 4096)%Q).
Proof.
  intros fused idx st' Hne Hlt32.
  assert (Hlen : (0 < length fused)%nat)
    by (destruct fused; [congruence|simpl; lia]).
  assert (Hst : st' = Main.mkState (Main.shopifyData st) (Main.awsData st)
                        fused
                        (Binary64.Main.reportStats (Main.shopifyData st)
                           (Main.awsData st) fused)
                        true
                        (Main.ReportGenerated (length fused)
                           (Nat.max (length (Main.shopifyData st))
                              (length (Main.awsData st)))
                           (Binary64.toFixed
                              (Binary64.mul
                                 (Binary64.div (ofNat (length fused))
                                    (ofNat (Nat.max
                                       (length (Main.shopifyData st))
                                       (length (Main.awsData st)))))
                                 (Fin 100)) 1))).
  { unfold st', Binary64.Main.generateFusionReport. fold fused.
    destruct ((length (Main.shopifyData st) =? 0)%nat
              || (length (Main.awsData st) =? 0)%nat) eqn:E.
    - exfalso. apply Hne. unfold fused, Binary64.fuseData. now rewrite E.
    - destruct (Nat.eqb_spec (length fused) 0) as [Z|_]; [lia|].
      reflexivity. }
  rewrite Hst. cbn [Main.fusedData Main.isReportGenerated Main.stats].
  pose proof (splitIndex64_spec fused Hlt32) as Hidx. fold idx in Hidx.
  pose proof (splitIndex64_lt fused Hne Hlt32) as Hlt. rewrite Hidx in Hlt.
  unfold Binary64.Main.reportStats. rewrite Hidx.
  cbn [Main.totalSessions Main.matchedSessions Main.inflectionPoint
       Main.earlySuccessRate Main.lateSuccessRate].
  split; [reflexivity|]. split; [reflexivity|]. split; [reflexivity|].
  split; [reflexivity|].
  destruct (lookup_lt_is_Some_2 fused idx Hlt) as [p Hp].
  split.
  { exists p. split; [exact Hp|].
    destruct (Nat.ltb_spec 0 (length fused)) as [_|L]; [|lia].
    now rewrite Hp. }
  assert (Hdrop : drop idx fused <> []).
  { intros E. apply (f_equal length) in E. rewrite length_drop in E.
    simpl in E. lia. }
  split; [|split; [|split; [exact Hdrop|]]].
  - unfold Binary64.Main.sliceRate, slice. rewrite Nat.sub_0_r, drop_0.
    rewrite length_take_le by lia.
    destruct (Nat.eqb_spec (length fused) 1) as [E1|E1].
    + assert (idx = O) as -> by (unfold idx; apply index65_0; lia).
      reflexivity.
    + assert (idx <> O) by (unfold idx; rewrite index65_0; lia).
      destruct (Nat.ltb_spec 0 idx) as [_|L]; [|lia].
      now rewrite meanSuccessRate64.
  - unfold Binary64.Main.sliceRate, sliceFrom.
    destruct (Nat.ltb_spec 0 (length (drop idx fused))) as [_|L].
    + now rewrite meanSuccessRate64.
    + rewrite length_drop in L. lia.
  - intros qs H1 H2 H3. now apply mean64_error.
Qed.

Lemma report_statistics_witness :
  Binary64.fuseData (Main.shopifyData oneSessionState64)
    (Main.awsData oneSessionState64) <> []
  /\ Z.of_nat (length (Binary64.fuseData (Main.shopifyData oneSessionState64)
                         (Main.awsData oneSessionState64))) < 2 ^ 32
  /\ Main.fusedData (Binary64.Main.generateFusionReport oneSessionState64)
     = Binary64.fuseData (Main.shopifyData oneSessionState64)
         (Main.awsData oneSessionState64)
  /\ Main.matchedSessions
       (Main.stats (Binary64.Main.generateFusionReport oneSessionState64))
     = length (Binary64.fuseData (Main.shopifyData oneSessionState64)
                 (Main.awsData oneSessionState64)).
Proof.
  assert (H : Binary64.fuseData (Main.shopifyData oneSessionState64)
                (Main.awsData oneSessionState64) <> [])
    by (vm_compute; discriminate).
  assert (H' : Z.of_nat (length (Binary64.fuseData
                                   (Main.shopifyData oneSessionState64)
                                   (Main.awsData oneSessionState64)))
               < 2 ^ 32) by (vm_compute; reflexivity).
  split; [exact H|]. split; [exact H'|].
  destruct (report_statistics oneSessionState64 H H')
    as (H1 & _ & _ & H4 & _).
  split; [exact H1|exact H4].
Defined.

(** ** Exporting and parsing again, in binary64 *)

(** The cells of an exported row. *)
Lemma valuesOf_exportRow64 p :
  cleanId (FusedDataPoint.sessionId p) ->
  valuesOf (Binary64.Main.exportRow p)
  = [FusedDataPoint.sessionId p;
     Binary64.toString (ofZ (FusedDataPoint.sessionNumber p));
     Binary64.toString (FusedDataPoint.sessionLength p);
     Binary64.toString (FusedDataPoint.successRate p)].
Proof.
  intros (_ & Hc & _ & Ht & Hq). unfold valuesOf.
  change (Binary64.Main.exportRow p)
    with (FusedDataPoint.sessionId p +:+ String comma
            (Binary64.toString (ofZ (FusedDataPoint.sessionNumber p))
             +:+ String comma
               (Binary64.toString (FusedDataPoint.sessionLength p)
                +:+ String comma
                  (Binary64.toString (FusedDataPoint.successRate p))))).
  rewrite split_app_sep by exact Hc.
  rewrite split_app_sep by apply plainText_no_comma, toString64_plain.
  rewrite split_app_sep by apply plainText_no_comma, toString64_plain.
  rewrite split_single by apply plainText_no_comma, toString64_plain.
  cbn [map]. rewrite Ht, Hq.
  rewrite !trim_plain, !stripQuotes_plain by apply toString64_plain.
  reflexivity.
Qed.

Lemma exportRow64_no_LF p :
  cleanId (FusedDataPoint.sessionId p) ->
  countChar LF (Binary64.Main.exportRow p) = O.
Proof.
  intros (_ & _ & Hl & _). unfold Binary64.Main.exportRow.
  rewrite !countChar_app, Hl.
  rewrite !(plainText_no_LF _ (toString64_plain _)). reflexivity.
Qed.

Lemma exportRow64_ends_plain p :
  exists a b, Binary64.Main.exportRow p = a +:+ b
              /\ plainText b = true /\ isEmpty b = false.
Proof.
  exists (FusedDataPoint.sessionId p +:+ "," +:+
          Binary64.toString (ofZ (FusedDataPoint.sessionNumber p)) +:+ ","
          +:+ Binary64.toString (FusedDataPoint.sessionLength p) +:+ ","),
    (Binary64.toString (FusedDataPoint.successRate p)).
  split; [|split; [apply toString64_plain|apply toString64_nonempty]].
  unfold Binary64.Main.exportRow. now rewrite !app_assoc_string.
Qed.

Lemma linesOf_exportData64 fused :
  fused <> [] ->
  Forall (fun p => cleanId (FusedDataPoint.sessionId p)) fused ->
  linesOf (Binary64.Main.exportData fused)
  = exportHeader :: map Binary64.Main.exportRow fused.
Proof.
  intros Hne Hc. unfold linesOf, Binary64.Main.exportData. fold exportHeader.
  assert (T : trim (join (String LF EmptyString)
                      (exportHeader :: map Binary64.Main.exportRow fused))
              = join (String LF EmptyString)
                  (exportHeader :: map Binary64.Main.exportRow fused)).
  { destruct (join_ends_plain (String LF EmptyString) exportHeader
                (map Binary64.Main.exportRow fused)) as (a & b & E & Hb & He).
    - intros r Hr. apply in_map_iff in Hr as (p & <- & _).
      apply exportRow64_ends_plain.
    - destruct fused; [congruence|discriminate].
    - unfold trim.
      assert (S : trimStart (join (String LF EmptyString)
                    (exportHeader :: map Binary64.Main.exportRow fused))
                  = join (String LF EmptyString)
                      (exportHeader :: map Binary64.Main.exportRow fused)).
      { destruct fused as [|p fused]; [congruence|]. reflexivity. }
      rewrite S, E. now apply trimEnd_app_plain. }
  rewrite T. apply split_join; [discriminate|].
  constructor; [reflexivity|].
  apply Forall_forall. intros r Hr. apply list_elem_of_In in Hr.
  apply in_map_iff in Hr as (p & <- & Hp).
  apply exportRow64_no_LF. rewrite Forall_forall in Hc. apply Hc.
  now apply list_elem_of_In.
Qed.

Lemma parseAWSCSV64_lines csvText header rows :
  linesOf csvText = header :: rows -> rows <> [] ->
  (findIndex Main.sessionIdHeader (headersOf header) =? -1) = false ->
  (findIndex Main.sessionLengthHeader (headersOf header) =? -1) = false ->
  Binary64.Main.parseAWSCSV csvText
  = let data :=
      omap (Binary64.Main.awsRow
              (findIndex Main.sessionIdHeader (headersOf header))
              (findIndex Main.sessionLengthHeader (headersOf header))
              (findIndex Main.userIdHeader (headersOf header))
              (findIndex timestampHeader (headersOf header))) rows in
    if (length data =? 0)%nat
    then Throw (EmptyResult "No valid AWS data rows found in CSV")
    else Ok data.
Proof.
  intros Hl Hr Hi Hs. unfold Binary64.Main.parseAWSCSV. rewrite Hl.
  destruct rows as [|r rows]; [congruence|].
  change (length (header :: r :: rows) <? 2)%nat with false.
  cbv iota.
  change (default EmptyString (head (header :: r :: rows))) with header.
  change (tail (header :: r :: rows)) with (r :: rows).
  rewrite Hi, Hs. cbn [orb].
  rewrite forRows_omap. reflexivity.
Qed.

Lemma parseShopifyCSV64_lines csvText header rows :
  linesOf csvText = header :: rows -> rows <> [] ->
  (findIndex Main.sessionIdHeader (headersOf header) =? -1) = false ->
  (findIndex Main.successRateHeader (headersOf header) =? -1) = false ->
  Binary64.Main.parseShopifyCSV csvText
  = let data :=
      omap (Binary64.shopifyRow
              (findIndex Main.sessionIdHeader (headersOf header))
              (findIndex Main.orderIdHeader (headersOf header))
              (findIndex Main.successRateHeader (headersOf header))
              (findIndex timestampHeader (headersOf header))) rows in
    if (length data =? 0)%nat
    then Throw (EmptyResult "No valid Shopify data rows found in CSV")
    else Ok data.
Proof.
  intros Hl Hr Hi Hs. unfold Binary64.Main.parseShopifyCSV. rewrite Hl.
  destruct rows as [|r rows]; [congruence|].
  change (length (header :: r :: rows) <? 2)%nat with false.
  cbv iota.
  change (default EmptyString (head (header :: r :: rows))) with header.
  change (tail (header :: r :: rows)) with (r :: rows).
  rewrite Hi, Hs. cbn [orb].
  rewrite forRows_omap. reflexivity.
Qed.

Lemma awsRow64_exportRow p :
  exportable64 p ->
  Binary64.Main.awsRow 0 2 (-1) (-1) (Binary64.Main.exportRow p)
  = Some (durationOf p).
Proof.
  intros (Hid & Hd & Hn & _ & _). unfold Binary64.Main.awsRow.
  rewrite (valuesOf_exportRow64 p Hid).
  change (length _ <? 2)%nat with false. cbv iota.
  unfold Binary64.parseFloatAt. rewrite !optionalAt_none.
  rewrite (proj1 (at_four _ _ _ _)), (proj1 (proj2 (at_four _ _ _ _))).
  rewrite (parseFloat_toString64 _ Hd), Hn.
  destruct Hid as (He & _). rewrite He. reflexivity.
Qed.

Lemma shopifyRow64_exportRow p :
  exportable64 p ->
  Binary64.shopifyRow 0 (-1) 3 (-1) (Binary64.Main.exportRow p)
  = Some (successOf (fun r => roundTo64 2 (normalizedRate64 r)) p).
Proof.
  intros (Hid & _ & _ & Hd & Hn). unfold Binary64.shopifyRow.
  rewrite (valuesOf_exportRow64 p Hid).
  change (length _ <? 2)%nat with false. cbv iota.
  unfold Binary64.parseFloatAt. rewrite !optionalAt_none.
  rewrite (proj1 (at_four _ _ _ _)), (proj2 (proj2 (at_four _ _ _ _))).
  rewrite (parseFloat_toString64 _ Hd), Hn.
  destruct Hid as (He & _). rewrite He.
  change (negb false && negb false) with true. cbv iota.
  fold (normalizedRate64 (FusedDataPoint.successRate p)).
  rewrite Number_toFixed64 by now apply binary64_normalizedRate64.
  reflexivity.
Qed.

(** C8 as stated fails: a fused record of rate 1 is exported as the
    cell 1, which the success-source parser takes for a fraction and
    stores as 100. *)
Lemma export_reparse_rate_rescaled :
  Binary64.fuseData [ShopifyData.mk "a" None (Fin 1) None]
    [AWSData.mk "a" (Fin 5) None None]
  = onePercentFused
  /\ Binary64.Main.parseShopifyCSV (Binary64.Main.exportData onePercentFused)
     = Ok [ShopifyData.mk "a" None (Fin 100) None]
  /\ map FusedDataPoint.successRate onePercentFused = [Fin 1]
  /\ Fin 100 <> Fin 1.
Proof.
  split; [vm_compute; reflexivity|]. split; [vm_compute; reflexivity|].
  split; [reflexivity|discriminate].
Qed.

(** C8, as the code has it, in binary64.  For a non-empty fused record
    set whose session ids survive a CSV cell and whose lengths and rates
    are binary64 numbers, parsing the exported text with the
    duration-source parser gives back the session id and the length of
    every record, in order.  Parsing it with the success-source parser
    gives back the session ids and, for each rate, the rate normalized
    and rounded again: a rate above 1 and up to [10 ^ 13] with at most
    two decimals comes back as it is, a rate of at most 1 comes back
    multiplied by 100. *)
Theorem export_reparse fused :
  fused <> [] -> Forall exportable64 fused ->
  Binary64.Main.parseAWSCSV (Binary64.Main.exportData fused)
  = Ok (map durationOf fused)
  /\ Binary64.Main.parseShopifyCSV (Binary64.Main.exportData fused)
     = Ok (map (successOf (fun r => roundTo64 2 (normalizedRate64 r))) fused)
  /\ (Forall (fun p => exists z : Z,
                100 < z <= 10 ^ 15
                /\ FusedDataPoint.successRate p = Binary64.nearest (z # 100))
        fused ->
      Binary64.Main.parseShopifyCSV (Binary64.Main.exportData fused)
      = Ok (map (successOf (fun r => r)) fused)).
Proof.
  intros Hne Hex.
  assert (Hc : Forall (fun p => cleanId (FusedDataPoint.sessionId p)) fused).
  { eapply Forall_impl; [exact Hex|]. now intros p (H & _). }
  pose proof (linesOf_exportData64 fused Hne Hc) as Hl.
  assert (Hrows : map Binary64.Main.exportRow fused <> [])
    by (destruct fused; [congruence|discriminate]).
  assert (HA : Binary64.Main.parseAWSCSV (Binary64.Main.exportData fused)
               = Ok (map durationOf fused)).
  { rewrite (parseAWSCSV64_lines _ _ _ Hl Hrows eq_refl eq_refl).
    change (findIndex Main.sessionIdHeader (headersOf exportHeader)) with 0.
    change (findIndex Main.sessionLengthHeader (headersOf exportHeader))
      with 2.
    change (findIndex Main.userIdHeader (headersOf exportHeader)) with (-1).
    change (findIndex timestampHeader (headersOf exportHeader)) with (-1).
    cbv zeta. rewrite (omap_map_Some _ _ durationOf).
    - destruct fused; [congruence|reflexivity].
    - intros p Hp. apply awsRow64_exportRow.
      rewrite Forall_forall in Hex. apply Hex. now apply list_elem_of_In. }
  assert (HS : Binary64.Main.parseShopifyCSV (Binary64.Main.exportData fused)
               = Ok (map (successOf
                            (fun r => roundTo64 2 (normalizedRate64 r)))
                       fused)).
  { rewrite (parseShopifyCSV64_lines _ _ _ Hl Hrows eq_refl eq_refl).
    change (findIndex Main.sessionIdHeader (headersOf exportHeader)) with 0.
    change (findIndex Main.successRateHeader (headersOf exportHeader))
      with 3.
    change (findIndex Main.orderIdHeader (headersOf exportHeader)) with (-1).
    change (findIndex timestampHeader (headersOf exportHeader)) with (-1).
    cbv zeta.
    rewrite (omap_map_Some _ _
               (successOf (fun r => roundTo64 2 (normalizedRate64 r)))).
    - destruct fused; [congruence|reflexivity].
    - intros p Hp. apply shopifyRow64_exportRow.
      rewrite Forall_forall in Hex. apply Hex. now apply list_elem_of_In. }
  split; [exact HA|]. split; [exact HS|].
  intros Hr. rewrite HS. f_equal. apply map_ext_in. intros p Hp.
  rewrite Forall_forall in Hr.
  destruct (Hr p ltac:(now apply list_elem_of_In)) as (z & Hz & Ez).
  unfold successOf. f_equal. rewrite Ez.
  destruct (two_decimals_kept z (z # 100) Hz (Qeq_refl _)) as [H1 H2].
  now rewrite H1.
Qed.

Lemma export_reparse_witness :
  exampleFused <> []
  /\ Forall exportable64 exampleFused
  /\ Binary64.Main.parseAWSCSV (Binary64.Main.exportData exampleFused)
     = Ok (map durationOf exampleFused)
  /\ Binary64.Main.parseShopifyCSV (Binary64.Main.exportData exampleFused)
     = Ok (map (successOf (fun r => roundTo64 2 (normalizedRate64 r)))
             exampleFused).
Proof.
  assert (Hne : exampleFused <> []) by discriminate.
  assert (Hex : Forall exportable64 exampleFused).
  { repeat constructor; try reflexivity;
      try apply (binary64_Z 2); try apply (binary64_Z 90);
      try apply (binary64_Z 5); try apply (binary64_Z 40); 
      vm_compute; discriminate. }
  split; [exact Hne|]. split; [exact Hex|].
  destruct (export_reparse exampleFused Hne Hex) as (HA & HS & _).
  split; [exact HA|exact HS].
Defined.

(** ** The trend view, in binary64 *)

Lemma smoothLoop64_chunks fuel fusedData level i smoothed :
  (1 <= level)%nat -> (length fusedData - i <= fuel)%nat ->
  Binary64.Main.smoothLoop fuel fusedData level i smoothed
  = Some (smoothed
          ++ map (fun k => Binary64.Main.smoothedPoint fusedData level
                             (i + k * level))
               (seq 0 ((length fusedData - i + level - 1) / level))).
Proof.
  intros Hl. revert i smoothed.
  induction fuel as [|fuel IH]; intros i smoothed Hf.
  - cbn [Binary64.Main.smoothLoop].
    assert (E : (i <? length fusedData)%nat = false)
      by (apply Nat.ltb_ge; lia).
    rewrite E. replace (length fusedData - i)%nat with O by lia.
    rewrite Nat.div_small by lia. cbn [seq map]. now rewrite app_nil_r.
  - cbn [Binary64.Main.smoothLoop].
    destruct (i <? length fusedData)%nat eqn:E.
    + apply Nat.ltb_lt in E.
      assert (E0 : (length (slice fusedData i (i + level)) =? 0)%nat
                   = false).
      { apply Nat.eqb_neq. rewrite slice_length. lia. }
      rewrite E0, IH by lia.
      rewrite (chunk_count (length fusedData - i) level) by lia.
      cbn [seq map]. rewrite <- app_assoc. cbn [app].
      replace (i + 0 * level)%nat with i by lia.
      replace (length fusedData - (i + level))%nat
        with (length fusedData - i - level)%nat by lia.
      do 3 f_equal.
      rewrite <- seq_shift, map_map. apply map_ext. intros k.
      f_equal. lia.
    + apply Nat.ltb_ge in E.
      replace (length fusedData - i)%nat with O by lia.
      rewrite Nat.div_small by lia. cbn [seq map]. now rewrite app_nil_r.
Qed.

Lemma getSmoothedData64_map fuel fusedData level :
  (1 <= level)%nat -> (length fusedData <= fuel)%nat ->
  Binary64.Main.getSmoothedData fuel fusedData level
  = Some (map (fun k => Binary64.Main.smoothedPoint fusedData level
                          (k * level))
            (seq 0 ((length fusedData + level - 1) / level))).
Proof.
  intros Hl Hf. unfold Binary64.Main.getSmoothedData.
  destruct (length fusedData =? 0)%nat eqn:E.
  - apply Nat.eqb_eq in E. rewrite E.
    rewrite Nat.div_small by lia. reflexivity.
  - rewrite smoothLoop64_chunks by lia. cbn [app].
    rewrite Nat.sub_0_r. reflexivity.
Qed.

(** The binary64 sum of [n] numbers from [lo] to [hi] lies between
    [n * lo] and [n * hi] when these are binary64 integers. *)
Lemma fold_add64_between (f : FusedDataPoint.t -> num) chunk (lo hi k : Z)
    acc :
  0 <= k ->
  (k + Z.of_nat (length chunk)) * Z.max (Z.abs lo) (Z.abs hi) <= 2 ^ 53 ->
  Forall (fun p => between lo hi (f p)) chunk ->
  (inject_Z (k * lo) <= acc)%Q -> (acc <= inject_Z (k * hi))%Q ->
  exists s,
    foldl (fun sum p => Binary64.add sum (f p)) (Fin acc) chunk = Fin s
    /\ (inject_Z ((k + Z.of_nat (length chunk)) * lo) <= s)%Q
    /\ (s <= inject_Z ((k + Z.of_nat (length chunk)) * hi))%Q.
Proof.
  revert acc k. induction chunk as [|p chunk IH]; intros acc k Hk Hn HF L U.
  - exists acc. cbn [foldl length Z.of_nat]. rewrite Z.add_0_r. now split.
  - inversion HF as [|? ? (q & Eq & Q0 & Q1) HF']; subst.
    cbn [length] in Hn |- *. rewrite Nat2Z.inj_succ in Hn |- *.
    cbn [foldl]. rewrite Eq. unfold Binary64.add at 2. cbn [add].
    rewrite number_fin.
    assert (B : forall c : Z, Z.abs c <= Z.max (Z.abs lo) (Z.abs hi) ->
              Z.abs ((k + 1) * c) <= 2 ^ 53).
    { intros c Hc. rewrite Z.abs_mul, (Z.abs_eq (k + 1)) by lia.
      set (M := Z.max (Z.abs lo) (Z.abs hi)) in *.
      assert (0 <= M) by (unfold M; lia).
      assert ((k + 1) * Z.abs c <= (k + 1) * M)
        by (apply Z.mul_le_mono_nonneg_l; lia).
      assert ((k + 1) * M <= (k + Z.succ (Z.of_nat (length chunk))) * M)
        by (apply Z.mul_le_mono_nonneg_r; lia).
      lia. }
    assert (E1 : (inject_Z ((k + 1) * lo) == inject_Z (k * lo) + inject_Z lo)%Q)
      by (rewrite <- inject_Z_plus; apply inject_Z_injective; lia).
    assert (E2 : (inject_Z ((k + 1) * hi) == inject_Z (k * hi) + inject_Z hi)%Q)
      by (rewrite <- inject_Z_plus; apply inject_Z_injective; lia).
    destruct (nearest_between (acc + q) (inject_Z ((k + 1) * lo))
                (inject_Z ((k + 1) * hi)))
      as (r & E & _ & L' & U');
      [apply representable_Z, B; lia|apply representable_Z, B; lia
      |rewrite E1; lra|rewrite E2; lra|].
    rewrite E.
    destruct (IH r (k + 1) ltac:(lia) ltac:(lia) HF' L' U')
      as (s & Es & S0 & S1).
    exists s. split; [exact Es|].
    replace (k + Z.succ (Z.of_nat (length chunk)))
      with (k + 1 + Z.of_nat (length chunk)) by lia.
    now split.
Qed.

(** The binary64 average of a chunk lies between any two integer bounds
    of its values, as long as the bounds times the length of the chunk
    are binary64 integers. *)
Lemma average64_between (f : FusedDataPoint.t -> num) chunk (lo hi : Z) :
  chunk <> [] ->
  Z.of_nat (length chunk) * Z.max (Z.abs lo) (Z.abs hi) <= 2 ^ 53 ->
  Forall (fun p => between lo hi (f p)) chunk ->
  between lo hi (Binary64.Main.average f chunk).
Proof.
  intros Hne Hn HF. unfold Binary64.Main.average.
  set (n := Z.of_nat (length chunk)) in *.
  assert (Hpos : 0 < n) by (unfold n; destruct chunk; [congruence|simpl; lia]).
  destruct (fold_add64_between f chunk lo hi 0 0 ltac:(lia)
              ltac:(fold n; lia) HF)
    as (s & -> & S0 & S1);
    [change (inject_Z (0 * lo)) with 0%Q; apply Qle_refl
    |change (inject_Z (0 * hi)) with 0%Q; apply Qle_refl|].
  fold n in S0, S1. rewrite Z.add_0_l in S0, S1.
  rewrite inject_Z_mult in S0, S1.
  assert (Pn : (0 < inject_Z n)%Q)
    by (change 0%Q with (inject_Z 0); rewrite <- Zlt_Qlt; lia).
  unfold Binary64.div, ofNat, ofZ. fold n. cbn [div].
  assert (Z0 : Qis0 (inject_Z n) = false) by (unfold Qis0; simpl; lia).
  rewrite Z0, number_fin.
  destruct (nearest_between (s / inject_Z n) (inject_Z lo) (inject_Z hi))
    as (m & E & _ & L & U).
  - apply representable_Z.
    set (M := Z.max (Z.abs lo) (Z.abs hi)) in *.
    assert (0 <= M) by (unfold M; lia).
    assert (1 * M <= n * M) by (apply Z.mul_le_mono_nonneg_r; lia).
    assert (Z.abs lo <= M) by (unfold M; lia). lia.
  - apply representable_Z.
    set (M := Z.max (Z.abs lo) (Z.abs hi)) in *.
    assert (0 <= M) by (unfold M; lia).
    assert (1 * M <= n * M) by (apply Z.mul_le_mono_nonneg_r; lia).
    assert (Z.abs hi <= M) by (unfold M; lia). lia.
  - apply Qle_shift_div_l; [exact Pn|]. lra.
  - apply Qle_shift_div_r; [exact Pn|]. lra.
  - exists m. now split.
Qed.

Lemma binary64_average f chunk : binary64 (Binary64.Main.average f chunk).
Proof. apply binary64_div. Qed.

Lemma smoothed_field64_between (f : FusedDataPoint.t -> num) chunk (hi : Z) :
  chunk <> [] -> Z.of_nat (length chunk) * hi <= 2 ^ 53 ->
  Forall (fun p => between 0 hi (f p)) chunk ->
  between 0 hi
    (Binary64.Number_ (Binary64.toFixed (Binary64.Main.average f chunk) 2)).
Proof.
  intros Hne Hn HF.
  assert (Hpos : 0 < Z.of_nat (length chunk))
    by (destruct chunk; [congruence|simpl; lia]).
  assert (H0 : 0 <= hi).
  { destruct chunk as [|p chunk]; [congruence|].
    inversion HF as [|? ? (q & _ & Q0 & Q1) _]; subst.
    assert (inject_Z 0 <= inject_Z hi)%Q by lra.
    now rewrite <- Zle_Qle in H. }
  assert (Hhi : hi <= 2 ^ 53) by nia.
  rewrite Number_toFixed64 by apply binary64_average.
  destruct (average64_between f chunk 0 hi Hne) as (m & E & M0 & M1);
    [rewrite Z.abs_0, Z.max_r, Z.abs_eq by lia; exact Hn|exact HF|].
  rewrite E. unfold roundTo64, roundTo.
  assert (Hh : isHuge m = false)
    by (apply (not_huge_le m hi); [exact M0|exact M1|lia]).
  rewrite Hh, number_fin.
  destruct (roundedQ_range 2 m hi M0 M1) as [R0 R1].
  destruct (nearest_between (roundedQ 2 m) (inject_Z 0) (inject_Z hi))
    as (r & Er & _ & L & U);
    [apply representable_Z; lia|apply representable_Z; lia
    |exact R0|exact R1|].
  exists r. now split.
Qed.

(** X14. The trend view keeps the values within their bounds: when every
    fused record has a length from 0 to [maxLength] and a rate from 0 to
    [maxRate], and the window size times either bound is at most
    [2 ^ 53], so has every smoothed record.  In particular rates from 0
    to 100 stay on the axis of the trend chart, which runs from 0 to
    100, for every window of the slider. *)
Theorem smoothed_within_bounds fuel fusedData level
    (maxLength maxRate : Z) :
  (1 <= level)%nat -> (length fusedData <= fuel)%nat ->
  Z.of_nat level * maxLength <= 2 ^ 53 ->
  Z.of_nat level * maxRate <= 2 ^ 53 ->
  Forall (fun p => between 0 maxLength (FusedDataPoint.sessionLength p)
                   /\ between 0 maxRate (FusedDataPoint.successRate p))
    fusedData ->
  exists smoothed,
    Binary64.Main.getSmoothedData fuel fusedData level = Some smoothed
    /\ Forall (fun p => between 0 maxLength (FusedDataPoint.sessionLength p)
                        /\ between 0 maxRate (FusedDataPoint.successRate p))
         smoothed.
Proof.
  intros Hl Hf HmL HmR HF.
  rewrite (getSmoothedData64_map fuel fusedData level Hl Hf).
  eexists. split; [reflexivity|].
  apply Forall_map, Forall_forall. intros k Hk.
  apply elem_of_seq in Hk as [_ Hk]. cbn [Nat.add] in Hk.
  pose proof (chunk_start_lt _ _ _ Hl Hk) as Hi.
  set (chunk := slice fusedData (k * level) (k * level + level)).
  assert (Hlen : (0 < length chunk <= level)%nat).
  { unfold chunk. rewrite slice_length. lia. }
  assert (Hne : chunk <> []).
  { intros C. apply (f_equal length) in C. simpl in C. lia. }
  pose proof (Forall_slice _ fusedData (k * level) (k * level + level) HF)
    as Hc. fold chunk in Hc.
  assert (Pos : forall (f : FusedDataPoint.t -> num) (hi : Z),
            Forall (fun p => between 0 hi (f p)) chunk -> 0 <= hi).
  { intros f hi H. destruct chunk as [|p c]; [congruence|].
    inversion H as [|? ? (q & _ & Q0 & Q1) _]; subst.
    assert (T : (inject_Z 0 <= inject_Z hi)%Q) by lra.
    now rewrite <- Zle_Qle in T. }
  unfold Binary64.Main.smoothedPoint. fold chunk.
  cbn [FusedDataPoint.sessionLength FusedDataPoint.successRate]. split.
  - assert (HL : Forall (fun p => between 0 maxLength
                                    (FusedDataPoint.sessionLength p)) chunk)
      by (eapply Forall_impl; [exact Hc|]; now intros p [? ?]).
    apply smoothed_field64_between; [exact Hne| |exact HL].
    pose proof (Pos _ _ HL). nia.
  - assert (HR : Forall (fun p => between 0 maxRate
                                    (FusedDataPoint.successRate p)) chunk)
      by (eapply Forall_impl; [exact Hc|]; now intros p [? ?]).
    apply smoothed_field64_between; [exact Hne| |exact HR].
    pose proof (Pos _ _ HR). nia.
Qed.

Lemma smoothed_within_bounds_witness :
  (1 <= 5)%nat /\ (length exampleFused <= 2)%nat
  /\ Z.of_nat 5 * 5 <= 2 ^ 53 /\ Z.of_nat 5 * 100 <= 2 ^ 53
  /\ exists smoothed,
       Binary64.Main.getSmoothedData 2 exampleFused 5 = Some smoothed
       /\ Forall (fun p => between 0 5 (FusedDataPoint.sessionLength p)
                           /\ between 0 100 (FusedDataPoint.successRate p))
            smoothed.
Proof.
  assert (H1 : (1 <= 5)%nat) by lia.
  assert (H2 : (length exampleFused <= 2)%nat) by (vm_compute; lia).
  assert (H3 : Z.of_nat 5 * 5 <= 2 ^ 53) by (vm_compute; discriminate).
  assert (H4 : Z.of_nat 5 * 100 <= 2 ^ 53) by (vm_compute; discriminate).
  split; [exact H1|]. split; [exact H2|]. split; [exact H3|].
  split; [exact H4|].
  apply (smoothed_within_bounds 2 exampleFused 5 5 100 H1 H2 H3 H4).
  repeat constructor;
    (eexists; split; [reflexivity|split; vm_compute; discriminate]).
Defined.

(** ** The order of the smoothed records, in binary64 *)

(** The multiples of [2 ^ -10] next to [k / 100]. *)
Lemma below_hundredth (k : Z) :
  (inject_Z (k * 1024 / 100) / Binary64.pow2 10 <= k # 100)%Q
  /\ ((k # 100) < inject_Z (k * 1024 / 100 + 1) / Binary64.pow2 10)%Q.
Proof.
  change (Binary64.pow2 10) with (inject_Z 1024).
  pose proof (Z.div_mod (k * 1024) 100 ltac:(lia)) as DM.
  pose proof (Z.mod_pos_bound (k * 1024) 100 ltac:(lia)) as MB.
  set (j := k * 1024 / 100) in *. clearbody j.
  split.
  - unfold Qle, Qdiv. unfold Qinv, inject_Z. unfold Qmult.
    cbn [Qnum Qden Pos.mul]. lia.
  - unfold Qlt, Qdiv. unfold Qinv, inject_Z. unfold Qmult.
    cbn [Qnum Qden Pos.mul]. lia.
Qed.

Lemma hundredth_Qeq (k : Z) : (inject_Z k * pow10 (- Z.of_nat 2) == k # 100)%Q.
Proof.
  change (pow10 (- Z.of_nat 2)) with (1 # 100)%Q.
  unfold Qeq, Qmult, inject_Z. cbn [Qnum Qden Pos.mul]. lia.
Qed.

(** The binary64 numbers of two decimals stand in the order of the
    decimals. *)
Lemma nearest_hundredths_mono (j1 j2 : Z) :
  j1 <= j2 -> Z.abs j1 <= 2 ^ 50 -> Z.abs j2 <= 2 ^ 50 ->
  le (Binary64.nearest (j1 # 100)) (Binary64.nearest (j2 # 100)) = true.
Proof.
  intros H B1 B2.
  assert (F : forall j : Z, Z.abs j <= 2 ^ 50 ->
            exists r, Binary64.nearest (j # 100) = Fin r).
  { intros j Hj.
    destruct (nearest_between (j # 100) (inject_Z (- 2 ^ 50))
                (inject_Z (2 ^ 50))) as (r & E & _);
      [apply representable_Z; lia|apply representable_Z; lia| | |].
    - unfold Qle, inject_Z. cbn [Qnum Qden]. lia.
    - unfold Qle, inject_Z. cbn [Qnum Qden]. lia.
    - now exists r. }
  destruct (F j1 B1) as (r1 & E1). destruct (F j2 B2) as (r2 & E2).
  rewrite E1, E2. apply le_Fin.
  destruct (Z.eq_dec j1 j2) as [->|Hne].
  - rewrite E1 in E2. injection E2 as <-. apply Qle_refl.
  - set (D := (inject_Z (j1 * 128 / 100 + 1) / Binary64.pow2 7)%Q).
    assert (RD : representable D).
    { apply representable_dyadic; [|lia].
      assert (- 2 ^ 51 <= j1 * 128 / 100 <= 2 ^ 51).
      { split; [apply Z.div_le_lower_bound|apply Z.div_le_upper_bound]; lia. }
      lia. }
    assert (HD : (j1 # 100 <= D)%Q /\ (D <= j2 # 100)%Q).
    { unfold D. change (Binary64.pow2 7) with (inject_Z 128).
      pose proof (Z.div_mod (j1 * 128) 100 ltac:(lia)) as DM.
      pose proof (Z.mod_pos_bound (j1 * 128) 100 ltac:(lia)) as MB.
      set (j := j1 * 128 / 100) in *. clearbody j.
      split.
      - unfold Qle, Qdiv. unfold Qinv, inject_Z. unfold Qmult.
        cbn [Qnum Qden Pos.mul]. lia.
      - unfold Qle, Qdiv. unfold Qinv, inject_Z. unfold Qmult.
        cbn [Qnum Qden Pos.mul]. lia. }
    destruct HD as [D1 D2].
    destruct (nearest_upper (j1 # 100) D RD D1) as [C|(r & E & _ & U)];
      [congruence|].
    destruct (nearest_lower (j2 # 100) D RD D2) as [C|(r' & E' & _ & L)];
      [congruence|].
    rewrite E1 in E. injection E as <-.
    rewrite E2 in E'. injection E' as <-. lra.
Qed.

(** The binary64 sum of [n] numbers between two multiples of
    [2 ^ -10]. *)
Lemma fold_add64_dyadic (f : FusedDataPoint.t -> num) chunk (lo hi k : Z)
    acc :
  0 <= k -> 0 <= lo <= hi ->
  (k + Z.of_nat (length chunk)) * hi < 2 ^ 53 ->
  Forall (fun p => exists q,
            f p = Fin q
            /\ (inject_Z lo / Binary64.pow2 10 <= q)%Q
            /\ (q <= inject_Z hi / Binary64.pow2 10)%Q) chunk ->
  (inject_Z (k * lo) / Binary64.pow2 10 <= acc)%Q ->
  (acc <= inject_Z (k * hi) / Binary64.pow2 10)%Q ->
  exists s,
    foldl (fun sum p => Binary64.add sum (f p)) (Fin acc) chunk = Fin s
    /\ (inject_Z ((k + Z.of_nat (length chunk)) * lo) / Binary64.pow2 10
        <= s)%Q
    /\ (s <= inject_Z ((k + Z.of_nat (length chunk)) * hi)
             / Binary64.pow2 10)%Q.
Proof.
  revert acc k. induction chunk as [|p chunk IH];
    intros acc k Hk Hlh Hn HF L U.
  - exists acc. cbn [foldl length Z.of_nat]. rewrite Z.add_0_r. now split.
  - inversion HF as [|? ? (q & Eq & Q0 & Q1) HF']; subst.
    cbn [length] in Hn |- *. rewrite Nat2Z.inj_succ in Hn |- *.
    cbn [foldl]. rewrite Eq. unfold Binary64.add at 2. cbn [add].
    rewrite number_fin.
    assert (P : (0 < Binary64.pow2 10)%Q) by apply pow2_pos.
    assert (E1 : (inject_Z ((k + 1) * lo) / Binary64.pow2 10
                  == inject_Z (k * lo) / Binary64.pow2 10
                     + inject_Z lo / Binary64.pow2 10)%Q).
    { replace ((k + 1) * lo) with (k * lo + lo) by lia.
      rewrite inject_Z_plus. field. lra. }
    assert (E2 : (inject_Z ((k + 1) * hi) / Binary64.pow2 10
                  == inject_Z (k * hi) / Binary64.pow2 10
                     + inject_Z hi / Binary64.pow2 10)%Q).
    { replace ((k + 1) * hi) with (k * hi + hi) by lia.
      rewrite inject_Z_plus. field. lra. }
    assert (B : forall c : Z, 0 <= c <= hi -> Z.abs ((k + 1) * c) < 2 ^ 53).
    { intros c Hc. rewrite Z.abs_eq by nia.
      assert ((k + 1) * c <= (k + 1) * hi)
        by (apply Z.mul_le_mono_nonneg_l; lia).
      assert ((k + 1) * hi <= (k + Z.succ (Z.of_nat (length chunk))) * hi)
        by (apply Z.mul_le_mono_nonneg_r; lia).
      lia. }
    destruct (nearest_between (acc + q)
                (inject_Z ((k + 1) * lo) / Binary64.pow2 10)
                (inject_Z ((k + 1) * hi) / Binary64.pow2 10))
      as (r & E & _ & L' & U');
      [apply representable_dyadic; [apply B|]; lia
      |apply representable_dyadic; [apply B|]; lia
      |rewrite E1; lra|rewrite E2; lra|].
    rewrite E.
    destruct (IH r (k + 1) ltac:(lia) Hlh ltac:(lia) HF' L' U')
      as (s & Es & S0 & S1).
    exists s. split; [exact Es|].
    replace (k + Z.succ (Z.of_nat (length chunk)))
      with (k + 1 + Z.of_nat (length chunk)) by lia.
    now split.
Qed.

Lemma average64_dyadic (f : FusedDataPoint.t -> num) chunk (lo hi : Z) :
  chunk <> [] -> 0 <= lo <= hi ->
  Z.of_nat (length chunk) * hi < 2 ^ 53 ->
  Forall (fun p => exists q,
            f p = Fin q
            /\ (inject_Z lo / Binary64.pow2 10 <= q)%Q
            /\ (q <= inject_Z hi / Binary64.pow2 10)%Q) chunk ->
  exists m,
    Binary64.Main.average f chunk = Fin m
    /\ (inject_Z lo / Binary64.pow2 10 <= m)%Q
    /\ (m <= inject_Z hi / Binary64.pow2 10)%Q.
Proof.
  intros Hne Hlh Hn HF. unfold Binary64.Main.average.
  set (n := Z.of_nat (length chunk)) in *.
  assert (Hpos : 0 < n) by (unfold n; destruct chunk; [congruence|simpl; lia]).
  assert (P : (0 < Binary64.pow2 10)%Q) by apply pow2_pos.
  destruct (fold_add64_dyadic f chunk lo hi 0 0 ltac:(lia) Hlh
              ltac:(fold n; lia) HF)
    as (s & -> & S0 & S1).
  { change (inject_Z (0 * lo)) with 0%Q. unfold Qdiv. rewrite Qmult_0_l.
    apply Qle_refl. }
  { change (inject_Z (0 * hi)) with 0%Q. unfold Qdiv. rewrite Qmult_0_l.
    apply Qle_refl. }
  fold n in S0, S1. rewrite Z.add_0_l in S0, S1.
  rewrite inject_Z_mult in S0, S1.
  assert (Pn : (0 < inject_Z n)%Q)
    by (change 0%Q with (inject_Z 0); rewrite <- Zlt_Qlt; lia).
  unfold Binary64.div, ofNat, ofZ. fold n. cbn [div].
  assert (Z0 : Qis0 (inject_Z n) = false) by (unfold Qis0; simpl; lia).
  rewrite Z0, number_fin.
  assert (Hhi : hi < 2 ^ 53).
  { assert (1 * hi <= n * hi) by (apply Z.mul_le_mono_nonneg_r; lia). lia. }
  set (a := (inject_Z lo / Binary64.pow2 10)%Q) in *.
  set (b := (inject_Z hi / Binary64.pow2 10)%Q) in *.
  assert (S0' : (inject_Z n * a <= s)%Q).
  { apply (Qle_trans _ (inject_Z n * inject_Z lo / Binary64.pow2 10));
      [|exact S0]. unfold a. apply Qle_lteq. right. field. lra. }
  assert (S1' : (s <= inject_Z n * b)%Q).
  { apply (Qle_trans _ (inject_Z n * inject_Z hi / Binary64.pow2 10));
      [exact S1|]. unfold b. apply Qle_lteq. right. field. lra. }
  destruct (nearest_between (s / inject_Z n) a b) as (m & E & _ & L & U).
  - apply representable_dyadic; lia.
  - apply representable_dyadic; lia.
  - apply Qle_shift_div_l; [exact Pn|]. lra.
  - apply Qle_shift_div_r; [exact Pn|]. lra.
  - exists m. now split.
Qed.

(** The binary64 number of [k / 100] lies between the multiples of
    [2 ^ -10] next to [k / 100]. *)
Lemma hundredth_bounds (k : Z) :
  Z.abs k <= 2 ^ 49 ->
  exists q,
    Binary64.nearest (k # 100) = Fin q
    /\ (inject_Z (k * 1024 / 100) / Binary64.pow2 10 <= q)%Q
    /\ (q <= inject_Z (k * 1024 / 100 + 1) / Binary64.pow2 10)%Q.
Proof.
  intros Hk. destruct (below_hundredth k) as [L U].
  assert (B : - (2 ^ 53 - 2) <= k * 1024 / 100 <= 2 ^ 53 - 2).
  { split; [apply Z.div_le_lower_bound|apply Z.div_le_upper_bound]; lia. }
  destruct (nearest_between (k # 100)
              (inject_Z (k * 1024 / 100) / Binary64.pow2 10)
              (inject_Z (k * 1024 / 100 + 1) / Binary64.pow2 10))
    as (q & E & _ & L' & U');
    [apply representable_dyadic; lia|apply representable_dyadic; lia
    |exact L|now apply Qlt_le_weak|].
  exists q. now split.
Qed.

Lemma roundedQ_dyadic_below (k : Z) :
  (roundedQ 2 (inject_Z (k * 1024 / 100) / Binary64.pow2 10) == k # 100)%Q.
Proof.
  destruct (below_hundredth k) as [L U].
  rewrite <- hundredth_Qeq. apply roundedQ_near. rewrite hundredth_Qeq.
  change (pow10 (- Z.of_nat 2)) with (1 # 100)%Q.
  change (Binary64.pow2 10) with (inject_Z 1024) in *.
  set (j := k * 1024 / 100) in *.
  assert (E : (inject_Z (j + 1) / inject_Z 1024
               == inject_Z j / inject_Z 1024 + (1 # 1024))%Q).
  { rewrite inject_Z_plus. change (inject_Z 1) with 1%Q.
    change (inject_Z 1024) with 1024%Q. field. }
  rewrite E in U. apply Qabs_Qlt_condition. split; lra.
Qed.

Lemma roundedQ_dyadic_above (k : Z) :
  (roundedQ 2 (inject_Z (k * 1024 / 100 + 1) / Binary64.pow2 10)
   == k # 100)%Q.
Proof.
  destruct (below_hundredth k) as [L U].
  rewrite <- hundredth_Qeq. apply roundedQ_near. rewrite hundredth_Qeq.
  change (pow10 (- Z.of_nat 2)) with (1 # 100)%Q.
  change (Binary64.pow2 10) with (inject_Z 1024) in *.
  set (j := k * 1024 / 100) in *.
  assert (E : (inject_Z (j + 1) / inject_Z 1024
               == inject_Z j / inject_Z 1024 + (1 # 1024))%Q).
  { rewrite inject_Z_plus. change (inject_Z 1) with 1%Q.
    change (inject_Z 1024) with 1024%Q. field. }
  rewrite E in U |- *. apply Qabs_Qlt_condition. split; lra.
Qed.

(** The smoothed length of a chunk whose lengths lie between the
    binary64 numbers of [lo / 100] and [hi / 100] is the binary64 number
    of a decimal with two decimals between the same bounds. *)
Lemma smoothed_length_hundredths chunk (lo hi : Z) :
  chunk <> [] -> 0 <= lo <= hi -> hi <= 2 ^ 49 ->
  Z.of_nat (length chunk) * (hi * 1024 / 100 + 1) < 2 ^ 53 ->
  Forall (fun p => exists q,
            FusedDataPoint.sessionLength p = Fin q
            /\ (inject_Z (lo * 1024 / 100) / Binary64.pow2 10 <= q)%Q
            /\ (q <= inject_Z (hi * 1024 / 100 + 1) / Binary64.pow2 10)%Q)
    chunk ->
  hundredths lo hi
    (Binary64.Number_
       (Binary64.toFixed
          (Binary64.Main.average FusedDataPoint.sessionLength chunk) 2)).
Proof.
  intros Hne Hlh Hhi Hn HF.
  assert (J0 : 0 <= lo * 1024 / 100) by (apply Z.div_pos; lia).
  assert (J1 : lo * 1024 / 100 <= hi * 1024 / 100 + 1).
  { assert (lo * 1024 / 100 <= hi * 1024 / 100)
      by (apply Z.div_le_mono; lia). lia. }
  destruct (average64_dyadic FusedDataPoint.sessionLength chunk
              (lo * 1024 / 100) (hi * 1024 / 100 + 1) Hne
              ltac:(lia) Hn HF) as (m & E & L & U).
  rewrite Number_toFixed64 by apply binary64_average.
  rewrite E. unfold roundTo64, roundTo.
  assert (P : (0 < Binary64.pow2 10)%Q) by apply pow2_pos.
  assert (A0 : (0 <= inject_Z (lo * 1024 / 100) / Binary64.pow2 10)%Q).
  { apply Qle_shift_div_l; [exact P|]. rewrite Qmult_0_l.
    change 0%Q with (inject_Z 0). now rewrite <- Zle_Qle. }
  assert (M0 : (0 <= m)%Q) by lra.
  assert (M1 : (m <= inject_Z (2 ^ 50))%Q).
  { apply (Qle_trans _ _ _ U). apply Qle_shift_div_r; [exact P|].
    change (Binary64.pow2 10) with (inject_Z 1024).
    rewrite <- inject_Z_mult, <- Zle_Qle.
    assert (hi * 1024 / 100 <= 2 ^ 49 * 1024 / 100)
      by (apply Z.div_le_mono; lia).
    assert (2 ^ 49 * 1024 / 100 <= 2 ^ 53) by (vm_compute; discriminate).
    lia. }
  assert (Hh : isHuge m = false)
    by (apply (not_huge_le m (2 ^ 50)); [exact M0|exact M1|reflexivity]).
  rewrite Hh, number_fin.
  set (J := roundHalfUp (Qabs m * pow10 (Z.of_nat 2))).
  assert (EJ : (roundedQ 2 m == J # 100)%Q).
  { unfold roundedQ. fold J.
    assert (N : Qneg m = false)
      by (apply not_true_iff_false; rewrite Qneg_spec; lra).
    rewrite N. apply hundredth_Qeq. }
  assert (R1 : (lo # 100 <= roundedQ 2 m)%Q).
  { rewrite <- (roundedQ_dyadic_below lo).
    apply roundedQ_mono_nonneg; [exact A0|exact L]. }
  assert (R2 : (roundedQ 2 m <= hi # 100)%Q).
  { rewrite <- (roundedQ_dyadic_above hi).
    apply roundedQ_mono_nonneg; [exact M0|exact U]. }
  rewrite EJ in R1, R2.
  exists J. split.
  - unfold Qle in R1, R2. cbn [Qnum Qden] in R1, R2. lia.
  - now apply nearest_comp.
Qed.

Lemma le_refl_Fin q : le (Fin q) (Fin q) = true.
Proof. apply le_Fin, Qle_refl. Qed.

Lemma dyadic_le_mono (a b : Z) :
  a <= b ->
  (inject_Z a / Binary64.pow2 10 <= inject_Z b / Binary64.pow2 10)%Q.
Proof.
  intros H. pose proof (pow2_pos 10) as P. unfold Qdiv.
  apply Qmult_le_compat_r; [now rewrite <- Zle_Qle|].
  apply Qlt_le_weak, Qinv_lt_0_compat, P.
Qed.

Lemma elem_of_drop_list {A} (x : A) (n : nat) (l : list A) :
  x ∈ drop n l -> x ∈ l.
Proof.
  intros H. rewrite <- (take_drop n l). apply elem_of_app. now right.
Qed.

(** X15. The trend view keeps the order of lengths with two decimals:
    when the fused records stand in ascending order of length, as the
    fuser leaves them, every length is the binary64 number of a decimal
    [k / 100] with [k] from 0 to [maxCents], and the window size times
    [maxCents + 1] is at most [2 ^ 49], the smoothed records stand in
    ascending order of length as well.  Lengths with more decimals can
    lose the order: eleven records of length 0.015 smoothed with the
    window 10 give the lengths 0.02 and 0.01. *)
Theorem smoothed_ascending fuel fusedData level (maxCents : Z) :
  (1 <= level)%nat -> (length fusedData <= fuel)%nat ->
  Z.of_nat level * (maxCents + 1) <= 2 ^ 49 ->
  Forall (fun p => hundredths 0 maxCents (FusedDataPoint.sessionLength p))
    fusedData ->
  ascendingByLength fusedData ->
  (exists smoothed,
     Binary64.Main.getSmoothedData fuel fusedData level = Some smoothed
     /\ ascendingByLength smoothed)
  /\ ascendingByLength elevenShort
  /\ option_map (map FusedDataPoint.sessionLength)
       (Binary64.Main.getSmoothedData 11 elevenShort 10)
     = Some [Binary64.nearest (2 # 100); Binary64.nearest (1 # 100)].
Proof.
  intros Hl Hf Hm HF HS.
  split; [|split; [repeat constructor|vm_compute; reflexivity]].
  rewrite (getSmoothedData64_map fuel fusedData level Hl Hf).
  eexists. split; [reflexivity|].
  unfold ascendingByLength in *. apply Sorted_map_seq.
  intros k _ Hk. cbn [Nat.add] in Hk.
  pose proof (chunk_start_lt _ _ _ Hl Hk) as Hi2.
  set (i := (k * level)%nat).
  replace (S k * level)%nat with (i + level)%nat in * by (unfold i; lia).
  assert (Hi1 : (i < length fusedData)%nat) by lia.
  set (chunk1 := slice fusedData i (i + level)).
  set (chunk2 := slice fusedData (i + level) (i + level + level)).
  assert (Hlen1 : (0 < length chunk1 <= level)%nat)
    by (unfold chunk1; rewrite slice_length; lia).
  assert (Hlen2 : (0 < length chunk2 <= level)%nat)
    by (unfold chunk2; rewrite slice_length; lia).
  assert (Hne1 : chunk1 <> [])
    by (intros C; apply (f_equal length) in C; simpl in C; lia).
  assert (Hne2 : chunk2 <> [])
    by (intros C; apply (f_equal length) in C; simpl in C; lia).
  assert (Hpos : 0 <= maxCents).
  { destruct fusedData as [|p l]; [simpl in Hi1; lia|].
    inversion HF as [|? ? (c & Hc & _) _]; subst. lia. }
  assert (HmC : maxCents <= 2 ^ 49) by nia.
  (* the first record of the second chunk *)
  assert (T : Transitive (fun a b : FusedDataPoint.t =>
                le (FusedDataPoint.sessionLength a)
                   (FusedDataPoint.sessionLength b) = true))
    by (intros a b c; apply le_trans_num).
  pose proof (@Sorted_StronglySorted _ _ T _ HS) as SS.
  rewrite <- (take_drop (i + level) fusedData) in SS.
  destruct (drop (i + level) fusedData) as [|pb tl] eqn:Ed.
  { apply (f_equal length) in Ed. rewrite length_drop in Ed.
    simpl in Ed. lia. }
  assert (Hb : hundredths 0 maxCents (FusedDataPoint.sessionLength pb)).
  { rewrite Forall_forall in HF. apply HF.
    apply (elem_of_drop_list _ (i + level)%nat). rewrite Ed. left. }
  destruct Hb as (K & HK & EK).
  destruct (hundredth_bounds K ltac:(lia)) as (qb & Eqb & Lb & Ub).
  rewrite Eqb in EK.
  assert (Hin : forall p, p ∈ fusedData ->
            exists c q,
              0 <= c <= maxCents
              /\ FusedDataPoint.sessionLength p = Fin q
              /\ (inject_Z (c * 1024 / 100) / Binary64.pow2 10 <= q)%Q
              /\ (q <= inject_Z (c * 1024 / 100 + 1) / Binary64.pow2 10)%Q).
  { intros p Hp. rewrite Forall_forall in HF.
    destruct (HF p Hp) as (c & Hc & Ec).
    destruct (hundredth_bounds c ltac:(lia)) as (q & Eq & L & U).
    exists c, q. rewrite Ec. now repeat split. }
  assert (Jm : forall c, 0 <= c <= maxCents ->
             0 <= c * 1024 / 100
             /\ c * 1024 / 100 + 1 <= maxCents * 1024 / 100 + 1).
  { intros c Hc. split; [apply Z.div_pos; lia|].
    assert (c * 1024 / 100 <= maxCents * 1024 / 100)
      by (apply Z.div_le_mono; lia). lia. }
  assert (Rep : forall n : nat, (n <= level)%nat ->
            forall c, 0 <= c <= maxCents ->
            Z.of_nat n * (c * 1024 / 100 + 1) < 2 ^ 53).
  { intros n Hn c Hc.
    assert (c * 1024 / 100 <= c * 11)
      by (apply Z.div_le_upper_bound; lia).
    assert (Z.of_nat n * (c * 1024 / 100 + 1)
            <= Z.of_nat level * (11 * (maxCents + 1)))
      by (apply Z.mul_le_mono_nonneg; try lia;
          destruct (Jm c Hc); lia).
    lia. }
  (* every length of the first chunk is at most that of [pb] *)
  assert (H1 : hundredths 0 K
                 (Binary64.Number_
                    (Binary64.toFixed
                       (Binary64.Main.average FusedDataPoint.sessionLength
                          chunk1) 2))).
  { apply smoothed_length_hundredths;
      [exact Hne1|lia|lia|apply Rep; lia|].
    apply Forall_forall. intros p Hp.
    assert (Hp' : p ∈ take (i + level) fusedData).
    { unfold chunk1, slice in Hp. apply list_elem_of_In in Hp.
      replace (i + level - i)%nat with level in Hp by lia.
      apply list_elem_of_In. now apply In_take_drop. }
    assert (R : le (FusedDataPoint.sessionLength p)
                  (FusedDataPoint.sessionLength pb) = true).
    { apply (StronglySorted_app_1_elem_of _ _ _ _ _ SS); [exact Hp'|left]. }
    destruct (Hin p) as (c & q & Hc & Eq & L & U).
    { now apply (elem_of_take _ (i + level)%nat) in Hp' as (j & Hj & _);
        apply list_elem_of_lookup_2 in Hj. }
    exists q. split; [exact Eq|]. rewrite Eq, EK in R. apply le_Fin in R.
    split.
    - apply (Qle_trans _ (inject_Z (c * 1024 / 100) / Binary64.pow2 10));
        [|exact L].
      apply dyadic_le_mono. change (0 * 1024 / 100) with 0.
      now destruct (Jm c Hc).
    - lra. }
  (* every length of the second chunk is at least that of [pb] *)
  assert (H2 : hundredths K maxCents
                 (Binary64.Number_
                    (Binary64.toFixed
                       (Binary64.Main.average FusedDataPoint.sessionLength
                          chunk2) 2))).
  { apply smoothed_length_hundredths;
      [exact Hne2|lia|lia|apply Rep; lia|].
    apply Forall_forall. intros p Hp.
    assert (Hp' : p ∈ pb :: tl).
    { unfold chunk2, slice in Hp. rewrite Ed in Hp.
      now apply (elem_of_take _ _ _) in Hp as (j & Hj & _);
        apply list_elem_of_lookup_2 in Hj. }
    assert (R : le (FusedDataPoint.sessionLength pb)
                  (FusedDataPoint.sessionLength p) = true).
    { apply StronglySorted_app_1_r in SS.
      apply elem_of_cons in Hp' as [->|Hp'].
      - rewrite EK. apply le_refl_Fin.
      - inversion SS as [|? ? _ HR]; subst.
        rewrite Forall_forall in HR. now apply HR. }
    destruct (Hin p) as (c & q & Hc & Eq & L & U).
    { apply (elem_of_drop_list _ (i + level)%nat). now rewrite Ed. }
    exists q. split; [exact Eq|]. rewrite Eq, EK in R. apply le_Fin in R.
    split.
    - lra.
    - apply (Qle_trans _ _ _ U). apply dyadic_le_mono.
      now destruct (Jm c Hc). }
  unfold Binary64.Main.smoothedPoint. cbn [FusedDataPoint.sessionLength].
  fold chunk1 chunk2.
  destruct H1 as (J1 & HJ1 & ->). destruct H2 as (J2 & HJ2 & ->).
  apply nearest_hundredths_mono; lia.
Qed.

Lemma smoothed_ascending_witness :
  (1 <= 1)%nat /\ (length exampleFused <= 2)%nat
  /\ Z.of_nat 1 * (500 + 1) <= 2 ^ 49
  /\ ascendingByLength exampleFused
  /\ exists smoothed,
       Binary64.Main.getSmoothedData 2 exampleFused 1 = Some smoothed
       /\ ascendingByLength smoothed.
Proof.
  assert (H1 : (1 <= 1)%nat) by lia.
  assert (H2 : (length exampleFused <= 2)%nat) by (vm_compute; lia).
  assert (H3 : Z.of_nat 1 * (500 + 1) <= 2 ^ 49) by (vm_compute; discriminate).
  assert (H4 : ascendingByLength exampleFused)
    by (repeat constructor).
  split; [exact H1|]. split; [exact H2|]. split; [exact H3|].
  split; [exact H4|].
  apply (smoothed_ascending 2 exampleFused 1 500 H1 H2 H3); [|exact H4].
  repeat constructor.
  - exists 200. split; [lia|vm_compute; reflexivity].
  - exists 500. split; [lia|vm_compute; reflexivity].
Defined.
